(* ===== verification/_CoqProject ===== *)
-Q . S2P
Prelude.v
MemoryH.v
ListH.v
Mem.v
StringC.v
Memblock.v
MemblockRemove.v
MemblockWalk.v
PageAlloc.v
PageAllocProof.v
PageAllocSpec.v
Slab.v
SlabProof.v
SlabFree.v
SlabSpec.v
Vsprintf.v
VsprintfProof.v
VsprintfNumber.v
VsprintfSpec.v
Mmu.v
MmuProof.v
MmuSpec.v
MmuMem.v
Uart.v
Layout.v
Head.v
Printk.v
Kernel.v
Timer.v
Task.v
TaskProof.v
TaskSpec.v
TaskStart.v
Vectors.v
VectorsSpec.v
MemInit.v
MemInitProof.v
MemInitSpec.v
PrimeCount.v
Apps.v
AppsSpec.v
System.v
SystemSpec.v
Machine.v
Isolation.v
Whole.v
Reset.v
