(* ===== verification/Prelude.v ===== *)
(** * miaow-os: a verification development

    miaow-os is a small AArch64 kernel in C that boots on one core, manages
    the RAM it finds, and runs three applications at EL0 under a round-robin
    scheduler.  This library models all of its C and assembly code and its
    linker scripts, and proves what makes it correct.  The source names are
    kept; paths below are relative to [src/].

    ** The program and its files

    - [Prelude.v]: machine integers with their wrap-around ([u8], [u32],
      [u64], [swrap]), the failure notations, [iter] with its total
      correctness rule [iter_rule], shared tactics and the hint database
      [miaow].  [MemoryH.v]: the constants of [include/miaow/memory.h] and
      [include/abi.h], the linear map, the linker symbols ([image]).
    - [ListH.v] ([include/miaow/list.h]): circular lists in a heap of nodes,
      and the interface the allocators use: [Class ListStore] (the
      operations) and [Class ListStoreLaws] (what they do to mathematical
      lists), with the linked heap as the instance.
    - [Mem.v], [StringC.v] ([lib/string.c]): byte memory, and the memory
      primitives with their 64-bit accesses at any alignment.
    - [Memblock.v], [MemblockRemove.v], [MemblockWalk.v] ([mm/memblock.c],
      [include/miaow/memblock.h]): the early memory map.  The fixed arrays of
      regions, adding and removing ranges, the walk over free memory and the
      early allocation.
    - [PageAlloc.v], [PageAllocProof.v], [PageAllocSpec.v]
      ([mm/page_alloc.c], [include/miaow/mm.h]): the buddy allocator over
      page descriptors and free lists.
    - [Slab.v], [SlabProof.v], [SlabFree.v], [SlabSpec.v] ([mm/slab.c],
      [include/miaow/slab.h]): the kernel heap, with the free objects linked
      through byte memory, on top of the page allocator.
    - [Vsprintf.v], [VsprintfProof.v], [VsprintfNumber.v], [VsprintfSpec.v]
      ([lib/vsprintf.c]): formatted output and number parsing.
    - [Mmu.v], [MmuProof.v], [MmuSpec.v] ([mm/mmu.c]): the page tables as
      words at physical addresses, and a walk of them as the hardware does
      it.  [MmuMem.v]: the same words read from the bytes of memory and
      written back.
    - [Uart.v] ([kernel/uart.c]), [Printk.v] ([lib/printk.c]): the serial
      port and kernel messages, down to the bytes that are sent.
    - [Kernel.v] ([kernel/kernel.h], [kernel/context.h], [kernel_panic] of
      [kernel/main.c]): the state, effects and monad of the kernel core.
      [Timer.v] ([kernel/timer.c]).  [Task.v], [TaskProof.v], [TaskSpec.v],
      [TaskStart.v] ([kernel/task.c], [kernel/task.h]): scheduling, system
      calls, traps, and starting the applications.
    - [MemInit.v], [MemInitProof.v], [MemInitSpec.v] ([mm/init.c],
      [kernel/main.c]): bringing up memory and the boot, which compose the
      components above on one state.
    - [Layout.v] ([kernel/linker.ld.S], [kernel/payloads.S],
      [apps/linker.ld.S]): the linker scripts as functions from the input
      sections to the symbols, or [None] where an assertion fails.
    - [Head.v] ([kernel/boot.S]): the code before [mmu_init].  [Vectors.v],
      [VectorsSpec.v] ([kernel/vectors.S], [kernel/context.h]): exception
      entry and return, instruction by instruction, around [trap].
    - [Apps.v], [AppsSpec.v] ([apps/]): the three applications.
      [PrimeCount.v]: how many primes there are up to 100000.
    - [System.v], [SystemSpec.v]: the applications under the kernel.  An
      application is the list of its system calls, ended by its exit or a
      fault; a system is the kernel with what is left of the three lists, and
      its steps are the exceptions.  [Machine.v]: the same steps with the
      instructions of [Vectors.v].  [Isolation.v]: the same runs with the
      stores of the applications made through the page tables of [Mmu.v].
      [Whole.v]: the composition of [start_kernel],
      the programs of [Apps.v] and [apps/start.S], and such runs.
    - [Reset.v] ([kernel/boot.S]): the whole boot, [_start], as a function of
      physical memory with the image loaded, and its composition with
      everything above.

    The parts interact as in the code.  [_start] is [start_code] of [Head.v],
    then [mmu_init] on the words of its arrays in the cleared [.bss], the
    switch to the linked addresses, [cpu_uninstall_idmap], and [start_kernel]
    on memory as the linear map shows it, with the symbols [link_kernel]
    assigns.  The page allocator and the heap share
    the page descriptors and so one list store, which they use only through
    [ListStore].  [kmalloc] and [kfree] call [alloc_pages] and [__free_pages].
    [mem_init] reserves ranges in the early map, places the page descriptors
    with [memblock_phys_alloc], hands the ranges of [memblock_next_free] to
    [__free_memory_core] and initializes the heap.  [start_kernel] is
    [mem_init] followed by [start_apps], which ends in the state the trap path
    ([trap], [schedule], [timer_interrupt], [sys_log]) keeps for ever.  An
    application enters that path through [kernel_entry], which stores the
    frame [trap] reads, and leaves it through [enter_app], which restores the
    frame that [trap] chose.

    ** How the code is modelled

    A function is a Rocq function of the state it touches.  [None] is
    undefined behaviour or a violated precondition (a NULL dereference, an
    index outside an array, an overflow of a signed integer, a division by
    zero), so a theorem that ends in [Some] also says that none of these
    happens.  Error codes, NULL results and panics are ordinary values: C's
    [-1], [option] for a pointer into an array, [Panicked] and [Idle] for the
    two ways the kernel stops.  A loop is [iter] of its body with fuel.  No
    theorem depends on the fuel running out: each loop is proved with
    [iter_rule] from an invariant and a measure below the fuel, so the result
    exists.  The fuels are 64 for loops over the 16 regions of the early map
    ([region_fuel]), 16 for loops over the 11 orders ([order_fuel]), 300 for
    the at most 256 objects of a slab ([carve_fuel]), and the number of
    bytes, pages or iterations for the others ([rounds]).

    Memory is a finite map from addresses to bytes, read and written where
    the code does.  Page descriptors are records indexed by frame, so the
    bytes of [mem_map] are not modelled, only the range they occupy; the
    [lru] member lives in the list store.  Page tables are 64-bit words at
    physical addresses.  Device registers are lists of the values that reads
    will return and a trace of the writes.  System registers the code only
    reads are a record ([cpu]).  Messages are in the trace as the call of
    [printk]; [Printk.v] and [VsprintfSpec.v] say which bytes a call sends.
    Such a call always succeeds in the trace; the one message of the kernel
    core whose text can be undefined is the status of an [exit] with the
    smallest [long], which [%ld] negates.
    Barriers, TLB maintenance and cache maintenance have no effect in these
    models.  A user address is the physical address of the slot it is in, as
    the page tables of [MmuSpec.v] map it, and the kernel's accesses to it
    are made at its linear address.

    ** What the theorems show

    - Lists: any legal sequence of calls has the effect it has on
      mathematical lists; the iterator visits every entry once.
    - Memory primitives: [memset], [memcpy], [memmove] for every overlap, and
      [memcmp].
    - Early map: adding and removing ranges is exact on the set of covered
      addresses or fails and changes nothing, except for a first range that
      reaches past the top of the address space, which is stored as given;
      the walk reports exactly the memory not reserved; an allocation is the
      lowest that fits.
    - Page allocator: [alloc_pages] and [__free_pages] are total and exact on
      the set of free frames; any sequence of requests conserves
      frames and leaves the free lists a function of the frames free
      (buddies always coalesce).
    - Heap: [kmalloc], [kzalloc] and [kfree] refine a map from addresses to
      independent byte arrays; when everything is freed no page is lost.
    - Formatted output: [vsnprintf] writes the truncated reference text and
      nothing outside its buffer; the reference text of a number is spelled
      out; printing and parsing are inverse.
    - Page tables: the tables translate every 64-bit address as documented,
      before and after the identity map is removed; nothing is both writable
      and executable, and EL0 reaches only the slots; the static pool of
      tables is used exactly.
    - Messages and serial port: every byte of the time stamp and the text is
      sent when the port has room.
    - Traps: every trap has an outcome and keeps the invariant; registers of
      all applications are preserved; the timer preempts in round-robin
      order; [exit] and faults stop exactly the caller; [log] checks its
      buffer; over any run every runnable application gets its turn and a
      stopped one stays stopped.
    - Boot: [timer_init] makes exactly its register accesses; [start_apps]
      loads the images; [mem_init] gives the allocators exactly the frames
      that hold nothing else, or panics exactly when the descriptors fit
      nowhere; [start_kernel] ends with all invariants established.
    - Applications: [log_value] stays in its arrays; the programs end with
      the results they expect, so all three exit with 0.
    - Assembly: the entry saves and the return restores exactly the registers
      of an application, so preemption cannot be noticed.
    - Layout: a kernel that links has its symbols, sections and stack where
      the code needs them, and an application that links runs at its slot.
    - System: in every run, whatever the interrupts and the applications do,
      the console shows exactly the actions of the three programs, each in
      its order; the kernel does not panic; it idles exactly when all have
      ended, and from every state they can.  The same at the level of the
      entry and return instructions, by a simulation.  Nothing an
      application stores changes the kernel's memory or an image.
    - Reset: from the first instruction of [boot.S] to application 0, with
      the page tables in memory translating as documented, and from there to
      [ALL APPS DONE], with exit status 0 for all three applications, the
      image, the page tables and the heap kept in every run.

    ** Not modelled

    - The bytes of the C variables that are records here: [zero_statics] of
      [Reset.v] says what the cleared [.bss] means for them.  The page tables,
      their counter and the device tree pointer are bytes of [.bss].
    - What the compiler makes of the C code: the sizes and alignments of its
      sections and the places of its objects in them are parameters, with
      what an object file guarantees in [compiled].  So are the binaries of
      the applications that [kernel/payloads.S] includes.
    - What a machine instruction of an application does: between two
      exceptions an application may change its registers and memory in any way
      ([System.v]), or memory by any stores ([Isolation.v]), and the programs
      of [Whole.v] are tied to the C code by the calls they make.
    - The frames of the C functions on the kernel stack.  [Vectors.v] has the
      frame that the assembly code stores there and the part of the task table
      that it reads.
    - Of the linker scripts, the segments and the discarded and debug
      sections, which take no part in a raw image.
    - The hardware outside of what the records above say: caches, the GIC's
      internal state, the order of memory accesses seen by other observers.
    - Tests, fixtures, build files and tools. *)

From Stdlib Require Export ZArith Lia.
From stdpp Require Export base tactics option numbers list_numbers gmap list.

#[global] Open Scope Z_scope.

(** List lengths and positions are used as integers without ceremony. *)
Coercion Z.of_nat : nat >-> Z.

(** ** Machine integers

    A C integer is a [Z]; every operation of the source that can leave the
    range of its type is written with the wrap of that type around it. *)

Definition UINTPTR_MAX : Z := 2 ^ 64 - 1.

Definition u64 (z : Z) : Z := z mod 2 ^ 64.

Definition u32 (z : Z) : Z := z mod 2 ^ 32.

Definition u16 (z : Z) : Z := z mod 2 ^ 16.

Definition u8 (z : Z) : Z := z mod 2 ^ 8.

(** Two's complement reading of the low [w] bits. *)
Definition swrap (w : Z) (z : Z) : Z :=
  (z + 2 ^ (w - 1)) mod 2 ^ w - 2 ^ (w - 1).

Definition is_u64 (z : Z) : Prop := 0 <= z < 2 ^ 64.

Definition is_u32 (z : Z) : Prop := 0 <= z < 2 ^ 32.

Definition is_byte (z : Z) : Prop := 0 <= z < 256.

(** ** Partial results

    [None] is "the C program has no defined behaviour here": a load or store
    outside the objects the model knows, a NULL dereference, a signed
    overflow.  Every operation of the development returns an [option], and
    the theorems show that it is [Some]. *)

Declare Scope miaow_scope.
Delimit Scope miaow_scope with miaow.
#[global] Open Scope miaow_scope.

Notation "'let*' x := m 'in' k" := (mbind (M := option) (fun x => k) m)
  (at level 10, x name, m at level 200, k at level 200, only parsing) : miaow_scope.
Notation "'let*' ' p := m 'in' k" := (mbind (M := option) (fun p => k) m)
  (at level 10, p strict pattern, m at level 200, k at level 200, only parsing) : miaow_scope.
Notation "'assert*' b 'in' k" := (if b then k else None)
  (at level 10, b at level 200, k at level 200, only parsing) : miaow_scope.

(** ** Loops

    [iter fuel body s] runs [body] until it leaves the loop with [inr r].
    [inl s'] is "go round again", so [continue], [break] and [return] are
    all expressible.  Running out of fuel is [None]; [iter_rule] is the total
    correctness rule, so no theorem depends on the fuel being short. *)
Fixpoint iter {S R : Type} (fuel : nat) (body : S -> option (S + R)) (s : S) : option R :=
  match fuel with
  | O => None
  | Datatypes.S n =>
      match body s with
      | Some (inl s') => iter n body s'
      | Some (inr r) => Some r
      | None => None
      end
  end.

Lemma iter_rule {S R : Type} (I : S -> Prop) (Q : R -> Prop) (measure : S -> nat)
    (body : S -> option (S + R)) :
  (forall s, I s ->
     (exists s', body s = Some (inl s') /\ I s' /\ (measure s' < measure s)%nat) \/
     (exists r, body s = Some (inr r) /\ Q r)) ->
  forall fuel s, I s -> (measure s < fuel)%nat ->
  exists r, iter fuel body s = Some r /\ Q r.
Proof.
  intros Hbody fuel. induction fuel as [|n IH]; intros s HI Hm; [lia|].
  cbn. destruct (Hbody s HI) as [(s' & -> & HI' & Hlt) | (r & -> & HQ)]; eauto.
  apply IH; [done | lia].
Qed.

(** The same rule with a measure that is not a function of the state. *)
Lemma iter_rule_ghost {S R : Type} (I : nat -> S -> Prop) (Q : R -> Prop)
    (body : S -> option (S + R)) :
  (forall n s, I n s ->
     (exists n' s', body s = Some (inl s') /\ I n' s' /\ (n' < n)%nat) \/
     (exists r, body s = Some (inr r) /\ Q r)) ->
  forall fuel n s, I n s -> (n < fuel)%nat ->
  exists r, iter fuel body s = Some r /\ Q r.
Proof.
  intros Hbody fuel. induction fuel as [|f IH]; intros n s HI Hm; [lia|].
  cbn. destruct (Hbody n s HI) as [(n' & s' & -> & HI' & Hlt) | (r & -> & HQ)]; eauto.
  apply (IH n'); [done | lia].
Qed.

(** Unfolding steps, used when a loop is followed one iteration at a time. *)
Lemma iter_inl {S R : Type} n (body : S -> option (S + R)) s s' :
  body s = Some (inl s') -> iter (Datatypes.S n) body s = iter n body s'.
Proof. intros H. cbn. by rewrite H. Qed.

Lemma iter_inr {S R : Type} n (body : S -> option (S + R)) s r :
  body s = Some (inr r) -> iter (Datatypes.S n) body s = Some r.
Proof. intros H. cbn. by rewrite H. Qed.

Lemma iter_mono {S R : Type} n m (body : S -> option (S + R)) s r :
  (n <= m)%nat -> iter n body s = Some r -> iter m body s = Some r.
Proof.
  revert m s. induction n as [|n IH]; intros m s Hle; [done|].
  destruct m as [|m]; [lia|]. cbn.
  destruct (body s) as [[s'|r']|]; try done. apply IH. lia.
Qed.

(** ** Tactics *)

(** Takes every boolean test of the context and goal to the proposition it
    decides, so that [lia] sees it. *)
Ltac bool_prop :=
  repeat match goal with
  | H : (_ <? _) = true |- _ => apply Z.ltb_lt in H
  | H : (_ <? _) = false |- _ => apply Z.ltb_ge in H
  | H : (_ <=? _) = true |- _ => apply Z.leb_le in H
  | H : (_ <=? _) = false |- _ => apply Z.leb_gt in H
  | H : (_ =? _) = true |- _ => apply Z.eqb_eq in H
  | H : (_ =? _) = false |- _ => apply Z.eqb_neq in H
  | H : (_ && _) = true |- _ => apply andb_true_iff in H; destruct H
  | H : (_ || _) = false |- _ => apply orb_false_iff in H; destruct H
  | H : negb _ = true |- _ => apply negb_true_iff in H
  | H : negb _ = false |- _ => apply negb_false_iff in H
  | H : bool_decide _ = true |- _ => apply bool_decide_eq_true in H
  | H : bool_decide _ = false |- _ => apply bool_decide_eq_false in H
  end.

(** Splits on the first integer comparison the goal is stuck on. *)
Ltac case_cmp :=
  match goal with
  | |- context [?a <? ?b] => destruct (Z.ltb_spec a b)
  | |- context [?a <=? ?b] => destruct (Z.leb_spec a b)
  | |- context [?a =? ?b] => destruct (Z.eqb_spec a b)
  end.

(** Same, for a comparison a hypothesis is stuck on. *)
Ltac case_cmp_in H :=
  match type of H with
  | context [?a <? ?b] => destruct (Z.ltb_spec a b)
  | context [?a <=? ?b] => destruct (Z.leb_spec a b)
  | context [?a =? ?b] => destruct (Z.eqb_spec a b)
  end.

(** Evaluates the comparisons of the goal that [lia] can settle. *)
Ltac eval_cmp :=
  repeat match goal with
  | |- context [?a <? ?b] =>
      first [rewrite (proj2 (Z.ltb_lt a b)) by lia | rewrite (proj2 (Z.ltb_ge a b)) by lia]
  | |- context [?a <=? ?b] =>
      first [rewrite (proj2 (Z.leb_le a b)) by lia | rewrite (proj2 (Z.leb_gt a b)) by lia]
  | |- context [?a =? ?b] =>
      first [rewrite (proj2 (Z.eqb_eq a b)) by lia | rewrite (proj2 (Z.eqb_neq a b)) by lia]
  end; cbn [andb orb negb].

(** Arithmetic on the lengths of concatenated lists. *)
Ltac len :=
  repeat (progress (cbn [length] in *; rewrite ?length_app, ?length_replicate, ?length_fmap in *));
  lia.

Create HintDb miaow.
Create Rewrite HintDb miaow.

(** ** Wrap-around lemmas *)

Lemma u64_id z : is_u64 z -> u64 z = z.
Proof. unfold u64, is_u64. intros. by apply Z.mod_small. Qed.

Lemma u32_id z : is_u32 z -> u32 z = z.
Proof. unfold u32, is_u32. intros. by apply Z.mod_small. Qed.

Lemma u64_range z : is_u64 (u64 z).
Proof. unfold u64, is_u64. apply Z.mod_pos_bound. lia. Qed.

Lemma u32_range z : is_u32 (u32 z).
Proof. unfold u32, is_u32. apply Z.mod_pos_bound. lia. Qed.

#[export] Hint Resolve u64_range u32_range : miaow.

(** Removes a wrap whose argument [lia] shows to be in range. *)
Ltac unwrap :=
  repeat match goal with
  | |- context [u64 ?e] => rewrite (u64_id e) by (unfold is_u64 in *; lia)
  | |- context [u32 ?e] => rewrite (u32_id e) by (unfold is_u32 in *; lia)
  end.

Ltac unwrap_in H :=
  repeat match type of H with
  | context [u64 ?e] => rewrite (u64_id e) in H by (unfold is_u64 in *; lia)
  | context [u32 ?e] => rewrite (u32_id e) in H by (unfold is_u32 in *; lia)
  end.

(** ** Alignment

    [z & ~(2^k - 1)] on 64-bit words rounds down to a multiple of [2^k]. *)

Lemma land_lnot_mask z k :
  is_u64 z -> 0 <= k <= 64 -> Z.land z (u64 (Z.lnot (2 ^ k - 1))) = 2 ^ k * (z / 2 ^ k).
Proof.
  unfold is_u64, u64. intros Hz Hk.
  replace (2 ^ k - 1) with (Z.ones k) by (rewrite Z.ones_equiv; lia).
  rewrite <- Z.shiftr_div_pow2, Z.mul_comm, <- Z.shiftl_mul_pow2 by lia.
  apply Z.bits_inj'. intros i Hi. rewrite Z.land_spec, Z.shiftl_spec by lia.
  destruct (decide (i < 64)) as [Hlt|Hge].
  - rewrite Z.mod_pow2_bits_low, Z.lnot_spec by lia.
    destruct (decide (i < k)) as [Hik|Hik].
    + rewrite Z.ones_spec_low by lia. rewrite (Z.testbit_neg_r _ (i - k)) by lia. by rewrite andb_false_r.
    + rewrite Z.ones_spec_high, Z.shiftr_spec by lia. rewrite andb_true_r. f_equal. lia.
  - rewrite Z.mod_pow2_bits_high by lia. rewrite andb_false_r. symmetry.
    destruct (decide (i < k)); [apply Z.testbit_neg_r; lia|]. rewrite Z.shiftr_spec by lia.
    replace (i - k + k) with i by lia. destruct (decide (z = 0)) as [->|]; [apply Z.testbit_0_l|].
    apply Z.bits_above_log2; [lia|]. apply Z.log2_lt_pow2; [lia|].
    apply Z.lt_le_trans with (2 ^ 64); [lia|]. apply Z.pow_le_mono_r; lia.
Qed.

(** Rounding up by adding [2^k - 1] first gives the least multiple at or
    above [z]. *)
Lemma round_up_least z k c :
  0 <= k -> z <= c -> (2 ^ k | c) -> 2 ^ k * ((z + 2 ^ k - 1) / 2 ^ k) <= c.
Proof.
  intros Hk Hz [q ->]. assert (0 < 2 ^ k) by (apply Z.pow_pos_nonneg; lia).
  rewrite (Z.mul_comm q). apply Z.mul_le_mono_nonneg_l; [lia|].
  apply Z.lt_succ_r, Z.div_lt_upper_bound; lia.
Qed.

Lemma round_up_ge z k : 0 <= k -> z <= 2 ^ k * ((z + 2 ^ k - 1) / 2 ^ k) < z + 2 ^ k.
Proof.
  intros Hk. assert (0 < 2 ^ k) by (apply Z.pow_pos_nonneg; lia).
  pose proof (Z.div_mod (z + 2 ^ k - 1) (2 ^ k) ltac:(lia)).
  pose proof (Z.mod_pos_bound (z + 2 ^ k - 1) (2 ^ k) ltac:(lia)). lia.
Qed.

Lemma seqZ_one a : seqZ a 1 = [a].
Proof. unfold seqZ. cbn. by f_equal. Qed.
