(* ===== verification/MemoryH.v ===== *)
(** * The memory layout ([include/miaow/memory.h], [include/abi.h])

    The constants every component shares: page size, RAM, the linear map, the
    application slots, and the symbols the linker script places. *)

From S2P Require Import Prelude.

Definition PAGE_SHIFT : Z := 12.
Definition PAGE_SIZE : Z := Z.shiftl 1 PAGE_SHIFT.
Definition PHYS_OFFSET : Z := 0x40000000.
Definition RAM_SIZE : Z := 0x08000000.
Definition PAGE_OFFSET : Z := 0xffffffc000000000.
Definition IO_OFFSET : Z := 0xffffff8000000000.
Definition TEXT_OFFSET : Z := 0x80000.

Definition __pa (address : Z) : Z := u64 (u64 (address - PAGE_OFFSET) + PHYS_OFFSET).
Definition __va (address : Z) : Z := u64 (u64 (address - PHYS_OFFSET) + PAGE_OFFSET).
Definition IO_ADDRESS (address : Z) : Z := u64 (address + IO_OFFSET).

(** [abi.h] *)
Definition __NR_log : Z := 0.
Definition __NR_exit : Z := 1.
Definition EFAULT : Z := 14.
Definition EINVAL : Z := 22.
Definition ENOSYS : Z := 38.
Definition LOG_LIMIT : Z := 256.
Definition APP_FIRST : Z := 0x41000000.
Definition APP_SLOT_SIZE : Z := 0x20000.
Definition APP_IMAGE_SIZE : Z := 0x10000.
Definition APP_STACK_SIZE : Z := 0x4000.
Definition APP_COUNT : Z := 3.

(** The physical addresses of the symbols of [linker.ld.S] that the C code
    uses. *)
Record image := Image {
  _text : Z;
  _etext : Z;
  __start_rodata : Z;
  __end_rodata : Z;
  _end : Z;
}.

(** What [linker.ld.S] guarantees of them: the load address of the text, the
    order of the sections, the page alignment of the segment boundaries, and
    the assertion that the kernel ends below the application slots. *)
Record image_ok (k : image) : Prop := {
  image_text : _text k = PHYS_OFFSET + TEXT_OFFSET;
  image_order : _text k <= _etext k <= __start_rodata k /\
    __start_rodata k <= __end_rodata k <= _end k /\ _end k <= APP_FIRST;
  image_aligned : (PAGE_SIZE | _etext k) /\ (PAGE_SIZE | __start_rodata k) /\ (PAGE_SIZE | __end_rodata k);
}.

(** ** The linear map *)

Lemma va_of_ram a : PHYS_OFFSET <= a < PHYS_OFFSET + RAM_SIZE -> __va a = a - PHYS_OFFSET + PAGE_OFFSET.
Proof. unfold __va, PHYS_OFFSET, RAM_SIZE, PAGE_OFFSET. intros. unwrap. lia. Qed.

Lemma pa_va a : is_u64 a -> __pa (__va a) = a.
Proof.
  intros Ha. unfold __pa, __va, u64. rewrite Zminus_mod_idemp_l, Zplus_mod_idemp_l.
  replace ((a - PHYS_OFFSET) mod 2 ^ 64 + PAGE_OFFSET - PAGE_OFFSET + PHYS_OFFSET)
    with ((a - PHYS_OFFSET) mod 2 ^ 64 + PHYS_OFFSET) by lia.
  rewrite Zplus_mod_idemp_l. replace (a - PHYS_OFFSET + PHYS_OFFSET) with a by lia. by apply u64_id.
Qed.
