(* ===== verification/ListH.v ===== *)
(** * Intrusive doubly linked lists ([include/miaow/list.h])

    A [struct list_head *] is a node name of an arbitrary countable type [N];
    a field that holds NULL is [None].  The heap [lheap N] maps the node
    names whose storage exists to their two fields, so a dereference of NULL
    or of a node that does not exist is [None].  [Class ListStore] is the
    interface the allocators use, [Class ListStoreLaws] what it promises in
    terms of mathematical lists; the linked heap is the instance. *)

From S2P Require Import Prelude.

(** [struct list_head] *)
Record list_head (N : Type) := ListHead { next : option N; prev : option N }.

Arguments ListHead {N} _ _.
Arguments next {N} _.
Arguments prev {N} _.

Abbreviation lheap N := (gmap N (list_head N)).

Section operations.
Context {N : Type} `{!EqDecision N, !Countable N}.
Implicit Types (h : lheap N) (e p n : N).

(** [p->next = v] and [p->prev = v] *)
Definition set_next p (v : option N) h : option (lheap N) :=
  let* c := h !! p in Some (<[p := ListHead v (prev c)]> h).

Definition set_prev p (v : option N) h : option (lheap N) :=
  let* c := h !! p in Some (<[p := ListHead (next c) v]> h).

Definition INIT_LIST_HEAD (list : N) h : option (lheap N) :=
  let* h := set_next list (Some list) h in
  set_prev list (Some list) h.

Definition __list_add (entry prev next : N) h : option (lheap N) :=
  let* h := set_prev next (Some entry) h in
  let* h := set_next entry (Some next) h in
  let* h := set_prev entry (Some prev) h in
  set_next prev (Some entry) h.

Definition list_add (entry head : N) h : option (lheap N) :=
  let* c := h !! head in
  let* nx := next c in
  __list_add entry head nx h.

Definition list_add_tail (entry head : N) h : option (lheap N) :=
  let* c := h !! head in
  let* pv := prev c in
  __list_add entry pv head h.

Definition list_del (entry : N) h : option (lheap N) :=
  let* c := h !! entry in
  let* pv := prev c in
  let* h := set_next pv (next c) h in
  let* c := h !! entry in
  let* nx := next c in
  let* h := set_prev nx (prev c) h in
  let* h := set_next entry None h in
  set_prev entry None h.

Definition list_empty (head : N) h : option bool :=
  let* c := h !! head in Some (bool_decide (next c = Some head)).

(** [(head)->next], the node [list_first_entry] applies [container_of] to. *)
Definition list_first (head : N) h : option N :=
  let* c := h !! head in next c.

(** [list_for_each_entry]: [f] is the statement run on each node in turn; one
    round tests [&position->member != head] and steps to the next node. *)
Definition for_each_step {A : Type} (f : N -> A -> A) (head : N) h (s : N * A) : option ((N * A) + A) :=
  let '(position, acc) := s in
  if bool_decide (position = head) then Some (inr acc)
  else
    let* c := h !! position in
    let* nx := next c in
    Some (inl (nx, f position acc)).

Definition list_for_each_entry {A : Type} (f : N -> A -> A) (head : N) (acc : A) h : option A :=
  let* first := list_first head h in
  iter (Datatypes.S (size h)) (for_each_step f head h) (first, acc).

(** The storage of one node cleared by [memset]. *)
Definition zero_head (p : N) h : lheap N := <[p := ListHead None None]> h.

End operations.

(** ** The interface *)

Class ListStore (N S : Type) := {
  ls_zero : N -> S -> S;
  ls_init : N -> S -> option S;
  ls_add : N -> N -> S -> option S;
  ls_add_tail : N -> N -> S -> option S;
  ls_del : N -> S -> option S;
  ls_empty : N -> S -> option bool;
  ls_first : N -> S -> option N;
}.

(** [x] is a head or an entry of one of the lists [L]. *)
Definition in_lists {N : Type} `{Countable N} (L : gmap N (list N)) (x : N) : Prop :=
  exists hd l, L !! hd = Some l /\ x ∈ hd :: l.

(** [ls_rep s L]: the store [s] holds, for each head of [L], exactly the list
    [L] gives it, and no node is in two places.  [ls_valid s x]: the storage
    of node [x] exists. *)
Class ListStoreLaws (N S : Type) `{Countable N} `{!ListStore N S} := {
  ls_rep : S -> gmap N (list N) -> Prop;
  ls_valid : S -> N -> Prop;
  ls_zero_spec s L x :
    ls_rep s L -> ~ in_lists L x ->
    ls_rep (ls_zero x s) L /\ (forall y, ls_valid (ls_zero x s) y <-> y = x \/ ls_valid s y);
  ls_init_spec s L hd :
    ls_rep s L -> ~ in_lists (delete hd L) hd -> ls_valid s hd ->
    (forall l, L !! hd = Some l -> l = []) ->
    exists s', ls_init hd s = Some s' /\ ls_rep s' (<[hd := []]> L) /\
      (forall y, ls_valid s' y <-> ls_valid s y);
  ls_add_spec s L hd l e :
    ls_rep s L -> L !! hd = Some l -> ~ in_lists L e -> ls_valid s e ->
    exists s', ls_add e hd s = Some s' /\ ls_rep s' (<[hd := e :: l]> L) /\
      (forall y, ls_valid s' y <-> ls_valid s y);
  ls_add_tail_spec s L hd l e :
    ls_rep s L -> L !! hd = Some l -> ~ in_lists L e -> ls_valid s e ->
    exists s', ls_add_tail e hd s = Some s' /\ ls_rep s' (<[hd := l ++ [e]]> L) /\
      (forall y, ls_valid s' y <-> ls_valid s y);
  ls_del_spec s L hd l1 e l2 :
    ls_rep s L -> L !! hd = Some (l1 ++ e :: l2) ->
    exists s', ls_del e s = Some s' /\ ls_rep s' (<[hd := l1 ++ l2]> L) /\
      (forall y, ls_valid s' y <-> ls_valid s y);
  ls_empty_spec s L hd l :
    ls_rep s L -> L !! hd = Some l -> ls_empty hd s = Some (bool_decide (l = []));
  ls_first_spec s L hd x l :
    ls_rep s L -> L !! hd = Some (x :: l) -> ls_first hd s = Some x;
  ls_rep_NoDup s L hd l :
    ls_rep s L -> L !! hd = Some l -> NoDup (hd :: l);
  ls_rep_disj s L hd1 l1 hd2 l2 :
    ls_rep s L -> L !! hd1 = Some l1 -> L !! hd2 = Some l2 -> hd1 <> hd2 ->
    hd1 :: l1 ## hd2 :: l2;
}.

(** ** Linked heaps as mathematical lists *)

Section correctness.
Context {N : Type} `{!EqDecision N, !Countable N}.
Implicit Types (h : lheap N) (L : gmap N (list N)) (a b e p x z : N) (l : list N).

Definition nx_of h x : option (option N) := next <$> h !! x.
Definition pv_of h x : option (option N) := prev <$> h !! x.

Definition link h a b : Prop := nx_of h a = Some (Some b) /\ pv_of h b = Some (Some a).

(** [chain h a l z]: following [next] from [a] runs through [l] to [z], and
    following [prev] from [z] runs back. *)
Fixpoint chain h a l z : Prop :=
  match l with
  | [] => link h a z
  | b :: l => link h a b /\ chain h b l z
  end.

Definition ring h hd l : Prop := NoDup (hd :: l) /\ chain h hd l hd.

(** The whole heap holds the lists [L], in disjoint nodes. *)
Record lrep h L : Prop := {
  lrep_ring hd l : L !! hd = Some l -> ring h hd l;
  lrep_disj hd1 l1 hd2 l2 :
    L !! hd1 = Some l1 -> L !! hd2 = Some l2 -> hd1 <> hd2 -> hd1 :: l1 ## hd2 :: l2;
}.

(** Reads after one field write. *)
Lemma set_next_spec p v h :
  is_Some (h !! p) ->
  exists h', set_next p v h = Some h' /\
    (forall x, nx_of h' x = if decide (x = p) then Some v else nx_of h x) /\
    (forall x, pv_of h' x = pv_of h x) /\ dom h' = dom h.
Proof.
  intros [c Hc]. unfold set_next. rewrite Hc. cbn. eexists. split; [done|].
  unfold nx_of, pv_of. repeat split.
  - intros x. rewrite lookup_insert. repeat case_decide; naive_solver.
  - intros x. rewrite lookup_insert. case_decide; [|done]. subst. by rewrite Hc.
  - apply dom_insert_lookup_L. eauto.
Qed.

Lemma set_prev_spec p v h :
  is_Some (h !! p) ->
  exists h', set_prev p v h = Some h' /\
    (forall x, pv_of h' x = if decide (x = p) then Some v else pv_of h x) /\
    (forall x, nx_of h' x = nx_of h x) /\ dom h' = dom h.
Proof.
  intros [c Hc]. unfold set_prev. rewrite Hc. cbn. eexists. split; [done|].
  unfold nx_of, pv_of. repeat split.
  - intros x. rewrite lookup_insert. repeat case_decide; naive_solver.
  - intros x. rewrite lookup_insert. case_decide; [|done]. subst. by rewrite Hc.
  - apply dom_insert_lookup_L. eauto.
Qed.

Lemma nx_of_is_Some h x v : nx_of h x = Some v -> is_Some (h !! x).
Proof. unfold nx_of. destruct (h !! x); naive_solver. Qed.

Lemma pv_of_is_Some h x v : pv_of h x = Some v -> is_Some (h !! x).
Proof. unfold pv_of. destruct (h !! x); naive_solver. Qed.

Lemma dom_eq_is_Some h h' x : dom h' = dom h -> is_Some (h' !! x) <-> is_Some (h !! x).
Proof. intros Hd. rewrite <- !elem_of_dom. by rewrite Hd. Qed.

Lemma fields_eq h x v w :
  nx_of h x = Some v -> pv_of h x = Some w -> h !! x = Some (ListHead v w).
Proof. unfold nx_of, pv_of. destruct (h !! x) as [[]|]; cbn; congruence. Qed.

(** Steps over one field write whose node is known to exist. *)
Ltac write_field lem p :=
  let h' := fresh "h" in let E := fresh "E" in
  match goal with
  | |- context [mbind _ (?op p ?v ?h)] =>
      destruct (lem p v h) as (h' & E & ? & ? & ?);
      [|rewrite E; cbn [mbind option_bind]]
  | |- context [?op p ?v ?h] =>
      destruct (lem p v h) as (h' & E & ? & ? & ?);
      [|rewrite E; cbn [mbind option_bind]]
  end.

(** What [__list_add] does to the heap, whatever list the nodes belong to. *)
Lemma __list_add_heap e p n h :
  is_Some (h !! e) -> is_Some (h !! p) -> is_Some (h !! n) -> e <> p -> e <> n ->
  exists h', __list_add e p n h = Some h' /\ link h' p e /\ link h' e n /\
    (forall x, x <> p -> x <> e -> nx_of h' x = nx_of h x) /\
    (forall x, x <> n -> x <> e -> pv_of h' x = pv_of h x) /\ dom h' = dom h.
Proof.
  intros He Hp Hn Hep Hen. unfold __list_add.
  write_field set_prev_spec n; [done|].
  write_field set_next_spec e; [by apply (dom_eq_is_Some h)|].
  write_field set_prev_spec e; [by apply (dom_eq_is_Some h); [congruence|]|].
  write_field set_next_spec p; [by apply (dom_eq_is_Some h); [congruence|]|].
  eexists. split; [done|]. unfold link.
  repeat match goal with
  | |- _ /\ _ => split
  | |- forall _, _ => intros
  | |- dom _ = _ => congruence
  | H : forall x, nx_of ?h x = _ |- nx_of ?h _ = _ => rewrite H
  | H : forall x, pv_of ?h x = _ |- pv_of ?h _ = _ => rewrite H
  | |- context [decide ?P] => destruct (decide P); simplify_eq
  end; try done.
Qed.

Lemma list_del_heap e p n h :
  link h p e -> link h e n -> e <> p -> e <> n ->
  exists h', list_del e h = Some h' /\ link h' p n /\
    (forall x, x <> p -> x <> e -> nx_of h' x = nx_of h x) /\
    (forall x, x <> n -> x <> e -> pv_of h' x = pv_of h x) /\ dom h' = dom h.
Proof.
  intros [Hpe Hep'] [Hen Hne] Hep He. unfold list_del.
  rewrite (fields_eq h e (Some n) (Some p)) by done. cbn.
  write_field set_next_spec p; [by eapply nx_of_is_Some|].
  rewrite (fields_eq h0 e (Some n) (Some p)); [cbn| |].
  2:{ rewrite H. by rewrite decide_False. }
  2:{ by rewrite H0. }
  write_field set_prev_spec n; [apply (dom_eq_is_Some h); [done|by eapply pv_of_is_Some]|].
  write_field set_next_spec e; [apply (dom_eq_is_Some h); [congruence|by eapply nx_of_is_Some]|].
  write_field set_prev_spec e; [apply (dom_eq_is_Some h); [congruence|by eapply nx_of_is_Some]|].
  eexists. split; [done|]. unfold link.
  repeat match goal with
  | |- _ /\ _ => split
  | |- forall _, _ => intros
  | |- dom _ = _ => congruence
  | H : forall x, nx_of ?h x = _ |- nx_of ?h _ = _ => rewrite H
  | H : forall x, pv_of ?h x = _ |- pv_of ?h _ = _ => rewrite H
  | |- context [decide ?P] => destruct (decide P); simplify_eq
  end; try done.
Qed.

(** *** Chains *)

Lemma chain_app h a l1 b l2 z :
  chain h a (l1 ++ b :: l2) z <-> chain h a l1 b /\ chain h b l2 z.
Proof. revert a. induction l1 as [|c l1 IH]; intros a; cbn; [done|]. rewrite IH. tauto. Qed.

(** A chain survives changes of the [next] field of [p], the [prev] field of
    [n] and both fields of [e] when these are outside it. *)
Lemma chain_frame h h' p n e a l z :
  (forall x, x <> p -> x <> e -> nx_of h' x = nx_of h x) ->
  (forall x, x <> n -> x <> e -> pv_of h' x = pv_of h x) ->
  p ∉ a :: l -> n ∉ l ++ [z] -> e ∉ a :: l ++ [z] ->
  chain h a l z -> chain h' a l z.
Proof.
  intros Hnx Hpv. revert a.
  induction l as [|b l IH]; intros a Hp Hn He; cbn in *; unfold link.
  - rewrite Hnx, Hpv; [done|clear -Hn|clear -He|clear -Hp|clear -He]; set_solver.
  - rewrite Hnx, Hpv; [|clear -Hn|clear -He|clear -Hp|clear -He]; [|set_solver..].
    intros [? ?]. split; [done|]. apply IH; [clear -Hp|clear -Hn|clear -He|done]; set_solver.
Qed.

Lemma chain_eq h h' a l z :
  (forall x, x ∈ a :: l ++ [z] -> nx_of h' x = nx_of h x /\ pv_of h' x = pv_of h x) ->
  chain h a l z -> chain h' a l z.
Proof.
  revert a. induction l as [|b l IH]; intros a Hx; cbn; unfold link.
  - destruct (Hx a) as [-> _]; [constructor|].
    destruct (Hx z) as [_ ->]; [by repeat constructor|]. done.
  - destruct (Hx a) as [-> _]; [constructor|].
    destruct (Hx b) as [_ ->]; [by repeat constructor|].
    intros [? ?]. split; [done|]. apply IH; [|done]. intros x ?. apply Hx. by constructor.
Qed.

(** The successor of [a] and the predecessor of [z] in a chain. *)
Lemma chain_first h a l z :
  chain h a l z -> exists n, list.head (l ++ [z]) = Some n /\ link h a n.
Proof. destruct l as [|b l]; cbn; [eauto|]. intros [? ?]. eauto. Qed.

Lemma chain_last h a l z :
  chain h a l z -> exists p, list.last (a :: l) = Some p /\ link h p z.
Proof.
  destruct l as [|b l] using rev_ind; cbn; [eauto|].
  rewrite chain_app. cbn. intros [_ ?]. exists b. split; [|done].
  by rewrite app_comm_cons, last_snoc.
Qed.

(** Duplicate-freeness of a list with a marked entry, as separate facts. *)
Ltac nodup :=
  repeat match goal with
  | H : NoDup (_ :: _) |- _ => apply NoDup_cons in H as [? ?]
  | H : NoDup (_ ++ _) |- _ => apply NoDup_app in H as (? & ? & ?)
  end.

(** Membership goals, from membership facts only. *)
Ltac mem :=
  repeat match goal with
  | H : context [nx_of] |- _ => clear H
  | H : context [pv_of] |- _ => clear H
  | H : context [chain] |- _ => clear H
  | H : context [link] |- _ => clear H
  end; set_solver.

Lemma ring_del h hd l1 e l2 :
  ring h hd (l1 ++ e :: l2) ->
  exists h', list_del e h = Some h' /\ ring h' hd (l1 ++ l2) /\ dom h' = dom h /\
    (forall x, x ∉ hd :: l1 ++ e :: l2 -> nx_of h' x = nx_of h x /\ pv_of h' x = pv_of h x).
Proof.
  intros [Hnd Hc]. apply chain_app in Hc as [Hc1 Hc2].
  destruct (chain_last _ _ _ _ Hc1) as (p & Hp & Hpe).
  destruct (chain_first _ _ _ _ Hc2) as (n & Hn & Hen).
  assert (Hpin : p ∈ hd :: l1) by (eapply last_Some_elem_of; eauto).
  assert (Hnin : n ∈ l2 ++ [hd]) by (eapply head_Some_elem_of; eauto).
  pose proof Hnd as Hnd'. nodup.
  destruct (list_del_heap e p n h) as (h' & -> & Hpn & Hnx & Hpv & Hdom); [done|done|mem|mem|].
  exists h'. split; [done|]. split; [|split; [done|]].
  2:{ intros x Hx. split; [apply Hnx|apply Hpv]; mem. }
  split; [apply NoDup_cons; rewrite NoDup_app; mem|].
  (* the chain from [n] to the head *)
  assert (Hc3 : forall q, link h' q n -> chain h' q l2 hd).
  { intros q Hq. destruct l2 as [|b l2]; cbn in *; simplify_eq; [done|].
    split; [done|]. destruct Hc2 as [_ Hc2]. nodup.
    eapply chain_frame; [exact Hnx|exact Hpv| | | |exact Hc2]; mem. }
  destruct l1 as [|y l1 _] using rev_ind; [cbn in Hp; simplify_eq; by apply Hc3|].
  rewrite app_comm_cons, last_snoc in Hp. simplify_eq.
  apply chain_app in Hc1 as [Hc1 _].
  rewrite <- app_assoc. cbn. apply chain_app. split; [|by apply Hc3].
  nodup. eapply chain_frame; [exact Hnx|exact Hpv| | | |exact Hc1]; mem.
Qed.

Lemma ring_add h hd l e :
  ring h hd l -> e ∉ hd :: l -> is_Some (h !! e) ->
  exists h', list_add e hd h = Some h' /\ ring h' hd (e :: l) /\ dom h' = dom h /\
    (forall x, x ∉ hd :: e :: l -> nx_of h' x = nx_of h x /\ pv_of h' x = pv_of h x).
Proof.
  intros [Hnd Hc] Hin He.
  destruct (chain_first _ _ _ _ Hc) as (n & Hn & [Hhn Hhn']).
  assert (Hnin : n ∈ l ++ [hd]) by (eapply head_Some_elem_of; eauto).
  nodup.
  destruct (__list_add_heap e hd n h) as (h' & E & ? & ? & Hnx & Hpv & Hdom);
    [done|by eapply nx_of_is_Some|by eapply pv_of_is_Some|mem|mem|].
  exists h'. split; [|split; [|split; [done|]]].
  3:{ intros x Hx. split; [apply Hnx|apply Hpv]; mem. }
  - unfold list_add, nx_of in *. destruct (h !! hd) as [c|]; [|done]. cbn in *.
    simplify_eq. by rewrite Hhn.
  - split; [rewrite !NoDup_cons; mem|].
    cbn. split; [done|]. destruct l as [|b l]; cbn in *; simplify_eq; [done|].
    split; [done|]. destruct Hc as [_ Hc]. nodup.
    eapply chain_frame; [exact Hnx|exact Hpv| | | |exact Hc]; mem.
Qed.

Lemma ring_add_tail h hd l e :
  ring h hd l -> e ∉ hd :: l -> is_Some (h !! e) ->
  exists h', list_add_tail e hd h = Some h' /\ ring h' hd (l ++ [e]) /\ dom h' = dom h /\
    (forall x, x ∉ hd :: l ++ [e] -> nx_of h' x = nx_of h x /\ pv_of h' x = pv_of h x).
Proof.
  intros [Hnd Hc] Hin He.
  destruct (chain_last _ _ _ _ Hc) as (p & Hp & [Hph Hph']).
  assert (Hpin : p ∈ hd :: l) by (eapply last_Some_elem_of; eauto).
  nodup.
  destruct (__list_add_heap e p hd h) as (h' & E & ? & ? & Hnx & Hpv & Hdom);
    [done|by eapply nx_of_is_Some|by eapply pv_of_is_Some|mem|mem|].
  exists h'. split; [|split; [|split; [done|]]].
  3:{ intros x Hx. split; [apply Hnx|apply Hpv]; mem. }
  - unfold list_add_tail, pv_of in *. destruct (h !! hd) as [c|]; [|done]. cbn in *.
    simplify_eq. by rewrite Hph'.
  - pose proof (NoDup_singleton e).
    split; [rewrite NoDup_cons, NoDup_app; mem|].
    apply chain_app. split; [|done].
    destruct l as [|y l _] using rev_ind; cbn in *; simplify_eq; [done|].
    rewrite app_comm_cons, last_snoc in Hp. simplify_eq.
    apply chain_app in Hc as [Hc _]. apply chain_app. split; [|done]. nodup.
    eapply chain_frame; [exact Hnx|exact Hpv| | | |exact Hc]; mem.
Qed.

(** *** Whole heaps *)

Lemma lrep_in_ring h L hd l : lrep h L -> L !! hd = Some l -> ring h hd l.
Proof. intros [Hr _]. apply Hr. Qed.

(** Replacing one ring and leaving the nodes of the others alone. *)
Lemma lrep_update h h' L hd l l' :
  lrep h L -> L !! hd = Some l -> ring h' hd l' ->
  (forall x, x ∈ l' -> x ∈ l \/ ~ in_lists L x) ->
  (forall x, x ∉ hd :: l -> x ∉ l' -> nx_of h' x = nx_of h x /\ pv_of h' x = pv_of h x) ->
  lrep h' (<[hd := l']> L).
Proof.
  intros [Hr Hd] Hl Hring Hnew Hframe.
  assert (Hout : forall hd2 l2 x, hd2 <> hd -> L !! hd2 = Some l2 -> x ∈ hd2 :: l2 -> x ∉ hd :: l').
  { intros hd2 l2 x Hne H2 Hx Hx'. apply elem_of_cons in Hx' as [->|Hx'].
    - destruct (Hd hd2 l2 hd l H2 Hl Hne hd Hx). constructor.
    - destruct (Hnew x Hx') as [Hxl|Hni].
      + apply (Hd hd2 l2 hd l H2 Hl Hne x Hx). by constructor.
      + apply Hni. exists hd2, l2. done. }
  split.
  - intros hd2 l2. rewrite lookup_insert. case_decide as Heq; [naive_solver|].
    intros H2. destruct (Hr _ _ H2) as [Hnd Hc]. split; [done|].
    eapply chain_eq; [|exact Hc]. intros x Hx.
    assert (Hx' : x ∈ hd2 :: l2) by (clear -Hx; set_solver).
    pose proof (Hout hd2 l2 x (not_eq_sym Heq) H2 Hx') as Hno.
    apply Hframe; [|by intros ?; apply Hno; constructor].
    intros Hin. by apply (Hd hd2 l2 hd l H2 Hl (not_eq_sym Heq) x Hx').
  - intros hd1 l1 hd2 l2 H1 H2 Hne x Hx1 Hx2. revert H1 H2.
    rewrite !lookup_insert. repeat case_decide; intros; simplify_eq.
    + by apply (Hout hd2 l2 x).
    + by apply (Hout hd1 l1 x).
    + by apply (Hd hd1 l1 hd2 l2 H1 H2 Hne x).
Qed.

Lemma lrep_add h L hd l e :
  lrep h L -> L !! hd = Some l -> ~ in_lists L e -> e ∈ dom h ->
  exists h', list_add e hd h = Some h' /\ lrep h' (<[hd := e :: l]> L) /\ dom h' = dom h.
Proof.
  intros HL Hl Hni He. apply elem_of_dom in He.
  destruct (ring_add h hd l e) as (h' & Hadd & Hring & Hdom & Hframe); [by eapply lrep_in_ring| |done|].
  { intros ?. apply Hni. by exists hd, l. }
  exists h'. split_and!; try done. eapply lrep_update; try done.
  - intros x [->|?]%elem_of_cons; auto.
  - intros x Hx1 Hx2. apply Hframe. clear -Hx1 Hx2. set_solver.
Qed.

Lemma lrep_add_tail h L hd l e :
  lrep h L -> L !! hd = Some l -> ~ in_lists L e -> e ∈ dom h ->
  exists h', list_add_tail e hd h = Some h' /\ lrep h' (<[hd := l ++ [e]]> L) /\ dom h' = dom h.
Proof.
  intros HL Hl Hni He. apply elem_of_dom in He.
  destruct (ring_add_tail h hd l e) as (h' & Hadd & Hring & Hdom & Hframe);
    [by eapply lrep_in_ring| |done|].
  { intros ?. apply Hni. by exists hd, l. }
  exists h'. split_and!; try done. eapply lrep_update; try done.
  - intros x [?| ->%list_elem_of_singleton]%elem_of_app; auto.
  - intros x Hx1 Hx2. apply Hframe. clear -Hx1 Hx2. set_solver.
Qed.

Lemma lrep_del h L hd l1 e l2 :
  lrep h L -> L !! hd = Some (l1 ++ e :: l2) ->
  exists h', list_del e h = Some h' /\ lrep h' (<[hd := l1 ++ l2]> L) /\ dom h' = dom h.
Proof.
  intros HL Hl.
  destruct (ring_del h hd l1 e l2) as (h' & Hdel & Hring & Hdom & Hframe); [by eapply lrep_in_ring|].
  exists h'. split_and!; try done. eapply lrep_update; try done.
  - intros x Hx. left. clear -Hx. set_solver.
  - intros x Hx _. by apply Hframe.
Qed.

Lemma lrep_init h L hd :
  lrep h L -> ~ in_lists (delete hd L) hd -> hd ∈ dom h -> (forall l, L !! hd = Some l -> l = []) ->
  exists h', INIT_LIST_HEAD hd h = Some h' /\ lrep h' (<[hd := []]> L) /\ dom h' = dom h.
Proof.
  intros [Hr Hd] Hni Hin Hnil. apply elem_of_dom in Hin. unfold INIT_LIST_HEAD.
  write_field set_next_spec hd; [done|].
  write_field set_prev_spec hd; [by apply (dom_eq_is_Some h)|].
  eexists. split; [done|]. split; [|congruence]. 
  assert (Hring : ring h1 hd []).
  { split; [apply NoDup_singleton|]. split.
    - rewrite H3, H. by rewrite decide_True.
    - rewrite H2. by rewrite decide_True. }
  assert (Hno : forall hd2 l2, hd2 <> hd -> L !! hd2 = Some l2 -> hd ∉ hd2 :: l2).
  { intros hd2 l2 Hne H2' Hx. apply Hni. exists hd2, l2. by rewrite lookup_delete_ne. }
  split.
  - intros hd2 l2. rewrite lookup_insert. case_decide as Heq; [naive_solver|].
    intros Hl2. destruct (Hr _ _ Hl2) as [Hnd Hc]. split; [done|].
    eapply chain_eq; [|exact Hc]. intros x Hx.
    assert (x <> hd).
    { intros ->. apply (Hno hd2 l2); [done..|]. clear -Hx. set_solver. }
    rewrite H3, H, H2, H0. by rewrite !decide_False.
  - intros hd1 l1 hd2 l2 H1' H2' Hne x Hx1 Hx2. revert H1' H2'.
    rewrite !lookup_insert. repeat case_decide; intros; simplify_eq.
    + apply list_elem_of_singleton in Hx1. subst. by apply (Hno hd2 l2).
    + apply list_elem_of_singleton in Hx2. subst. by apply (Hno hd1 l1).
    + by apply (Hd hd1 l1 hd2 l2 H1' H2' Hne x).
Qed.

Lemma lrep_zero h L x :
  lrep h L -> ~ in_lists L x -> lrep (zero_head x h) L.
Proof.
  intros [Hr Hd] Hni. split; [|done]. intros hd l Hl. destruct (Hr _ _ Hl) as [Hnd Hc].
  split; [done|]. eapply chain_eq; [|exact Hc]. intros y Hy.
  unfold zero_head, nx_of, pv_of. rewrite lookup_insert_ne; [done|].
  intros ->. apply Hni. exists hd, l. split; [done|]. clear -Hy. set_solver.
Qed.

Lemma lrep_first h L hd l :
  lrep h L -> L !! hd = Some l ->
  exists c, h !! hd = Some c /\ next c = list.head (l ++ [hd]).
Proof.
  intros HL Hl. destruct (lrep_in_ring _ _ _ _ HL Hl) as [_ Hc].
  destruct (chain_first _ _ _ _ Hc) as (n & Hn & [Hhn _]).
  unfold nx_of in Hhn. destruct (h !! hd) as [c|]; cbn in *; simplify_eq.
  exists c. split; [done|]. congruence.
Qed.

Lemma lrep_empty h L hd l :
  lrep h L -> L !! hd = Some l -> list_empty hd h = Some (bool_decide (l = [])).
Proof.
  intros HL Hl. unfold list_empty. destruct (lrep_first _ _ _ _ HL Hl) as (c & -> & E).
  cbn. rewrite E. f_equal. apply bool_decide_ext.
  destruct (lrep_in_ring _ _ _ _ HL Hl) as [Hnd _]. apply NoDup_cons in Hnd as [Hnd _].
  destruct l as [|x l]; cbn; [done|]. split; [|done]. intros [= ->]. destruct Hnd. constructor.
Qed.

#[global] Program Instance linked_store : ListStore N (lheap N) := {|
  ls_zero := zero_head;
  ls_init := INIT_LIST_HEAD;
  ls_add := list_add;
  ls_add_tail := list_add_tail;
  ls_del := list_del;
  ls_empty := list_empty;
  ls_first := list_first;
|}.

(** [list.h] keeps the promises of the interface. *)
#[global] Program Instance linked_store_laws : ListStoreLaws N (lheap N) := {|
  ls_rep := lrep;
  ls_valid h x := x ∈ dom h;
|}.
Next Obligation.
  intros h L x HL Hni. split; [by apply lrep_zero|].
  intros y. cbn. unfold zero_head. rewrite dom_insert_L. set_solver.
Qed.
Next Obligation.
  intros h L hd HL Hni Hin Hnil. destruct (lrep_init h L hd) as (h' & ? & ? & Hd); try done.
  exists h'. by rewrite Hd.
Qed.
Next Obligation.
  intros h L hd l e HL Hl Hni He. destruct (lrep_add h L hd l e) as (h' & ? & ? & Hd); try done.
  exists h'. by rewrite Hd.
Qed.
Next Obligation.
  intros h L hd l e HL Hl Hni He. destruct (lrep_add_tail h L hd l e) as (h' & ? & ? & Hd); try done.
  exists h'. by rewrite Hd.
Qed.
Next Obligation.
  intros h L hd l1 e l2 HL Hl. destruct (lrep_del h L hd l1 e l2) as (h' & ? & ? & Hd); try done.
  exists h'. by rewrite Hd.
Qed.
Next Obligation. intros h L hd l. apply lrep_empty. Qed.
Next Obligation.
  intros h L hd x l HL Hl. cbn. unfold list_first.
  destruct (lrep_first _ _ _ _ HL Hl) as (c & -> & E). cbn in *. by rewrite E.
Qed.
Next Obligation. intros h L hd l HL Hl. by destruct (lrep_in_ring h L hd l HL Hl). Qed.
Next Obligation. intros h L hd1 l1 hd2 l2 [_ Hd]. apply Hd. Qed.

(** *** Iteration *)

(** The visits of [list_for_each_entry] from the middle of a ring. *)
Lemma for_each_from {A : Type} (f : N -> A -> A) h hd l x (acc : A) fuel :
  chain h x l hd -> hd ∉ l -> (length l < fuel)%nat ->
  exists n, list.head (l ++ [hd]) = Some n /\
  iter fuel (for_each_step f hd h) (n, acc) = Some (fold_left (fun acc x => f x acc) l acc).
Proof.
  revert x acc fuel. induction l as [|b l IH]; intros x acc fuel; cbn.
  - intros _ _ Hf. exists hd. split; [done|]. destruct fuel; [lia|]. cbn. by rewrite bool_decide_true.
  - intros [_ Hc] [Hb Hl]%not_elem_of_cons Hf. exists b. split; [done|].
    destruct fuel as [|fuel]; [lia|]. cbn. rewrite bool_decide_false by congruence.
    destruct (chain_first _ _ _ _ Hc) as (n & Hn & [Hbn _]).
    unfold nx_of in Hbn. destruct (h !! b) as [c|]; cbn in *; simplify_eq. rewrite Hbn. cbn.
    destruct (IH b (f b acc) fuel) as (n' & Hn' & <-); [done|done|lia|]. congruence.
Qed.

(** A ring has no more nodes than the heap. *)
Lemma ring_length h hd l : ring h hd l -> (length l < size h)%nat.
Proof.
  intros [Hnd Hc]. 
  assert (Hsub : list_to_set (hd :: l) ⊆ dom h).
  { assert (Hin : forall x, x ∈ hd :: l -> is_Some (h !! x)).
    { clear Hnd. generalize dependent hd. intros hd.
      assert (forall a l, chain h a l hd -> forall x, x ∈ a :: l -> is_Some (h !! x)) as Hgen.
      { clear. intros a l. revert a. induction l as [|b l IH]; intros a; cbn.
        - intros [Ha _] x ->%list_elem_of_singleton. by eapply nx_of_is_Some.
        - intros [[Ha _] Hc] x [->|Hx]%elem_of_cons; [by eapply nx_of_is_Some|eauto]. }
      intros Hc. by apply Hgen. }
    intros x. rewrite elem_of_list_to_set, elem_of_dom. auto. }
  apply subseteq_size in Hsub. rewrite size_list_to_set in Hsub by done.
  rewrite size_dom in Hsub. cbn in Hsub. lia.
Qed.

(** Iteration visits every entry once, in order, and stops. *)
Lemma for_each_ring {A : Type} (f : N -> A -> A) h hd l (acc : A) :
  ring h hd l -> list_for_each_entry f hd acc h = Some (fold_left (fun acc x => f x acc) l acc).
Proof.
  intros Hring. pose proof (ring_length _ _ _ Hring). destruct Hring as [Hnd Hc].
  apply NoDup_cons in Hnd as [Hnd _]. unfold list_for_each_entry, list_first.
  destruct (chain_first _ _ _ _ Hc) as (n & Hn & [Hhn _]).
  unfold nx_of in Hhn. destruct (h !! hd) as [c|] eqn:E; cbn in *; simplify_eq. rewrite Hhn. cbn -[iter].
  destruct (for_each_from f h hd l hd acc (Datatypes.S (size h))) as (n' & Hn' & <-); [done|done|lia|].
  by simplify_eq.
Qed.

End correctness.

(** ** Sequences of operations

    A program that uses the lists is a sequence of calls; [abs_step] is what
    each call means on mathematical lists, with the condition under which
    [list.h] may be called. *)
Inductive list_op (N : Type) :=
| OpInit (hd : N)
| OpAdd (e hd : N)
| OpAddTail (e hd : N)
| OpDel (e : N).

Arguments OpInit {N} _.
Arguments OpAdd {N} _ _.
Arguments OpAddTail {N} _ _.
Arguments OpDel {N} _.

Section programs.
Context {N : Type} `{!EqDecision N, !Countable N}.
Implicit Types (h : lheap N) (L : gmap N (list N)).

Definition run_op (o : list_op N) h : option (lheap N) :=
  match o with
  | OpInit hd => INIT_LIST_HEAD hd h
  | OpAdd e hd => list_add e hd h
  | OpAddTail e hd => list_add_tail e hd h
  | OpDel e => list_del e h
  end.

Fixpoint run_ops (os : list (list_op N)) h : option (lheap N) :=
  match os with
  | [] => Some h
  | o :: os => let* h := run_op o h in run_ops os h
  end.

Inductive abs_step (D : gset N) : gmap N (list N) -> list_op N -> gmap N (list N) -> Prop :=
| abs_init L hd :
    ~ in_lists L hd -> hd ∈ D -> abs_step D L (OpInit hd) (<[hd := []]> L)
| abs_add L e hd l :
    L !! hd = Some l -> ~ in_lists L e -> e ∈ D -> abs_step D L (OpAdd e hd) (<[hd := e :: l]> L)
| abs_add_tail L e hd l :
    L !! hd = Some l -> ~ in_lists L e -> e ∈ D ->
    abs_step D L (OpAddTail e hd) (<[hd := l ++ [e]]> L)
| abs_del L e hd l1 l2 :
    L !! hd = Some (l1 ++ e :: l2) -> abs_step D L (OpDel e) (<[hd := l1 ++ l2]> L).

Inductive abs_steps (D : gset N) : gmap N (list N) -> list (list_op N) -> gmap N (list N) -> Prop :=
| abs_done L : abs_steps D L [] L
| abs_more L o L' os L'' :
    abs_step D L o L' -> abs_steps D L' os L'' -> abs_steps D L (o :: os) L''.

Lemma step_refines h L o L' :
  lrep h L -> abs_step (dom h) L o L' ->
  exists h', run_op o h = Some h' /\ lrep h' L' /\ dom h' = dom h.
Proof.
  intros HL. destruct 1 as [L hd Hni Hin|L e hd l Hl Hni He|L e hd l Hl Hni He|L e hd l1 l2 Hl]; cbn.
  - apply lrep_init; [done| |done|].
    + intros (hd' & l & Hl & Hx). apply lookup_delete_Some in Hl as [_ Hl]. apply Hni. by exists hd', l.
    + intros l Hl. destruct Hni. exists hd, l. split; [done|constructor].
  - by apply lrep_add.
  - by apply lrep_add_tail.
  - by apply lrep_del.
Qed.

(** C27. Refinement of [list.h]: on a heap that holds the lists [L], every
    sequence of initialisations, head and tail insertions and removals that
    is legal for mathematical lists runs without touching a NULL or unknown
    node and ends in a heap that holds exactly the lists the mathematical
    operations give, in disjoint rings whose [next] and [prev] agree. *)
Theorem list_ops_refine h L os L' :
  lrep h L -> abs_steps (dom h) L os L' ->
  exists h', run_ops os h = Some h' /\ lrep h' L' /\ dom h' = dom h.
Proof.
  intros HL Hs. remember (dom h) as D eqn:HD. revert h HL HD.
  induction Hs as [L|L o L1 os L2 Hstep Hs IH]; intros h HL ->; [by exists h|].
  destruct (step_refines h L o L1 HL Hstep) as (h1 & E & HL1 & Hd). cbn. rewrite E. cbn.
  destruct (IH h1 HL1 (eq_sym Hd)) as (h2 & E2 & HL2 & Hd2). exists h2. by rewrite Hd2.
Qed.

(** [list_for_each_entry] over a list of the heap terminates and runs its
    statement once on each entry, in list order. *)
Theorem for_each_visits_all {A : Type} (f : N -> A -> A) h L hd l acc :
  lrep h L -> L !! hd = Some l ->
  list_for_each_entry f hd acc h = Some (fold_left (fun acc x => f x acc) l acc).
Proof. intros HL Hl. apply for_each_ring. by eapply lrep_in_ring. Qed.

End programs.

(** Three nodes: a head and two entries, one removed and inserted again. *)
Definition sample_heap : lheap Z :=
  list_to_map [(0, ListHead None None); (1, ListHead None None); (2, ListHead None None)].

Definition sample_ops : list (list_op Z) :=
  [OpInit 0; OpAdd 1 0; OpAddTail 2 0; OpDel 1; OpAddTail 1 0].

Lemma lrep_no_lists (h : lheap Z) : lrep h ∅.
Proof. split; intros *; by rewrite lookup_empty. Qed.

Lemma in_lists_dec_sample (L : gmap Z (list Z)) x :
  forallb (fun '(hd, l) => bool_decide (x ∉ hd :: l)) (map_to_list L) = true -> ~ in_lists L x.
Proof.
  intros H (hd & l & Hl & Hx). rewrite forallb_forall in H.
  specialize (H (hd, l)). rewrite <- list_elem_of_In, elem_of_map_to_list in H.
  specialize (H Hl). by apply bool_decide_eq_true in H.
Qed.

Lemma sample_abs : abs_steps (dom sample_heap) ∅ sample_ops {[0 := [2; 1]]}.
Proof.
  eapply abs_more; [apply abs_init; [by apply in_lists_dec_sample|set_solver]|].
  eapply abs_more; [eapply abs_add; [reflexivity|by apply in_lists_dec_sample|set_solver]|].
  eapply abs_more; [eapply abs_add_tail; [reflexivity|by apply in_lists_dec_sample|set_solver]|].
  eapply abs_more; [eapply (abs_del _ _ 1 0 [] [2]); reflexivity|].
  eapply abs_more; [eapply abs_add_tail; [reflexivity|by apply in_lists_dec_sample|set_solver]|].
  apply abs_done.
Qed.

Lemma list_ops_refine_witness :
  exists h', run_ops sample_ops sample_heap = Some h' /\ lrep h' {[0 := [2; 1]]} /\
    dom h' = dom sample_heap.
Proof. apply (list_ops_refine sample_heap ∅); [apply lrep_no_lists|apply sample_abs]. Defined.

(** A head with one entry. *)
Definition two_ring : lheap Z :=
  {[0 := ListHead (Some 1) (Some 1); 1 := ListHead (Some 0) (Some 0)]}.

Lemma two_ring_rep : lrep two_ring {[0 := [1]]}.
Proof.
  split.
  - intros hd l [<- <-]%lookup_singleton_Some. split; [by apply (bool_decide_unpack _)|done].
  - intros hd1 l1 hd2 l2 [<- <-]%lookup_singleton_Some [<- <-]%lookup_singleton_Some. done.
Qed.

Lemma for_each_visits_all_witness :
  list_for_each_entry (fun x acc => acc ++ [x]) 0 [] two_ring = Some [1].
Proof. apply (for_each_visits_all (fun x acc => acc ++ [x]) two_ring {[0 := [1]]} 0 [1] []); [apply two_ring_rep|done]. Defined.
