(* ===== verification/Mem.v ===== *)
(** * Byte memory

    The RAM the kernel's C code reads and writes through [char] and word
    pointers: a finite map from the addresses of the objects in play to byte
    values.  An access outside the map is [None], so a theorem that an
    operation succeeds on a map of exactly some ranges shows that it touches
    nothing else. *)

From S2P Require Import Prelude.

Abbreviation mem := (gmap Z Z).

Definition load8 (m : mem) (a : Z) : option Z := m !! a.

Definition store8 (a v : Z) (m : mem) : option mem :=
  let* _ := m !! a in Some (<[a := u8 v]> m).

(** [n] bytes from [a] up, and [bs] written from [a] up. *)
Fixpoint load (m : mem) (a : Z) (n : nat) : option (list Z) :=
  match n with
  | O => Some []
  | Datatypes.S n =>
      let* b := load8 m a in
      let* bs := load m (a + 1) n in
      Some (b :: bs)
  end.

Fixpoint store (a : Z) (bs : list Z) (m : mem) : option mem :=
  match bs with
  | [] => Some m
  | b :: bs => let* m := store8 a b m in store (a + 1) bs m
  end.

(** Little-endian 64-bit accesses at any alignment. *)
Definition load64 (m : mem) (a : Z) : option Z :=
  let* bs := load m a 8 in Some (little_endian_to_Z 8 bs).

Definition store64 (a w : Z) (m : mem) : option mem :=
  store a (Z_to_little_endian 8 8 w) m.

(** The memory after [bs] has been written from [a] up. *)
Fixpoint write (a : Z) (bs : list Z) (m : mem) : mem :=
  match bs with
  | [] => m
  | b :: bs => write (a + 1) bs (<[a := b]> m)
  end.

(** [m] holds [bs] from [a] up; [a .. a + n) is part of [m]. *)
Definition bytes_at (m : mem) (a : Z) (bs : list Z) : Prop :=
  forall (i : nat) b, bs !! i = Some b -> m !! (a + i) = Some b.

Definition mapped (m : mem) (a n : Z) : Prop :=
  forall x, a <= x < a + n -> is_Some (m !! x).

(** Every cell holds a byte. *)
Definition mem_ok (m : mem) : Prop := map_Forall (fun _ v => is_byte v) m.

#[global] Arguments load8 : simpl never.
#[global] Arguments store8 : simpl never.
#[global] Arguments load64 : simpl never.
#[global] Arguments store64 : simpl never.

(** ** Writing *)

Lemma lookup_write a bs m x :
  write a bs m !! x =
    if decide (a <= x < a + length bs) then bs !! Z.to_nat (x - a) else m !! x.
Proof.
  revert a m. induction bs as [|b bs IH]; intros a m; cbn [write length].
  - rewrite decide_False by lia. done.
  - rewrite IH. repeat case_decide; try lia.
    + replace (Z.to_nat (x - a)) with (Datatypes.S (Z.to_nat (x - (a + 1)))) by lia. done.
    + assert (x = a) as -> by lia. rewrite lookup_insert_eq. by rewrite Z.sub_diag.
    + rewrite lookup_insert_ne by lia. done.
Qed.

Lemma lookup_write_out a bs m x :
  x < a \/ a + length bs <= x -> write a bs m !! x = m !! x.
Proof. intros. rewrite lookup_write, decide_False by lia. done. Qed.

Lemma write_app a bs1 bs2 m :
  write a (bs1 ++ bs2) m = write (a + length bs1) bs2 (write a bs1 m).
Proof.
  revert a m. induction bs1 as [|b bs1 IH]; intros a m; cbn [write app length].
  - by rewrite Z.add_0_r.
  - rewrite IH. f_equal. lia.
Qed.

(** Writing the upper part first gives the same memory. *)
Lemma write_app_rev a bs1 bs2 m :
  write a (bs1 ++ bs2) m = write a bs1 (write (a + length bs1) bs2 m).
Proof.
  apply map_eq. intros x. rewrite !lookup_write, length_app, Nat2Z.inj_add.
  repeat case_decide; try lia; try done.
  - rewrite lookup_app_l by lia. done.
  - rewrite lookup_app_r by lia. f_equal. lia.
Qed.

Lemma mapped_write a n b bs m : mapped m a n -> mapped (write b bs m) a n.
Proof.
  intros Hm x Hx. rewrite lookup_write. case_decide; [|auto].
  apply lookup_lt_is_Some_2. lia.
Qed.

Lemma mapped_sub m a n b k : mapped m a n -> a <= b -> b + k <= a + n -> mapped m b k.
Proof. intros Hm ? ? x ?. apply Hm. lia. Qed.

#[export] Hint Resolve mapped_write : miaow.

Lemma store_write a bs m :
  mapped m a (length bs) -> Forall is_byte bs -> store a bs m = Some (write a bs m).
Proof.
  revert a m. induction bs as [|b bs IH]; intros a m Hm Hb; [done|].
  apply Forall_cons in Hb as [Hb Hbs]. cbn [store write length] in *.
  unfold store8. destruct (Hm a) as [v ->]; [lia|]. cbn.
  assert (u8 b = b) as -> by (unfold u8, is_byte in *; by apply Z.mod_small).
  apply IH; [|done]. apply (mapped_write _ _ a [b] m). apply (mapped_sub _ _ _ _ _ Hm); lia.
Qed.

Lemma store_inv a bs m m' :
  store a bs m = Some m' -> Forall is_byte bs -> m' = write a bs m /\ mapped m a (length bs).
Proof.
  revert a m. induction bs as [|b bs IH]; intros a m; cbn [store write length].
  - intros [= <-] _. split; [done|]. intros x ?. lia.
  - unfold store8. destruct (m !! a) as [v|] eqn:E; [|done]. cbn.
    intros Hs [Hb Hbs]%Forall_cons.
    assert (Hu : u8 b = b) by (unfold u8, is_byte in *; by apply Z.mod_small).
    rewrite Hu in Hs. destruct (IH _ _ Hs Hbs) as [-> Hm]. split; [done|].
    intros x Hx. destruct (decide (x = a)) as [->|]; [by rewrite E|].
    specialize (Hm x ltac:(lia)). by rewrite lookup_insert_ne in Hm.
Qed.

(** ** Reading *)

Lemma load_bytes m a bs : bytes_at m a bs -> load m a (length bs) = Some bs.
Proof.
  revert a. induction bs as [|b bs IH]; intros a Hb; [done|]. cbn [load length].
  unfold load8. pose proof (Hb 0%nat b eq_refl) as H0. rewrite Z.add_0_r in H0. rewrite H0. cbn.
  rewrite IH; [done|]. intros i c Hc. rewrite <- (Hb (Datatypes.S i) c Hc). f_equal. lia.
Qed.

Lemma bytes_at_sub m a bs k n :
  bytes_at m a bs -> bytes_at m (a + Z.of_nat k) (take n (drop k bs)).
Proof.
  intros Hb i b Hi. apply lookup_take_Some in Hi as [Hi _]. rewrite lookup_drop in Hi.
  rewrite <- (Hb _ _ Hi). f_equal. lia.
Qed.

(** Reading is undisturbed by a write elsewhere. *)
Lemma bytes_at_write m a bs b cs :
  (forall x, a <= x < a + length bs -> x < b \/ b + length cs <= x) ->
  bytes_at m a bs -> bytes_at (write b cs m) a bs.
Proof.
  intros Hd Hb i c Hi. rewrite lookup_write_out; [by apply Hb|].
  apply Hd. apply lookup_lt_Some in Hi. lia.
Qed.

Lemma bytes_at_written m a bs : bytes_at (write a bs m) a bs.
Proof.
  intros i b Hi. pose proof (lookup_lt_Some _ _ _ Hi).
  rewrite lookup_write, decide_True by lia. by replace (Z.to_nat (a + i - a)) with i by lia.
Qed.

Lemma bytes_at_mapped m a bs : bytes_at m a bs -> mapped m a (length bs).
Proof.
  intros Hb x Hx. destruct (lookup_lt_is_Some_2 bs (Z.to_nat (x - a))) as [b Hbx]; [lia|].
  exists b. rewrite <- (Hb _ _ Hbx). f_equal. lia.
Qed.

(** A range of bytes is not longer than the memory. *)
Lemma bytes_size m p (bs : list Z) : bytes_at m p bs -> (length bs <= size m)%nat.
Proof.
  intros Hb. rewrite <- size_dom. replace (length bs) with (size (list_to_set (C := gset Z) (seqZ p (length bs)))).
  - apply subseteq_size. intros x Hx%elem_of_list_to_set%elem_of_seqZ. apply elem_of_dom.
    apply (bytes_at_mapped m p bs Hb). lia.
  - rewrite size_list_to_set by apply NoDup_seqZ. rewrite length_seqZ. lia.
Qed.

(** A mapped range of a sound memory holds some bytes. *)
Lemma mapped_bytes m a n :
  mem_ok m -> mapped m a n -> exists bs, length bs = Z.to_nat n /\ Forall is_byte bs /\ bytes_at m a bs.
Proof.
  intros Hok Hm. exists ((fun i => default 0 (m !! (a + Z.of_nat i))) <$> seq 0 (Z.to_nat n)).
  rewrite length_fmap, length_seq. split_and!; [done| |].
  - apply Forall_fmap, Forall_forall. intros i [_ Hi]%elem_of_seq. cbn.
    destruct (Hm (a + Z.of_nat i)) as [v Hv]; [lia|]. rewrite Hv. cbn. by apply (Hok _ _ Hv).
  - intros i b Hi. apply list_lookup_fmap_Some in Hi as (j & -> & Hj).
    apply lookup_seq in Hj as [-> Hlt]. cbn.
    destruct (Hm (a + Z.of_nat i)) as [v Hv]; [lia|]. by rewrite Hv.
Qed.

Lemma mem_ok_write a bs m : mem_ok m -> Forall is_byte bs -> mem_ok (write a bs m).
Proof.
  intros Hok Hb x v. rewrite lookup_write. case_decide; [|by apply Hok].
  intros Hv. rewrite Forall_lookup in Hb. by apply (Hb _ _ Hv).
Qed.

(** ** Words *)

Lemma le8_length w : length (Z_to_little_endian 8 8 w) = 8%nat.
Proof. pose proof (length_Z_to_little_endian 8 8 w). lia. Qed.

Lemma le8_bytes w : Forall is_byte (Z_to_little_endian 8 8 w).
Proof. apply (Z_to_little_endian_bound 8 8 w); lia. Qed.

Lemma le8_roundtrip bs :
  length bs = 8%nat -> Forall is_byte bs -> Z_to_little_endian 8 8 (little_endian_to_Z 8 bs) = bs.
Proof. intros Hl Hb. apply Z_to_little_endian_to_Z; [by rewrite Hl|lia|done]. Qed.

Lemma load64_bytes m a bs :
  length bs = 8%nat -> bytes_at m a bs -> load64 m a = Some (little_endian_to_Z 8 bs).
Proof. intros Hl Hb. unfold load64. rewrite <- Hl, (load_bytes _ _ _ Hb). done. Qed.

Lemma store64_write a w m :
  mapped m a 8 -> store64 a w m = Some (write a (Z_to_little_endian 8 8 w) m).
Proof. intros Hm. apply store_write; [by rewrite le8_length|apply le8_bytes]. Qed.

(** A word read back is the word stored, modulo 2^64. *)
Lemma load64_written a w m :
  load64 (write a (Z_to_little_endian 8 8 w) m) a = Some (u64 w).
Proof.
  rewrite (load64_bytes _ _ (Z_to_little_endian 8 8 w)); [|apply le8_length|apply bytes_at_written].
  f_equal. rewrite little_endian_to_Z_to_little_endian by lia. done.
Qed.

(** A word elsewhere is undisturbed. *)
Lemma load_write_out m a n b cs :
  (forall x, a <= x < a + Z.of_nat n -> x < b \/ b + length cs <= x) ->
  load (write b cs m) a n = load m a n.
Proof.
  revert a. induction n as [|n IH]; intros a Hd; [done|]. cbn [load]. unfold load8.
  rewrite lookup_write_out by (apply Hd; lia). rewrite IH; [done|]. intros x ?. apply Hd. lia.
Qed.

Lemma load64_write_out m a b cs :
  (forall x, a <= x < a + 8 -> x < b \/ b + length cs <= x) ->
  load64 (write b cs m) a = load64 m a.
Proof. intros Hd. unfold load64. rewrite load_write_out; [done|]. intros x ?. apply Hd. lia. Qed.

(** ** Memories that agree on a range *)

Definition agree (m m' : mem) (a n : Z) : Prop := forall x, a <= x < a + n -> m' !! x = m !! x.

Lemma agree_sub m m' a n b k : agree m m' a n -> a <= b -> b + k <= a + n -> agree m m' b k.
Proof. intros H ? ? x ?. apply H. lia. Qed.

Lemma agree_trans m1 m2 m3 a n : agree m1 m2 a n -> agree m2 m3 a n -> agree m1 m3 a n.
Proof. intros H1 H2 x Hx. by rewrite H2, H1. Qed.

Lemma agree_write m a bs b n : b + n <= a \/ a + length bs <= b -> agree m (write a bs m) b n.
Proof. intros Hd x Hx. apply lookup_write_out. lia. Qed.

Lemma load64_agree m m' a : agree m m' a 8 -> load64 m' a = load64 m a.
Proof.
  intros H. unfold load64. assert (E : forall n b, a <= b -> b + Z.of_nat n <= a + 8 -> load m' b n = load m b n).
  { induction n as [|n IH]; intros b Hlo Hhi; [done|]. cbn [load]. unfold load8. rewrite H by lia.
    rewrite IH by lia. done. }
  by rewrite E by lia.
Qed.

Lemma mapped_agree m m' a n : agree m m' a n -> mapped m a n -> mapped m' a n.
Proof. intros H Hm x Hx. rewrite H by done. by apply Hm. Qed.
