(* ===== verification/StringC.v ===== *)
(** * Memory primitives ([lib/string.c])

    [memset], [memcpy], [memmove] and [memcmp] over byte memory, with the
    64-bit accesses at any alignment the source makes.  The functions that
    return [destination] return it with the memory. *)

From S2P Require Import Prelude Mem.

Definition WORD_SIZE : Z := 8.

(** A loop of the source runs at most [size] rounds. *)
Definition rounds (size : Z) : nat := Datatypes.S (Z.to_nat size).

(** [while (size >= WORD_SIZE)] of [memset] *)
Definition memset_word (pattern : Z) (s : Z * Z * mem) : option ((Z * Z * mem) + (Z * Z * mem)) :=
  let '(output, size, m) := s in
  if WORD_SIZE <=? size then
    let* m := store64 output pattern m in
    Some (inl (output + WORD_SIZE, u64 (size - WORD_SIZE), m))
  else Some (inr s).

(** [while (size--)] of [memset] *)
Definition memset_byte (byte : Z) (s : Z * Z * mem) : option ((Z * Z * mem) + mem) :=
  let '(output, size, m) := s in
  if size =? 0 then Some (inr m)
  else
    let* m := store8 output byte m in
    Some (inl (output + 1, u64 (size - 1), m)).

Definition memset (destination value size : Z) (m : mem) : option (Z * mem) :=
  let byte := u8 value in
  let pattern := u64 (byte * 0x0101010101010101) in
  let* '(output, size, m) := iter (rounds size) (memset_word pattern) (destination, size, m) in
  let* m := iter (rounds size) (memset_byte byte) (output, size, m) in
  Some (destination, m).

(** [while (size >= WORD_SIZE)] and [while (size--)] of [memcpy] *)
Definition memcpy_word (s : Z * Z * Z * mem) : option ((Z * Z * Z * mem) + (Z * Z * Z * mem)) :=
  let '(output, input, size, m) := s in
  if WORD_SIZE <=? size then
    let* w := load64 m input in
    let* m := store64 output w m in
    Some (inl (output + WORD_SIZE, input + WORD_SIZE, u64 (size - WORD_SIZE), m))
  else Some (inr s).

Definition memcpy_byte (s : Z * Z * Z * mem) : option ((Z * Z * Z * mem) + mem) :=
  let '(output, input, size, m) := s in
  if size =? 0 then Some (inr m)
  else
    let* b := load8 m input in
    let* m := store8 output b m in
    Some (inl (output + 1, input + 1, u64 (size - 1), m)).

Definition memcpy (destination source size : Z) (m : mem) : option (Z * mem) :=
  let* '(output, input, size, m) := iter (rounds size) memcpy_word (destination, source, size, m) in
  let* m := iter (rounds size) memcpy_byte (output, input, size, m) in
  Some (destination, m).

(** The two backward loops of [memmove] *)
Definition memmove_word (s : Z * Z * Z * mem) : option ((Z * Z * Z * mem) + (Z * Z * Z * mem)) :=
  let '(output, input, size, m) := s in
  if WORD_SIZE <=? size then
    let output := output - WORD_SIZE in
    let input := input - WORD_SIZE in
    let* w := load64 m input in
    let* m := store64 output w m in
    Some (inl (output, input, u64 (size - WORD_SIZE), m))
  else Some (inr s).

Definition memmove_byte (s : Z * Z * Z * mem) : option ((Z * Z * Z * mem) + mem) :=
  let '(output, input, size, m) := s in
  if size =? 0 then Some (inr m)
  else
    let output := output - 1 in
    let input := input - 1 in
    let* b := load8 m input in
    let* m := store8 output b m in
    Some (inl (output, input, u64 (size - 1), m)).

Definition memmove (destination source size : Z) (m : mem) : option (Z * mem) :=
  let output := destination in
  let input := source in
  if (output =? input) || (size =? 0) then Some (destination, m)
  else if (output <? input) || (input + size <=? output) then memcpy destination source size m
  else
    let output := output + size in
    let input := input + size in
    let* '(output, input, size, m) := iter (rounds size) memmove_word (output, input, size, m) in
    let* m := iter (rounds size) memmove_byte (output, input, size, m) in
    Some (destination, m).

(** [for (size_t i = 0; i < size; i++)] of [memcmp] *)
Definition memcmp_step (left right size : Z) (m : mem) (i : Z) : option (Z + Z) :=
  if i <? size then
    let* a := load8 m (left + i) in
    let* b := load8 m (right + i) in
    if negb (a =? b) then Some (inr (a - b)) else Some (inl (u64 (i + 1)))
  else Some (inr 0).

Definition memcmp (left right size : Z) (m : mem) : option Z :=
  iter (rounds size) (memcmp_step left right size m) 0.

(** ** Correctness *)

(** The multiplication by 0x0101... repeats the byte eight times. *)
Lemma pattern_bytes b :
  is_byte b -> Z_to_little_endian 8 8 (u64 (b * 0x0101010101010101)) = replicate 8 b.
Proof.
  intros Hb.
  assert (H : forallb (fun b => bool_decide
    (Z_to_little_endian 8 8 (u64 (b * 0x0101010101010101)) = replicate 8 b)) (seqZ 0 256) = true)
    by (vm_compute; reflexivity).
  rewrite forallb_forall in H. specialize (H b). rewrite <- list_elem_of_In, elem_of_seqZ in H.
  eapply bool_decide_eq_true_1, H. unfold is_byte in *. lia.
Qed.

Lemma u8_byte v : is_byte (u8 v).
Proof. unfold is_byte, u8. apply Z.mod_pos_bound. lia. Qed.

Lemma store8_write a b m : mapped m a 1 -> is_byte b -> store8 a b m = Some (write a [b] m).
Proof.
  intros Hm Hb. unfold store8. destruct (Hm a) as [v ->]; [lia|]. cbn. do 2 f_equal.
  unfold u8, is_byte in *. by apply Z.mod_small.
Qed.

Section memset.
Context (d v n : Z) (m : mem).
Hypothesis Hn : is_u64 n.
Hypothesis Hm : mapped m d n.

Let b : Z := u8 v.

(** [k] bytes have been set, the rest is as before. *)
Definition memset_inv (s : Z * Z * mem) : Prop :=
  exists k : nat, s = (d + k, n - k, write d (replicate k b) m) /\ k <= n.

Lemma memset_words_ok :
  exists r, iter (rounds n) (memset_word (u64 (b * 0x0101010101010101))) (d, n, m) = Some r /\
    memset_inv r.
Proof.
  unfold is_u64 in *.
  apply (iter_rule memset_inv memset_inv (fun s => Z.to_nat s.1.2)); unfold rounds; cbn; [|exists 0%nat; cbn; split; [|lia]; by rewrite Z.add_0_r, Z.sub_0_r|lia].
  intros s (k & -> & Hk). cbn. unfold WORD_SIZE. case_cmp.
  - left. rewrite store64_write by (apply mapped_write, (mapped_sub _ _ _ _ _ Hm); lia). cbn.
    rewrite pattern_bytes by apply u8_byte. unwrap. eexists. split; [done|].
    split; [|cbn; lia]. exists (k + 8)%nat. split; [|lia].
    rewrite replicate_add, write_app, length_replicate. f_equal. f_equal; lia.
  - right. eexists. split; [done|]. exists k. done.
Qed.

Lemma memset_bytes_ok s :
  memset_inv s ->
  iter (rounds s.1.2) (memset_byte b) s = Some (write d (replicate (Z.to_nat n) b) m).
Proof.
  intros Hs. unfold is_u64 in *.
  destruct (iter_rule memset_inv (fun r => r = write d (replicate (Z.to_nat n) b) m)
    (fun s => Z.to_nat s.1.2) (memset_byte b)) with (fuel := rounds s.1.2) (s := s) as (r & -> & ->);
    [|done|unfold rounds; lia|done].
  clear s Hs. intros s (k & -> & Hk). cbn. case_cmp.
  - right. eexists. split; [done|]. by replace (Z.to_nat n) with k by lia.
  - left. rewrite store8_write; [|apply mapped_write, (mapped_sub _ _ _ _ _ Hm); lia|apply u8_byte].
    cbn -[write]. unwrap. eexists. split; [done|]. split; [|cbn; lia].
    exists (k + 1)%nat. split; [|lia].
    rewrite replicate_add, write_app, length_replicate. f_equal. f_equal; lia.
Qed.

Lemma memset_correct :
  memset d v n m = Some (d, write d (replicate (Z.to_nat n) b) m).
Proof.
  unfold memset. fold b. destruct memset_words_ok as (r & -> & Hr). cbn -[iter].
  pose proof (memset_bytes_ok r Hr) as Hb. destruct r as [[output size] m']. cbn in *.
  by rewrite Hb.
Qed.

End memset.

(** One forward word step copies eight of the source bytes. *)
Lemma copy_word m d s (bs : list Z) k :
  mapped m (d + Z.of_nat k) 8 -> Forall is_byte bs -> (k + 8 <= length bs)%nat ->
  bytes_at m (s + Z.of_nat k) (take 8 (drop k bs)) ->
  (let* w := load64 m (s + Z.of_nat k) in store64 (d + Z.of_nat k) w m)
  = Some (write (d + Z.of_nat k) (take 8 (drop k bs)) m).
Proof.
  intros Hm Hb Hk Hs.
  assert (Hl : length (take 8 (drop k bs)) = 8%nat) by (rewrite length_take, length_drop; lia).
  rewrite (load64_bytes _ _ _ Hl Hs). cbn. rewrite store64_write by done.
  by rewrite le8_roundtrip by (try done; by apply Forall_take, Forall_drop).
Qed.

Lemma copy_byte m d s (bs : list Z) k :
  mapped m (d + Z.of_nat k) 1 -> Forall is_byte bs -> (k < length bs)%nat ->
  bytes_at m (s + Z.of_nat k) (take 1 (drop k bs)) ->
  (let* b := load8 m (s + Z.of_nat k) in store8 (d + Z.of_nat k) b m)
  = Some (write (d + Z.of_nat k) (take 1 (drop k bs)) m).
Proof.
  intros Hm Hb Hk Hs. destruct (lookup_lt_is_Some_2 bs k Hk) as [b Hkb].
  rewrite (drop_S bs b k Hkb) in *. cbn [take] in *.
  pose proof (Hs 0%nat b eq_refl) as Hb0. rewrite Z.add_0_r in Hb0. unfold load8. rewrite Hb0.
  cbn [mbind option_bind]. apply store8_write; [done|]. rewrite Forall_lookup in Hb. by apply (Hb k).
Qed.

Section memcpy.
Context (d s n : Z) (m : mem) (bs : list Z).
Hypothesis Hn : is_u64 n.
Hypothesis Hlen : length bs = Z.to_nat n.
Hypothesis Hbytes : Forall is_byte bs.
Hypothesis Hsrc : bytes_at m s bs.
Hypothesis Hdst : mapped m d n.
(** The destination is not inside the source above its start. *)
Hypothesis Hdir : d <= s \/ s + n <= d.

Definition memcpy_inv (st : Z * Z * Z * mem) : Prop :=
  exists k : nat, st = (d + k, s + k, n - k, write d (take k bs) m) /\ k <= n.

Lemma memcpy_src_left (k j : nat) :
  k <= n -> bytes_at (write d (take k bs) m) (s + Z.of_nat k) (take j (drop k bs)).
Proof.
  intros Hk. apply bytes_at_write; [|by apply bytes_at_sub].
  intros x. rewrite !length_take, length_drop. lia.
Qed.

Lemma memcpy_step_eq (k j : nat) :
  k + Z.of_nat j <= n ->
  write (d + Z.of_nat k) (take j (drop k bs)) (write d (take k bs) m) = write d (take (k + j) bs) m.
Proof.
  intros Hk. rewrite <- take_take_drop, write_app, length_take. f_equal. lia.
Qed.

Lemma memcpy_words_ok :
  exists r, iter (rounds n) memcpy_word (d, s, n, m) = Some r /\ memcpy_inv r.
Proof.
  unfold is_u64 in *.
  apply (iter_rule memcpy_inv memcpy_inv (fun st => Z.to_nat st.1.2)); unfold rounds; cbn;
    [|exists 0%nat; rewrite take_0; cbn; split; [|lia]; by rewrite !Z.add_0_r, Z.sub_0_r|lia].
  intros st (k & -> & Hk). cbn. unfold WORD_SIZE. case_cmp.
  - left. pose proof (copy_word (write d (take k bs) m) d s bs k) as Hc.
    specialize (Hc ltac:(apply mapped_write, (mapped_sub _ _ _ _ _ Hdst); lia) Hbytes ltac:(lia)
      (memcpy_src_left k 8 Hk)).
    apply bind_Some in Hc as (w & -> & Hw). cbn. rewrite Hw. cbn -[take drop]. unwrap.
    eexists. split; [done|]. split; [|cbn; lia]. exists (k + 8)%nat. split; [|lia].
    rewrite (memcpy_step_eq k 8) by lia. f_equal. f_equal; [f_equal|]; lia.
  - right. eexists. split; [done|]. by exists k.
Qed.

Lemma memcpy_bytes_ok st :
  memcpy_inv st -> iter (rounds st.1.2) memcpy_byte st = Some (write d bs m).
Proof.
  intros Hs. unfold is_u64 in *.
  destruct (iter_rule memcpy_inv (fun r => r = write d bs m) (fun st => Z.to_nat st.1.2) memcpy_byte)
    with (fuel := rounds st.1.2) (s := st) as (r & -> & ->); [|done|unfold rounds; lia|done].
  clear st Hs. intros st (k & -> & Hk). cbn. case_cmp.
  - right. eexists. split; [done|]. rewrite take_ge by lia. done.
  - left. pose proof (copy_byte (write d (take k bs) m) d s bs k) as Hc.
    specialize (Hc ltac:(apply mapped_write, (mapped_sub _ _ _ _ _ Hdst); lia) Hbytes ltac:(lia)
      (memcpy_src_left k 1 Hk)).
    apply bind_Some in Hc as (w & -> & Hw). cbn. rewrite Hw. cbn -[take drop]. unwrap.
    eexists. split; [done|]. split; [|cbn; lia]. exists (k + 1)%nat. split; [|lia].
    rewrite (memcpy_step_eq k 1) by lia. f_equal. f_equal; [f_equal|]; lia.
Qed.

Lemma memcpy_correct : memcpy d s n m = Some (d, write d bs m).
Proof.
  unfold memcpy. destruct memcpy_words_ok as (r & -> & Hr). cbn -[iter].
  pose proof (memcpy_bytes_ok r Hr) as Hb. destruct r as [[[output input] size] m']. cbn in *.
  by rewrite Hb.
Qed.

End memcpy.

Section memmove_backward.
Context (d s n : Z) (m : mem) (bs : list Z).
Hypothesis Hn : is_u64 n.
Hypothesis Hlen : length bs = Z.to_nat n.
Hypothesis Hbytes : Forall is_byte bs.
Hypothesis Hsrc : bytes_at m s bs.
Hypothesis Hdst : mapped m d n.
Hypothesis Hdir : s <= d.

(** The top [n - r] bytes have been copied. *)
Definition memmove_inv (st : Z * Z * Z * mem) : Prop :=
  exists r : nat, st = (d + r, s + r, Z.of_nat r, write (d + r) (drop r bs) m) /\ r <= n.

Lemma memmove_src_left (r k j : nat) :
  (k + j <= r)%nat -> r <= n ->
  bytes_at (write (d + r) (drop r bs) m) (s + k) (take j (drop k bs)).
Proof.
  intros Hk Hr. apply bytes_at_write; [|by apply bytes_at_sub].
  intros x. rewrite length_take, !length_drop. lia.
Qed.

Lemma memmove_step_eq (k j : nat) :
  (k + j)%nat <= n ->
  write (d + k) (take j (drop k bs)) (write (d + (k + j)%nat) (drop (k + j) bs) m)
  = write (d + k) (drop k bs) m.
Proof.
  intros Hk. rewrite <- (take_drop j (drop k bs)) at 2. rewrite write_app_rev, drop_drop.
  f_equal. f_equal. rewrite length_take, length_drop. lia.
Qed.

Lemma memmove_words_ok :
  exists r, iter (rounds n) memmove_word (d + n, s + n, n, m) = Some r /\ memmove_inv r.
Proof.
  unfold is_u64 in *.
  apply (iter_rule memmove_inv memmove_inv (fun st => Z.to_nat st.1.2)); unfold rounds; cbn; [| |lia].
  2:{ exists (Z.to_nat n). rewrite drop_ge by lia. rewrite Z2Nat.id by lia. split; [done|lia]. }
  intros st (r & -> & Hr). cbn. unfold WORD_SIZE. case_cmp.
  - left. assert (exists k, r = (k + 8)%nat) as [k ->] by (exists (r - 8)%nat; lia).
    replace (d + (k + 8)%nat - 8) with (d + k) by lia.
    replace (s + (k + 8)%nat - 8) with (s + k) by lia.
    pose proof (copy_word (write (d + (k + 8)%nat) (drop (k + 8) bs) m) d s bs k) as Hc.
    specialize (Hc ltac:(apply mapped_write, (mapped_sub _ _ _ _ _ Hdst); lia) Hbytes ltac:(lia)
      (memmove_src_left (k + 8) k 8 ltac:(lia) Hr)).
    apply bind_Some in Hc as (w & -> & Hw). cbn. rewrite Hw. cbn -[take drop]. unwrap.
    eexists. split; [done|]. split; [|cbn; lia]. exists k. split; [|lia].
    rewrite memmove_step_eq by lia. f_equal. f_equal. lia.
  - right. eexists. split; [done|]. by exists r.
Qed.

Lemma memmove_bytes_ok st :
  memmove_inv st -> iter (rounds st.1.2) memmove_byte st = Some (write d bs m).
Proof.
  intros Hs. unfold is_u64 in *.
  destruct (iter_rule memmove_inv (fun r => r = write d bs m) (fun st => Z.to_nat st.1.2) memmove_byte)
    with (fuel := rounds st.1.2) (s := st) as (r & -> & ->); [|done|unfold rounds; lia|done].
  clear st Hs. intros st (r & -> & Hr). cbn. case_cmp.
  - right. eexists. split; [done|]. assert (r = 0%nat) as -> by lia. by rewrite drop_0, Z.add_0_r.
  - left. assert (exists k, r = (k + 1)%nat) as [k ->] by (exists (r - 1)%nat; lia).
    replace (d + (k + 1)%nat - 1) with (d + k) by lia.
    replace (s + (k + 1)%nat - 1) with (s + k) by lia.
    pose proof (copy_byte (write (d + (k + 1)%nat) (drop (k + 1) bs) m) d s bs k) as Hc.
    specialize (Hc ltac:(apply mapped_write, (mapped_sub _ _ _ _ _ Hdst); lia) Hbytes ltac:(lia)
      (memmove_src_left (k + 1) k 1 ltac:(lia) Hr)).
    apply bind_Some in Hc as (w & -> & Hw). cbn. rewrite Hw. cbn -[take drop]. unwrap.
    eexists. split; [done|]. split; [|cbn; lia]. exists k. split; [|lia].
    rewrite memmove_step_eq by lia. f_equal. f_equal. lia.
Qed.

End memmove_backward.

(** Writing over a range the bytes it already holds changes nothing. *)
Lemma write_same m a bs : bytes_at m a bs -> write a bs m = m.
Proof.
  intros Hb. apply map_eq. intros x. rewrite lookup_write. case_decide; [|done].
  destruct (lookup_lt_is_Some_2 bs (Z.to_nat (x - a))) as [b Hx]; [lia|].
  rewrite Hx, <- (Hb _ _ Hx). f_equal. lia.
Qed.

Lemma memmove_correct d s n m bs :
  is_u64 n -> length bs = Z.to_nat n -> Forall is_byte bs ->
  bytes_at m s bs -> mapped m d n -> memmove d s n m = Some (d, write d bs m).
Proof.
  intros Hn Hlen Hb Hs Hd. unfold memmove.
  destruct (Z.eqb_spec d s) as [->|Hne]; cbn [orb]; [by rewrite write_same|].
  destruct (Z.eqb_spec n 0) as [->|Hn0].
  { destruct bs; [done|discriminate]. }
  destruct (Z.ltb_spec d s); cbn [orb]; [apply memcpy_correct; auto; lia|].
  destruct (Z.leb_spec (s + n) d); [apply memcpy_correct; auto; lia|].
  destruct (memmove_words_ok d s n m bs) as (r & -> & Hr); [done..|lia|]. cbn -[iter].
  pose proof (memmove_bytes_ok d s n m bs) as Hby.
  specialize (Hby Hn Hlen Hb Hs Hd ltac:(lia) r Hr). destruct r as [[[output input] size] m'].
  cbn in *. by rewrite Hby.
Qed.

(** ** The properties *)

(** [memset] on a range that is part of memory returns its destination
    and sets exactly the [size] bytes of the range to the low byte of the
    value, word stores included; no byte outside the range is touched. *)
Theorem memset_sets_range d v n m :
  is_u64 n -> mapped m d n ->
  exists m', memset d v n m = Some (d, m') /\
    forall x, m' !! x = if decide (d <= x < d + n) then Some (u8 v) else m !! x.
Proof.
  intros Hn Hm. eexists. split; [by apply memset_correct|]. unfold is_u64 in *.
  intros x. rewrite lookup_write, length_replicate, Z2Nat.id by lia.
  case_decide; [|done]. apply lookup_replicate_2. lia.
Qed.

(** C28. [memmove] copies correctly for every relative position of the two
    ranges, overlapping or not: the destination ends up with the bytes the
    source held before the call, nothing else changes, and only the two
    ranges are accessed. *)
Theorem memmove_copies d s n m :
  is_u64 n -> mem_ok m -> mapped m s n -> mapped m d n ->
  exists m', memmove d s n m = Some (d, m') /\
    forall x, m' !! x = if decide (d <= x < d + n) then m !! (s + (x - d)) else m !! x.
Proof.
  intros Hn Hok Hs Hd. destruct (mapped_bytes m s n Hok Hs) as (bs & Hl & Hb & Hat).
  eexists. split; [by apply memmove_correct|]. unfold is_u64 in *.
  intros x. rewrite lookup_write, Hl, Z2Nat.id by lia. case_decide; [|done].
  destruct (lookup_lt_is_Some_2 bs (Z.to_nat (x - d))) as [b Hx]; [lia|].
  rewrite Hx. rewrite <- (Hat _ _ Hx). f_equal. lia.
Qed.

(** Compares the byte lists of the two ranges. *)
Fixpoint lexdiff (xs ys : list Z) : Z :=
  match xs, ys with
  | x :: xs, y :: ys => if x =? y then lexdiff xs ys else x - y
  | _, _ => 0
  end.

Lemma memcmp_steps l r n m xs ys :
  is_u64 n -> length xs = Z.to_nat n -> length ys = Z.to_nat n ->
  bytes_at m l xs -> bytes_at m r ys -> memcmp l r n m = Some (lexdiff xs ys).
Proof.
  intros Hn Hx Hy Hl Hr. unfold memcmp, is_u64 in *.
  destruct (iter_rule
    (fun i => 0 <= i <= n /\ lexdiff (drop (Z.to_nat i) xs) (drop (Z.to_nat i) ys) = lexdiff xs ys)
    (fun z => z = lexdiff xs ys) (fun i => Z.to_nat (n - i)) (memcmp_step l r n m))
    with (fuel := rounds n) (s := 0) as (z & -> & ->);
    [|split; [lia|]; by rewrite !drop_0|unfold rounds; lia|done].
  intros i [Hi Hdiff]. unfold memcmp_step. case_cmp.
  - destruct (lookup_lt_is_Some_2 xs (Z.to_nat i)) as [a Ha]; [lia|].
    destruct (lookup_lt_is_Some_2 ys (Z.to_nat i)) as [b Hb]; [lia|].
    unfold load8. pose proof (Hl _ _ Ha) as Ha'. pose proof (Hr _ _ Hb) as Hb'.
    rewrite Z2Nat.id in Ha', Hb' by lia. rewrite Ha', Hb'. cbn.
    rewrite (drop_S _ _ _ Ha), (drop_S _ _ _ Hb) in Hdiff. cbn in Hdiff.
    destruct (Z.eqb_spec a b); cbn; [left|right]; eexists; (split; [done|]); [|done].
    unwrap. split; [|lia]. split; [lia|]. by replace (Z.to_nat (i + 1)) with (S (Z.to_nat i)) by lia.
  - right. eexists. split; [done|]. rewrite drop_ge in Hdiff by lia. done.
Qed.

Lemma lexdiff_zero xs ys : length xs = length ys -> lexdiff xs ys = 0 <-> xs = ys.
Proof.
  revert ys. induction xs as [|x xs IH]; intros [|y ys]; cbn; try done.
  intros [= Hl]. case_cmp; [rewrite IH by done; subst; split; congruence|].
  split; [lia|congruence].
Qed.

(** [memcmp] returns zero exactly when the two ranges hold the same
    bytes, and otherwise the difference of the first bytes that differ, so
    its sign is their order as unsigned characters. *)
Theorem memcmp_compares l r n m :
  is_u64 n -> mem_ok m -> mapped m l n -> mapped m r n ->
  exists xs ys, load m l (Z.to_nat n) = Some xs /\ load m r (Z.to_nat n) = Some ys /\
    memcmp l r n m = Some (lexdiff xs ys) /\ (lexdiff xs ys = 0 <-> xs = ys).
Proof.
  intros Hn Hok Hl Hr.
  destruct (mapped_bytes m l n Hok Hl) as (xs & Hlx & Hbx & Hxs).
  destruct (mapped_bytes m r n Hok Hr) as (ys & Hly & Hby & Hys).
  exists xs, ys. rewrite <- Hlx at 1. rewrite <- Hly at 1. split_and!.
  - by apply load_bytes.
  - by apply load_bytes.
  - by apply memcmp_steps.
  - apply lexdiff_zero. congruence.
Qed.

(** Sixteen bytes of memory to run the primitives on. *)
Definition sample_mem : mem := list_to_map ((fun i => (100 + i, i)) <$> seqZ 0 16).

Lemma sample_mapped a n : 100 <= a -> a + n <= 116 -> mapped sample_mem a n.
Proof.
  intros Ha Hn x Hx.
  assert (H : forallb (fun x => bool_decide (is_Some (sample_mem !! x))) (seqZ 100 16) = true)
    by (vm_compute; reflexivity).
  rewrite forallb_forall in H. specialize (H x). rewrite <- list_elem_of_In, elem_of_seqZ in H.
  eapply bool_decide_eq_true_1, H. lia.
Qed.

Lemma sample_mem_ok : mem_ok sample_mem.
Proof. apply (bool_decide_unpack _). vm_compute. exact I. Qed.

Lemma memset_sets_range_witness :
  exists m', memset 101 0x1AB 11 sample_mem = Some (101, m') /\
    forall x, m' !! x = if decide (101 <= x < 101 + 11) then Some (u8 0x1AB) else sample_mem !! x.
Proof. apply memset_sets_range; [done|apply sample_mapped; lia]. Defined.

Lemma memmove_copies_witness :
  exists m', memmove 103 101 12 sample_mem = Some (103, m') /\
    forall x, m' !! x = if decide (103 <= x < 103 + 12) then sample_mem !! (101 + (x - 103))
                        else sample_mem !! x.
Proof.
  apply memmove_copies; [done|apply sample_mem_ok|apply sample_mapped; lia|apply sample_mapped; lia].
Defined.

Lemma memcmp_compares_witness :
  exists xs ys, load sample_mem 100 (Z.to_nat 4) = Some xs /\ load sample_mem 104 (Z.to_nat 4) = Some ys /\
    memcmp 100 104 4 sample_mem = Some (lexdiff xs ys) /\ (lexdiff xs ys = 0 <-> xs = ys).
Proof.
  apply memcmp_compares; [done|apply sample_mem_ok|apply sample_mapped; lia|apply sample_mapped; lia].
Defined.
