(* ===== verification/Memblock.v ===== *)
(** * Early memory: the region arrays ([mm/memblock.c], [include/miaow/memblock.h])

    Both arrays have [INIT_MEMBLOCK_REGIONS] slots of which the first [cnt]
    are live.  The model keeps all the slots, so a write past the array is
    [None].  This file holds the data and every operation, and the proofs
    for adding and removing ranges; [MemblockWalk] has the proofs about
    walking free memory and early allocation. *)

From Stdlib Require Import Sorting.Sorted.
From S2P Require Import Prelude.

Definition INIT_MEMBLOCK_REGIONS : Z := 16.

(** [struct memblock_region] *)
Record memblock_region := Region { rbase : Z; rsize : Z }.

#[global] Instance memblock_region_eq_dec : EqDecision memblock_region.
Proof. solve_decision. Defined.

(** [struct memblock_type] *)
Record memblock_type := MemblockType {
  cnt : Z;
  total_size : Z;
  regions : list memblock_region;
}.

#[global] Instance memblock_type_eq_dec : EqDecision memblock_type.
Proof. solve_decision. Defined.

(** [struct memblock] *)
Record memblock := Memblock { memory : memblock_type; reserved : memblock_type }.

(** [struct memblock_cursor] *)
Record memblock_cursor := Cursor { c_memory : Z; c_reserved : Z }.

(** The arrays as [.bss] holds them at reset. *)
Definition empty_type : memblock_type :=
  MemblockType 0 0 (replicate (Z.to_nat INIT_MEMBLOCK_REGIONS) (Region 0 0)).

Definition empty_memblock : memblock := Memblock empty_type empty_type.

(** ** Array accesses *)

(** [type->regions[i]] *)
Definition get_region (t : memblock_type) (i : Z) : option memblock_region :=
  assert* (0 <=? i) in regions t !! Z.to_nat i.

Definition set_region (i : Z) (r : memblock_region) (t : memblock_type) : option memblock_type :=
  assert* (0 <=? i) && (i <? length (regions t)) in
  Some (MemblockType (cnt t) (total_size t) (<[Z.to_nat i := r]> (regions t))).

Definition set_cnt (c : Z) (t : memblock_type) : memblock_type :=
  MemblockType c (total_size t) (regions t).

Definition set_total (s : Z) (t : memblock_type) : memblock_type :=
  MemblockType (cnt t) s (regions t).

(** [memmove(&regions[dst], &regions[src], n * sizeof(struct memblock_region))] *)
Definition move_regions (dst src n : Z) (t : memblock_type) : option memblock_type :=
  let l := regions t in
  assert* (0 <=? dst) && (0 <=? src) && (dst + n <=? length l) && (src + n <=? length l) in
  Some (MemblockType (cnt t) (total_size t)
    (take (Z.to_nat dst) l ++ take (Z.to_nat n) (drop (Z.to_nat src) l)
       ++ drop (Z.to_nat (dst + n)) l)).

(** ** Operations *)

Definition cap_size (base size : Z) : Z :=
  if size <? UINTPTR_MAX - base then size else UINTPTR_MAX - base.

Definition memblock_insert_region (index base size : Z) (t : memblock_type) : option memblock_type :=
  let* t := move_regions (index + 1) index (u32 (cnt t - index)) t in
  let* t := set_region index (Region base size) t in
  let t := set_cnt (u32 (cnt t + 1)) t in
  Some (set_total (u64 (total_size t + size)) t).

Definition memblock_remove_region (index : Z) (t : memblock_type) : option memblock_type :=
  let* region := get_region t index in
  let t := set_total (u64 (total_size t - rsize region)) t in
  let* t := move_regions index (index + 1) (u32 (cnt t - index - 1)) t in
  Some (set_cnt (u32 (cnt t - 1)) t).

(** One round of the loop of [memblock_merge_regions] *)
Definition merge_step (s : Z * Z * memblock_type) : option ((Z * Z * memblock_type) + memblock_type) :=
  let '(index, end_rgn, t) := s in
  if index <? end_rgn then
    let* current := get_region t index in
    let* next := get_region t (index + 1) in
    if negb (u64 (rbase current + rsize current) =? rbase next) then
      Some (inl (u32 (index + 1), end_rgn, t))
    else
      let* t := set_region index (Region (rbase current) (u64 (rsize current + rsize next))) t in
      let* t := move_regions (index + 1) (index + 2) (u32 (cnt t - index - 2)) t in
      Some (inl (index, u32 (end_rgn - 1), set_cnt (u32 (cnt t - 1)) t))
  else Some (inr t).

(** No loop of the file runs more often than this: an index moves up one of
    at most 16 slots, or a slot is split, at most twice. *)
Definition region_fuel : nat := 64.

Definition memblock_merge_regions (start_rgn end_rgn : Z) (t : memblock_type) : option memblock_type :=
  let index := if start_rgn =? 0 then 0 else start_rgn - 1 in
  let end_rgn := if u32 (cnt t - 1) <? end_rgn then u32 (cnt t - 1) else end_rgn in
  iter region_fuel merge_step (index, end_rgn, t).

(** State of a pass of [memblock_add_range]: [index], [base], [added],
    [start_rgn], [end_rgn] and the region list. *)
Record add_state := AddState {
  a_index : Z; a_base : Z; a_added : Z; a_start : Z; a_end : Z; a_type : memblock_type;
}.

(** The insertion both places of the pass make when [insert] is set. *)
Definition add_insert (base size : Z) (s : add_state) : option add_state :=
  let start_rgn := if a_end s =? 0 then a_index s else a_start s in
  let* t := memblock_insert_region (a_index s) base size (a_type s) in
  Some (AddState (a_index s) (a_base s) (a_added s) start_rgn (u32 (a_index s + 1)) t).

Definition with_added (n : Z) (s : add_state) : add_state :=
  AddState (a_index s) (a_base s) n (a_start s) (a_end s) (a_type s).

Definition with_index (i : Z) (s : add_state) : add_state :=
  AddState i (a_base s) (a_added s) (a_start s) (a_end s) (a_type s).

Definition with_base (b : Z) (s : add_state) : add_state :=
  AddState (a_index s) b (a_added s) (a_start s) (a_end s) (a_type s).

(** The [for] loop of a pass. *)
Definition add_step (insert : bool) (end_ : Z) (s : add_state) : option (add_state + add_state) :=
  if a_index s <? cnt (a_type s) then
    let* region := get_region (a_type s) (a_index s) in
    let region_base := rbase region in
    let region_end := u64 (region_base + rsize region) in
    if end_ <=? region_base then Some (inr s)
    else if region_end <=? a_base s then Some (inl (with_index (u32 (a_index s + 1)) s))
    else
      let* s :=
        if a_base s <? region_base then
          let s := with_added (u32 (a_added s + 1)) s in
          if insert then
            let* s := add_insert (a_base s) (u64 (region_base - a_base s)) s in
            Some (with_index (u32 (a_index s + 1)) s)
          else Some s
        else Some s in
      let s := with_base (if region_end <? end_ then region_end else end_) s in
      Some (inl (with_index (u32 (a_index s + 1)) s))
  else Some (inr s).

(** From [repeat:] to the tests of [added]. *)
Definition add_pass (insert : bool) (original_base end_ : Z) (s : add_state) : option add_state :=
  let s := with_added 0 (with_base original_base s) in
  let* s := iter region_fuel (add_step insert end_) (with_index 0 s) in
  if a_base s <? end_ then
    let s := with_added (u32 (a_added s + 1)) s in
    if insert then add_insert (a_base s) (u64 (end_ - a_base s)) s else Some s
  else Some s.

Definition memblock_add_range (base size : Z) (t : memblock_type) : option (Z * memblock_type) :=
  let end_ := u64 (base + cap_size base size) in
  if size =? 0 then Some (0, t)
  else if cnt t =? 0 then
    let* t := set_region 0 (Region base size) t in
    Some (0, set_cnt 1 (set_total size t))
  else
    let* s := add_pass false base end_ (AddState 0 base 0 0 0 t) in
    if a_added s =? 0 then Some (0, a_type s)
    else if INIT_MEMBLOCK_REGIONS <? u32 (cnt (a_type s) + a_added s) then Some (-1, a_type s)
    else
      let* s := add_pass true base end_ s in
      if a_added s =? 0 then Some (0, a_type s)
      else
        let* t := memblock_merge_regions (a_start s) (a_end s) (a_type s) in
        Some (0, t).

(** One round of the loop of [memblock_isolate_range]: [index], [*start_rgn],
    [*end_rgn] and the region list. *)
Definition isolate_step (base end_ : Z) (s : Z * Z * Z * memblock_type)
    : option ((Z * Z * Z * memblock_type) + (Z * Z * memblock_type)) :=
  let '(index, start_rgn, end_rgn, t) := s in
  if index <? cnt t then
    let* region := get_region t index in
    let region_base := rbase region in
    let region_end := u64 (region_base + rsize region) in
    if end_ <=? region_base then Some (inr (start_rgn, end_rgn, t))
    else if region_end <=? base then Some (inl (u32 (index + 1), start_rgn, end_rgn, t))
    else if region_base <? base then
      let d := u64 (base - region_base) in
      let* t := set_region index (Region base (u64 (rsize region - d))) t in
      let t := set_total (u64 (total_size t - d)) t in
      let* t := memblock_insert_region index region_base d t in
      Some (inl (u32 (index + 1), start_rgn, end_rgn, t))
    else if end_ <? region_end then
      let d := u64 (end_ - region_base) in
      let* t := set_region index (Region end_ (u64 (rsize region - d))) t in
      let t := set_total (u64 (total_size t - d)) t in
      let* t := memblock_insert_region index region_base d t in
      Some (inl (u32 (u32 (index - 1) + 1), start_rgn, end_rgn, t))
    else
      let start_rgn := if end_rgn =? 0 then index else start_rgn in
      Some (inl (u32 (index + 1), start_rgn, u32 (index + 1), t))
  else Some (inr (start_rgn, end_rgn, t)).

(** Returns the code, [*start_rgn], [*end_rgn] and the region list. *)
Definition memblock_isolate_range (base size : Z) (t : memblock_type)
    : option (Z * Z * Z * memblock_type) :=
  let end_ := u64 (base + cap_size base size) in
  if size =? 0 then Some (0, 0, 0, t)
  else if INIT_MEMBLOCK_REGIONS <? u32 (cnt t + 2) then Some (-1, 0, 0, t)
  else
    let* '(start_rgn, end_rgn, t) := iter region_fuel (isolate_step base end_) (0, 0, 0, t) in
    Some (0, start_rgn, end_rgn, t).

(** [for (unsigned index = end_rgn; index-- > start_rgn;)] *)
Definition remove_step (start_rgn : Z) (s : Z * memblock_type) : option ((Z * memblock_type) + memblock_type) :=
  let '(index, t) := s in
  if start_rgn <? index then
    let index := u32 (index - 1) in
    let* t := memblock_remove_region index t in
    Some (inl (index, t))
  else Some (inr t).

Definition memblock_remove_range (base size : Z) (t : memblock_type) : option (Z * memblock_type) :=
  let* '(code, start_rgn, end_rgn, t) := memblock_isolate_range base size t in
  if negb (code =? 0) then Some (-1, t)
  else
    let* t := iter region_fuel (remove_step start_rgn) (end_rgn, t) in
    Some (0, t).

Definition memblock_add (base size : Z) (mb : memblock) : option (Z * memblock) :=
  let* '(code, t) := memblock_add_range base size (memory mb) in
  Some (code, Memblock t (reserved mb)).

Definition memblock_reserve (base size : Z) (mb : memblock) : option (Z * memblock) :=
  let* '(code, t) := memblock_add_range base size (reserved mb) in
  Some (code, Memblock (memory mb) t).

Definition memblock_phys_free (base size : Z) (mb : memblock) : option (Z * memblock) :=
  let* '(code, t) := memblock_remove_range base size (reserved mb) in
  Some (code, Memblock (memory mb) t).

(** The inner loop of [memblock_next_free], over the gaps between reserved
    regions: [inl] continues, [inr None] leaves the loop, [inr (Some _)]
    returns the range. *)
Definition gap_step (mb : memblock) (area_start area_end : Z) (c : memblock_cursor)
    : option (memblock_cursor + (memblock_cursor * option (Z * Z))) :=
  if c_reserved c <? u32 (cnt (reserved mb) + 1) then
    let* gap_start :=
      if c_reserved c =? 0 then Some 0
      else
        let* taken := get_region (reserved mb) (c_reserved c - 1) in
        Some (u64 (rbase taken + rsize taken)) in
    let* gap_end :=
      if c_reserved c <? cnt (reserved mb) then
        let* taken := get_region (reserved mb) (c_reserved c) in Some (rbase taken)
      else Some UINTPTR_MAX in
    if area_end <=? gap_start then Some (inr (c, None))
    else if area_start <? gap_end then
      let start := if gap_start <? area_start then area_start else gap_start in
      let end_ := if area_end <? gap_end then area_end else gap_end in
      let c' := if area_end <=? gap_end then Cursor (u32 (c_memory c + 1)) (c_reserved c)
                else Cursor (c_memory c) (u32 (c_reserved c + 1)) in
      Some (inr (c', Some (start, end_)))
    else Some (inl (Cursor (c_memory c) (u32 (c_reserved c + 1))))
  else Some (inr (c, None)).

(** The outer loop, over the memory regions. *)
Definition area_step (mb : memblock) (c : memblock_cursor)
    : option (memblock_cursor + (memblock_cursor * option (Z * Z))) :=
  if c_memory c <? cnt (memory mb) then
    let* area := get_region (memory mb) (c_memory c) in
    let* '(c, found) :=
      iter region_fuel (gap_step mb (rbase area) (u64 (rbase area + rsize area))) c in
    match found with
    | Some range => Some (inr (c, Some range))
    | None => Some (inl (Cursor (u32 (c_memory c + 1)) (c_reserved c)))
    end
  else Some (inr (c, None)).

(** [false] is [None]; [true] with [*start] and [*end] is [Some (start, end)]. *)
Definition memblock_next_free (mb : memblock) (c : memblock_cursor)
    : option (memblock_cursor * option (Z * Z)) :=
  iter region_fuel (area_step mb) c.

(** One round of the loop of [memblock_phys_alloc]. *)
Definition alloc_step (size align : Z) (mb : memblock) (c : memblock_cursor)
    : option (memblock_cursor + (Z * memblock)) :=
  let* '(c, found) := memblock_next_free mb c in
  match found with
  | None => Some (inr (0, mb))
  | Some (start, end_) =>
      let candidate := Z.land (u64 (u64 (start + align) - 1)) (u64 (Z.lnot (u64 (align - 1)))) in
      if (candidate <? end_) && (size <=? u64 (end_ - candidate)) then
        let* '(code, mb') := memblock_reserve candidate size mb in
        Some (inr (if negb (code =? 0) then 0 else candidate, mb'))
      else Some (inl c)
  end.

Definition memblock_phys_alloc (size align : Z) (mb : memblock) : option (Z * memblock) :=
  if size =? 0 then Some (0, mb)
  else
    let align := if align =? 0 then 1 else align in
    iter region_fuel (alloc_step size align mb) (Cursor 0 0).

#[global] Arguments get_region : simpl never.
#[global] Arguments set_region : simpl never.
#[global] Arguments move_regions : simpl never.
#[global] Arguments memblock_insert_region : simpl never.
#[global] Arguments memblock_remove_region : simpl never.

(** ** The live regions and their meaning *)

Definition rend (r : memblock_region) : Z := rbase r + rsize r.

(** The first [cnt] slots hold [l]. *)
Definition holds (t : memblock_type) (l : list memblock_region) : Prop :=
  exists junk, regions t = l ++ junk /\ cnt t = length l /\ length (l ++ junk) = 16%nat.

(** A region that is not empty and ends inside the address space. *)
Definition region_ok (r : memblock_region) : Prop :=
  0 <= rbase r /\ 0 < rsize r /\ rend r <= UINTPTR_MAX.

Definition covers (l : list memblock_region) (x : Z) : Prop :=
  exists r, r ∈ l /\ rbase r <= x < rend r.

Definition sum_sizes (l : list memblock_region) : Z := foldr (fun r n => rsize r + n) 0 l.

(** In address order, not overlapping; and with a hole between any two. *)
Definition apart (a b : memblock_region) : Prop := rend a <= rbase b.
Definition strictly_apart (a b : memblock_region) : Prop := rend a < rbase b.

(** The invariant of a region array: the live slots are sorted, disjoint,
    merged (never adjacent), none is empty or wraps, and [total_size] is the
    number of bytes they cover. *)
Record type_wf (t : memblock_type) (l : list memblock_region) : Prop := {
  wf_holds : holds t l;
  wf_ok : Forall region_ok l;
  wf_sorted : StronglySorted strictly_apart l;
  wf_total : total_size t = u64 (sum_sizes l);
}.

(** ** Array lemmas *)

Lemma holds_length t l : holds t l -> (length l <= 16)%nat.
Proof. intros (junk & _ & _ & H). rewrite length_app in H. lia. Qed.

Lemma holds_cnt t l : holds t l -> cnt t = length l.
Proof. by intros (junk & _ & H & _). Qed.

Lemma holds_get t l1 r l2 i :
  holds t (l1 ++ r :: l2) -> i = Z.of_nat (length l1) -> get_region t i = Some r.
Proof.
  intros (junk & Hr & _ & _) ->. unfold get_region. rewrite Hr.
  eval_cmp. rewrite Nat2Z.id.
  rewrite <- app_assoc, lookup_app_r, Nat.sub_diag by lia. done.
Qed.

Lemma holds_set t l1 r l2 i r' :
  holds t (l1 ++ r :: l2) -> i = Z.of_nat (length l1) ->
  exists t', set_region i r' t = Some t' /\ holds t' (l1 ++ r' :: l2) /\ total_size t' = total_size t.
Proof.
  intros (junk & Hr & Hc & Hl) ->. unfold set_region.
  rewrite Hr. rewrite !length_app in *. cbn [length] in *. eval_cmp. eexists. split; [done|]. split; [|done]. exists junk. cbn.
  rewrite Nat2Z.id, <- !app_assoc, insert_app_r_alt, Nat.sub_diag by lia. cbn.
  split_and!; [done|len|len].
Qed.

Lemma insert_region_holds t l1 l2 b s :
  holds t (l1 ++ l2) -> (length (l1 ++ l2) < 16)%nat ->
  exists t', memblock_insert_region (length l1) b s t = Some t' /\
    holds t' (l1 ++ Region b s :: l2) /\ total_size t' = u64 (total_size t + s).
Proof.
  intros (junk & Hr & Hc & Hl) Hlt. rewrite length_app in *.
  destruct junk as [|j junk]; [len|].
  unfold memblock_insert_region, move_regions. rewrite Hc. unwrap.
  rewrite Hr. rewrite !length_app in *. cbn [length] in *.
  eval_cmp. cbn [mbind option_bind].
  replace (Z.to_nat ((length l1 + length l2)%nat - length l1)) with (length l2) by lia.
  replace (Z.to_nat (length l1 + 1)) with (length l1 + 1)%nat by lia.
  rewrite Nat2Z.id.
  replace (Z.to_nat (length l1 + 1 + ((length l1 + length l2)%nat - length l1)))
    with (length (l1 ++ l2) + 1)%nat by (rewrite length_app; lia).
  rewrite <- drop_drop, drop_app_length. cbn [drop].
  rewrite <- app_assoc, drop_app_length, take_app_length.
  set (x := take (length l1 + 1) (l1 ++ l2 ++ j :: junk)).
  assert (exists y, x = l1 ++ [y]) as [y ->].
  { destruct (l2 ++ j :: junk) as [|y rest] eqn:E; [by destruct l2|].
    exists y. subst x. rewrite take_app_ge by lia.
    replace (length l1 + 1 - length l1)%nat with 1%nat by lia. cbn. by rewrite take_0. }
  unfold set_region. cbn [regions cnt total_size].
  rewrite !length_app. cbn [length]. eval_cmp. cbn [mbind option_bind]. rewrite Nat2Z.id.
  eexists. split; [done|]. split; [|done]. exists junk. cbn.
  rewrite <- !app_assoc, insert_app_r_alt, Nat.sub_diag by lia. cbn.
  split_and!; [done|unwrap; len|len].
Qed.

(** Moving the slots above [i] down and shortening the count drops slot [i]. *)
Lemma move_down_holds t l1 r l2 i n :
  holds t (l1 ++ r :: l2) -> i = Z.of_nat (length l1) -> n = u32 (cnt t - i - 1) ->
  exists t', move_regions i (i + 1) n t = Some t' /\ cnt t' = cnt t /\
    total_size t' = total_size t /\ holds (set_cnt (u32 (cnt t' - 1)) t') (l1 ++ l2).
Proof.
  intros (junk & Hr & Hc & Hl) -> ->. unfold move_regions. rewrite Hc, Hr.
  rewrite !length_app in *. cbn [length] in *. unwrap.
  eval_cmp. cbn [mbind option_bind].
  replace (Z.to_nat ((length l1 + S (length l2))%nat - length l1 - 1)) with (length l2) by lia.
  replace (Z.to_nat (length l1 + 1)) with (length l1 + 1)%nat by lia.
  replace (Z.to_nat (length l1 + ((length l1 + S (length l2))%nat - length l1 - 1)))
    with (length l1 + length l2)%nat by lia.
  rewrite Nat2Z.id, <- drop_drop, <- !app_assoc, !drop_app_length. cbn [app drop].
  rewrite drop_0, !take_app_length.
  eexists. split; [done|]. split; [done|]. split; [done|].
  exists (drop (length l1 + length l2) (l1 ++ r :: l2 ++ junk)). cbn.
  split_and!; [by rewrite <- app_assoc|unwrap; len|]. rewrite !length_app, length_drop. len.
Qed.

Lemma remove_region_holds t l1 r l2 :
  holds t (l1 ++ r :: l2) ->
  exists t', memblock_remove_region (length l1) t = Some t' /\
    holds t' (l1 ++ l2) /\ total_size t' = u64 (total_size t - rsize r).
Proof.
  intros Ht. unfold memblock_remove_region. rewrite (holds_get t l1 r l2 _ Ht eq_refl).
  cbn [mbind option_bind].
  destruct (move_down_holds (set_total (u64 (total_size t - rsize r)) t) l1 r l2 (length l1)
    (u32 (cnt t - length l1 - 1))) as (t' & E & Hc & Htot & Hh); try done.
  change (cnt (set_total (u64 (total_size t - rsize r)) t)) with (cnt t).
  rewrite E. cbn [mbind option_bind]. eexists. split; [done|]. split; [done|]. cbn. by rewrite Htot.
Qed.

(** ** Sorted lists of regions *)

Lemma covers_nil x : covers [] x <-> False.
Proof. unfold covers. set_solver. Qed.

Lemma covers_cons r l x : covers (r :: l) x <-> rbase r <= x < rend r \/ covers l x.
Proof. unfold covers. set_solver. Qed.

Lemma covers_app l1 l2 x : covers (l1 ++ l2) x <-> covers l1 x \/ covers l2 x.
Proof. unfold covers. set_solver. Qed.

Lemma sum_sizes_app l1 l2 : sum_sizes (l1 ++ l2) = sum_sizes l1 + sum_sizes l2.
Proof. unfold sum_sizes. induction l1 as [|r l1 IH]; cbn; [lia|]. rewrite IH. lia. Qed.

Lemma sum_sizes_cons r l : sum_sizes (r :: l) = rsize r + sum_sizes l.
Proof. done. Qed.

#[export] Hint Rewrite covers_nil covers_cons covers_app : miaow.

Lemma strictly_apart_weak l : StronglySorted strictly_apart l -> StronglySorted apart l.
Proof.
  induction 1 as [|r l Hs IH Hf]; constructor; [done|].
  eapply Forall_impl; [exact Hf|]. unfold strictly_apart, apart. intros ? ?. lia.
Qed.

Lemma sorted_app_iff (R : memblock_region -> memblock_region -> Prop) l1 l2 :
  StronglySorted R (l1 ++ l2) <->
  StronglySorted R l1 /\ StronglySorted R l2 /\ (forall a b, a ∈ l1 -> b ∈ l2 -> R a b).
Proof.
  induction l1 as [|r l1 IH]; cbn.
  - split; [intros H|intros (_ & H & _)]; [|done]. split_and!; [constructor|done|set_solver].
  - split.
    + inversion 1 as [|? ? Hs Hf]; subst. apply IH in Hs as (H1 & H2 & H12).
      rewrite Forall_app in Hf. destruct Hf as [Hf1 Hf2].
      rewrite Forall_forall in Hf2. split_and!; [by constructor|done|].
      intros a b [->|Ha]%elem_of_cons Hb; auto.
    + intros (H1 & H2 & H12). inversion H1 as [|? ? Hs Hf]; subst. constructor.
      * apply IH. split_and!; [done|done|]. intros a b Ha Hb. apply H12; [by constructor|done].
      * rewrite Forall_app. split; [done|]. apply Forall_forall. intros b Hb.
        apply H12; [constructor|done].
Qed.

(** Consecutive regions [i] and [i + 1] have a hole between them. *)
Definition hole_at (l : list memblock_region) (i : nat) : Prop :=
  forall a b, l !! i = Some a -> l !! S i = Some b -> strictly_apart a b.

Lemma sorted_hole l i : StronglySorted strictly_apart l -> hole_at l i.
Proof.
  intros Hs a b Ha Hb. apply list_elem_of_split_length in Ha as (l1 & l2 & -> & ->).
  apply sorted_app_iff in Hs as (_ & Hs & _). inversion Hs as [|? ? _ Hf]; subst.
  rewrite Forall_forall in Hf. apply Hf.
  rewrite lookup_app_r in Hb by lia. replace (S (length l1) - length l1)%nat with 1%nat in Hb by lia.
  cbn in Hb. by eapply list_elem_of_lookup_2.
Qed.

(** Holes everywhere between regions in order make the list strictly sorted. *)
Lemma holes_sorted l :
  Forall region_ok l -> (forall i, hole_at l i) -> StronglySorted strictly_apart l.
Proof.
  intros Hok Hh. induction l as [|r l IH]; [constructor|].
  apply Forall_cons in Hok as [Hr Hok].
  assert (Hs : StronglySorted strictly_apart l).
  { apply IH; [done|]. intros i a b Ha Hb. by apply (Hh (S i)). }
  constructor; [done|]. destruct l as [|r' l]; [constructor|].
  assert (Hrr : strictly_apart r r') by (by apply (Hh 0%nat)).
  inversion Hs as [|? ? _ Hf]; subst. constructor; [done|].
  apply Forall_cons in Hok as [[? [? ?]] _].
  eapply Forall_impl; [exact Hf|]. unfold strictly_apart, rend in *. intros ? ?. cbn in *. lia.
Qed.

(** ** Adding a range *)

(** What a pass does, as a function on the live regions: the parts of
    [b .. e) that no region covers are put in between. *)
Fixpoint fill (b e : Z) (l : list memblock_region) : list memblock_region :=
  let rest := if b <? e then [Region b (e - b)] else [] in
  match l with
  | [] => rest
  | r :: l' =>
      if e <=? rbase r then rest ++ r :: l'
      else if rend r <=? b then r :: fill b e l'
      else (if b <? rbase r then [Region b (rbase r - b)] else []) ++ r :: fill (Z.min (rend r) e) e l'
  end.

Lemma fill_covers b e l x :
  b <= e -> StronglySorted apart l -> Forall region_ok l ->
  covers (fill b e l) x <-> covers l x \/ b <= x < e.
Proof.
  intros Hbe Hs. revert b Hbe. induction Hs as [|r l Hs IH Hf]; intros b Hbe Hok; cbn [fill].
  - case_cmp; autorewrite with miaow; cbn; unfold rend; cbn; intuition lia.
  - apply Forall_cons in Hok as [Hr Hok]. unfold region_ok in Hr.
    repeat case_cmp; autorewrite with miaow; try (rewrite IH by (auto; unfold rend in *; lia));
      unfold rend in *; cbn; intuition lia.
Qed.

Lemma fill_none e l : fill e e l = l.
Proof.
  induction l as [|r l IH]; cbn [fill]; rewrite Z.ltb_irrefl; [done|].
  repeat case_cmp; cbn [app]; rewrite ?Z.min_r by lia; rewrite ?IH; try done. lia.
Qed.

(** Every region of the result is sound and starts at or above a bound that
    is below everything. *)
Lemma fill_ok b e l :
  0 <= b -> b <= e <= UINTPTR_MAX -> Forall region_ok l -> Forall region_ok (fill b e l).
Proof.
  intros Hb0 Hbe Hok. revert b Hb0 Hbe. induction Hok as [|r l Hr Hok IH]; intros b Hb0 Hbe; cbn [fill].
  - case_cmp; repeat constructor; cbn; unfold rend; cbn; lia.
  - unfold region_ok in Hr. unfold rend in *.
    repeat case_cmp; cbn [app]; repeat (constructor; [by (unfold region_ok, rend; cbn; lia)|]);
      try done; try (apply IH; lia).
Qed.

Lemma fill_above z b e l :
  z <= b -> b <= e -> Forall region_ok l -> Forall (fun r => z <= rbase r) l ->
  Forall (fun r => z <= rbase r) (fill b e l).
Proof.
  intros Hz Hbe Hok. revert b Hz Hbe. induction Hok as [|r l Hr Hok IH]; intros b Hz Hbe Hf; cbn [fill].
  - case_cmp; repeat constructor; done.
  - apply Forall_cons in Hf as [Hzr Hf]. unfold region_ok, rend in *.
    repeat case_cmp; cbn [app]; repeat (constructor; [cbn; lia|]); try done; apply IH; auto; lia.
Qed.

Lemma fill_sorted b e l :
  b <= e -> Forall region_ok l -> StronglySorted apart l -> StronglySorted apart (fill b e l).
Proof.
  intros Hbe Hok Hs. revert b Hbe. induction Hs as [|r l Hs IH Hf]; intros b Hbe; cbn [fill].
  - case_cmp; repeat constructor.
  - apply Forall_cons in Hok as [Hr Hok]. unfold region_ok in Hr.
    assert (Hab : forall b', rend r <= b' -> b' <= e -> Forall (apart r) (fill b' e l)).
    { intros b' ? ?. apply fill_above; auto. }
    assert (Hlow : forall b', b' <= rbase r -> Forall (apart (Region b (b' - b))) l).
    { intros b' Hb'. eapply Forall_impl; [exact Hf|]. unfold apart, rend in *. intros ? ?. cbn. lia. }
    destruct (Z.leb_spec e (rbase r)); [|destruct (Z.leb_spec (rend r) b)].
    + case_cmp; cbn [app]; repeat constructor; auto. unfold apart, rend. cbn. lia.
    + constructor; [by apply IH|by apply Hab].
    + assert (Hf1 : Forall (apart r) (fill (Z.min (rend r) e) e l)).
      { destruct (Z.le_gt_cases (rend r) e); [apply Hab; lia|].
        by rewrite Z.min_r, fill_none by lia. }
      assert (Hs1 : StronglySorted apart (r :: fill (Z.min (rend r) e) e l)).
      { constructor; [apply IH; [done|lia]|done]. }
      case_cmp; cbn [app]; [|done]. constructor; [done|].
      constructor; [unfold apart, rend; cbn; lia|].
      eapply Forall_impl; [exact Hf1|]. unfold apart, rend in *. intros ? ?. cbn. lia.
Qed.

Lemma fill_length b e l : (length l <= length (fill b e l) <= 2 * length l + 1)%nat.
Proof.
  revert b. induction l as [|r l IH]; intros b; cbn [fill].
  - case_cmp; cbn; lia.
  - pose proof (IH b). pose proof (IH (Z.min (rend r) e)). repeat case_cmp; len.
Qed.

(** Nothing added means nothing changed. *)
Lemma fill_same_length b e l : length (fill b e l) = length l -> fill b e l = l.
Proof.
  revert b. induction l as [|r l IH]; intros b; cbn [fill]; [by case_cmp|].
  pose proof (fill_length (Z.min (rend r) e) e l).
  repeat case_cmp; cbn [app length]; intros Hl; try lia; try done; f_equal; apply IH; lia.
Qed.

(** The loop leaves either at the end of the list or at a region that starts
    at or after [e]; then only the tail piece of the range is missing. *)
Definition stops_at (e : Z) (l : list memblock_region) : Prop :=
  match l with [] => True | r :: _ => e <= rbase r end.

Lemma fill_stop b e l :
  stops_at e l -> fill b e l = (if b <? e then [Region b (e - b)] else []) ++ l.
Proof. destruct l as [|r l]; cbn; [by rewrite app_nil_r|]. intros. by eval_cmp. Qed.

Section add_pass.
Context (t0 : memblock_type) (l0 : list memblock_region) (b0 e : Z).
Hypothesis Ht0 : holds t0 l0.
Hypothesis Hok0 : Forall region_ok l0.
Hypothesis Hsorted0 : StronglySorted strictly_apart l0.
Hypothesis Hb0 : 0 <= b0 <= e.
Hypothesis He : e <= UINTPTR_MAX.

(** Number of regions a pass from [b] over [l] adds. *)
Let missing (b : Z) (l : list memblock_region) : Z := length (fill b e l) - length l.

(** *** The counting pass *)

Definition count_inv (s : add_state) : Prop :=
  exists l1 l2, l0 = l1 ++ l2 /\ a_index s = length l1 /\ 0 <= a_base s <= e /\ 0 <= a_added s /\
    a_added s + missing (a_base s) l2 = missing b0 l0 /\ a_type s = t0 /\ a_start s = 0 /\ a_end s = 0.

Definition count_done (s : add_state) : Prop :=
  exists l1 l2, l0 = l1 ++ l2 /\ stops_at e l2 /\ 0 <= a_added s /\
    a_added s + missing (a_base s) l2 = missing b0 l0 /\ a_type s = t0 /\ a_start s = 0 /\ a_end s = 0.

Lemma missing_bound b l : (length l <= 16)%nat -> 0 <= missing b l <= 17.
Proof. intros Hl. unfold missing. pose proof (fill_length b e l). lia. Qed.

(** The step of either pass on a region, with the wraps removed. *)
Lemma region_end_id l1 r l2 : l0 = l1 ++ r :: l2 -> u64 (rbase r + rsize r) = rend r /\ region_ok r.
Proof.
  intros ->. apply Forall_app in Hok0 as [_ Hok]. apply Forall_cons in Hok as [Hr _].
  split; [|done]. unfold region_ok, rend, UINTPTR_MAX in *. by unwrap.
Qed.

Lemma count_step s :
  count_inv s ->
  (exists s', add_step false e s = Some (inl s') /\ count_inv s' /\
     (Z.to_nat (16 - a_index s') < Z.to_nat (16 - a_index s))%nat) \/
  (exists s', add_step false e s = Some (inr s') /\ count_done s').
Proof.
  intros (l1 & l2 & Hl & Hi & Hb & Ha & Hm & Ht & Hst & Hen).
  pose proof (holds_length _ _ Ht0) as Hlen.
  unfold add_step. rewrite Ht, Hi, (holds_cnt _ _ Ht0). destruct l2 as [|r l2].
  { right. rewrite Hl, app_nil_r. eval_cmp. eexists. split; [done|]. exists l1, []. done. }
  assert (Hlen1 : (length l1 + S (length l2) <= 16)%nat) by (rewrite Hl in Hlen; len).
  rewrite (proj2 (Z.ltb_lt (length l1) _)) by (rewrite Hl; len).
  rewrite (holds_get t0 l1 r l2) by (rewrite <- ?Hl; done). cbn [mbind option_bind].
  destruct (region_end_id l1 r l2 Hl) as [-> Hr]. unfold region_ok in Hr.
  pose proof (missing_bound (a_base s) l2 ltac:(lia)).
  pose proof (missing_bound (Z.min (rend r) e) l2 ltac:(lia)).
  assert (Hm0 : 0 <= missing b0 l0 <= 17) by (apply missing_bound; lia).
  assert (Hl' : l0 = (l1 ++ [r]) ++ l2) by (by rewrite <- app_assoc).
  destruct (Z.leb_spec e (rbase r)) as [He'|He'].
  { right. eexists. split; [done|]. exists l1, (r :: l2). done. }
  left. destruct (Z.leb_spec (rend r) (a_base s)) as [Hrb|Hrb].
  - eexists. split; [done|]. cbn. unwrap. split; [|lia]. exists (l1 ++ [r]), l2. cbn.
    split_and!; try done; try lia; [unwrap; len|].
    rewrite <- Hm. unfold missing. cbn [fill]. eval_cmp. len.
  - replace (if rend r <? e then rend r else e) with (Z.min (rend r) e) by (case_cmp; lia).
    assert (Hf : missing (a_base s) (r :: l2) =
      (if a_base s <? rbase r then 1 else 0) + missing (Z.min (rend r) e) l2).
    { unfold missing. cbn [fill]. eval_cmp. case_cmp; len. }
    unfold rend in *. rewrite Hf in Hm. clear Hf.
    case_cmp; cbn [mbind option_bind]; (eexists; split; [done|]); cbn;
      (split; [|rewrite ?Hi; unwrap; lia]); exists (l1 ++ [r]), l2; cbn;
      split_and!; try done; rewrite ?Hi; unwrap; try len.
Qed.

Lemma count_pass :
  exists s, add_pass false b0 e (AddState 0 b0 0 0 0 t0) = Some s /\
    a_added s = missing b0 l0 /\ a_type s = t0 /\ a_start s = 0 /\ a_end s = 0.
Proof.
  pose proof (holds_length _ _ Ht0) as Hlen.
  unfold add_pass. cbn -[iter].
  destruct (iter_rule count_inv count_done (fun s => Z.to_nat (16 - a_index s)) (add_step false e)
    count_step region_fuel (AddState 0 b0 0 0 0 t0)) as (s & Hs & l1 & l2 & Hl & Hstop & Ha & Hm & Ht & Hst & Hen).
  { exists [], l0. cbn. split_and!; done || lia. } { cbn. unfold region_fuel. lia. }
  unfold with_index, with_added, with_base. cbn -[iter]. rewrite Hs. cbn -[iter].
  assert (Hm0 : 0 <= missing b0 l0 <= 17) by (apply missing_bound; lia).
  unfold missing in Hm at 1. rewrite (fill_stop _ _ _ Hstop), length_app in Hm.
  case_cmp; cbn [length] in Hm; (eexists; split; [done|]); cbn; split_and!; try done; unwrap; lia.
Qed.

(** *** The inserting pass *)

Hypothesis Hroom : (length (fill b0 e l0) <= 16)%nat.

(** The regions from [start] to [end] are the only ones that can touch a
    neighbour; with [end = 0] nothing has been inserted. *)
Definition holes_outside (l : list memblock_region) (start_ end_ : Z) : Prop :=
  forall i : nat, end_ = 0 \/ (i + 1 < start_) \/ end_ <= i -> hole_at l i.

Record ins_inv (l1 l2 : list memblock_region) (s : add_state) : Prop := {
  ins_holds : holds (a_type s) (l1 ++ l2);
  ins_index : a_index s = length l1;
  ins_base : 0 <= a_base s <= e;
  ins_fill : l1 ++ fill (a_base s) e l2 = fill b0 e l0;
  ins_added : 0 <= a_added s /\ a_added s = length (l1 ++ l2) - length l0;
  ins_total : total_size (a_type s) = u64 (sum_sizes (l1 ++ l2));
  ins_holes : holes_outside (l1 ++ l2) (a_start s) (a_end s);
  ins_range : a_end s = 0 /\ a_start s = 0 \/ 0 <= a_start s < a_end s /\ a_end s <= length l1;
}.

(** Inserting at the place the loop has reached keeps the holes outside. *)
Lemma holes_insert l1 l2 r s e1 :
  holes_outside (l1 ++ l2) s e1 -> e1 = 0 /\ s = 0 \/ 0 <= s < e1 /\ e1 <= length l1 ->
  holes_outside (l1 ++ r :: l2) (if e1 =? 0 then length l1 else s) (length l1 + 1).
Proof.
  intros Hh Hr i Hi x y Hx Hy. assert (Hi' : i + 1 < length l1 \/ length l1 + 1 <= i).
  { revert Hi. case_cmp; lia. }
  destruct Hi' as [Hi'|Hi'].
  - apply (Hh i); [revert Hi; case_cmp; lia| |]; by rewrite lookup_app_l in * by lia.
  - destruct i as [|i]; [lia|]. apply (Hh i); [lia| |]; rewrite lookup_app_r in * by lia.
    + by replace (S i - length l1)%nat with (S (i - length l1)) in Hx by lia.
    + by replace (S (S i) - length l1)%nat with (S (S i - length l1)) in Hy by lia.
Qed.

Lemma add_insert_spec l1 l2 b s st :
  holds (a_type st) (l1 ++ l2) -> (length (l1 ++ l2) < 16)%nat -> a_index st = length l1 ->
  total_size (a_type st) = u64 (sum_sizes (l1 ++ l2)) ->
  holes_outside (l1 ++ l2) (a_start st) (a_end st) ->
  a_end st = 0 /\ a_start st = 0 \/ 0 <= a_start st < a_end st /\ a_end st <= length l1 ->
  exists st', add_insert b s st = Some st' /\ holds (a_type st') (l1 ++ Region b s :: l2) /\
    total_size (a_type st') = u64 (sum_sizes (l1 ++ Region b s :: l2)) /\
    a_index st' = length l1 /\ a_base st' = a_base st /\ a_added st' = a_added st /\
    holes_outside (l1 ++ Region b s :: l2) (a_start st') (a_end st') /\
    0 <= a_start st' < a_end st' /\ a_end st' = length l1 + 1.
Proof.
  intros Hh Hl Hi Ht Hhole Hr. unfold add_insert. rewrite Hi.
  destruct (insert_region_holds (a_type st) l1 l2 b s Hh Hl) as (t' & -> & Hh' & Ht').
  cbn [mbind option_bind]. eexists. split; [done|]. cbn.
  assert (length l1 <= 16) by len. unwrap. split_and!; try done.
  - rewrite Ht', Ht. unfold u64. rewrite Zplus_mod_idemp_l. f_equal. rewrite !sum_sizes_app, sum_sizes_cons. cbn [rsize]. lia.
  - by apply holes_insert.
  - case_cmp; lia.
  - case_cmp; lia.
Qed.

Definition ins_goal (s : add_state) : Prop :=
  exists l1 l2, stops_at e l2 /\ ins_inv l1 l2 s.

Lemma ins_room l1 l2 s :
  ins_inv l1 l2 s -> (length (l1 ++ l2) <= length (fill b0 e l0))%nat.
Proof.
  intros Hs. rewrite <- (ins_fill _ _ _ Hs). pose proof (fill_length (a_base s) e l2). len.
Qed.

(** The regions the pass has not reached yet are still those of [l0]. *)
Definition suffix_of_l0 (l2 : list memblock_region) : Prop := exists l, l0 = l ++ l2.

Lemma ins_step s :
  (exists l1 l2, suffix_of_l0 l2 /\ ins_inv l1 l2 s) ->
  (exists s', add_step true e s = Some (inl s') /\
     (exists l1 l2, suffix_of_l0 l2 /\ ins_inv l1 l2 s') /\
     (Z.to_nat (32 - a_index s') < Z.to_nat (32 - a_index s))%nat) \/
  (exists s', add_step true e s = Some (inr s') /\ ins_goal s').
Proof.
  intros (l1 & l2 & [l Hsuf] & Hs). pose proof (ins_room _ _ _ Hs) as Hrm.
  pose proof Hs as [Hh Hi Hb Hf Ha Ht Hho Hrg].
  unfold add_step. rewrite (holds_cnt _ _ Hh), Hi. destruct l2 as [|r l2].
  { right. rewrite app_nil_r. eval_cmp. eexists. split; [done|]. by exists l1, []. }
  rewrite (proj2 (Z.ltb_lt (length l1) _)) by len.
  rewrite (holds_get _ l1 r l2) by done. cbn [mbind option_bind].
  destruct (region_end_id l r l2 Hsuf) as [-> Hr]. unfold region_ok in Hr.
  assert (Hl1 : (length l1 + S (length l2) <= 16)%nat) by len.
  destruct (Z.leb_spec e (rbase r)) as [He'|He'].
  { right. eexists. split; [done|]. by exists l1, (r :: l2). }
  left. assert (Hsuf' : suffix_of_l0 l2) by (exists (l ++ [r]); by rewrite <- app_assoc).
  destruct (Z.leb_spec (rend r) (a_base s)) as [Hrb|Hrb].
  - eexists. split; [done|]. cbn. unwrap. split; [|lia]. exists (l1 ++ [r]), l2. split; [done|].
    cbn [fill] in Hf. destruct (Z.leb_spec e (rbase r)); [lia|].
    destruct (Z.leb_spec (rend r) (a_base s)); [|lia].
    split; cbn; rewrite <- ?app_assoc; try done; len.
  - replace (if rend r <? e then rend r else e) with (Z.min (rend r) e) by (case_cmp; lia).
    cbn [fill] in Hf. destruct (Z.leb_spec e (rbase r)); [lia|].
    destruct (Z.leb_spec (rend r) (a_base s)); [lia|].
    destruct (Z.ltb_spec (a_base s) (rbase r)) as [Hlt|Hge].
    + pose proof (fill_length (Z.min (rend r) e) e l2) as Hfl.
      assert (Hlt16 : (length (l1 ++ r :: l2) < 16)%nat).
      { rewrite <- Hf in Hroom. clear Hrm Ha. len. }
      destruct (add_insert_spec l1 (r :: l2) (a_base s) (u64 (rbase r - a_base s))
        (with_added (u32 (a_added s + 1)) s)) as (s' & E & Hh' & Ht' & Hi' & Hb' & Ha' & Hho' & Hr' & Hn');
        try done.
      unfold rend, UINTPTR_MAX in *. unfold with_added in *.
      cbn [a_base a_index a_start a_end a_type a_added] in *. 
      rewrite E. cbn [mbind option_bind]. eexists. split; [done|].
      cbn. rewrite Hi'. unwrap. split; [|lia].
      unwrap_in Ht'. unwrap_in Hh'. unwrap_in Hho'.
      exists (l1 ++ [Region (a_base s) (rbase r - a_base s); r]), l2. split; [done|].
      split; cbn; rewrite <- ?app_assoc; cbn; try done; try len.
      rewrite Ha'. cbn. unwrap; len.
    + cbn [mbind option_bind]. eexists. split; [done|]. cbn. rewrite ?Hi. unwrap. split; [|lia].
      exists (l1 ++ [r]), l2. split; [done|]. unfold rend in *.
      split; cbn; rewrite <- ?app_assoc; try done; len.
Qed.

(** The result of the inserting pass. *)
Lemma insert_pass s0 :
  a_type s0 = t0 -> a_start s0 = 0 -> a_end s0 = 0 -> total_size t0 = u64 (sum_sizes l0) ->
  exists s, add_pass true b0 e s0 = Some s /\
    holds (a_type s) (fill b0 e l0) /\ total_size (a_type s) = u64 (sum_sizes (fill b0 e l0)) /\
    a_added s = missing b0 l0 /\ holes_outside (fill b0 e l0) (a_start s) (a_end s) /\
    (a_end s = 0 /\ a_start s = 0 \/ 0 <= a_start s < a_end s /\ a_end s <= length (fill b0 e l0)).
Proof.
  intros Ht Hst Hen Htot. pose proof (holds_length _ _ Ht0) as Hlen.
  unfold add_pass. cbn -[iter].
  destruct (iter_rule (fun s => exists l1 l2, suffix_of_l0 l2 /\ ins_inv l1 l2 s) ins_goal
    (fun s => Z.to_nat (32 - a_index s)) (add_step true e) ins_step region_fuel
    (AddState 0 b0 0 0 0 t0)) as (s & Hs & l1 & l2 & Hstop & Hinv).
  { exists [], l0. split; [by exists []|]. split; cbn; try done; try lia; try by left.
    intros i _. by apply sorted_hole. }
  { cbn. unfold region_fuel. lia. }
  unfold with_index, with_added, with_base. cbn -[iter]. rewrite Ht, Hst, Hen, Hs. cbn -[iter].
  pose proof (ins_room _ _ _ Hinv) as Hrm.
  pose proof Hinv as [Hh Hi Hb Hf Ha Ht' Hho Hrg].
  rewrite (fill_stop _ _ _ Hstop) in Hf. pose proof Hroom as Hrm'. unfold missing. rewrite <- Hf in Hrm, Hrm' |- *.
  destruct (Z.ltb_spec (a_base s) e) as [Hlt|Hge].
  - destruct (add_insert_spec l1 l2 (a_base s) (u64 (e - a_base s))
      (with_added (u32 (a_added s + 1)) s)) as (s' & E & Hh' & Ht'' & Hi' & Hb' & Ha' & Hho' & Hr' & Hn');
      try done; [len|].
    unfold UINTPTR_MAX in *. cbn [app] in *.
    unwrap_in Ht''. unwrap_in Hh'. unwrap_in Hho'. 
    exists s'. split_and!; try done; [|right; len].
    rewrite Ha'. cbn. unwrap; len.
  - exists s. cbn [app] in *. split_and!; try done; try lia. destruct Hrg; [by left|right; len].
Qed.

End add_pass.

(** ** Merging *)

Section merge.
Context (F : list memblock_region) (total : Z).

Record merge_inv (l : list memblock_region) (s : Z * Z * memblock_type) : Prop := {
  mg_holds : holds s.2 l;
  mg_total : total_size s.2 = total;
  mg_ok : Forall region_ok l;
  mg_sorted : StronglySorted apart l;
  mg_covers x : covers l x <-> covers F x;
  mg_sum : sum_sizes l = sum_sizes F;
  mg_index : 0 <= s.1.1;
  mg_end : s.1.2 < length l;
  mg_holes i : Z.of_nat i < s.1.1 \/ s.1.2 <= i -> hole_at l i;
}.

Definition merge_done (t : memblock_type) : Prop :=
  exists l, holds t l /\ total_size t = total /\ Forall region_ok l /\
    StronglySorted strictly_apart l /\ (forall x, covers l x <-> covers F x) /\
    sum_sizes l = sum_sizes F.

(** The pair of regions at [index], merged. *)
Definition merged (a b : memblock_region) : memblock_region := Region (rbase a) (rsize a + rsize b).

Lemma merge_pair_inv l1 a b l2 index er t t' :
  merge_inv (l1 ++ a :: b :: l2) (index, er, t) -> index = length l1 -> index < er ->
  rend a = rbase b -> holds t' (l1 ++ merged a b :: l2) -> total_size t' = total ->
  merge_inv (l1 ++ merged a b :: l2) (index, er - 1, t').
Proof.
  intros [Hh Ht Hok Hs Hcov Hsum Hi He Hho] -> Hlt Hab Hh' Ht'. cbn in *.
  apply Forall_app in Hok as [Hok1 Hok2]. apply Forall_cons in Hok2 as [Hoa Hok2].
  apply Forall_cons in Hok2 as [Hob Hok2]. unfold region_ok, rend in Hoa, Hob, Hab.
  apply sorted_app_iff in Hs as (Hs1 & Hs2 & Hs12).
  inversion Hs2 as [|? ? Hs3 Hf2]; subst. inversion Hs3 as [|? ? Hs4 Hf3]; subst.
  split; cbn; try done.
  - apply Forall_app. split; [done|]. constructor; [|done]. unfold region_ok, rend, merged. cbn. lia.
  - apply sorted_app_iff. split_and!; [done| |].
    + constructor; [done|]. eapply Forall_impl; [exact Hf3|]. unfold apart, rend, merged. intros ? ?. cbn. lia.
    + intros x y Hx [->|Hy]%elem_of_cons.
      * apply (Hs12 x a Hx). constructor.
      * apply Hs12; [done|]. by do 2 constructor.
  - intros x. rewrite <- Hcov. autorewrite with miaow. unfold rend, merged. cbn. intuition lia.
  - rewrite <- Hsum, !sum_sizes_app, !sum_sizes_cons. cbn. lia.
  - len.
  - intros i Hi' x y Hx Hy. destruct Hi' as [Hi'|Hi'].
    + assert (Hx' : (l1 ++ a :: b :: l2) !! i = Some x) by (rewrite lookup_app_l in * by lia; done).
      destruct (decide (S i = length l1)) as [E|].
      * assert (Hy' : (l1 ++ a :: b :: l2) !! S i = Some a) by (rewrite E; by apply list_lookup_middle).
        rewrite E in Hy. rewrite list_lookup_middle in Hy by done. injection Hy as <-.
        change (strictly_apart x a). apply (Hho i); [lia|done|done].
      * apply (Hho i); [lia|done|]. rewrite lookup_app_l in * by lia. done.
    + destruct (decide (i = length l1)) as [->|].
      * rewrite list_lookup_middle in Hx by done. injection Hx as <-.
        rewrite lookup_app_r in Hy by lia.
        replace (S (length l1) - length l1)%nat with 1%nat in Hy by lia.
        assert (Hxb : (l1 ++ a :: b :: l2) !! S (length l1) = Some b).
        { rewrite lookup_app_r by lia. by replace (S (length l1) - length l1)%nat with 1%nat by lia. }
        assert (strictly_apart b y).
        { apply (Hho (S (length l1))); [lia|done|]. rewrite lookup_app_r by lia.
          by replace (S (S (length l1)) - length l1)%nat with 2%nat by lia. }
        unfold strictly_apart, rend, merged in *. cbn. lia.
      * apply (Hho (S i)); [lia| |]; rewrite lookup_app_r in * by lia.
        -- replace (S i - length l1)%nat with (S (S (i - length l1 - 1))) by lia.
           by replace (i - length l1)%nat with (S (i - length l1 - 1)) in Hx by lia.
        -- replace (S (S i) - length l1)%nat with (S (S (S i - length l1 - 1))) by lia.
           by replace (S i - length l1)%nat with (S (S i - length l1 - 1)) in Hy by lia.
Qed.

Lemma merge_round s :
  (exists l, merge_inv l s) ->
  (exists s', merge_step s = Some (inl s') /\ (exists l, merge_inv l s') /\
     (Z.to_nat (s'.1.2 - s'.1.1) < Z.to_nat (s.1.2 - s.1.1))%nat) \/
  (exists t, merge_step s = Some (inr t) /\ merge_done t).
Proof.
  intros [l Hs]. destruct s as [[index er] t]. pose proof Hs as [Hh Ht Hok Hsd Hcov Hsum Hi He Hho].
  cbn [fst snd] in *. pose proof (holds_length _ _ Hh) as Hlen.
  unfold merge_step. destruct (Z.ltb_spec index er) as [Hlt|Hge].
  2:{ right. eexists. split; [done|]. exists l. split_and!; try done.
      apply holes_sorted; [done|]. intros i. apply Hho. lia. }
  left. destruct (lookup_lt_is_Some_2 l (Z.to_nat index)) as [a Ha]; [lia|].
  apply list_elem_of_split_length in Ha as (l1 & l2 & -> & Hl1).
  destruct l2 as [|b l2]; [len|].
  rewrite (holds_get t l1 a (b :: l2) index) by (done || lia). cbn [mbind option_bind].
  rewrite (holds_get t (l1 ++ [a]) b l2 (index + 1)) by (rewrite <- ?app_assoc; done || len).
  cbn [mbind option_bind].
  assert (Hoa : region_ok a /\ region_ok b).
  { apply Forall_app in Hok as [_ Hok]. apply Forall_cons in Hok as [? Hok].
    by apply Forall_cons in Hok as [? _]. }
  destruct Hoa as [Hoa Hob]. unfold region_ok, rend, UINTPTR_MAX in Hoa, Hob.
  unwrap. destruct (Z.eqb_spec (rbase a + rsize a) (rbase b)) as [Heq|Hne]; cbn [negb].
  - destruct (holds_set t l1 a (b :: l2) index (merged a b)) as (t1 & E1 & Hh1 & Ht1); [done|lia|].
    unfold merged in E1. unwrap. rewrite E1. cbn [mbind option_bind].
    destruct (move_down_holds t1 (l1 ++ [merged a b]) b l2 (index + 1) (u32 (cnt t1 - index - 2)))
      as (t2 & E2 & Hc2 & Ht2 & Hh2); [by rewrite <- app_assoc|len|f_equal; lia|].
    replace (index + 2) with (index + 1 + 1) by lia. rewrite E2. cbn [mbind option_bind].
    assert (er <= 16) by len. unwrap.
    eexists. split; [done|]. cbn [fst snd]. split; [|lia].
    exists (l1 ++ merged a b :: l2). eapply merge_pair_inv; [exact Hs|lia|done|done| |].
    + by rewrite <- app_assoc in Hh2.
    + cbn. congruence.
  - assert (index <= 16) by len. unwrap. eexists. split; [done|]. cbn [fst snd]. split; [|lia].
    exists (l1 ++ a :: b :: l2). split; cbn [fst snd]; try done; [lia|].
    intros i Hi'. destruct (decide (i = length l1)) as [->|]; [|apply Hho; lia].
    intros x y Hx Hy. rewrite list_lookup_middle in Hx by done. injection Hx as <-.
    rewrite lookup_app_r in Hy by lia. replace (S (length l1) - length l1)%nat with 1%nat in Hy by lia.
    injection Hy as <-. unfold strictly_apart, rend.
    apply sorted_app_iff in Hsd as (_ & Hs2 & _). inversion Hs2 as [|? ? _ Hf2]; subst.
    apply Forall_cons in Hf2 as [Hab _]. unfold apart, rend in Hab. lia.
Qed.

End merge.

(** The list after an insertion, merged. *)
Lemma merge_regions_spec t F start_ end_ :
  holds t F -> Forall region_ok F -> StronglySorted apart F -> F <> [] ->
  holes_outside F start_ end_ -> end_ = 0 /\ start_ = 0 \/ 0 <= start_ < end_ /\ end_ <= length F ->
  exists t', memblock_merge_regions start_ end_ t = Some t' /\ merge_done F (total_size t) t'.
Proof.
  intros Hh Hok Hs Hne Hho Hr. unfold memblock_merge_regions.
  pose proof (holds_length _ _ Hh). rewrite (holds_cnt _ _ Hh).
  assert (0 < length F) by (destruct F; [done|cbn; lia]). unwrap.
  apply (iter_rule (fun s => exists l, merge_inv F (total_size t) l s) (merge_done F (total_size t))
    (fun s => Z.to_nat (s.1.2 - s.1.1))).
  - apply merge_round.
  - exists F. split; cbn [fst snd]; try done.
    + repeat case_cmp; lia.
    + repeat case_cmp; lia.
    + intros i Hi. destruct (decide (length F <= S i)%nat) as [Hge|Hlt].
      * intros x y _ Hy. apply lookup_lt_Some in Hy. lia.
      * apply Hho. revert Hi. repeat case_cmp; lia.
  - cbn [fst snd]. unfold region_fuel. repeat case_cmp; lia.
Qed.

(** ** The array as a whole *)

(** The live slots; the invariant and the covered addresses of an array. *)
Definition live (t : memblock_type) : list memblock_region := take (Z.to_nat (cnt t)) (regions t).

Definition wf (t : memblock_type) : Prop := type_wf t (live t).

Definition covered (t : memblock_type) (x : Z) : Prop := covers (live t) x.

Lemma holds_live t l : holds t l -> live t = l.
Proof. intros (junk & Hr & Hc & _). unfold live. by rewrite Hr, Hc, Nat2Z.id, take_app_length. Qed.

Lemma wf_of t l : type_wf t l -> wf t /\ live t = l.
Proof. intros Hwf. unfold wf. by rewrite (holds_live _ _ (wf_holds _ _ Hwf)). Qed.

Lemma empty_type_wf : wf empty_type.
Proof.
  apply (wf_of _ []). split; try constructor. eexists. split; [by rewrite app_nil_l|]. done.
Qed.

Lemma cap_size_range base size :
  is_u64 base -> is_u64 size ->
  0 <= cap_size base size <= size /\ base + cap_size base size <= UINTPTR_MAX /\
  (base + size <= UINTPTR_MAX -> cap_size base size = size).
Proof. unfold is_u64, cap_size, UINTPTR_MAX. intros. case_cmp; lia. Qed.

Lemma add_range_correct t l base size :
  type_wf t l -> is_u64 base -> is_u64 size ->
  (l = [] -> base + size <= UINTPTR_MAX) ->
  let e := base + cap_size base size in
  (exists t' l', memblock_add_range base size t = Some (0, t') /\ type_wf t' l' /\
     forall x, covers l' x <-> covers l x \/ base <= x < e) \/
  (memblock_add_range base size t = Some (-1, t) /\ INIT_MEMBLOCK_REGIONS < length (fill base e l)).
Proof.
  intros Hwf Hb Hsz Hne e.
  destruct (cap_size_range base size Hb Hsz) as (Hc & Hmax & Hcap). unfold is_u64 in *.
  pose proof Hwf as [Hh Hok Hs Ht]. unfold memblock_add_range.
  assert (u64 (base + cap_size base size) = e) as -> by (subst e; unfold UINTPTR_MAX in *; by unwrap).
  destruct (Z.eqb_spec size 0) as [->|Hsz0].
  { left. exists t, l. split_and!; try done. intros x. unfold e. intuition lia. }
  rewrite (holds_cnt _ _ Hh). destruct l as [|r l].
  { left. cbn [length]. eval_cmp. destruct Hh as (junk & Hr & Hct & Hl).
    destruct junk as [|j junk]; [done|]. unfold set_region. rewrite Hr. cbn [app length] in *.
    eval_cmp. cbn [mbind option_bind]. eexists _, [Region base size]. split; [done|].
    specialize (Hne eq_refl). split.
    - split; cbn.
      + exists junk. split_and!; [done|done|]. cbn. lia.
      + repeat constructor; cbn; unfold rend; cbn; lia.
      + repeat constructor.
      + rewrite Z.add_0_r. by unwrap.
    - intros x. autorewrite with miaow. unfold rend, e. cbn. rewrite Hcap by done. intuition lia. }
  set (l0 := r :: l) in *. assert (0 < length l0) by (subst l0; cbn; lia). clearbody l0. eval_cmp.
  pose proof (holds_length _ _ Hh) as Hlen.
  destruct (count_pass t l0 base e) as (s1 & -> & Ha & Hty & Hst & Hen); try done; try lia.
  cbn [mbind option_bind]. rewrite Ha, Hty, (holds_cnt _ _ Hh).
  pose proof (fill_length base e l0) as Hfl.
  assert (Hcov : forall x, covers (fill base e l0) x <-> covers l0 x \/ base <= x < e).
  { intros x. apply fill_covers; [lia|by apply strictly_apart_weak|done]. }
  destruct (Z.eqb_spec (length (fill base e l0) - length l0) 0) as [E0|E0].
  { left. exists t, l0. split_and!; try done. intros x. rewrite <- Hcov.
    assert (Heq : fill base e l0 = l0); [|by rewrite Heq].
    apply fill_same_length. lia. }
  unfold INIT_MEMBLOCK_REGIONS. unwrap.
  replace (length l0 + (length (fill base e l0) - length l0)) with (Z.of_nat (length (fill base e l0))) by lia.
  destruct (Z.ltb_spec 16 (length (fill base e l0))); [by right|]. left.
  destruct (insert_pass t l0 base e) with (s0 := s1) as (s2 & -> & Hh2 & Ht2 & Ha2 & Hho & Hr); try done; try lia.
  cbn [mbind option_bind]. rewrite Ha2. eval_cmp.
  destruct (merge_regions_spec (a_type s2) (fill base e l0) (a_start s2) (a_end s2))
    as (t' & -> & l' & Hh' & Ht' & Hok' & Hs' & Hcov' & Hsum'); try done.
  { apply fill_ok; done || lia. }
  { apply fill_sorted; [lia|done|by apply strictly_apart_weak]. }
  { intros Hnil. rewrite Hnil in Hfl. cbn in Hfl. lia. }
  exists t', l'. split; [done|]. split; [split; try done; by rewrite Ht', Ht2, Hsum'|].
  intros x. by rewrite Hcov', Hcov.
Qed.
