(* ===== verification/MemblockRemove.v ===== *)
(** * Early memory: removing ranges, and the contract of the region arrays

    The proofs for [memblock_isolate_range] and [memblock_remove_range], and
    the properties of adding and removing as theorems about whole arrays. *)

From Stdlib Require Import Sorting.Sorted.
From S2P Require Import Prelude Memblock.

Section isolate.
Context (l0 : list memblock_region) (b e : Z).
Hypothesis Hb : 0 <= b <= e.
Hypothesis He : e <= UINTPTR_MAX.
Hypothesis Hbe : b = e -> e = UINTPTR_MAX.

Definition straddles (z : Z) (r : memblock_region) : Prop := rbase r < z < rend r.

(** In order, with a hole except where the cut at [e] was made. *)
Definition apart_above (x y : memblock_region) : Prop :=
  rend x <= rbase y /\ (rbase y <> e -> rend x < rbase y).

(** [A]: regions below the range, [M]: regions inside it, [l2]: not reached.
    [k1] and [k2] are the splits at [b] and [e] still to come. *)
Record iso_inv (A M l2 : list memblock_region) (k1 k2 : nat) (s : Z * Z * Z * memblock_type) : Prop := {
  iso_holds : holds s.2 (A ++ M ++ l2);
  iso_total : total_size s.2 = u64 (sum_sizes (A ++ M ++ l2));
  iso_index : s.1.1.1 = length (A ++ M);
  iso_ok : Forall region_ok (A ++ M ++ l2);
  iso_covers x : covers (A ++ M ++ l2) x <-> covers l0 x;
  iso_A : Forall (fun r => rend r <= b) A;
  iso_M : Forall (fun r => b <= rbase r /\ rend r <= e) M;
  iso_sortA : StronglySorted strictly_apart A;
  iso_sort2 : StronglySorted apart_above l2;
  iso_cross a r : a ∈ A -> r ∈ l2 -> rbase r < b -> rend a < rbase r;
  iso_past r : M <> [] -> r ∈ l2 -> b <= rbase r;
  iso_marks : (M = [] /\ s.1.1.2 = 0 /\ s.1.2 = 0) \/
    (M <> [] /\ s.1.1.2 = length A /\ s.1.2 = length (A ++ M));
  iso_room : (length (A ++ M ++ l2) + k1 + k2 <= 16)%nat;
  iso_k1 r : k1 = 0%nat -> r ∈ l2 -> ~ straddles b r;
  iso_k2 r : k2 = 0%nat -> r ∈ l2 -> ~ straddles e r;
}.

Definition iso_done (res : Z * Z * memblock_type) : Prop :=
  exists A M C, holds res.2 (A ++ M ++ C) /\ total_size res.2 = u64 (sum_sizes (A ++ M ++ C)) /\
    Forall region_ok (A ++ M ++ C) /\ (forall x, covers (A ++ M ++ C) x <-> covers l0 x) /\
    Forall (fun r => rend r <= b) A /\ Forall (fun r => b <= rbase r /\ rend r <= e) M /\
    Forall (fun r => e <= rbase r) C /\
    StronglySorted strictly_apart A /\ StronglySorted strictly_apart C /\
    ((M = [] /\ res.1.1 = 0 /\ res.1.2 = 0) \/
     (M <> [] /\ res.1.1 = length A /\ res.1.2 = length (A ++ M))).

Definition iso_measure (n : nat) (s : Z * Z * Z * memblock_type) : Prop :=
  exists A M l2 k1 k2, iso_inv A M l2 k1 k2 s /\ n = (length l2 + k1 + 2 * k2)%nat.

(** Leaving the loop: the regions not reached start at or after [e]. *)
Lemma iso_leave A M l2 k1 k2 index sr er t :
  iso_inv A M l2 k1 k2 (index, sr, er, t) -> (forall r, r ∈ l2 -> e <= rbase r) ->
  iso_done (sr, er, t).
Proof.
  intros [Hh Ht Hi Hok Hc HA HM HsA Hs2 Hx Hp Hm Hr Hk1 Hk2] Hl2. exists A, M, l2. cbn [fst snd] in *.
  split_and!; try done; [by apply Forall_forall|].
  rewrite !Forall_app in Hok. destruct Hok as (_ & _ & Hok).
  clear -Hs2 Hl2 Hok. induction Hs2 as [|r l Hs IH Hf]; constructor;
    apply Forall_cons in Hok as [Hr Hok].
  - apply IH; [done|intros x ?; apply Hl2; by constructor].
  - eapply Forall_impl; [exact Hf|]. intros y [Hy1 Hy2]. apply Hy2.
    specialize (Hl2 r ltac:(constructor)). unfold region_ok, rend in *. lia.
Qed.

(** Cutting [r] at [z] into two regions of the same extent. *)
Definition low_part (r : memblock_region) (z : Z) : memblock_region := Region (rbase r) (z - rbase r).
Definition high_part (r : memblock_region) (z : Z) : memblock_region := Region z (rend r - z).

Lemma split_at_spec t l1 r l2 z :
  holds t (l1 ++ r :: l2) -> (length (l1 ++ r :: l2) < 16)%nat -> region_ok r -> straddles z r ->
  total_size t = u64 (sum_sizes (l1 ++ r :: l2)) ->
  exists t', 
    (let d := u64 (z - rbase r) in
     let* t := set_region (length l1) (Region z (u64 (rsize r - d))) t in
     let t := set_total (u64 (total_size t - d)) t in
     memblock_insert_region (length l1) (rbase r) d t) = Some t' /\
    holds t' (l1 ++ low_part r z :: high_part r z :: l2) /\
    total_size t' = u64 (sum_sizes (l1 ++ low_part r z :: high_part r z :: l2)).
Proof.
  intros Hh Hl Hr Hz Ht. unfold straddles, region_ok, rend, UINTPTR_MAX in *. cbn zeta. unwrap.
  destruct (holds_set t l1 r l2 (length l1) (high_part r z)) as (t1 & E1 & Hh1 & Ht1); [done|done|].
  unfold high_part, rend in E1. replace (rbase r + rsize r - z) with (rsize r - (z - rbase r)) in E1 by lia.
  rewrite E1. cbn [mbind option_bind].
  destruct (insert_region_holds (set_total (u64 (total_size t1 - (z - rbase r))) t1) l1
    (high_part r z :: l2) (rbase r) (z - rbase r)) as (t2 & E2 & Hh2 & Ht2); [done|len|].
  exists t2. split_and!; [done|done|]. rewrite Ht2. cbn [total_size set_total].
  rewrite Ht1, Ht. unfold u64. rewrite Zminus_mod_idemp_l, Zplus_mod_idemp_l. f_equal.
  rewrite !sum_sizes_app, !sum_sizes_cons. unfold low_part, high_part, rend. cbn. lia.
Qed.

Lemma parts_ok r z : region_ok r -> straddles z r -> region_ok (low_part r z) /\ region_ok (high_part r z).
Proof. unfold region_ok, straddles, low_part, high_part, rend. cbn. lia. Qed.

Lemma parts_cover r z l x :
  straddles z r ->
  covers (low_part r z :: high_part r z :: l) x <-> covers (r :: l) x.
Proof.
  intros. autorewrite with miaow. unfold straddles, low_part, high_part, rend in *. cbn. intuition lia.
Qed.

(** A cut changes none of the facts about the whole list. *)
Lemma cut_facts A M r l2 z :
  straddles z r -> Forall region_ok (A ++ M ++ r :: l2) ->
  (forall x, covers (A ++ M ++ r :: l2) x <-> covers l0 x) ->
  Forall region_ok (A ++ M ++ low_part r z :: high_part r z :: l2) /\
  (forall x, covers (A ++ M ++ low_part r z :: high_part r z :: l2) x <-> covers l0 x).
Proof.
  intros Hz Hok Hc. rewrite !Forall_app in *. destruct Hok as (? & ? & Hok).
  apply Forall_cons in Hok as [Hr ?]. destruct (parts_ok r z Hr Hz). split.
  - rewrite !Forall_cons. done.
  - intros x. rewrite <- Hc, !covers_app, parts_cover by done. done.
Qed.

Lemma iso_inside A M r l2 k1 k2 index sr er t :
  iso_inv A M (r :: l2) k1 k2 (index, sr, er, t) -> b <= rbase r -> rend r <= e ->
  iso_inv A (M ++ [r]) l2 k1 k2 (index + 1, if er =? 0 then index else sr, index + 1, t).
Proof.
  intros [Hh Ht Hi Hok Hc HA HM HsA Hs2 Hx Hp Hm Hr Hk1 Hk2] Hbr Hre. cbn [fst snd] in *.
  inversion Hs2 as [|? ? Hs2' Hf]; subst. assert (Hok' := Hok). rewrite !Forall_app in Hok'.
  destruct Hok' as (_ & _ & Hok'). apply Forall_cons in Hok' as [Hro _].
  split; cbn [fst snd]; rewrite <- ?app_assoc; cbn [app]; try done.
  - len.
  - rewrite Forall_app. split; [done|]. by constructor.
  - intros a r' Ha Hr'. apply Hx; [done|by constructor].
  - intros r' _ Hr'. rewrite Forall_forall in Hf. destruct (Hf _ Hr') as [Hap _].
    unfold region_ok, rend in *. lia.
  - right. split; [by destruct M|]. rewrite app_assoc, length_app. cbn [length].
    destruct Hm as [(-> & -> & ->)|(Hne & -> & ->)].
    + eval_cmp. len.
    + destruct M; [done|]. case_cmp; len.
  - intros r' Hk Hr'. apply (Hk1 r' Hk). by constructor.
  - intros r' Hk Hr'. apply (Hk2 r' Hk). by constructor.
Qed.

(** A region that ends at or below [b] joins [A]. *)
Lemma iso_below A M r l2 k1 k2 index sr er t :
  iso_inv A M (r :: l2) k1 k2 (index, sr, er, t) -> rend r <= b ->
  iso_inv (A ++ [r]) M l2 k1 k2 (index + 1, sr, er, t).
Proof.
  intros [Hh Ht Hi Hok Hc HA HM HsA Hs2 Hx Hp Hm Hr Hk1 Hk2] Hbr. cbn [fst snd] in *.
  assert (Hok' := Hok). rewrite !Forall_app in Hok'.
  destruct Hok' as (_ & _ & Hok'). apply Forall_cons in Hok' as [Hro _].
  assert (Hrb : rbase r < b) by (unfold region_ok, rend in *; lia).
  assert (M = []) as ->.
  { destruct M as [|m M]; [done|]. specialize (Hp r ltac:(done) ltac:(constructor)). lia. }
  inversion Hs2 as [|? ? Hs2' Hf]; subst. rewrite Forall_forall in Hf.
  split; cbn [fst snd app] in *; rewrite <- ?app_assoc; cbn [app]; rewrite ?app_nil_r in *; try done.
  - len.
  - rewrite Forall_app. split; [done|]. by constructor.
  - apply sorted_app_iff. split_and!; [done|repeat constructor|].
    intros a r' Ha ->%list_elem_of_singleton. apply Hx; [done|constructor|done].
  - intros a r' [Ha| ->%list_elem_of_singleton]%elem_of_app Hr' Hrb'; [apply Hx; [done|by constructor|done]|].
    destruct (Hf _ Hr') as [_ Hap]. apply Hap. lia.
  - left. destruct Hm as [(? & ? & ?)|(? & ?)]; done.
  - intros r' Hk Hr'. apply (Hk1 r' Hk). by constructor.
  - intros r' Hk Hr'. apply (Hk2 r' Hk). by constructor.
Qed.

Lemma iso_cut_low A M r l2 k1 k2 index sr er t t' :
  iso_inv A M (r :: l2) k1 k2 (index, sr, er, t) -> straddles b r ->
  holds t' (A ++ M ++ low_part r b :: high_part r b :: l2) ->
  total_size t' = u64 (sum_sizes (A ++ M ++ low_part r b :: high_part r b :: l2)) ->
  (1 <= k1)%nat /\ iso_inv (A ++ [low_part r b]) M (high_part r b :: l2) 0 k2 (index + 1, sr, er, t').
Proof.
  intros [Hh Ht Hi Hok Hc HA HM HsA Hs2 Hx Hp Hm Hr Hk1 Hk2] Hz Hh' Ht'. cbn [fst snd] in *.
  destruct (cut_facts A M r l2 b Hz Hok Hc) as [Hok' Hc'].
  assert (M = []) as ->.
  { destruct M as [|m M]; [done|]. specialize (Hp r ltac:(done) ltac:(constructor)).
    unfold straddles in Hz. lia. }
  inversion Hs2 as [|? ? Hs2' Hf]; subst. rewrite Forall_forall in Hf.
  assert (Hk : (1 <= k1)%nat).
  { destruct k1; [|lia]. by destruct (Hk1 r eq_refl); [constructor|]. }
  split; [done|]. pose proof Hz as Hz'. unfold straddles in Hz'.
  assert (Hab : forall y, y ∈ l2 -> b < rbase y).
  { intros y Hy. destruct (Hf y Hy) as [Hy' _]. lia. }
  split; cbn [fst snd app] in *; rewrite <- ?app_assoc; cbn [app]; rewrite ?app_nil_r in *; try done.
  - len.
  - rewrite Forall_app. split; [done|]. repeat constructor. unfold low_part, rend. cbn. lia.
  - apply sorted_app_iff. split_and!; [done|repeat constructor|].
    intros a r' Ha ->%list_elem_of_singleton. apply (Hx a r Ha); [constructor|lia].
  - constructor; [done|]. rewrite Forall_forall. intros y Hy. destruct (Hf y Hy) as [Hy1 Hy2].
    unfold apart_above, high_part, rend in *. cbn in *. split; [lia|]. intros ?. specialize (Hy2 ltac:(done)). lia.
  - intros a r' _ [->|Hr']%elem_of_cons Hlt; [cbn in Hlt; lia|]. specialize (Hab _ Hr'). lia.
  - left. destruct Hm as [(? & ? & ?)|(? & ?)]; done.
  - len.
  - intros r' _ [->|Hr']%elem_of_cons [Hs _]; [cbn in Hs; lia|]. specialize (Hab _ Hr'). lia.
  - intros r' Hk0 [->|Hr']%elem_of_cons Hs; [|by apply (Hk2 r' Hk0); [constructor|]].
    apply (Hk2 r Hk0); [constructor|]. unfold straddles, high_part, rend in *. cbn in *. lia.
Qed.

Lemma iso_cut_high A M r l2 k1 k2 index sr er t t' :
  iso_inv A M (r :: l2) k1 k2 (index, sr, er, t) -> straddles e r -> b <= rbase r ->
  holds t' (A ++ M ++ low_part r e :: high_part r e :: l2) ->
  total_size t' = u64 (sum_sizes (A ++ M ++ low_part r e :: high_part r e :: l2)) ->
  (1 <= k2)%nat /\ iso_inv A M (low_part r e :: high_part r e :: l2) k1 0 (index, sr, er, t').
Proof.
  intros [Hh Ht Hi Hok Hc HA HM HsA Hs2 Hx Hp Hm Hr Hk1 Hk2] Hz Hbr Hh' Ht'. cbn [fst snd] in *.
  destruct (cut_facts A M r l2 e Hz Hok Hc) as [Hok' Hc'].
  inversion Hs2 as [|? ? Hs2' Hf]; subst. rewrite Forall_forall in Hf.
  assert (Hk : (1 <= k2)%nat).
  { destruct k2; [|lia]. by destruct (Hk2 r eq_refl); [constructor|]. }
  split; [done|]. pose proof Hz as Hz'. unfold straddles in Hz'.
  assert (Hab : forall y, y ∈ l2 -> e < rbase y).
  { intros y Hy. destruct (Hf y Hy) as [Hy' _]. lia. }
  split; cbn [fst snd] in *; try done.
  - constructor; [constructor; [done|]|].
    + rewrite Forall_forall. intros y Hy. destruct (Hf y Hy) as [Hy1 Hy2].
      unfold apart_above, high_part, rend in *. cbn in *. split; [lia|]. intros ?.
      specialize (Hy2 ltac:(done)). lia.
    + rewrite Forall_forall. intros y [->|Hy]%elem_of_cons; unfold apart_above, low_part, high_part, rend; cbn; [lia|].
      specialize (Hab y Hy). lia.
  - intros a r' Ha [->|[->|Hr']%elem_of_cons]%elem_of_cons Hlt; cbn in Hlt; [lia|lia|].
    apply Hx; [done|by constructor|done].
  - intros r' Hne [->|[->|Hr']%elem_of_cons]%elem_of_cons; cbn; [lia|lia|].
    apply Hp; [done|by constructor].
  - len.
  - intros r' Hk0 [->|[->|Hr']%elem_of_cons]%elem_of_cons [Hs1 Hs3]; cbn in Hs1; [lia|lia|].
    by apply (Hk1 r' Hk0); [constructor|].
  - intros r' _ [->|[->|Hr']%elem_of_cons]%elem_of_cons [Hs1 Hs3];
      unfold low_part, high_part, rend in *; cbn in *; [lia|lia|]. specialize (Hab _ Hr'). lia.
Qed.

Lemma u32_dec_inc i : 0 <= i < 2 ^ 32 -> u32 (u32 (i - 1) + 1) = i.
Proof.
  intros Hi. unfold u32. rewrite Zplus_mod_idemp_l. replace (i - 1 + 1) with i by lia.
  by apply Z.mod_small.
Qed.

Lemma iso_round n s :
  iso_measure n s ->
  (exists n' s', isolate_step b e s = Some (inl s') /\ iso_measure n' s' /\ (n' < n)%nat) \/
  (exists res, isolate_step b e s = Some (inr res) /\ iso_done res).
Proof.
  intros (A & M & l2 & k1 & k2 & Hs & ->). destruct s as [[[index sr] er] t].
  pose proof Hs as [Hh Ht Hi Hok _ _ _ _ Hs2 _ Hp _ Hr _ _]. cbn [fst snd] in *.
  unfold isolate_step. rewrite (holds_cnt _ _ Hh). subst index. destruct l2 as [|r l2].
  { right. rewrite (proj2 (Z.ltb_ge _ _)) by len. eexists. split; [done|].
    eapply iso_leave; [exact Hs|]. intros ? ?%elem_of_nil. done. }
  rewrite (proj2 (Z.ltb_lt (length (A ++ M)) _)) by len.
  rewrite (holds_get t (A ++ M) r l2 (length (A ++ M))) by (rewrite <- ?app_assoc; done).
  cbn [mbind option_bind].
  assert (Hro : region_ok r) by (rewrite !Forall_app, Forall_cons in Hok; tauto).
  assert (u64 (rbase r + rsize r) = rend r) as ->.
  { unfold region_ok, rend, UINTPTR_MAX in *. by unwrap. }
  assert (length (A ++ M) <= 16) by len.
  destruct (Z.leb_spec e (rbase r)) as [Her|Her].
  { right. eexists. split; [done|]. eapply iso_leave; [exact Hs|].
    inversion Hs2 as [|? ? _ Hf]; subst. rewrite Forall_forall in Hf.
    intros y [->|Hy]%elem_of_cons; [done|]. destruct (Hf y Hy) as [? _]. unfold region_ok, rend in *. lia. }
  left. destruct (Z.leb_spec (rend r) b) as [Hrb|Hrb].
  { unwrap. exists (length l2 + k1 + 2 * k2)%nat. eexists. split; [done|]. split; [|cbn; lia].
    exists (A ++ [r]), M, l2, k1, k2. split; [|done]. by eapply iso_below. }
  destruct (Z.ltb_spec (rbase r) b) as [Hlt|Hge].
  - assert (Hz : straddles b r) by (unfold straddles; lia).
    assert (k1 <> 0%nat) by (intros ->; by apply (iso_k1 _ _ _ _ _ _ Hs r eq_refl); [constructor|]).
    destruct (split_at_spec t (A ++ M) r l2 b) as (t' & E & Hh' & Ht');
      [by rewrite <- app_assoc|len|done|done|by rewrite <- app_assoc|].
    rewrite <- !app_assoc in Hh', Ht'. apply bind_Some in E as (t1 & -> & E). cbn [mbind option_bind]. cbn zeta in E |- *.
    rewrite E. cbn [mbind option_bind].
    destruct (iso_cut_low A M r l2 k1 k2 _ sr er t t' Hs Hz Hh' Ht') as [Hk Hinv].
    unwrap. eexists _, _. split; [done|]. split; [by exists (A ++ [low_part r b]), M, (high_part r b :: l2), 0%nat, k2|].
    cbn. lia.
  - destruct (Z.ltb_spec e (rend r)) as [Hlt|Hge2].
    + assert (Hz : straddles e r) by (unfold straddles; lia).
      assert (k2 <> 0%nat) by (intros ->; by apply (iso_k2 _ _ _ _ _ _ Hs r eq_refl); [constructor|]).
      destruct (split_at_spec t (A ++ M) r l2 e) as (t' & E & Hh' & Ht');
        [by rewrite <- app_assoc|len|done|done|by rewrite <- app_assoc|].
      rewrite <- !app_assoc in Hh', Ht'. apply bind_Some in E as (t1 & -> & E). cbn [mbind option_bind]. cbn zeta in E |- *.
      rewrite E. cbn [mbind option_bind].
      destruct (iso_cut_high A M r l2 k1 k2 _ sr er t t' Hs Hz Hge Hh' Ht') as [Hk Hinv].
      rewrite u32_dec_inc by lia. eexists _, _. split; [done|].
      split; [by exists A, M, (low_part r e :: high_part r e :: l2), k1, 0%nat|]. cbn. lia.
    + unwrap. eexists (length l2 + k1 + 2 * k2)%nat, _. split; [done|]. split; [|cbn; lia].
      exists A, (M ++ [r]), l2, k1, k2. split; [|done]. by eapply iso_inside.
Qed.

End isolate.

(** ** Removing *)

(** The loop that drops the isolated regions from the top down. *)
Lemma remove_loop A M C t :
  holds t (A ++ M ++ C) -> total_size t = u64 (sum_sizes (A ++ M ++ C)) -> (length M < region_fuel)%nat ->
  exists t', iter region_fuel (remove_step (length A)) (Z.of_nat (length (A ++ M)), t) = Some t' /\
    holds t' (A ++ C) /\ total_size t' = u64 (sum_sizes (A ++ C)).
Proof.
  intros Hh Ht. generalize region_fuel. intros fuel Hf. revert M t Hh Ht Hf.
  induction fuel as [|fuel IH]; intros M t Hh Ht Hf; [lia|].
  pose proof (holds_length _ _ Hh) as Hlen. cbn [iter].
  destruct M as [|r M _] using rev_ind; unfold remove_step.
  - rewrite app_nil_r. eval_cmp. by exists t.
  - rewrite (proj2 (Z.ltb_lt _ _)) by len.
    replace (u32 (length (A ++ M ++ [r]) - 1)) with (Z.of_nat (length (A ++ M)))
      by (rewrite !length_app in *; cbn [length] in *; unwrap; lia).
    destruct (remove_region_holds t (A ++ M) r C) as (t1 & -> & Hh1 & Ht1).
    { by rewrite <- !app_assoc in *. }
    cbn [mbind option_bind]. rewrite <- app_assoc in Hh1.
    destruct (IH M t1) as (t' & E & Hh' & Ht'); [done| |len|].
    + rewrite Ht1, Ht. unfold u64. rewrite Zminus_mod_idemp_l. f_equal.
      rewrite !sum_sizes_app, sum_sizes_cons. cbn. lia.
    + exists t'. split; [|done]. exact E.
Qed.

Lemma remove_range_correct t l base size :
  type_wf t l -> is_u64 base -> is_u64 size ->
  let e := base + cap_size base size in
  (exists t' l', memblock_remove_range base size t = Some (0, t') /\ type_wf t' l' /\
     forall x, covers l' x <-> covers l x /\ ~ (base <= x < e)) \/
  (memblock_remove_range base size t = Some (-1, t) /\ INIT_MEMBLOCK_REGIONS < length l + 2).
Proof.
  intros Hwf Hb Hsz e. pose proof Hwf as [Hh Hok Hs Ht].
  destruct (cap_size_range base size Hb Hsz) as (Hc & Hmax & Hcap).
  assert (Hbe : base = e -> size <> 0 -> e = UINTPTR_MAX).
  { subst e. unfold cap_size, is_u64, UINTPTR_MAX in *. revert Hc. case_cmp; lia. }
  unfold is_u64 in *. pose proof (holds_length _ _ Hh) as Hlen.
  unfold memblock_remove_range, memblock_isolate_range.
  assert (u64 (base + cap_size base size) = e) as -> by (subst e; unfold UINTPTR_MAX in *; by unwrap).
  destruct (Z.eqb_spec size 0) as [->|Hsz0].
  { left. cbn [mbind option_bind]. eval_cmp.
    assert (iter region_fuel (remove_step 0) (0, t) = Some t) as -> by done.
    exists t, l. split_and!; try done. intros x. unfold e. intuition lia. }
  rewrite (holds_cnt _ _ Hh). unfold INIT_MEMBLOCK_REGIONS. unwrap.
  destruct (Z.ltb_spec 16 (length l + 2)) as [Hfull|Hroom]; [right; done|]. left.
  destruct (iter_rule_ghost (iso_measure l base e) (iso_done l base e) (isolate_step base e)
    (iso_round l base e ltac:(lia)) region_fuel (length l + 1 + 2 * 1) (0, 0, 0, t)) as (res & -> & Hres).
  { exists [], [], l, 1%nat, 1%nat. split; [|done]. split; cbn; try done; try lia; try by left.
    - clear -Hs. induction Hs as [|r l Hs IH Hf]; constructor; [done|].
      eapply Forall_impl; [exact Hf|]. unfold strictly_apart, apart_above. intros ? ?. lia.
    - by intros a r ?%elem_of_nil. }
  { unfold region_fuel. lia. }
  destruct Hres as (A & M & C & HhR & HtR & HokR & HcR & HA & HM & HC & HsA & HsC & Hm).
  destruct res as [[sr er] t1]. cbn [fst snd mbind option_bind] in *. eval_cmp.
  assert (Hloop : exists t', iter region_fuel (remove_step sr) (er, t1) = Some t' /\
    holds t' (A ++ C) /\ total_size t' = u64 (sum_sizes (A ++ C))).
  { destruct Hm as [(-> & -> & ->)|(_ & -> & ->)].
    - exists t1. done.
    - apply remove_loop; [done|done|]. pose proof (holds_length _ _ HhR). unfold region_fuel. len. }
  destruct Hloop as (t' & -> & Hh' & Ht'). cbn [mbind option_bind].
  rewrite !Forall_app in HokR. destruct HokR as (HoA & HoM & HoC).
  rewrite !Forall_forall in *. exists t', (A ++ C). split; [done|]. split.
  - split; try done; [by apply Forall_app; rewrite !Forall_forall|].
    apply sorted_app_iff. split_and!; [done|done|].
    intros a c Ha Hc'. specialize (HA _ Ha). specialize (HC _ Hc'). specialize (HoC _ Hc').
    unfold strictly_apart, region_ok, rend in *. destruct (decide (base = e)) as [Heq|]; [|lia].
    specialize (Hbe Heq Hsz0). lia.
  - intros x. rewrite <- HcR, !covers_app. split.
    + intros [(r & Hr & Hx)|(r & Hr & Hx)].
      * specialize (HA _ Hr). split; [left; by exists r|lia].
      * specialize (HC _ Hr). split; [right; right; by exists r|lia].
    + intros [[?|[(r & Hr & Hx)|?]] Hn]; [by left| |by right].
      specialize (HM _ Hr). unfold rend in *. lia.
Qed.

(** ** The properties *)

(** The one case in which the range is stored as it is given: the array is
    empty and the range reaches past the top of the address space. *)
Definition first_past_top (t : memblock_type) (base size : Z) : Prop := cnt t = 0 /\ UINTPTR_MAX < base + size.

Lemma add_first_region t base size :
  wf t -> is_u64 base -> is_u64 size -> first_past_top t base size ->
  exists t', memblock_add_range base size t = Some (0, t') /\ live t' = [Region base size] /\ total_size t' = size /\ cnt t' = 1.
Proof.
  intros Hwf Hb Hs [Hc Hbig]. pose proof (wf_holds _ _ Hwf) as Hh. rewrite (holds_cnt _ _ Hh) in Hc.
  unfold is_u64, UINTPTR_MAX in *. unfold memblock_add_range. rewrite (holds_cnt _ _ Hh), Hc. eval_cmp.
  destruct (live t); [|by cbn in Hc]. destruct Hh as (junk & Hr & Hct & Hl). destruct junk as [|j junk]; [done|].
  unfold set_region. rewrite Hr. cbn [app length] in *. eval_cmp. cbn [mbind option_bind]. by eexists.
Qed.

(** C25. [memblock_add_range] always returns.  Unless the array is empty and
    the range reaches past the top of the address space, it keeps the array
    sorted, disjoint, merged and its [total_size] exact: with code 0 it
    covers exactly what it covered before and the range, cut off at the top
    of the address space; with code -1, which it returns only when the pieces
    of the range do not fit in the fixed array, the array is unchanged.  In
    the case left the range is not cut off: with code 0 the only region is
    the range as given, whose end as the code computes it wraps below its
    base, and the array is not well-formed. *)
Theorem add_range_covers t base size :
  wf t -> is_u64 base -> is_u64 size ->
  exists code t', memblock_add_range base size t = Some (code, t') /\
    (~ first_past_top t base size -> wf t' /\
      ((code = 0 /\ forall x, covered t' x <-> covered t x \/ base <= x < base + cap_size base size) \/
       (code = -1 /\ t' = t /\
        INIT_MEMBLOCK_REGIONS < length (fill base (base + cap_size base size) (live t))))) /\
    (first_past_top t base size ->
      code = 0 /\ live t' = [Region base size] /\ total_size t' = size /\ u64 (base + size) < base /\ ~ wf t').
Proof.
  intros Hwf Hb Hs. destruct (decide (cnt t = 0 /\ UINTPTR_MAX < base + size)) as [Htop|Htop].
  - destruct (add_first_region t base size Hwf Hb Hs Htop) as (t' & E & Hl & Htot & _).
    exists 0, t'. split_and!; [done|by intros []|]. intros [_ Hbig]. split_and!; try done.
    + unfold is_u64, UINTPTR_MAX, u64 in *.
      replace (base + size) with (base + size - 2 ^ 64 + 1 * 2 ^ 64) by lia.
      rewrite Z.mod_add, Z.mod_small by lia. lia.
    + intros Hwf'. pose proof (wf_ok _ _ Hwf') as Hok. rewrite Hl in Hok.
      apply Forall_cons in Hok as [Hok _]. unfold region_ok, rend in Hok. cbn in Hok. lia.
  - destruct (add_range_correct t (live t) base size Hwf Hb Hs) as [(t' & l' & E & Hwf' & Hc)|[E Hf]].
    + intros Hnil. apply Z.le_ngt. intros ?. apply Htop. split; [|done]. by rewrite (holds_cnt _ _ (wf_holds _ _ Hwf)), Hnil.
    + exists 0, t'. apply wf_of in Hwf' as [Hwf' Hl]. split_and!; [done| |done]. intros _. split; [done|]. left. split; [done|].
      unfold covered. by rewrite Hl.
    + exists (-1), t. split_and!; [done| |done]. intros _. split; [done|]. by right.
Qed.

(** C29. [memblock_remove_range] keeps the invariant.  With code 0 the array
    covers exactly what it covered before outside the range: regions that
    straddle an end of the range are split without losing or duplicating
    memory.  With code -1, returned only when fewer than two slots are free,
    the array is unchanged. *)
Theorem remove_range_covers t base size :
  wf t -> is_u64 base -> is_u64 size ->
  exists code t', memblock_remove_range base size t = Some (code, t') /\ wf t' /\
    ((code = 0 /\ forall x, covered t' x <-> covered t x /\ ~ (base <= x < base + cap_size base size)) \/
     (code = -1 /\ t' = t /\ INIT_MEMBLOCK_REGIONS < cnt t + 2)).
Proof.
  intros Hwf Hb Hs.
  destruct (remove_range_correct t (live t) base size Hwf Hb Hs) as [(t' & l' & E & Hwf' & Hc)|[E Hf]].
  - exists 0, t'. apply wf_of in Hwf' as [Hwf' Hl]. split_and!; [done|done|]. left. split; [done|].
    unfold covered. by rewrite Hl.
  - exists (-1), t. split_and!; try done. right. split_and!; try done.
    by rewrite (holds_cnt _ _ (wf_holds _ _ Hwf)).
Qed.

(** A range added to an empty array is stored as it is given, not capped as
    in every other case: a first range that reaches past the top of the
    address space leaves a region whose end wraps, and the walk then reports
    a free range that ends before it starts. *)
Example first_range_is_not_capped :
  (let* '(_, mb) := memblock_add 0xFFFFFFFFFFFFF000 0x2000 empty_memblock in
   let* '(_, found) := memblock_next_free mb (Cursor 0 0) in
   found) = Some (0xFFFFFFFFFFFFF000, 0x1000).
Proof. vm_compute. reflexivity. Qed.

(** An array with two live regions. *)
Definition sample_type : memblock_type :=
  MemblockType 2 0x3000 ([Region 0x1000 0x1000; Region 0x4000 0x2000] ++ replicate 14 (Region 0 0)).

Lemma sample_type_wf : wf sample_type.
Proof.
  apply (wf_of _ [Region 0x1000 0x1000; Region 0x4000 0x2000]). split.
  - by exists (replicate 14 (Region 0 0)).
  - repeat constructor; unfold region_ok, rend, UINTPTR_MAX; cbn; lia.
  - repeat constructor; unfold strictly_apart, rend; cbn; lia.
  - done.
Qed.

(** A range across the second region, and a first range that wraps. *)
Lemma add_range_covers_witness :
  (exists code t', memblock_add_range 0x1800 0x3000 sample_type = Some (code, t') /\
    (~ first_past_top sample_type 0x1800 0x3000 -> wf t' /\
      ((code = 0 /\ forall x, covered t' x <->
          covered sample_type x \/ 0x1800 <= x < 0x1800 + cap_size 0x1800 0x3000) \/
       (code = -1 /\ t' = sample_type /\
        INIT_MEMBLOCK_REGIONS < length (fill 0x1800 (0x1800 + cap_size 0x1800 0x3000) (live sample_type)))))) /\
  first_past_top empty_type 0xFFFFFFFFFFFFF000 0x2000 /\
  exists t', memblock_add_range 0xFFFFFFFFFFFFF000 0x2000 empty_type = Some (0, t') /\ ~ wf t'.
Proof.
  assert (Htop : first_past_top empty_type 0xFFFFFFFFFFFFF000 0x2000) by (split; [done|by vm_compute]).
  split; [|split; [exact Htop|]].
  - destruct (add_range_covers sample_type 0x1800 0x3000) as (code & t' & E & H & _);
      [apply sample_type_wf|unfold is_u64; lia|unfold is_u64; lia|]. exists code, t'. split; [exact E|exact H].
  - destruct (add_range_covers empty_type 0xFFFFFFFFFFFFF000 0x2000) as (code & t' & E & _ & H);
      [apply empty_type_wf|unfold is_u64; lia|unfold is_u64; lia|].
    destruct (H Htop) as (-> & _ & _ & _ & Hn). exists t'. split; [exact E|exact Hn].
Defined.

Lemma remove_range_covers_witness :
  exists code t', memblock_remove_range 0x1800 0x3000 sample_type = Some (code, t') /\ wf t' /\
    ((code = 0 /\ forall x, covered t' x <->
        covered sample_type x /\ ~ (0x1800 <= x < 0x1800 + cap_size 0x1800 0x3000)) \/
     (code = -1 /\ t' = sample_type /\ INIT_MEMBLOCK_REGIONS < cnt sample_type + 2)).
Proof.
  apply (remove_range_covers sample_type 0x1800 0x3000);
    [apply sample_type_wf|unfold is_u64; lia|unfold is_u64; lia].
Defined.
