(* ===== verification/MemblockWalk.v ===== *)
(** * Early memory: walking the free ranges and allocating from them

    [memblock_next_free] walks two sorted arrays in step: the memory regions
    and the gaps between reserved regions.  A cell is the intersection of one
    region with one gap; free memory is the union of the cells, and the
    cursor always stands before exactly the cells that are still to come. *)

From Stdlib Require Import Sorting.Sorted.
From S2P Require Import Prelude Memblock MemblockRemove.

(** Addresses that are memory and not reserved. *)
Definition free_addr (mb : memblock) (x : Z) : Prop :=
  covered (memory mb) x /\ ~ covered (reserved mb) x.

Record mb_wf (mb : memblock) : Prop := {
  mb_memory : wf (memory mb);
  mb_reserved : wf (reserved mb);
}.

Section walk.
Context (ms rs : list memblock_region).
Hypothesis Hms : Forall region_ok ms.
Hypothesis Hrs : Forall region_ok rs.
Hypothesis Sms : StronglySorted strictly_apart ms.
Hypothesis Srs : StronglySorted strictly_apart rs.

(** Gap [j] lies between reserved regions [j - 1] and [j]. *)
Definition gap_lo (j : nat) : Z :=
  match j with
  | O => 0
  | S k => match rs !! k with Some r => rend r | None => UINTPTR_MAX end
  end.

Definition gap_hi (j : nat) : Z :=
  match rs !! j with Some r => rbase r | None => UINTPTR_MAX end.

Definition in_cell (i j : nat) (x : Z) : Prop :=
  exists a, ms !! i = Some a /\ (j <= length rs)%nat /\
    rbase a <= x < rend a /\ gap_lo j <= x < gap_hi j.

(** The cells at or after a cursor position. *)
Definition remaining (i j : nat) (x : Z) : Prop :=
  exists i' j', (i <= i')%nat /\ (j <= j')%nat /\ in_cell i' j' x.

Lemma ok_at l i r : Forall region_ok l -> l !! i = Some r -> region_ok r.
Proof. rewrite Forall_lookup. eauto. Qed.

Lemma sorted_at l i j a b :
  StronglySorted strictly_apart l -> (i < j)%nat -> l !! i = Some a -> l !! j = Some b ->
  rend a < rbase b.
Proof.
  intros Hs Hij Ha Hb. apply list_elem_of_split_length in Ha as (l1 & l2 & -> & ->).
  apply sorted_app_iff in Hs as (_ & Hs & _). inversion Hs as [|? ? _ Hf]; subst.
  rewrite Forall_forall in Hf. apply Hf. rewrite lookup_app_r in Hb by lia.
  replace (j - length l1)%nat with (S (j - length l1 - 1)) in Hb by lia.
  by eapply list_elem_of_lookup_2.
Qed.

(** Gaps are in order, with a reserved region between any two. *)
Lemma gap_mono j j' : (j < j')%nat -> (j' <= length rs)%nat -> gap_hi j < gap_lo j'.
Proof.
  intros Hj Hj'. destruct j' as [|k]; [lia|]. unfold gap_hi, gap_lo.
  destruct (lookup_lt_is_Some_2 rs j) as [r Hr]; [lia|].
  destruct (lookup_lt_is_Some_2 rs k) as [r' Hr']; [lia|]. rewrite Hr, Hr'.
  pose proof (ok_at _ _ _ Hrs Hr) as H1. pose proof (ok_at _ _ _ Hrs Hr') as H2.
  unfold region_ok, rend in *. destruct (decide (j = k)) as [->|]; [simplify_eq; lia|].
  pose proof (sorted_at rs j k r r' Srs ltac:(lia) Hr Hr'). unfold rend in *. lia.
Qed.

Lemma gap_lo_mono j j' : (j <= j')%nat -> (j' <= length rs)%nat -> gap_lo j <= gap_lo j'.
Proof.
  intros Hj Hj'. destruct (decide (j = j')) as [->|]; [lia|].
  pose proof (gap_mono j j' ltac:(lia) Hj'). enough (gap_lo j <= gap_hi j) by lia.
  destruct (lookup_lt_is_Some_2 rs j) as [r Hr]; [lia|]. unfold gap_hi. rewrite Hr.
  pose proof (ok_at _ _ _ Hrs Hr) as Hok. destruct j as [|k]; cbn; [unfold region_ok in *; lia|].
  destruct (lookup_lt_is_Some_2 rs k) as [r' Hr']; [lia|]. rewrite Hr'.
  pose proof (sorted_at rs k (S k) r' r Srs ltac:(lia) Hr' Hr). lia.
Qed.

(** Being in a gap is being unreserved. *)
Lemma gap_free j x : (j <= length rs)%nat -> gap_lo j <= x < gap_hi j -> ~ covers rs x.
Proof.
  intros Hj Hx (r & Hr & Hrx). apply list_elem_of_lookup in Hr as [k Hk].
  pose proof (lookup_lt_Some _ _ _ Hk). destruct (decide (k < j)%nat) as [Hkj|Hkj].
  - pose proof (gap_lo_mono (S k) j ltac:(lia) Hj) as Hg. unfold gap_lo in Hg at 1. rewrite Hk in Hg. lia.
  - assert (gap_hi j <= rbase r); [|lia]. unfold gap_hi.
    destruct (lookup_lt_is_Some_2 rs j) as [r' Hr']; [lia|]. rewrite Hr'.
    destruct (decide (j = k)) as [->|]; [simplify_eq; lia|].
    pose proof (sorted_at rs j k r' r Srs ltac:(lia) Hr' Hk).
    pose proof (ok_at _ _ _ Hrs Hr'). unfold region_ok, rend in *. lia.
Qed.

Lemma free_gap x :
  0 <= x < UINTPTR_MAX -> ~ covers rs x -> exists j, (j <= length rs)%nat /\ gap_lo j <= x < gap_hi j.
Proof.
  intros Hx Hf.
  assert (Hn : forall n, (n <= length rs)%nat ->
    (exists j, (j < n)%nat /\ gap_lo j <= x < gap_hi j) \/ gap_lo n <= x).
  { induction n as [|n IH]; intros Hn; [right; cbn; lia|].
    destruct (IH ltac:(lia)) as [(j & ? & ?)|Hlo]; [left; exists j; split; [lia|done]|].
    destruct (lookup_lt_is_Some_2 rs n) as [r Hr]; [lia|].
    destruct (decide (x < rbase r)) as [Hlt|Hge].
    - left. exists n. split; [lia|]. unfold gap_hi. rewrite Hr. lia.
    - right. unfold gap_lo. rewrite Hr. destruct (decide (rend r <= x)) as [|Hin]; [done|].
      destruct Hf. exists r. split; [by eapply list_elem_of_lookup_2|lia]. }
  destruct (Hn (length rs) (le_n _)) as [(j & ? & ?)|Hlo]; [exists j; split; [lia|done]|].
  exists (length rs). split; [lia|]. unfold gap_hi. rewrite lookup_ge_None_2 by lia. lia.
Qed.

(** The cells are free memory. *)
Lemma remaining_free x : remaining 0 0 x <-> covers ms x /\ ~ covers rs x.
Proof.
  split.
  - intros (i & j & _ & _ & a & Ha & Hj & Hx & Hg). split; [|by eapply gap_free].
    exists a. split; [by eapply list_elem_of_lookup_2|done].
  - intros [(a & Ha & Hx) Hf]. apply list_elem_of_lookup in Ha as [i Hi].
    pose proof (ok_at _ _ _ Hms Hi) as Hok. unfold region_ok, rend in *.
    destruct (free_gap x) as (j & Hj & Hg); [lia|done|].
    exists i, j. split_and!; [lia|lia|]. by exists a.
Qed.

(** The three ways the walk moves on without reporting anything. *)
Lemma skip_area i j a :
  ms !! i = Some a -> (j <= length rs)%nat -> rend a <= gap_lo j ->
  forall x, remaining i j x <-> remaining (S i) j x.
Proof.
  intros Ha Hj Hle x. split; intros (i' & j' & Hi & Hj' & Hc); exists i', j'; split_and!; try done; try lia.
  destruct (decide (i = i')) as [->|]; [|lia]. destruct Hc as (a' & Ha' & Hjl & Hx & Hg). simplify_eq.
  pose proof (gap_lo_mono j j' Hj' Hjl). lia.
Qed.

Lemma skip_gap i j a :
  ms !! i = Some a -> gap_hi j <= rbase a ->
  forall x, remaining i j x <-> remaining i (S j) x.
Proof.
  intros Ha Hle x. split; intros (i' & j' & Hi & Hj' & Hc); exists i', j'; split_and!; try done; try lia.
  destruct (decide (j = j')) as [->|]; [|lia]. destruct Hc as (a' & Ha' & Hjl & Hx & Hg).
  destruct (decide (i = i')) as [->|]; [simplify_eq; lia|].
  pose proof (sorted_at ms i i' a a' Sms ltac:(lia) Ha Ha').
  pose proof (ok_at _ _ _ Hms Ha). unfold region_ok, rend in *. lia.
Qed.

Lemma no_area i j : (length ms <= i)%nat -> forall x, ~ remaining i j x.
Proof. intros Hi x (i' & j' & Hii & _ & a & Ha & _). apply lookup_lt_Some in Ha. lia. Qed.

Lemma no_gap i j : (length rs < j)%nat -> forall x, ~ remaining i j x.
Proof. intros Hj x (i' & j' & _ & Hjj & a & _ & Hl & _). lia. Qed.

(** Reporting a cell: [lo .. hi) is the cell, what is left lies above it. *)
Definition reports (i j i' j' : nat) (lo hi : Z) : Prop :=
  lo < hi /\ (forall x, remaining i j x <-> lo <= x < hi \/ remaining i' j' x) /\
  (forall x, remaining i' j' x -> hi < x) /\
  (exists a j0, a ∈ ms /\ (j0 <= length rs)%nat /\ lo = Z.max (rbase a) (gap_lo j0) /\
     hi = Z.min (rend a) (gap_hi j0)).

Lemma report_cell i j a :
  ms !! i = Some a -> (j <= length rs)%nat -> gap_lo j < rend a -> rbase a < gap_hi j ->
  gap_lo j < gap_hi j ->
  let lo := Z.max (rbase a) (gap_lo j) in
  let hi := Z.min (rend a) (gap_hi j) in
  (rend a <= gap_hi j -> reports i j (S i) j lo hi) /\
  (gap_hi j < rend a -> reports i j i (S j) lo hi).
Proof.
  intros Ha Hj Hlo Hhi Hg lo hi. pose proof (ok_at _ _ _ Hms Ha) as Hok. unfold region_ok in Hok.
  assert (Hlohi : lo < hi) by (subst lo hi; unfold rend in *; lia).
  assert (Hcell : forall x, in_cell i j x <-> lo <= x < hi).
  { intros x. subst lo hi. split; [intros (a' & Ha' & _ & ? & ?); simplify_eq; lia|].
    intros Hx. exists a. split_and!; done || lia. }
  split; intros Hcase; unfold reports; (split_and!; [done| | |by exists a, j; split; [eapply list_elem_of_lookup_2|]]).
  - intros x. rewrite <- Hcell. split.
    + intros (i' & j' & Hi & Hj' & Hc). destruct (decide (i' = i)) as [->|].
      * left. destruct (decide (j' = j)) as [->|]; [done|].
        destruct Hc as (a' & Ha' & Hjl & Hx & Hgx). simplify_eq.
        pose proof (gap_mono j j' ltac:(lia) Hjl). lia.
      * right. exists i', j'. split_and!; [lia|done|done].
    + intros [Hc|(i' & j' & Hi & Hj' & Hc)]; [by exists i, j|exists i', j'; split_and!; [lia|done|done]].
  - intros x (i' & j' & Hi & _ & a' & Ha' & _ & Hx & _).
    pose proof (sorted_at ms i i' a a' Sms ltac:(lia) Ha Ha'). lia.
  - intros x. rewrite <- Hcell. split.
    + intros (i' & j' & Hi & Hj' & Hc). destruct (decide (j' = j)) as [->|].
      * left. destruct (decide (i' = i)) as [->|]; [done|].
        destruct Hc as (a' & Ha' & _ & Hx & Hgx).
        pose proof (sorted_at ms i i' a a' Sms ltac:(lia) Ha Ha'). lia.
      * right. exists i', j'. split_and!; [done|lia|done].
    + intros [Hc|(i' & j' & Hi & Hj' & Hc)]; [by exists i, j|exists i', j'; split_and!; [done|lia|done]].
  - intros x (i' & j' & _ & Hj' & a' & _ & Hjl & _ & Hx & _).
    pose proof (gap_mono j j' ltac:(lia) Hjl). lia.
Qed.

End walk.

Lemma holds_lookup t l (i : nat) r : holds t l -> l !! i = Some r -> get_region t i = Some r.
Proof.
  intros Hh Hi. apply list_elem_of_split_length in Hi as (l1 & l2 & -> & ->). by eapply holds_get.
Qed.

Lemma region_end_wrap r : region_ok r -> u64 (rbase r + rsize r) = rend r.
Proof. unfold region_ok, rend, UINTPTR_MAX. intros. by unwrap. Qed.

Section loops.
Context (mb : memblock) (ms rs : list memblock_region).
Hypothesis HM : type_wf (memory mb) ms.
Hypothesis HR : type_wf (reserved mb) rs.

Let Hms := wf_ok _ _ HM.
Let Hrs := wf_ok _ _ HR.
Let Sms := wf_sorted _ _ HM.
Let Srs := wf_sorted _ _ HR.

Lemma gap_start_eval (j : nat) :
  (j <= length rs)%nat ->
  (if Z.of_nat j =? 0 then Some 0
   else
     let* taken := get_region (reserved mb) (j - 1) in
     Some (u64 (rbase taken + rsize taken))) = Some (gap_lo rs j).
Proof.
  intros Hj. destruct j as [|k]; [done|]. rewrite (proj2 (Z.eqb_neq _ _)) by lia.
  replace (S k - 1) with (Z.of_nat k) by lia.
  destruct (lookup_lt_is_Some_2 rs k) as [r Hr]; [lia|].
  rewrite (holds_lookup _ _ _ _ (wf_holds _ _ HR) Hr). cbn. rewrite Hr.
  by rewrite region_end_wrap by (by eapply ok_at).
Qed.

Lemma gap_end_eval (j : nat) :
  (j <= length rs)%nat ->
  (if j <? length rs then let* taken := get_region (reserved mb) j in Some (rbase taken)
   else Some UINTPTR_MAX) = Some (gap_hi rs j).
Proof.
  intros Hj. unfold gap_hi. case_cmp.
  - destruct (lookup_lt_is_Some_2 rs j) as [r Hr]; [lia|].
    rewrite (holds_lookup _ _ _ _ (wf_holds _ _ HR) Hr). by rewrite Hr.
  - by rewrite lookup_ge_None_2 by lia.
Qed.

(** Outcome of a loop started at [(i, j)]. *)
Definition outcome (i j : nat) (none : memblock_cursor -> Prop)
    (res : memblock_cursor * option (Z * Z)) : Prop :=
  match res with
  | (c, None) => none c
  | (c, Some (lo, hi)) =>
      exists i' j', c = Cursor (Z.of_nat i') (Z.of_nat j') /\ reports ms rs i j i' j' lo hi /\
        (i <= i' <= length ms)%nat /\ (j <= j' <= S (length rs))%nat /\ (i + j < i' + j')%nat
  end.

Lemma gap_loop i j a :
  ms !! i = Some a -> (j <= S (length rs))%nat ->
  exists res, iter region_fuel (gap_step mb (rbase a) (rend a)) (Cursor (Z.of_nat i) (Z.of_nat j)) = Some res /\
    outcome i j (fun c => exists j', c = Cursor (Z.of_nat i) (Z.of_nat j') /\ (j <= j' <= S (length rs))%nat /\
      forall x, remaining ms rs i j x <-> remaining ms rs (S i) j' x) res.
Proof.
  intros Ha Hj. pose proof (holds_length _ _ (wf_holds _ _ HR)) as Hlr.
  pose proof (holds_length _ _ (wf_holds _ _ HM)) as Hlm. pose proof (lookup_lt_Some _ _ _ Ha) as Hi.
  apply (iter_rule (fun c => exists j1, c = Cursor (Z.of_nat i) (Z.of_nat j1) /\ (j <= j1 <= S (length rs))%nat /\
      forall x, remaining ms rs i j x <-> remaining ms rs i j1 x) _
    (fun c => Z.to_nat (17 - c_reserved c))).
  2:{ exists j. split_and!; done || lia. } 2:{ cbn. unfold region_fuel. lia. }
  intros c (j1 & -> & Hj1 & Heq). unfold gap_step. cbn [c_reserved c_memory].
  rewrite (holds_cnt _ _ (wf_holds _ _ HR)). unwrap.
  destruct (Z.ltb_spec j1 (length rs + 1)) as [Hlt|Hge].
  2:{ right. eexists. split; [done|]. exists j1. split_and!; [done|lia|lia|].
      intros x. split; intros Hx; exfalso; [rewrite Heq in Hx|]; by eapply no_gap; [|exact Hx]; lia. }
  rewrite gap_start_eval, gap_end_eval by lia. cbn [mbind option_bind].
  destruct (Z.leb_spec (rend a) (gap_lo rs j1)) as [Hle|Hgt].
  { right. eexists. split; [done|]. exists j1. split_and!; [done|lia|lia|].
    intros x. rewrite Heq. apply (skip_area ms rs Hrs Srs i j1 a); [done|lia|lia]. }
  destruct (Z.ltb_spec (rbase a) (gap_hi rs j1)) as [Hlt2|Hge2].
  - right. eexists. split; [done|].
    assert (Hg : gap_lo rs j1 < gap_hi rs j1).
    { pose proof (ok_at _ _ _ Hms Ha). unfold region_ok in *.
      destruct (decide (j1 < length rs)%nat) as [Hl|Hl].
      - destruct (lookup_lt_is_Some_2 rs j1) as [r Hr]; [lia|]. unfold gap_hi in *. rewrite Hr in *.
        destruct j1 as [|k]; cbn in *; [lia|]. destruct (lookup_lt_is_Some_2 rs k) as [r' Hr']; [lia|].
        rewrite Hr' in *. pose proof (sorted_at rs k (S k) r' r Srs ltac:(lia) Hr' Hr). lia.
      - unfold gap_hi in *. rewrite lookup_ge_None_2 in * by lia. lia. }
    replace (if gap_lo rs j1 <? rbase a then rbase a else gap_lo rs j1)
      with (Z.max (rbase a) (gap_lo rs j1)) by (case_cmp; lia).
    replace (if rend a <? gap_hi rs j1 then rend a else gap_hi rs j1)
      with (Z.min (rend a) (gap_hi rs j1)) by (case_cmp; lia).
    destruct (report_cell ms rs Hms Hrs Sms Srs i j1 a Ha ltac:(lia) Hgt Hlt2 Hg) as [H1 H2].
    unwrap. destruct (Z.leb_spec (rend a) (gap_hi rs j1)) as [Hc|Hc].
    + exists (S i), j1. split_and!; try lia; [by rewrite Nat2Z.inj_succ|].
      destruct (H1 Hc) as (R1 & R2 & R3 & R4). split_and!; try done. intros x. by rewrite Heq.
    + exists i, (S j1). split_and!; try lia; [by rewrite Nat2Z.inj_succ|].
      destruct (H2 Hc) as (R1 & R2 & R3 & R4). split_and!; try done. intros x. by rewrite Heq.
  - left. unwrap. eexists. split; [done|]. cbn. split; [|lia]. exists (S j1).
    split_and!; try lia; [by rewrite Nat2Z.inj_succ|]. intros x. rewrite Heq. by apply (skip_gap ms rs Hms Sms i j1 a).
Qed.

Lemma next_free_walk i j :
  (i <= length ms)%nat -> (j <= S (length rs))%nat ->
  exists res, memblock_next_free mb (Cursor (Z.of_nat i) (Z.of_nat j)) = Some res /\
    outcome i j (fun _ => forall x, ~ remaining ms rs i j x) res.
Proof.
  intros Hi Hj. pose proof (holds_length _ _ (wf_holds _ _ HR)) as Hlr.
  pose proof (holds_length _ _ (wf_holds _ _ HM)) as Hlm. unfold memblock_next_free.
  apply (iter_rule (fun c => exists i1 j1, c = Cursor (Z.of_nat i1) (Z.of_nat j1) /\ (i <= i1 <= length ms)%nat /\
      (j <= j1 <= S (length rs))%nat /\ forall x, remaining ms rs i j x <-> remaining ms rs i1 j1 x) _
    (fun c => Z.to_nat (17 - c_memory c))).
  2:{ exists i, j. split_and!; done || lia. } 2:{ cbn. unfold region_fuel. lia. }
  intros c (i1 & j1 & -> & Hi1 & Hj1 & Heq). unfold area_step. cbn [c_reserved c_memory].
  rewrite (holds_cnt _ _ (wf_holds _ _ HM)).
  destruct (Z.ltb_spec i1 (length ms)) as [Hlt|Hge].
  2:{ right. eexists. split; [done|]. intros x Hx. rewrite Heq in Hx. by eapply no_area; [|exact Hx]; lia. }
  destruct (lookup_lt_is_Some_2 ms i1) as [a Ha]; [lia|].
  rewrite (holds_lookup _ _ _ _ (wf_holds _ _ HM) Ha). cbn [mbind option_bind].
  rewrite region_end_wrap by apply (ok_at ms i1 a Hms Ha).
  destruct (gap_loop i1 j1 a Ha) as ([c found] & -> & Hres); [lia|]. cbn [mbind option_bind].
  destruct found as [[lo hi]|].
  - right. eexists. split; [done|]. destruct Hres as (i' & j' & -> & (R1 & R2 & R3 & R4) & Hi' & Hj' & Hlt').
    exists i', j'. split_and!; try done; try lia. unfold reports. split_and!; try done. intros x. by rewrite Heq.
  - left. destruct Hres as (j' & -> & Hj' & Heq'). cbn [c_memory c_reserved]. unwrap.
    eexists. split; [done|]. cbn. split; [|lia]. exists (S i1), j'.
    split_and!; try lia; [by rewrite Nat2Z.inj_succ|]. intros x. by rewrite Heq.
Qed.

End loops.

(** ** Early allocation *)

(** [c] is a multiple of [a] and the [size] bytes from it are free. *)
Definition fits (mb : memblock) (a size c : Z) : Prop :=
  (a | c) /\ forall x, c <= x < c + size -> free_addr mb x.

(** A free interval never leaves the cell it starts in. *)
Lemma interval_in_cell ms rs a j c size :
  Forall region_ok ms -> StronglySorted strictly_apart ms ->
  Forall region_ok rs ->
  a ∈ ms -> (j <= length rs)%nat -> 0 < size ->
  Z.max (rbase a) (gap_lo rs j) <= c < Z.min (rend a) (gap_hi rs j) ->
  (forall x, c <= x < c + size -> covers ms x /\ ~ covers rs x) ->
  c + size <= Z.min (rend a) (gap_hi rs j).
Proof.
  intros Hms Sms Hrs Ha Hj Hs Hc Hf.
  destruct (Z.le_gt_cases (c + size) (Z.min (rend a) (gap_hi rs j))) as [|Hgt]; [done|].
  destruct (Hf (Z.min (rend a) (gap_hi rs j)) ltac:(lia)) as [(a' & Ha' & Hx) Hnr]. exfalso.
  rewrite Forall_forall in Hms. pose proof (Hms _ Ha) as Hoa. pose proof (Hms _ Ha') as Hoa'.
  apply list_elem_of_lookup in Ha as [i Hi]. apply list_elem_of_lookup in Ha' as [i' Hi'].
  unfold region_ok in *. destruct (Z.le_gt_cases (rend a) (gap_hi rs j)) as [Hle|Hlt].
  - rewrite Z.min_l in * by lia. destruct (Nat.lt_trichotomy i i') as [Hii|[->|Hii]].
    + pose proof (sorted_at ms i i' a a' Sms Hii Hi Hi'). lia.
    + simplify_eq. lia.
    + pose proof (sorted_at ms i' i a' a Sms Hii Hi' Hi). unfold rend in *. lia.
  - rewrite Z.min_r in * by lia. unfold gap_hi in *. destruct (rs !! j) as [r|] eqn:Hr; [|lia].
    apply Hnr. exists r. split; [by eapply list_elem_of_lookup_2|].
    rewrite Forall_lookup in Hrs. specialize (Hrs _ _ Hr). unfold rend in *. lia.
Qed.

(** A range that touches no region needs one slot. *)
Lemma fill_free_length b e l :
  b < e -> Forall region_ok l -> (forall x, b <= x < e -> ~ covers l x) ->
  (length (fill b e l) <= length l + 1)%nat.
Proof.
  intros Hbe Hok. induction Hok as [|r l Hr Hok IH]; intros Hf; cbn [fill].
  - case_cmp; cbn; lia.
  - assert (IH' : (length (fill b e l) <= length l + 1)%nat).
    { apply IH. intros x Hx Hc. apply (Hf x Hx). apply covers_cons. by right. }
    destruct (Z.leb_spec e (rbase r)); [case_cmp; cbn; lia|].
    destruct (Z.leb_spec (rend r) b); [cbn; lia|]. exfalso. unfold region_ok in Hr.
    apply (Hf (Z.max b (rbase r))); [lia|]. apply covers_cons. left. unfold rend in *. lia.
Qed.

Section alloc.
Context (mb : memblock) (size k : Z).
Hypothesis Hwf : mb_wf mb.
Hypothesis Hsize : 0 < size < 2 ^ 64.
Hypothesis Hk : 0 <= k <= 63.
Hypothesis Hlow : forall x, covered (memory mb) x -> 0 < x < 2 ^ 63.

Let ms := live (memory mb).
Let rs := live (reserved mb).

(** What the search may end with. *)
Definition alloc_result (res : Z * memblock) : Prop :=
  mb_wf res.2 /\ memory res.2 = memory mb /\
  ((res.1 <> 0 /\ fits mb (2 ^ k) size res.1 /\ (forall c, fits mb (2 ^ k) size c -> res.1 <= c) /\
    forall x, covered (reserved res.2) x <-> covered (reserved mb) x \/ res.1 <= x < res.1 + size) \/
   (res.1 = 0 /\ res.2 = mb /\
    ((forall c, ~ fits mb (2 ^ k) size c) \/ cnt (reserved mb) = INIT_MEMBLOCK_REGIONS))).

Definition alloc_inv (c : memblock_cursor) : Prop :=
  exists i j, c = Cursor (Z.of_nat i) (Z.of_nat j) /\ (i <= length ms)%nat /\ (j <= S (length rs))%nat /\
    forall p, fits mb (2 ^ k) size p -> remaining ms rs i j p.

Lemma memory_wf : type_wf (memory mb) ms.
Proof. apply Hwf. Qed.

Lemma reserved_wf : type_wf (reserved mb) rs.
Proof. apply Hwf. Qed.

(** The candidate the code computes in a range that starts at [lo]. *)
Lemma candidate_eq lo :
  0 <= lo < 2 ^ 63 ->
  Z.land (u64 (u64 (lo + 2 ^ k) - 1)) (u64 (Z.lnot (u64 (2 ^ k - 1))))
  = 2 ^ k * ((lo + 2 ^ k - 1) / 2 ^ k).
Proof.
  intros Hlo. assert (0 < 2 ^ k <= 2 ^ 63).
  { split; [apply Z.pow_pos_nonneg; lia|apply Z.pow_le_mono_r; lia]. }
  rewrite (u64_id (lo + 2 ^ k)), (u64_id (lo + 2 ^ k - 1)), (u64_id (2 ^ k - 1)) by (unfold is_u64; lia).
  apply land_lnot_mask; [unfold is_u64|]; lia.
Qed.

Lemma reserve_found c :
  fits mb (2 ^ k) size c -> 0 < c -> c + size <= UINTPTR_MAX ->
  (forall p, fits mb (2 ^ k) size p -> c <= p) ->
  exists code mb', memblock_reserve c size mb = Some (code, mb') /\
    alloc_result (if negb (code =? 0) then 0 else c, mb').
Proof.
  intros Hfit Hc Hmax Hleast. unfold memblock_reserve.
  assert (Hu : is_u64 c /\ is_u64 size) by (unfold is_u64, UINTPTR_MAX in *; lia).
  destruct (add_range_correct _ _ c size reserved_wf (proj1 Hu) (proj2 Hu)) as [(t' & l' & -> & Hwf' & Hcov)|[-> Hfull]].
  { done. }
  - cbn [mbind option_bind]. eexists _, _. split; [done|]. eval_cmp.
    apply wf_of in Hwf' as [Hwf' Hl]. split_and!; cbn; [split; [apply Hwf|done]|done|].
    left. split_and!; [lia|done|done|]. intros x. unfold covered. rewrite Hl, Hcov.
    destruct (cap_size_range c size (proj1 Hu) (proj2 Hu)) as (_ & _ & ->); done.
  - cbn [mbind option_bind]. eexists _, _. split; [done|]. eval_cmp.
    replace (Memblock (memory mb) (reserved mb)) with mb by (by destruct mb).
    split_and!; [done|done|]. right. split_and!; [done|done|]. right.
    destruct (cap_size_range c size (proj1 Hu) (proj2 Hu)) as (_ & _ & Hcap). rewrite Hcap in Hfull by done.
    pose proof (fill_free_length c (c + size) rs ltac:(lia) (wf_ok _ _ reserved_wf)) as Hlen.
    pose proof (holds_length _ _ (wf_holds _ _ reserved_wf)).
    pose proof (holds_cnt _ _ (wf_holds _ _ reserved_wf)) as Hcnt.
    specialize (Hlen (fun x Hx => proj2 (proj2 Hfit x Hx))). unfold INIT_MEMBLOCK_REGIONS in *. lia.
Qed.

Lemma alloc_round c :
  alloc_inv c ->
  (exists c', alloc_step size (2 ^ k) mb c = Some (inl c') /\ alloc_inv c' /\
     (Z.to_nat (40 - c_memory c' - c_reserved c') < Z.to_nat (40 - c_memory c - c_reserved c))%nat) \/
  (exists res, alloc_step size (2 ^ k) mb c = Some (inr res) /\ alloc_result res).
Proof.
  intros (i & j & -> & Hi & Hj & Hrem). unfold alloc_step.
  pose proof (holds_length _ _ (wf_holds _ _ memory_wf)). pose proof (holds_length _ _ (wf_holds _ _ reserved_wf)).
  destruct (next_free_walk mb ms rs memory_wf reserved_wf i j Hi Hj) as ([c found] & -> & Hout).
  cbn [mbind option_bind]. destruct found as [[lo hi]|].
  2:{ right. eexists. split; [done|]. split_and!; [done|done|]. right. split_and!; [done|done|]. left.
      intros p Hp. by eapply Hout, Hrem. }
  destruct Hout as (i' & j' & -> & (Hlohi & Hsplit & Habove & a & j0 & Ha & Hj0 & Hlo & Hhi) & Hi' & Hj' & Hlt).
  assert (Hfree : forall x, lo <= x < hi -> free_addr mb x).
  { intros x Hx. unfold free_addr, covered. fold ms rs.
    apply remaining_free; [apply memory_wf|apply reserved_wf|apply reserved_wf|].
    destruct (proj2 (Hsplit x) (or_introl Hx)) as (i1 & j1 & ? & ? & ?). exists i1, j1. split_and!; [lia|lia|done]. }
  assert (0 < lo < 2 ^ 63) by (apply Hlow, Hfree; lia).
  assert (hi <= UINTPTR_MAX).
  { pose proof (wf_ok _ _ memory_wf) as Hok. rewrite Forall_forall in Hok. specialize (Hok _ Ha). unfold region_ok in *. lia. }
  rewrite candidate_eq by lia. set (cand := 2 ^ k * ((lo + 2 ^ k - 1) / 2 ^ k)).
  assert (Hcand : lo <= cand) by (apply round_up_ge; lia).
  assert (Hleast : forall p, fits mb (2 ^ k) size p -> lo <= p -> cand <= p).
  { intros p [Hal _] Hp. by apply round_up_least; [lia|..]. }
  assert (Hge : forall p, fits mb (2 ^ k) size p -> lo <= p).
  { intros p Hp. destruct (proj1 (Hsplit p) (Hrem p Hp)) as [?|Hr]; [lia|]. specialize (Habove _ Hr). lia. }
  destruct (Z.ltb_spec cand hi) as [Hch|Hch]; [destruct (Z.leb_spec size (u64 (hi - cand))) as [Hsz|Hsz]|]; cbn [andb].
  - right. unfold UINTPTR_MAX in *. unwrap_in Hsz.
    destruct (reserve_found cand) as (code & mb' & -> & Hres).
    + split; [by exists ((lo + 2 ^ k - 1) / 2 ^ k); rewrite Z.mul_comm|]. intros x Hx. apply Hfree. lia.
    + lia.
    + unfold UINTPTR_MAX. lia.
    + intros p Hp. apply Hleast; [done|by apply Hge].
    + cbn [mbind option_bind]. eexists. split; [done|]. done.
  - left. eexists. split; [done|]. split; [|cbn; lia]. exists i', j'. split_and!; [done|lia|lia|].
    intros p Hp. destruct (proj1 (Hsplit p) (Hrem p Hp)) as [Hin|]; [exfalso|done].
    pose proof (interval_in_cell ms rs a j0 p size (wf_ok _ _ memory_wf) (wf_sorted _ _ memory_wf)
      (wf_ok _ _ reserved_wf) Ha Hj0 ltac:(lia) ltac:(lia) (proj2 Hp)).
    pose proof (Hleast p Hp ltac:(lia)). unfold UINTPTR_MAX in *. unwrap_in Hsz. lia.
  - left. eexists. split; [done|]. split; [|cbn; lia]. exists i', j'. split_and!; [done|lia|lia|].
    intros p Hp. destruct (proj1 (Hsplit p) (Hrem p Hp)) as [Hin|]; [exfalso|done].
    pose proof (Hleast p Hp ltac:(lia)). lia.
Qed.

Lemma phys_alloc_correct align :
  align = 2 ^ k \/ align = 0 /\ k = 0 ->
  exists res, memblock_phys_alloc size align mb = Some res /\ alloc_result res.
Proof.
  intros Hal. unfold memblock_phys_alloc. eval_cmp.
  assert (0 < 2 ^ k) by (apply Z.pow_pos_nonneg; lia).
  assert ((if align =? 0 then 1 else align) = 2 ^ k) as ->.
  { destruct Hal as [->|[-> ->]]; [by eval_cmp|done]. }
  apply (iter_rule alloc_inv alloc_result (fun c => Z.to_nat (40 - c_memory c - c_reserved c))).
  - apply alloc_round.
  - exists 0%nat, 0%nat. split_and!; [done|lia|lia|]. intros p [_ Hp].
    apply remaining_free; [apply memory_wf|apply reserved_wf|apply reserved_wf|]. apply Hp. lia.
  - cbn. unfold region_fuel. lia.
Qed.

End alloc.

(** ** The properties *)

(** The idiom [while (memblock_next_free(&cursor, &start, &end)) ...] from a
    zero cursor, collecting the ranges. *)
Definition collect_step (mb : memblock) (s : memblock_cursor * list (Z * Z))
    : option ((memblock_cursor * list (Z * Z)) + list (Z * Z)) :=
  let '(c, acc) := s in
  let* '(c, found) := memblock_next_free mb c in
  match found with
  | Some range => Some (inl (c, acc ++ [range]))
  | None => Some (inr acc)
  end.

Definition free_ranges (mb : memblock) : option (list (Z * Z)) :=
  iter region_fuel (collect_step mb) (Cursor 0 0, []).

(** A walk: ordered, separated, not empty ranges. *)
Definition walk_ok (l : list (Z * Z)) : Prop :=
  Forall (fun r => 0 <= r.1 < r.2 /\ r.2 <= UINTPTR_MAX) l /\ StronglySorted (fun r s => r.2 < s.1) l.

Definition in_ranges (l : list (Z * Z)) (x : Z) : Prop := exists r, r ∈ l /\ r.1 <= x < r.2.

Lemma in_ranges_snoc l r x : in_ranges (l ++ [r]) x <-> in_ranges l x \/ r.1 <= x < r.2.
Proof. unfold in_ranges. set_solver. Qed.

Lemma walk_snoc l lo hi :
  walk_ok l -> 0 <= lo < hi -> hi <= UINTPTR_MAX -> (forall r, r ∈ l -> r.2 < lo) -> walk_ok (l ++ [(lo, hi)]).
Proof.
  intros [Hf Hs] Hlh Hm Hl. split.
  - apply Forall_app. split; [done|]. constructor; [cbn; lia|constructor].
  - clear Hf. induction Hs as [|r l Hs IH Hr]; cbn; [repeat constructor|]. constructor.
    + apply IH. intros ? ?. apply Hl. by constructor.
    + apply Forall_app. split; [done|]. repeat constructor. cbn. apply Hl. constructor.
Qed.

Lemma free_ranges_correct mb :
  mb_wf mb ->
  exists l, free_ranges mb = Some l /\ walk_ok l /\ forall x, in_ranges l x <-> free_addr mb x.
Proof.
  intros [Hm Hr]. unfold free_ranges. unfold wf in *.
  set (ms := live (memory mb)) in *. set (rs := live (reserved mb)) in *.
  pose proof (holds_length _ _ (wf_holds _ _ Hm)). pose proof (holds_length _ _ (wf_holds _ _ Hr)).
  assert (Hfree : forall x, remaining ms rs 0 0 x <-> free_addr mb x).
  { intros x. apply remaining_free; [apply Hm|apply Hr|apply Hr]. }
  apply (iter_rule (fun s => exists i j, s.1 = Cursor (Z.of_nat i) (Z.of_nat j) /\ (i <= length ms)%nat /\
      (j <= S (length rs))%nat /\ walk_ok s.2 /\ (forall r x, r ∈ s.2 -> remaining ms rs i j x -> r.2 < x) /\
      forall x, free_addr mb x <-> in_ranges s.2 x \/ remaining ms rs i j x) _
    (fun s => Z.to_nat (40 - c_memory s.1 - c_reserved s.1))).
  2:{ exists 0%nat, 0%nat. cbn. split_and!; try done; try lia.
      - split; constructor.
      - by intros r x ?%elem_of_nil.
      - intros x. rewrite <- Hfree. unfold in_ranges. set_solver. }
  2:{ cbn. unfold region_fuel. lia. }
  intros [c acc] (i & j & Hc & Hi & Hj & Hw & Hlow & Hcov). cbn [fst snd] in *. subst c. unfold collect_step.
  destruct (next_free_walk mb ms rs Hm Hr i j Hi Hj) as ([c found] & -> & Hout). cbn [mbind option_bind].
  destruct found as [[lo hi]|].
  - left. destruct Hout as (i' & j' & -> & (Hlohi & Hsplit & Habove & a & j0 & Ha & Hj0 & Hlo & Hhi) & Hi' & Hj' & Hlt).
    eexists. split; [done|]. cbn [fst snd c_memory c_reserved]. split; [|lia].
    pose proof (wf_ok _ _ Hm) as Hok. rewrite Forall_forall in Hok. specialize (Hok _ Ha). unfold region_ok in Hok.
    exists i', j'. split_and!; [done|lia|lia| | |].
    + apply walk_snoc; [done|lia|lia|]. intros r Hin. apply (Hlow r lo Hin), Hsplit. lia.
    + intros r x [Hin|Hin]%elem_of_app Hx; [by apply (Hlow r x Hin), Hsplit; right|].
      apply list_elem_of_singleton in Hin as ->. by apply Habove.
    + intros x. rewrite Hcov, Hsplit, in_ranges_snoc. cbn. tauto.
  - right. eexists. split; [done|]. split; [done|]. intros x. rewrite Hcov.
    split; [by left|]. intros [?|Hx]; [done|]. by apply Hout in Hx.
Qed.

(** C30. Walking free memory from a zero cursor terminates and reports ranges
    that are not empty, in increasing order and never adjacent, whose union
    is exactly the memory that is not reserved. *)
Theorem next_free_reports_free_memory mb :
  mb_wf mb ->
  exists l, free_ranges mb = Some l /\ walk_ok l /\
    forall x, in_ranges l x <-> covered (memory mb) x /\ ~ covered (reserved mb) x.
Proof. apply free_ranges_correct. Qed.

(** C26. [memblock_phys_alloc] with a power-of-two alignment (or 0, meaning 1)
    on memory above address 0 and below 2^63: a result other than 0 is the
    lowest aligned address from which [size] bytes are free, and exactly
    these bytes become reserved; the result is 0 only when no such address
    exists or the reserved array is full, and then nothing changes. *)
Theorem phys_alloc_lowest mb size align k :
  mb_wf mb -> 0 < size < 2 ^ 64 -> 0 <= k <= 63 -> align = 2 ^ k \/ align = 0 /\ k = 0 ->
  (forall x, covered (memory mb) x -> 0 < x < 2 ^ 63) ->
  exists p mb', memblock_phys_alloc size align mb = Some (p, mb') /\
    mb_wf mb' /\ memory mb' = memory mb /\
    ((p <> 0 /\ fits mb (2 ^ k) size p /\ (forall c, fits mb (2 ^ k) size c -> p <= c) /\
      forall x, covered (reserved mb') x <-> covered (reserved mb) x \/ p <= x < p + size) \/
     (p = 0 /\ mb' = mb /\
      ((forall c, ~ fits mb (2 ^ k) size c) \/ cnt (reserved mb) = INIT_MEMBLOCK_REGIONS))).
Proof.
  intros Hwf Hs Hk Hal Hlow.
  destruct (phys_alloc_correct mb size k Hwf Hs Hk Hlow align Hal) as ([p mb'] & E & Hres).
  exists p, mb'. split; [done|]. exact Hres.
Qed.

(** Two memory regions with a reserved one across the first. *)
Definition sample_memblock : memblock :=
  Memblock (MemblockType 2 0x3000 ([Region 0x1000 0x1000; Region 0x4000 0x2000] ++ replicate 14 (Region 0 0)))
    (MemblockType 1 0x1000 ([Region 0x1800 0x1000] ++ replicate 15 (Region 0 0))).

Lemma sample_memblock_wf : mb_wf sample_memblock.
Proof.
  split; [apply sample_type_wf|].
  apply (wf_of _ [Region 0x1800 0x1000]). split.
  - by exists (replicate 15 (Region 0 0)).
  - repeat constructor; unfold region_ok, rend, UINTPTR_MAX; cbn; lia.
  - repeat constructor.
  - done.
Qed.

Lemma sample_memory_low x : covered (memory sample_memblock) x -> 0 < x < 2 ^ 63.
Proof.
  assert (E : live (memory sample_memblock) = [Region 0x1000 0x1000; Region 0x4000 0x2000]) by done.
  unfold covered. rewrite E. autorewrite with miaow. unfold rend. cbn. lia.
Qed.

Lemma next_free_reports_free_memory_witness :
  exists l, free_ranges sample_memblock = Some l /\ walk_ok l /\
    forall x, in_ranges l x <->
      covered (memory sample_memblock) x /\ ~ covered (reserved sample_memblock) x.
Proof. apply (next_free_reports_free_memory sample_memblock sample_memblock_wf). Defined.

Lemma phys_alloc_lowest_witness :
  exists p mb', memblock_phys_alloc 0x900 0x100 sample_memblock = Some (p, mb') /\
    mb_wf mb' /\ memory mb' = memory sample_memblock /\
    ((p <> 0 /\ fits sample_memblock (2 ^ 8) 0x900 p /\
      (forall c, fits sample_memblock (2 ^ 8) 0x900 c -> p <= c) /\
      forall x, covered (reserved mb') x <-> covered (reserved sample_memblock) x \/ p <= x < p + 0x900) \/
     (p = 0 /\ mb' = sample_memblock /\
      ((forall c, ~ fits sample_memblock (2 ^ 8) 0x900 c) \/
       cnt (reserved sample_memblock) = INIT_MEMBLOCK_REGIONS))).
Proof.
  apply (phys_alloc_lowest sample_memblock 0x900 0x100 8);
    [apply sample_memblock_wf|lia|lia|by left|apply sample_memory_low].
Defined.
