(* ===== verification/PageAlloc.v ===== *)
(** * The buddy page allocator ([mm/page_alloc.c], [include/miaow/mm.h])

    A [struct page *] is its index in [mem_map]; the [lru] member of page [i]
    is the list node [Lru i], the list head of [free_area[o]] is
    [FreeList o], and the partial list of slab cache [c] is [Partial c] (the
    allocators share one page descriptor, so they share one list store).
    The lists are used through [ListStore] only. *)

From S2P Require Import Prelude MemoryH ListH.

Inductive node := Lru (i : Z) | FreeList (o : Z) | Partial (c : Z).

#[global] Instance node_eq_dec : EqDecision node.
Proof. solve_decision. Defined.

#[global] Instance node_countable : Countable node.
Proof.
  refine (inj_countable'
    (fun n => match n with Lru i => inl i | FreeList o => inr (inl o) | Partial c => inr (inr c) end)
    (fun s => match s with inl i => Lru i | inr (inl o) => FreeList o | inr (inr c) => Partial c end) _).
  by intros [].
Defined.

Definition MAX_ORDER : Z := 11.
Definition PAGE_BUDDY : Z := 1.
Definition PAGE_SLAB : Z := 2.
Definition sizeof_page : Z := 48.

(** [struct page], less [lru], which lives in the list store.  [slab] is the
    index of the cache in [kmalloc_caches]. *)
Record page := Page { flags : Z; order : Z; freelist : Z; slab : option Z; inuse : Z }.

Definition zero_page : page := Page 0 0 0 None 0.

Definition set_flags f p := Page f (order p) (freelist p) (slab p) (inuse p).
Definition set_order o p := Page (flags p) o (freelist p) (slab p) (inuse p).

(** [flags & b], [flags |= b] and [flags &= ~b] on [unsigned]. *)
Definition has_flag (b : Z) (p : page) : bool := negb (Z.land (flags p) b =? 0).
Definition add_flag (b : Z) (p : page) : page := set_flags (Z.lor (flags p) b) p.
Definition clear_flag (b : Z) (p : page) : page := set_flags (Z.land (flags p) (u32 (Z.lnot b))) p.

(** The static variables of [page_alloc.c], with the page descriptors
    [mem_map] points to and the list store. *)
Record zone (S : Type) := Zone {
  mem_map : gmap Z page;
  mem_map_base_pfn : Z;
  max_mapnr : Z;
  nr_free : gmap Z Z;
  free_count : Z;
  lists : S;
}.

Arguments Zone {S} _ _ _ _ _ _.
Arguments mem_map {S} _.
Arguments mem_map_base_pfn {S} _.
Arguments max_mapnr {S} _.
Arguments nr_free {S} _.
Arguments free_count {S} _.
Arguments lists {S} _.

Section operations.
Context {S : Type} `{!ListStore node S}.
Implicit Type z : zone S.

Definition set_mem_map m (z : zone S) := Zone m (mem_map_base_pfn z) (max_mapnr z) (nr_free z) (free_count z) (lists z).
Definition set_nr_free n (z : zone S) := Zone (mem_map z) (mem_map_base_pfn z) (max_mapnr z) n (free_count z) (lists z).
Definition set_free_count n (z : zone S) := Zone (mem_map z) (mem_map_base_pfn z) (max_mapnr z) (nr_free z) n (lists z).
Definition set_lists (s : S) z := Zone (mem_map z) (mem_map_base_pfn z) (max_mapnr z) (nr_free z) (free_count z) s.

(** A write to the fields of one page descriptor. *)
Definition on_page (i : Z) (f : page -> page) z : option (zone S) :=
  let* pg := mem_map z !! i in Some (set_mem_map (<[i := f pg]> (mem_map z)) z).

(** [free_area[o].nr_free += d] *)
Definition add_nr_free (o d : Z) z : option (zone S) :=
  let* n := nr_free z !! o in Some (set_nr_free (<[o := u64 (n + d)]> (nr_free z)) z).

(** A list operation on the shared store. *)
Definition on_lists (f : S -> option S) z : option (zone S) :=
  let* s := f (lists z) in Some (set_lists s z).

Definition page_to_pfn z (page : Z) : Z := u64 (mem_map_base_pfn z + page).

Definition pfn_to_page z (pfn : Z) : Z := u64 (pfn - mem_map_base_pfn z).

Definition pfn_valid z (pfn : Z) : bool :=
  (mem_map_base_pfn z <=? pfn) && (pfn <? u64 (mem_map_base_pfn z + max_mapnr z)).

Definition page_to_phys z (page : Z) : Z := u64 (Z.shiftl (page_to_pfn z page) PAGE_SHIFT).

Definition phys_to_page z (address : Z) : Z := pfn_to_page z (Z.shiftr address PAGE_SHIFT).

Definition nr_free_pages z : Z := free_count z.

(** The [for] loop of [free_area_init] over the orders. *)
Definition init_area (z : option (zone S)) (o : Z) : option (zone S) :=
  let* z := z in
  let* z := on_lists (ls_init (FreeList o)) z in
  Some (set_nr_free (<[o := 0]> (nr_free z)) z).

(** [memset(map, 0, pages * sizeof( *map ))] clears the descriptors and the
    list nodes inside them; a product that wraps is not modelled. *)
Definition free_area_init (base pages : Z) z : option (zone S) :=
  assert* pages * sizeof_page <? 2 ^ 64 in
  let ids := seqZ 0 pages in
  let z := Zone (list_to_map ((fun i => (i, zero_page)) <$> ids)) (Z.shiftr base PAGE_SHIFT) pages
    (nr_free z) 0 (foldr ls_zero (lists z) (Lru <$> ids)) in
  foldl init_area (Some z) (seqZ 0 MAX_ORDER).

(** The statements [__free_one_page] and [alloc_pages] use to take a block
    off the free list of its order. *)
Definition take_block (page o : Z) z : option (zone S) :=
  let* z := on_lists (ls_del (Lru page)) z in
  let* z := on_page page (clear_flag PAGE_BUDDY) z in
  add_nr_free o (-1) z.

(** The statements [__free_one_page] and [expand] use to put a block on the
    free list of its order. *)
Definition put_block (page o : Z) z : option (zone S) :=
  let* z := on_page page (set_order o) z in
  let* z := on_page page (add_flag PAGE_BUDDY) z in
  let* z := on_lists (ls_add (Lru page) (FreeList o)) z in
  add_nr_free o 1 z.

(** One round of the [while] loop of [__free_one_page]; the state is the
    zone, [pfn], [page] and [order]. *)
Definition merge_round (s : zone S * Z * Z * Z) : option ((zone S * Z * Z * Z) + (zone S * Z * Z)) :=
  let '(z, pfn, page, o) := s in
  if o <? MAX_ORDER - 1 then
    let buddy_pfn := Z.lxor pfn (Z.shiftl 1 o) in
    if negb (pfn_valid z buddy_pfn) then Some (inr (z, page, o))
    else
      let buddy := pfn_to_page z buddy_pfn in
      let* b := mem_map z !! buddy in
      if negb (has_flag PAGE_BUDDY b) || negb (order b =? o) then Some (inr (z, page, o))
      else
        let* z := take_block buddy o z in
        let pfn := Z.land pfn (u64 (Z.lnot (Z.shiftl 1 o))) in
        Some (inl (z, pfn, pfn_to_page z pfn, o + 1))
  else Some (inr (z, page, o)).

Definition order_fuel : nat := 16.

Definition __free_one_page (page o : Z) z : option (zone S) :=
  let* '(z, page, o) := iter order_fuel merge_round (z, page_to_pfn z page, page, o) in
  put_block page o z.

(** One round of the loop of [expand]; the state is the zone, [high] and
    [size]. *)
Definition expand_round (page low : Z) (s : zone S * Z * Z) : option ((zone S * Z * Z) + zone S) :=
  let '(z, high, size) := s in
  if low <? high then
    let high := high - 1 in
    let size := Z.shiftr size 1 in
    let* z := put_block (page + size) high z in
    Some (inl (z, high, size))
  else Some (inr z).

Definition expand (page low high : Z) z : option (Z * zone S) :=
  let* z := iter order_fuel (expand_round page low) (z, high, Z.shiftl 1 high) in
  Some (page, z).

(** One round of the [for] loop of [alloc_pages]. *)
Definition alloc_round (o : Z) z (current : Z) : option (Z + (option Z * zone S)) :=
  if current <? MAX_ORDER then
    let* empty := ls_empty (FreeList current) (lists z) in
    if (empty : bool) then Some (inl (current + 1))
    else
      let* first := ls_first (FreeList current) (lists z) in
      match first with
      | Lru page =>
          let* z := take_block page current z in
          let z := set_free_count (u64 (free_count z - Z.shiftl 1 o)) z in
          let* '(page, z) := expand page o current z in
          Some (inr (Some page, z))
      | _ => None
      end
  else Some (inr (None, z)).

(** [None] in the result is the NULL page. *)
Definition alloc_pages (o : Z) z : option (option Z * zone S) :=
  if MAX_ORDER <=? o then Some (None, z)
  else iter order_fuel (alloc_round o z) o.

Definition __free_pages (page o : Z) z : option (zone S) :=
  let* z := __free_one_page page o z in
  Some (set_free_count (u64 (free_count z + Z.shiftl 1 o)) z).

(** The inner loop of [__free_memory_core]: the largest order that is aligned
    at [pfn] and ends at or before [limit]. *)
Definition core_order_round (pfn limit o : Z) : option (Z + Z) :=
  if negb (o =? 0) &&
     (negb (Z.land pfn (Z.shiftl 1 o - 1) =? 0) || (limit <? u64 (pfn + Z.shiftl 1 o)))
  then Some (inl (o - 1))
  else Some (inr o).

Definition core_round (limit : Z) (s : zone S * Z) : option ((zone S * Z) + zone S) :=
  let '(z, pfn) := s in
  if pfn <? limit then
    let* o := iter order_fuel (core_order_round pfn limit) (MAX_ORDER - 1) in
    let* z := __free_pages (pfn_to_page z pfn) o z in
    Some (inl (z, u64 (pfn + Z.shiftl 1 o)))
  else Some (inr z).

(** One round per block and at least one page per block, so the number of
    managed pages bounds the rounds. *)
Definition __free_memory_core (start finish : Z) z : option (zone S) :=
  let pfn := Z.shiftr (u64 (start + PAGE_SIZE - 1)) PAGE_SHIFT in
  let limit := Z.shiftr finish PAGE_SHIFT in
  let pfn := if pfn <? mem_map_base_pfn z then mem_map_base_pfn z else pfn in
  let limit := if u64 (mem_map_base_pfn z + max_mapnr z) <? limit
    then u64 (mem_map_base_pfn z + max_mapnr z) else limit in
  iter (Datatypes.S (Z.to_nat (max_mapnr z))) (core_round limit) (z, pfn).

End operations.

#[global] Arguments on_page : simpl never.
#[global] Arguments on_lists : simpl never.
#[global] Arguments add_nr_free : simpl never.
#[global] Arguments take_block : simpl never.
#[global] Arguments put_block : simpl never.
#[global] Arguments has_flag : simpl never.
#[global] Arguments add_flag : simpl never.
#[global] Arguments clear_flag : simpl never.

(** ** Flags *)

Lemma land_pow2 f k : 0 <= k -> Z.land f (2 ^ k) = if Z.testbit f k then 2 ^ k else 0.
Proof.
  intros Hk. apply Z.bits_inj'. intros i Hi. rewrite Z.land_spec, Z.pow2_bits_eqb by lia.
  destruct (Z.eqb_spec k i) as [->|Hne].
  - destruct (Z.testbit f i); cbn; [by rewrite Z.pow2_bits_true by lia|by rewrite Z.bits_0].
  - rewrite andb_false_r. destruct (Z.testbit f k); [by rewrite Z.pow2_bits_false by lia|by rewrite Z.bits_0].
Qed.

Lemma has_flag_bit k p : 0 <= k -> has_flag (2 ^ k) p = Z.testbit (flags p) k.
Proof.
  intros Hk. unfold has_flag. rewrite land_pow2 by done.
  assert (0 < 2 ^ k) by (apply Z.pow_pos_nonneg; lia).
  destruct (Z.testbit _ _); [|done]. by rewrite (proj2 (Z.eqb_neq _ _)) by lia.
Qed.

Lemma has_add_flag k j p : 0 <= k -> 0 <= j ->
  has_flag (2 ^ k) (add_flag (2 ^ j) p) = (k =? j) || has_flag (2 ^ k) p.
Proof.
  intros. rewrite !has_flag_bit by done. unfold add_flag, set_flags. cbn [flags].
  rewrite Z.lor_spec, Z.pow2_bits_eqb by done. rewrite Z.eqb_sym. apply orb_comm.
Qed.

Lemma has_clear_flag k j p : 0 <= k < 32 -> 0 <= j ->
  has_flag (2 ^ k) (clear_flag (2 ^ j) p) = negb (k =? j) && has_flag (2 ^ k) p.
Proof.
  intros. rewrite !has_flag_bit by lia. unfold clear_flag, set_flags, u32. cbn [flags].
  rewrite Z.land_spec, Z.mod_pow2_bits_low, Z.lnot_spec, Z.pow2_bits_eqb by lia. rewrite Z.eqb_sym. apply andb_comm.
Qed.

(** The two flags the kernel uses. *)
Lemma buddy_add_buddy p : has_flag PAGE_BUDDY (add_flag PAGE_BUDDY p) = true.
Proof. by apply (has_add_flag 0 0). Qed.
Lemma buddy_clear_buddy p : has_flag PAGE_BUDDY (clear_flag PAGE_BUDDY p) = false.
Proof. by apply (has_clear_flag 0 0). Qed.
Lemma slab_add_buddy p : has_flag PAGE_SLAB (add_flag PAGE_BUDDY p) = has_flag PAGE_SLAB p.
Proof. by apply (has_add_flag 1 0). Qed.
Lemma slab_clear_buddy p : has_flag PAGE_SLAB (clear_flag PAGE_BUDDY p) = has_flag PAGE_SLAB p.
Proof. by apply (has_clear_flag 1 0). Qed.
Lemma slab_add_slab p : has_flag PAGE_SLAB (add_flag PAGE_SLAB p) = true.
Proof. by apply (has_add_flag 1 1). Qed.
Lemma slab_clear_slab p : has_flag PAGE_SLAB (clear_flag PAGE_SLAB p) = false.
Proof. by apply (has_clear_flag 1 1). Qed.
Lemma buddy_add_slab p : has_flag PAGE_BUDDY (add_flag PAGE_SLAB p) = has_flag PAGE_BUDDY p.
Proof. by apply (has_add_flag 0 1). Qed.
Lemma buddy_clear_slab p : has_flag PAGE_BUDDY (clear_flag PAGE_SLAB p) = has_flag PAGE_BUDDY p.
Proof. by apply (has_clear_flag 0 1). Qed.

#[global] Hint Rewrite buddy_add_buddy buddy_clear_buddy slab_add_buddy slab_clear_buddy
  slab_add_slab slab_clear_slab buddy_add_slab buddy_clear_slab : miaow.

(** ** Aligned blocks and their buddies *)

Lemma pow2_pos o : 0 <= o -> 0 < 2 ^ o.
Proof. intros. apply Z.pow_pos_nonneg; lia. Qed.

Lemma shiftl_1 o : 0 <= o -> Z.shiftl 1 o = 2 ^ o.
Proof. intros. rewrite Z.shiftl_mul_pow2 by done. lia. Qed.

(** The buddy of the block of order [o] at [p], and the block they merge to. *)
Definition buddy (p o : Z) : Z := if Z.odd (p / 2 ^ o) then p - 2 ^ o else p + 2 ^ o.
Definition parent (p o : Z) : Z := if Z.odd (p / 2 ^ o) then p - 2 ^ o else p.

Lemma shiftl_div p o : 0 <= o -> (2 ^ o | p) -> p = Z.shiftl (p / 2 ^ o) o.
Proof.
  intros Ho [q ->]. pose proof (pow2_pos o Ho). rewrite Z.shiftl_mul_pow2 by done.
  by rewrite Z.div_mul by lia.
Qed.

Lemma ldiff_1 m : Z.ldiff m 1 = if Z.odd m then m - 1 else m.
Proof.
  change 1 with (Z.ones 1) at 1. rewrite Z.ldiff_ones_r, Z.shiftl_mul_pow2, Z.shiftr_div_pow2 by lia.
  change (2 ^ 1) with 2. pose proof (Zdiv.Zmod_odd m). pose proof (Z.div_mod m 2). destruct (Z.odd m); lia.
Qed.

Lemma lxor_1 m : Z.lxor m 1 = if Z.odd m then m - 1 else m + 1.
Proof.
  pose proof (ldiff_1 m) as Hd. destruct (Z.odd m) eqn:E.
  - rewrite <- Hd. apply Z.bits_inj'. intros i Hi. rewrite Z.lxor_spec, Z.ldiff_spec.
    destruct (decide (i = 0)) as [->|]; [by rewrite Z.bit0_odd, E|].
    rewrite (Z.bits_above_log2 1 i) by (cbn; lia). by destruct (Z.testbit m i).
  - symmetry. apply Z.add_nocarry_lxor. apply Z.bits_inj'. intros i Hi. rewrite Z.land_spec, Z.bits_0.
    destruct (decide (i = 0)) as [->|]; [by rewrite Z.bit0_odd, E|].
    rewrite (Z.bits_above_log2 1 i) by (cbn; lia). by destruct (Z.testbit m i).
Qed.

Lemma lxor_buddy p o : 0 <= o -> (2 ^ o | p) -> Z.lxor p (Z.shiftl 1 o) = buddy p o.
Proof.
  intros Ho Hp. unfold buddy. rewrite (shiftl_div p o) at 1 by done.
  rewrite <- Z.shiftl_lxor, lxor_1, Z.shiftl_mul_pow2 by done.
  pose proof (pow2_pos o Ho). destruct Hp as [q ->]. rewrite Z.div_mul by lia.
  destruct (Z.odd q); lia.
Qed.

Lemma land_parent p o : is_u64 p -> 0 <= o < 64 -> (2 ^ o | p) ->
  Z.land p (u64 (Z.lnot (Z.shiftl 1 o))) = parent p o.
Proof.
  intros Hu Ho Hp. pose proof (pow2_pos o ltac:(lia)).
  assert (Z.land p (u64 (Z.lnot (Z.shiftl 1 o))) = Z.ldiff p (2 ^ o)) as ->.
  { rewrite shiftl_1 by lia. unfold u64, is_u64 in *. apply Z.bits_inj'. intros i Hi.
    rewrite Z.land_spec, Z.ldiff_spec. destruct (decide (i < 64)).
    - by rewrite Z.mod_pow2_bits_low, Z.lnot_spec by lia.
    - assert (Z.testbit p i = false) as ->; [|done].
      rewrite <- (Z.mod_small p (2 ^ 64)) by lia. apply Z.mod_pow2_bits_high. lia. }
  unfold parent. rewrite (shiftl_div p o) at 1 by (done || lia).
  rewrite <- (shiftl_1 o) at 2 by lia. rewrite <- Z.shiftl_ldiff by lia.
  rewrite ldiff_1. destruct Hp as [q ->]. rewrite Z.div_mul, Z.shiftl_mul_pow2 by lia.
  destruct (Z.odd q); lia.
Qed.

Lemma buddy_cases p o : 0 <= o -> (2 ^ o | p) ->
  (buddy p o = p + 2 ^ o /\ parent p o = p /\ (2 ^ (o + 1) | p)) \/
  (buddy p o = p - 2 ^ o /\ parent p o = p - 2 ^ o /\ (2 ^ (o + 1) | p - 2 ^ o)).
Proof.
  intros Ho [q ->]. pose proof (pow2_pos o Ho). unfold buddy, parent. rewrite Z.div_mul by lia.
  rewrite Z.pow_add_r by lia. destruct (Z.odd q) eqn:E.
  - right. split_and!; [done|done|]. apply Z.odd_spec in E as [k ->]. exists k. lia.
  - left. split_and!; [done|done|]. rewrite <- Z.negb_even, negb_false_iff in E.
    apply Z.even_spec in E as [k ->]. exists k. lia.
Qed.

Lemma divide_pow2_le o r p : 0 <= o <= r -> (2 ^ r | p) -> (2 ^ o | p).
Proof.
  intros Ho. apply Z.divide_trans. exists (2 ^ (r - o)). rewrite <- Z.pow_add_r by lia. f_equal. lia.
Qed.

Lemma divide_between o p q : 0 <= o -> (2 ^ o | p) -> (2 ^ o | q) -> p < q + 2 ^ o -> p <= q.
Proof.
  intros Ho [a ->] [b ->] H. pose proof (pow2_pos o Ho).
  apply Z.mul_le_mono_nonneg_r; [lia|]. assert (a < b + 1); [|lia].
  apply (Z.mul_lt_mono_pos_r (2 ^ o)); lia.
Qed.

Lemma buddy_aligned p o : 0 <= o -> (2 ^ o | p) -> (2 ^ o | buddy p o).
Proof.
  intros Ho Hp. destruct (buddy_cases p o) as [(-> & _)|(-> & _)]; [done|done| |];
    [apply Z.divide_add_r|apply Z.divide_sub_r]; try done; apply Z.divide_refl.
Qed.

(** Of a block and its successor only one is the lower buddy. *)
Lemma not_both_even q o : 0 <= o -> (2 ^ (o + 1) | q) -> (2 ^ (o + 1) | q + 2 ^ o) -> False.
Proof.
  intros Ho [a ->] [b E]. rewrite Z.pow_add_r in E by lia. pose proof (pow2_pos o Ho).
  assert (2 * a + 1 = 2 * b); [|lia]. apply (Z.mul_reg_r _ _ (2 ^ o)); lia.
Qed.

Lemma buddy_invol p o : 0 <= o -> (2 ^ o | p) -> buddy (buddy p o) o = p.
Proof.
  intros Ho Hp. pose proof (pow2_pos o Ho). pose proof (buddy_aligned p o Ho Hp) as Hb.
  destruct (buddy_cases p o Ho Hp) as [(E1 & _ & D1)|(E1 & _ & D1)];
    destruct (buddy_cases (buddy p o) o Ho Hb) as [(E2 & _ & D2)|(E2 & _ & D2)]; rewrite E1 in *; try lia; exfalso.
  - by apply (not_both_even p o).
  - apply (not_both_even (p - 2 ^ o - 2 ^ o) o); [done|done|]. by replace (p - 2 ^ o - 2 ^ o + 2 ^ o) with (p - 2 ^ o) by lia.
Qed.

(** The pages of the block of order [o] at [p]. *)
Definition inblk (p o x : Z) : Prop := p <= x < p + 2 ^ o.

(** A block together with its buddy is the merged block. *)
Lemma parent_pages p o x : 0 <= o -> (2 ^ o | p) ->
  inblk (parent p o) (o + 1) x <-> inblk p o x \/ inblk (buddy p o) o x.
Proof.
  intros Ho Hp. pose proof (pow2_pos o Ho). unfold inblk. rewrite Z.pow_add_r by lia.
  destruct (buddy_cases p o) as [(-> & -> & _)|(-> & -> & _)]; [done|done|lia..].
Qed.

(** Aligned blocks that meet are nested. *)
Lemma blocks_nest p o q r x :
  0 <= o <= r -> (2 ^ o | p) -> (2 ^ r | q) -> inblk p o x -> inblk q r x -> q <= p /\ p + 2 ^ o <= q + 2 ^ r.
Proof.
  unfold inblk. intros Ho Hp Hq Hx1 Hx2. pose proof (pow2_pos o ltac:(lia)).
  assert (Hqo : (2 ^ o | q)) by (by eapply divide_pow2_le).
  assert (Hro : (2 ^ o | 2 ^ r)) by (apply (divide_pow2_le o r); [lia|apply Z.divide_refl]).
  split.
  - apply (divide_between o); [lia|done|done|lia].
  - assert (p <= q + 2 ^ r - 2 ^ o); [|lia]. apply (divide_between o); [lia|done| |lia].
    apply Z.divide_sub_r; [by apply Z.divide_add_r|apply Z.divide_refl].
Qed.

(** ** Sets of free blocks

    [B] gives the order of the free block that starts at a page frame. *)
Definition free_in (B : gmap Z Z) (x : Z) : Prop := exists p o, B !! p = Some o /\ inblk p o x.

Record block_ok (base len p o : Z) : Prop := {
  bo_order : 0 <= o < MAX_ORDER;
  bo_align : (2 ^ o | p);
  bo_lo : base <= p;
  bo_hi : p + 2 ^ o <= base + len;
}.

(** Blocks in range and apart, with no two buddies left to merge. *)
Record blocks_ok (base len : Z) (B : gmap Z Z) : Prop := {
  bk_ok p o : B !! p = Some o -> block_ok base len p o;
  bk_apart p o q r x : B !! p = Some o -> B !! q = Some r -> inblk p o x -> inblk q r x -> p = q;
  bk_merged p o : B !! p = Some o -> o < MAX_ORDER - 1 -> B !! buddy p o <> Some o;
}.

(** Merging two buddies of the managed range stays in range. *)
Lemma parent_ok base len p o :
  block_ok base len p o -> block_ok base len (buddy p o) o -> o < MAX_ORDER - 1 ->
  block_ok base len (parent p o) (o + 1).
Proof.
  intros [Ho Hal Hlo Hhi] [_ _ Hblo Hbhi] Hlt. pose proof (pow2_pos o ltac:(lia)).
  assert (2 ^ (o + 1) = 2 ^ o + 2 ^ o) by (rewrite Z.pow_add_r by lia; lia).
  destruct (buddy_cases p o ltac:(lia) Hal) as [(Eb & -> & ?)|(Eb & -> & ?)]; rewrite Eb in *;
    split; (done || lia).
Qed.

Lemma inblk_start p o : 0 <= o -> inblk p o p.
Proof. intros. pose proof (pow2_pos o). unfold inblk. lia. Qed.

Lemma free_in_delete base len B p o x :
  blocks_ok base len B -> B !! p = Some o ->
  free_in (delete p B) x <-> free_in B x /\ ~ inblk p o x.
Proof.
  intros Hok Hp. split.
  - intros (q & r & Hq & Hx). apply lookup_delete_Some in Hq as [Hne Hq]. split; [by exists q, r|].
    intros ?. apply Hne. by eapply bk_apart.
  - intros [(q & r & Hq & Hx) Hn]. exists q, r. split; [|done]. apply lookup_delete_Some.
    split; [|done]. intros ->. simplify_eq. done.
Qed.

Lemma blocks_ok_delete base len B p : blocks_ok base len B -> blocks_ok base len (delete p B).
Proof.
  intros [H1 H2 H3]. split.
  - intros q r [_ ?]%lookup_delete_Some. by apply H1.
  - intros q r q' r' x [_ ?]%lookup_delete_Some [_ ?]%lookup_delete_Some. by eapply H2.
  - intros q r [_ ?]%lookup_delete_Some ? [_ ?]%lookup_delete_Some. by apply (H3 q r).
Qed.

Lemma free_in_insert B p o x : B !! p = None -> free_in (<[p := o]> B) x <-> inblk p o x \/ free_in B x.
Proof.
  intros Hp. split.
  - intros (q & r & Hq & Hx). apply lookup_insert_Some in Hq as [[-> ->]|[_ Hq]]; [by left|right]. by exists q, r.
  - intros [Hx|(q & r & Hq & Hx)]; [by exists p, o; rewrite lookup_insert_eq|].
    exists q, r. split; [|done]. rewrite lookup_insert_ne; [done|]. intros ->. congruence.
Qed.

Lemma blocks_ok_insert base len B p o :
  blocks_ok base len B -> block_ok base len p o -> (forall x, inblk p o x -> ~ free_in B x) ->
  (o < MAX_ORDER - 1 -> B !! buddy p o <> Some o) -> blocks_ok base len (<[p := o]> B).
Proof.
  intros [H1 H2 H3] Hp Hd Hb. pose proof (bo_order _ _ _ _ Hp). split.
  - intros q r [[-> ->]|[_ ?]]%lookup_insert_Some; [done|by apply H1].
  - intros q r q' r' x [[-> ->]|[_ ?]]%lookup_insert_Some [[-> ->]|[_ ?]]%lookup_insert_Some Hx Hx'; try done.
    + edestruct Hd; [exact Hx|]. by exists q', r'.
    + edestruct Hd; [exact Hx'|]. by exists q, r.
    + by eapply H2.
  - intros q r [[-> ->]|[Hne Hq]]%lookup_insert_Some Hr Hbud;
      apply lookup_insert_Some in Hbud as [[E E']|[Hne' Hbud]].
    + pose proof (pow2_pos r ltac:(lia)). unfold buddy in E. destruct (Z.odd _); lia.
    + by apply Hb.
    + subst r. apply (Hb Hr). pose proof (H1 _ _ Hq) as Hqo. rewrite E, buddy_invol; [done|lia|apply Hqo].
    + by apply (H3 q r).
Qed.

(** Every aligned run of free pages lies inside one free block: the blocks
    are as large as alignment allows. *)
Lemma free_run_in_block base len B k q :
  blocks_ok base len B -> 0 <= k < MAX_ORDER -> (2 ^ k | q) -> (forall x, inblk q k x -> free_in B x) ->
  exists p o, B !! p = Some o /\ k <= o /\ p <= q /\ q + 2 ^ k <= p + 2 ^ o.
Proof.
  intros Hok Hk. assert (H0 : 0 <= k) by lia. revert Hk q. revert k H0.
  apply (natlike_ind (fun k => 0 <= k < MAX_ORDER -> forall q, (2 ^ k | q) -> (forall x, inblk q k x -> free_in B x) ->
    exists p o, B !! p = Some o /\ k <= o /\ p <= q /\ q + 2 ^ k <= p + 2 ^ o)).
  - intros _ q _ Hf. destruct (Hf q) as (p & o & Hp & Hx); [by apply inblk_start|].
    pose proof (bk_ok _ _ _ Hok _ _ Hp) as []. unfold inblk in Hx. exists p, o. split_and!; [done|lia..].
  - intros k Hk IH Hk' q Hq Hf. rewrite <- Z.add_1_r in *. pose proof (pow2_pos k Hk).
    assert (Hpow : 2 ^ (k + 1) = 2 ^ k + 2 ^ k) by (rewrite Z.pow_add_r by lia; lia). unfold inblk in Hf. rewrite Hpow in Hf.
    assert (Hqk : (2 ^ k | q)) by (apply (divide_pow2_le k (k + 1)); [lia|done]).
    destruct (IH ltac:(lia) q Hqk) as (p1 & o1 & Hp1 & Ho1 & ? & ?); [intros x ?; apply Hf; unfold inblk in *; lia|].
    destruct (IH ltac:(lia) (q + 2 ^ k)) as (p2 & o2 & Hp2 & Ho2 & ? & ?).
    { apply Z.divide_add_r; [done|apply Z.divide_refl]. }
    { intros x ?; apply Hf; unfold inblk in *; lia. }
    pose proof (bk_ok _ _ _ Hok _ _ Hp1) as [? Ha1 _ _]. pose proof (bk_ok _ _ _ Hok _ _ Hp2) as [? Ha2 _ _].
    assert (Hbig : forall p o x, B !! p = Some o -> k < o -> (2 ^ o | p) -> inblk p o x -> inblk q (k + 1) x ->
      exists p o, B !! p = Some o /\ k + 1 <= o /\ p <= q /\ q + (2 ^ k + 2 ^ k) <= p + 2 ^ o).
    { intros p o x ? ? ? Hx Hx'. exists p, o. destruct (blocks_nest q (k + 1) p o x); [lia|done..|].
      split_and!; [done|lia..]. }
    rewrite Hpow.
    destruct (decide (k < o1)); [apply (Hbig p1 o1 q); try done; unfold inblk; lia|].
    destruct (decide (k < o2)); [apply (Hbig p2 o2 (q + 2 ^ k)); try done; unfold inblk; lia|].
    assert (o1 = k) as -> by lia. assert (o2 = k) as -> by lia.
    assert (p1 = q) as -> by lia. assert (p2 = q + 2 ^ k) as -> by lia.
    exfalso. apply (bk_merged _ _ _ Hok _ _ Hp1); [unfold MAX_ORDER in *; lia|].
    destruct (buddy_cases q k Hk Hqk) as [(-> & _)|(_ & _ & Hd)]; [done|].
    exfalso. apply (not_both_even (q - 2 ^ k) k); [done|done|]. by replace (q - 2 ^ k + 2 ^ k) with q by lia.
Qed.
