(* ===== verification/PageAllocProof.v ===== *)
(** * Correctness of the buddy page allocator

    [zone_inv z B L] relates the variables of [page_alloc.c] to the set of
    free blocks [B] and the lists [L]; [zone_free z F L] to the set [F] of
    free page frames alone, which is the abstract state of the allocator: the
    blocks are determined by [F] ([free_list_canonical]).  All proofs use
    the list store through [ListStoreLaws]. *)

From S2P Require Import Prelude MemoryH ListH PageAlloc.

Section zones.
Context {S : Type} `{!ListStore node S, !ListStoreLaws node S}.
Implicit Type z : zone S.
Implicit Types (B : gmap Z Z) (L : gmap node (list node)).

(** Page [i] is on the partial list of some slab cache. *)
Definition on_partial L (i : Z) : Prop := exists c l, L !! Partial c = Some l /\ Lru i ∈ l.

Definition page_ok z B (i : Z) (pg : page) : Prop :=
  match B !! (mem_map_base_pfn z + i) with
  | Some o => has_flag PAGE_BUDDY pg = true /\ order pg = o
  | None => has_flag PAGE_BUDDY pg = false
  end.

Definition area_ok z B L (o : Z) : Prop :=
  exists l, L !! FreeList o = Some l /\ nr_free z !! o = Some (Z.of_nat (length l)) /\
    forall x, x ∈ l <-> exists i, x = Lru i /\ B !! (mem_map_base_pfn z + i) = Some o.

Definition head_ok L (hd : node) : Prop :=
  (exists o, hd = FreeList o /\ 0 <= o < MAX_ORDER) \/
  (exists c, hd = Partial c /\ forall l x, L !! hd = Some l -> x ∈ l -> exists i, x = Lru i).

Record zone_inv z B L : Prop := {
  zi_base : 0 <= mem_map_base_pfn z;
  zi_max : 0 <= max_mapnr z;
  zi_end : mem_map_base_pfn z + max_mapnr z <= 2 ^ 52;
  zi_rep : ls_rep (lists z) L;
  zi_valid i : 0 <= i < max_mapnr z -> ls_valid (lists z) (Lru i);
  zi_dom i : is_Some (mem_map z !! i) <-> 0 <= i < max_mapnr z;
  zi_page i pg : mem_map z !! i = Some pg -> page_ok z B i pg;
  zi_area o : 0 <= o < MAX_ORDER -> area_ok z B L o;
  zi_heads hd : is_Some (L !! hd) -> head_ok L hd;
  zi_partial x : free_in B x -> ~ on_partial L (x - mem_map_base_pfn z);
  zi_blocks : blocks_ok (mem_map_base_pfn z) (max_mapnr z) B;
}.

(** The slab fields and flag of a descriptor. *)
Definition same_slab (p q : page) : Prop :=
  has_flag PAGE_SLAB q = has_flag PAGE_SLAB p /\ freelist q = freelist p /\ slab q = slab p /\ inuse q = inuse p.

(** From [z] to [z'] only the descriptors of the frames [T] changed, and not
    in their slab part. *)
Record frame z z' (T : Z -> Prop) : Prop := {
  fr_base : mem_map_base_pfn z' = mem_map_base_pfn z;
  fr_max : max_mapnr z' = max_mapnr z;
  fr_page i pg : mem_map z !! i = Some pg -> exists pg', mem_map z' !! i = Some pg' /\ same_slab pg pg' /\
    (~ T (mem_map_base_pfn z + i) -> pg' = pg);
  fr_valid x : ls_valid (lists z') x <-> ls_valid (lists z) x;
}.

(** The slab caches' lists are the same. *)
Definition same_partials L L' : Prop := forall c, L' !! Partial c = L !! Partial c.

Lemma same_slab_refl p : same_slab p p.
Proof. done. Qed.

Lemma frame_refl z : frame z z (fun _ => False).
Proof. split; try done. intros i pg ?. by exists pg. Qed.

Lemma frame_trans z1 z2 z3 (T1 T2 : Z -> Prop) : frame z1 z2 T1 -> frame z2 z3 T2 -> frame z1 z3 (fun x => T1 x \/ T2 x).
Proof.
  intros [b1 m1 p1 v1] [b2 m2 p2 v2]. split; [congruence|congruence| |].
  - intros i pg (pg' & Hpg' & (?&?&?&?) & Hs')%p1. apply p2 in Hpg' as (pg'' & ? & (?&?&?&?) & Hs'').
    exists pg''. split; [done|]. split; [repeat split; congruence|]. intros Hn. rewrite Hs''; [apply Hs'|]; naive_solver congruence.
  - intros x. by rewrite v2, v1.
Qed.

Lemma frame_weaken z z' (T T' : Z -> Prop) : frame z z' T -> (forall x, T x -> T' x) -> frame z z' T'.
Proof.
  intros [b m p v] HT. split; [done|done| |done]. intros i pg (pg' & ? & ? & Hs)%p. exists pg'.
  split; [done|]. split; [done|]. auto.
Qed.

Lemma same_partials_trans L1 L2 L3 : same_partials L1 L2 -> same_partials L2 L3 -> same_partials L1 L3.
Proof. unfold same_partials. intros H1 H2 c. by rewrite H2. Qed.

Lemma same_partials_on L L' i : same_partials L L' -> on_partial L' i <-> on_partial L i.
Proof. unfold same_partials, on_partial. intros H. by setoid_rewrite H. Qed.

Lemma same_partials_insert L o l : same_partials L (<[FreeList o := l]> L).
Proof. intros c. by rewrite lookup_insert_ne. Qed.

(** Where a page's list node can be. *)
Lemma in_lists_lru z B L i : zone_inv z B L ->
  in_lists L (Lru i) <-> is_Some (B !! (mem_map_base_pfn z + i)) \/ on_partial L i.
Proof.
  intros Hz. split.
  - intros (hd & l & Hl & [Hx|Hx]%elem_of_cons); destruct (zi_heads _ _ _ Hz hd) as [(o & -> & Ho)|(c & -> & Hc)]; eauto; try done.
    + left. destruct (zi_area _ _ _ Hz o Ho) as (l' & Hl' & _ & Hm). simplify_eq. apply Hm in Hx as (j & ? & ?). naive_solver.
    + right. by exists c, l.
  - intros [[o Ho]|(c & l & Hl & Hx)].
    + pose proof (bk_ok _ _ _ (zi_blocks _ _ _ Hz) _ _ Ho) as [Hb _ _ _].
      destruct (zi_area _ _ _ Hz o Hb) as (l & Hl & _ & Hm). exists (FreeList o), l. split; [done|].
      apply elem_of_cons. right. apply Hm. eauto.
    + exists (Partial c), l. split; [done|]. apply elem_of_cons. by right.
Qed.

(** A free list is no longer than the managed range. *)
Lemma area_length z B L o l : zone_inv z B L -> 0 <= o < MAX_ORDER -> L !! FreeList o = Some l ->
  Z.of_nat (length l) <= max_mapnr z.
Proof.
  intros Hz Ho Hl. destruct (zi_area _ _ _ Hz o Ho) as (l' & Hl' & _ & Hm). simplify_eq.
  assert (Hsub : l ⊆+ (Lru <$> seqZ 0 (max_mapnr z))).
  { pose proof (ls_rep_NoDup _ _ _ _ (zi_rep _ _ _ Hz) Hl) as [_ Hnd]%NoDup_cons. apply NoDup_submseteq; [done|].
    intros x (i & -> & Hi)%Hm. apply list_elem_of_fmap. exists i. split; [done|]. apply elem_of_seqZ.
    pose proof (bk_ok _ _ _ (zi_blocks _ _ _ Hz) _ _ Hi) as []. pose proof (pow2_pos o ltac:(lia)). lia. }
  apply submseteq_length in Hsub. rewrite length_fmap, length_seqZ in Hsub. pose proof (zi_max _ _ _ Hz). lia.
Qed.

(** One descriptor rewritten, the rest of the zone arbitrary. *)
Lemma frame_update z z' i pg pg' :
  mem_map z !! i = Some pg -> same_slab pg pg' -> mem_map z' = <[i := pg']> (mem_map z) ->
  mem_map_base_pfn z' = mem_map_base_pfn z -> max_mapnr z' = max_mapnr z ->
  (forall x, ls_valid (lists z') x <-> ls_valid (lists z) x) ->
  frame z z' (fun x => x = mem_map_base_pfn z + i).
Proof.
  intros Hpg Hs Hm Hb Hx Hv. split; try done. intros j pgj Hj. rewrite Hm.
  destruct (decide (i = j)) as [->|Hne].
  - simplify_eq. rewrite lookup_insert_eq. exists pg'. split; [done|]. split; [done|]. by intros [].
  - rewrite lookup_insert_ne by done. exists pgj. split; [done|]. by split.
Qed.

Lemma dom_update z i pg pg' j : mem_map z !! i = Some pg ->
  is_Some (<[i := pg']> (mem_map z) !! j) <-> is_Some (mem_map z !! j).
Proof.
  intros Hpg. destruct (decide (i = j)) as [->|Hne]; [|by rewrite lookup_insert_ne].
  rewrite lookup_insert_eq, Hpg. split; eauto.
Qed.

(** *** Taking a block *)

Lemma area_ok_other z z' B B' L L' o o' :
  nr_free z' !! o = nr_free z !! o -> mem_map_base_pfn z' = mem_map_base_pfn z ->
  L' !! FreeList o = L !! FreeList o -> o <> o' ->
  (forall p, B' !! p = B !! p \/ (B' !! p = Some o' \/ B' !! p = None) /\ (B !! p = Some o' \/ B !! p = None)) ->
  area_ok z B L o -> area_ok z' B' L' o.
Proof.
  intros Hn Hb HL Hne HB (l & Hl & Hlen & Hm). exists l. rewrite HL, Hn, Hb. split_and!; [done|done|].
  intros x. rewrite Hm. split; intros (i & ? & Hi); exists i; (split; [done|]);
    destruct (HB (mem_map_base_pfn z + i)) as [E|[[E|E] [E'|E']]]; congruence.
Qed.

Lemma head_ok_insert L o l hd : 0 <= o < MAX_ORDER ->
  (is_Some (L !! hd) -> head_ok L hd) -> is_Some (<[FreeList o := l]> L !! hd) -> head_ok (<[FreeList o := l]> L) hd.
Proof.
  intros Ho Hh Hs. destruct (decide (hd = FreeList o)) as [->|Hne]; [left; by exists o|].
  rewrite lookup_insert_ne in Hs by done. destruct (Hh Hs) as [?|(c & -> & Hc)]; [by left|right].
  exists c. split; [done|]. intros l' x. rewrite lookup_insert_ne by done. apply Hc.
Qed.

Lemma take_block_spec z B L i o :
  zone_inv z B L -> B !! (mem_map_base_pfn z + i) = Some o ->
  exists z' L', take_block i o z = Some z' /\ zone_inv z' (delete (mem_map_base_pfn z + i) B) L' /\
    ~ in_lists L' (Lru i) /\ same_partials L L' /\ free_count z' = free_count z /\
    frame z z' (fun x => x = mem_map_base_pfn z + i).
Proof.
  intros Hz Hi. pose proof (bk_ok _ _ _ (zi_blocks _ _ _ Hz) _ _ Hi) as Hb. pose proof (bo_order _ _ _ _ Hb) as Ho.
  pose proof (pow2_pos o ltac:(lia)).
  destruct (zi_area _ _ _ Hz o Ho) as (l & Hl & Hn & Hm).
  assert (Hin : Lru i ∈ l) by (apply Hm; eauto).
  apply list_elem_of_split in Hin as (l1 & l2 & ->).
  destruct (ls_del_spec _ _ _ _ _ _ (zi_rep _ _ _ Hz) Hl) as (s' & Hdel & Hrep & Hval).
  destruct (proj2 (zi_dom _ _ _ Hz i)) as [pg Hpg]; [destruct Hb; lia|].
  unfold take_block, on_lists, on_page, add_nr_free. rewrite Hdel. cbn. rewrite Hpg. cbn. rewrite Hn. cbn.
  pose proof (ls_rep_NoDup _ _ _ _ (zi_rep _ _ _ Hz) Hl) as Hnd.
  pose proof (area_length _ _ _ _ _ Hz Ho Hl) as Hlen.
  assert (Hnot : Lru i ∉ l1 ++ l2).
  { apply NoDup_cons in Hnd as [_ Hnd]. apply NoDup_app in Hnd as (_ & Hd & [? _]%NoDup_cons). set_solver. }
  eexists _, (<[FreeList o := l1 ++ l2]> L). split; [done|]. split_and!.
  2:{ intros (hd & l' & Hl' & Hx). apply lookup_insert_Some in Hl' as [[<- <-]|[Hne Hl']].
      - apply elem_of_cons in Hx as [?|?]; done.
      - apply (ls_rep_disj _ _ _ _ _ _ (zi_rep _ _ _ Hz) Hl' Hl ltac:(done) (Lru i)); [done|]. set_solver. }
  2:{ apply same_partials_insert. }
  2:{ done. }
  - split; cbn [mem_map mem_map_base_pfn max_mapnr nr_free free_count lists set_lists set_mem_map set_nr_free]; try apply Hz; try done.
    + intros j Hj. apply Hval. by apply Hz.
    + intros j. rewrite (dom_update z i pg) by done. apply Hz.
    + intros j pg' Hpg'. unfold page_ok. cbn [mem_map_base_pfn set_lists set_mem_map set_nr_free].
      apply lookup_insert_Some in Hpg' as [[<- <-]|[Hne Hpg']].
      * rewrite lookup_delete_eq. by autorewrite with miaow.
      * rewrite lookup_delete_ne by lia. by apply (zi_page _ _ _ Hz).
    + intros o' Ho'. destruct (decide (o' = o)) as [->|Hne].
      * exists (l1 ++ l2). cbn [nr_free mem_map_base_pfn set_lists set_mem_map set_nr_free].
        rewrite !lookup_insert_eq. split; [done|]. split.
        { rewrite !length_app in *. cbn [length] in *. f_equal. rewrite u64_id; [lia|]. unfold is_u64.
          pose proof (zi_end _ _ _ Hz). pose proof (zi_base _ _ _ Hz). lia. }
        { intros x. split.
          - intros Hx. destruct (proj1 (Hm x)) as (j & -> & Hj); [set_solver|]. exists j. split; [done|].
            rewrite lookup_delete_ne; [done|]. intros E. assert (j = i) as -> by lia. done.
          - intros (j & -> & [? Hj]%lookup_delete_Some). assert (Lru j ∈ l1 ++ Lru i :: l2) by (apply Hm; eauto).
            assert (Lru j <> Lru i) by (intros [= ->]; done). set_solver. }
      * apply (area_ok_other z _ B _ L _ o' o); cbn; try done.
        -- by rewrite lookup_insert_ne.
        -- by rewrite lookup_insert_ne by congruence.
        -- intros p. rewrite lookup_delete. case_decide; [subst; right; eauto|by left].
        -- by apply Hz.
    + intros hd. apply head_ok_insert; [done|]. apply Hz.
    + intros x (q & r & [_ Hq]%lookup_delete_Some & Hx). rewrite (same_partials_on L) by apply same_partials_insert.
      apply Hz. by exists q, r.
    + apply blocks_ok_delete, Hz.
  - eapply frame_update; [done| |done..]. repeat split. by autorewrite with miaow.
Qed.

(** *** Putting a block *)

Lemma put_block_spec z B L i o :
  let p := mem_map_base_pfn z + i in
  zone_inv z B L -> block_ok (mem_map_base_pfn z) (max_mapnr z) p o -> (forall x, inblk p o x -> ~ free_in B x) ->
  (o < MAX_ORDER - 1 -> B !! buddy p o <> Some o) ->
  (forall x, inblk p o x -> ~ on_partial L (x - mem_map_base_pfn z)) ->
  exists z' L', put_block i o z = Some z' /\ zone_inv z' (<[p := o]> B) L' /\
    same_partials L L' /\ free_count z' = free_count z /\ frame z z' (fun x => x = p).
Proof.
  intros p Hz Hb Hd Hbud Hpart. pose proof (bo_order _ _ _ _ Hb) as Ho. pose proof (pow2_pos o ltac:(lia)).
  assert (HBp : B !! p = None).
  { destruct (B !! p) as [r|] eqn:E; [|done]. exfalso. apply (Hd p); [apply inblk_start; lia|].
    exists p, r. split; [done|]. apply inblk_start. pose proof (bk_ok _ _ _ (zi_blocks _ _ _ Hz) _ _ E) as []. lia. }
  assert (Hni : ~ in_lists L (Lru i)).
  { rewrite (in_lists_lru z B L i Hz). intros [[r Hr]|Hon]; [fold p in Hr; congruence|].
    apply (Hpart p); [by apply inblk_start; lia|]. by replace (p - mem_map_base_pfn z) with i by (subst p; lia). }
  assert (Hi : 0 <= i < max_mapnr z) by (destruct Hb; subst p; lia).
  destruct (zi_area _ _ _ Hz o Ho) as (l & Hl & Hn & Hm).
  destruct (ls_add_spec _ _ _ _ (Lru i) (zi_rep _ _ _ Hz) Hl) as (s' & Hadd & Hrep & Hval); [done|by apply Hz|].
  destruct (proj2 (zi_dom _ _ _ Hz i) Hi) as [pg Hpg].
  unfold put_block, on_lists, on_page, add_nr_free. rewrite Hpg. cbn [mbind option_bind mem_map set_mem_map].
  rewrite lookup_insert_eq. cbn [mbind option_bind lists set_mem_map set_lists nr_free]. rewrite Hadd. cbn [mbind option_bind lists set_mem_map set_lists nr_free].
  rewrite Hn. cbn [mbind option_bind]. rewrite insert_insert_eq. set (pg' := add_flag PAGE_BUDDY (set_order o pg)).
  pose proof (area_length _ _ _ _ _ Hz Ho Hl) as Hlen.
  eexists _, (<[FreeList o := Lru i :: l]> L). split; [done|]. split_and!.
  2:{ apply same_partials_insert. }
  2:{ done. }
  - split; cbn [mem_map mem_map_base_pfn max_mapnr nr_free free_count lists set_lists set_mem_map set_nr_free]; try apply Hz; try done.
    + intros j Hj. apply Hval. by apply Hz.
    + intros j. rewrite (dom_update z i pg) by done. apply Hz.
    + intros j pgj Hpgj. unfold page_ok. cbn [mem_map_base_pfn set_lists set_mem_map set_nr_free].
      apply lookup_insert_Some in Hpgj as [[<- <-]|[Hne Hpgj]].
      * rewrite lookup_insert_eq. split; [apply buddy_add_buddy|done].
      * rewrite lookup_insert_ne by (subst p; lia). by apply (zi_page _ _ _ Hz).
    + intros o' Ho'. destruct (decide (o' = o)) as [->|Hne].
      * exists (Lru i :: l). cbn [nr_free mem_map_base_pfn set_lists set_mem_map set_nr_free length].
        rewrite !lookup_insert_eq. split; [done|]. split.
        { f_equal. rewrite u64_id; [lia|]. unfold is_u64.
          pose proof (zi_end _ _ _ Hz). pose proof (zi_base _ _ _ Hz). lia. }
        { intros x. rewrite elem_of_cons, Hm. split.
          - intros [->|(j & -> & Hj)]; [exists i; by rewrite lookup_insert_eq|]. exists j. split; [done|].
            rewrite lookup_insert_ne; [done|]. intros E. congruence.
          - intros (j & -> & [[E _]|[? Hj]]%lookup_insert_Some); [left; f_equal; subst p; lia|right; eauto]. }
      * apply (area_ok_other z _ B _ L _ o' o); cbn; try done.
        -- by rewrite lookup_insert_ne.
        -- by rewrite lookup_insert_ne by congruence.
        -- intros q. rewrite lookup_insert. case_decide; [subst; right; eauto|by left].
        -- by apply Hz.
    + intros hd. apply head_ok_insert; [done|]. apply Hz.
    + intros x. rewrite free_in_insert, (same_partials_on L) by (done || apply same_partials_insert).
      intros [?|?]; [by apply Hpart|by apply Hz].
    + by apply blocks_ok_insert; [apply Hz|..].
  - eapply frame_update; [done| |done..]. unfold same_slab, pg'. rewrite slab_add_buddy. done.
Qed.

(** *** Frame numbers and page indexes *)

Lemma page_to_pfn_eq z B L i : zone_inv z B L -> 0 <= i < max_mapnr z -> page_to_pfn z i = mem_map_base_pfn z + i.
Proof. intros [] Hi. unfold page_to_pfn. rewrite u64_id; [done|]. unfold is_u64. lia. Qed.

Lemma pfn_to_page_eq z B L p : zone_inv z B L -> mem_map_base_pfn z <= p < mem_map_base_pfn z + max_mapnr z ->
  pfn_to_page z p = p - mem_map_base_pfn z.
Proof. intros [] Hi. unfold pfn_to_page. rewrite u64_id; [done|]. unfold is_u64. lia. Qed.

Lemma pfn_valid_eq z B L p : zone_inv z B L ->
  pfn_valid z p = true <-> mem_map_base_pfn z <= p < mem_map_base_pfn z + max_mapnr z.
Proof.
  intros []. unfold pfn_valid. rewrite u64_id by (unfold is_u64; lia). rewrite andb_true_iff, Z.leb_le, Z.ltb_lt. done.
Qed.

(** *** Coalescing *)

(** What the loop of [__free_one_page] keeps: the block in hand and the free
    blocks together are the block freed and the blocks there were. *)
Record merging z0 B0 L0 p0 o0 (z : zone S) (p o : Z) B L : Prop := {
  mg_inv : zone_inv z B L;
  mg_block : block_ok (mem_map_base_pfn z) (max_mapnr z) p o;
  mg_apart x : inblk p o x -> ~ free_in B x;
  mg_pages x : inblk p o x \/ free_in B x <-> inblk p0 o0 x \/ free_in B0 x;
  mg_partial x : inblk p o x -> ~ on_partial L (x - mem_map_base_pfn z);
  mg_same : same_partials L0 L;
  mg_count : free_count z = free_count z0;
  mg_frame : frame z0 z (fun x => inblk p0 o0 x \/ free_in B0 x);
}.

(** The buddy was taken: the merged block is in hand. *)
Lemma merging_take z0 B0 L0 p0 o0 z p o B L z' L' :
  merging z0 B0 L0 p0 o0 z p o B L -> B !! buddy p o = Some o -> o < MAX_ORDER - 1 ->
  zone_inv z' (delete (buddy p o) B) L' -> ~ in_lists L' (Lru (buddy p o - mem_map_base_pfn z)) ->
  same_partials L L' -> free_count z' = free_count z -> frame z z' (fun x => x = buddy p o) ->
  merging z0 B0 L0 p0 o0 z' (parent p o) (o + 1) (delete (buddy p o) B) L'.
Proof.
  intros [Hz Hb Hap Hpg Hpart Hsame Hcnt Hfr] HB Hlt Hz' Hnl Hs' Hc' Hf'.
  pose proof (fr_base _ _ _ Hf') as Eb. pose proof (fr_max _ _ _ Hf') as Em.
  pose proof (parent_ok _ _ p o Hb (bk_ok _ _ _ (zi_blocks _ _ _ Hz) _ _ HB) Hlt) as Hpar.
  assert (Hfd := fun x => free_in_delete _ _ _ _ _ x (zi_blocks _ _ _ Hz) HB).
  assert (Hpp := fun x => parent_pages p o x ltac:(destruct Hb; lia) (bo_align _ _ _ _ Hb)).
  assert (Hbf : forall x, inblk (buddy p o) o x -> free_in B x) by (intros x ?; by exists (buddy p o), o).
  split; [done|by rewrite Eb, Em| | | |by eapply same_partials_trans|congruence|].
  - intros x. rewrite Hpp, Hfd. specialize (Hap x). tauto.
  - intros x. rewrite Hpp, Hfd, <- Hpg. specialize (Hbf x). destruct (decide (buddy p o <= x < buddy p o + 2 ^ o)); unfold inblk in *; tauto.
  - intros x. rewrite Hpp, Eb, (same_partials_on L) by done. intros [?|?]; [by apply Hpart|]. apply Hz. by apply Hbf.
  - eapply frame_weaken; [by eapply frame_trans|]. intros x [?| ->]; [done|]. apply Hpg. right.
    apply Hbf, inblk_start. destruct Hb; lia.
Qed.

Lemma merge_round_spec z0 B0 L0 p0 o0 z p o B L :
  merging z0 B0 L0 p0 o0 z p o B L ->
  (exists z' p' B' L', merge_round (z, p, p - mem_map_base_pfn z, o) =
      Some (inl (z', p', p' - mem_map_base_pfn z', o + 1)) /\
      merging z0 B0 L0 p0 o0 z' p' (o + 1) B' L' /\ o + 1 < MAX_ORDER) \/
  (merge_round (z, p, p - mem_map_base_pfn z, o) = Some (inr (z, p - mem_map_base_pfn z, o)) /\
    (o < MAX_ORDER - 1 -> B !! buddy p o <> Some o)).
Proof.
  intros Hmg. pose proof Hmg as [Hz Hb _ _ _ _ _ _]. pose proof Hb as [Ho Hal Hlo Hhi]. pose proof (pow2_pos o ltac:(lia)).
  unfold merge_round. destruct (Z.ltb_spec o (MAX_ORDER - 1)) as [Hlt|]; [|right; split; [done|lia]].
  rewrite lxor_buddy by (done || lia).
  destruct (pfn_valid z (buddy p o)) eqn:Hv; cbn [negb].
  2:{ right. split; [done|]. intros _ HB. pose proof (bk_ok _ _ _ (zi_blocks _ _ _ Hz) _ _ HB) as [_ _ ? ?].
      apply not_true_iff_false in Hv. apply Hv, (pfn_valid_eq z B L _ Hz). lia. }
  apply (pfn_valid_eq z B L _ Hz) in Hv. rewrite (pfn_to_page_eq z B L _ Hz Hv).
  destruct (proj2 (zi_dom _ _ _ Hz (buddy p o - mem_map_base_pfn z))) as [b Hbud]; [lia|].
  rewrite Hbud. cbn [mbind option_bind].
  pose proof (zi_page _ _ _ Hz _ _ Hbud) as Hpage. unfold page_ok in Hpage.
  assert (Eq : mem_map_base_pfn z + (buddy p o - mem_map_base_pfn z) = buddy p o) by lia. rewrite Eq in Hpage.
  destruct (B !! buddy p o) as [r|] eqn:HB; [|rewrite Hpage; cbn [negb orb]; right; by split].
  destruct Hpage as [-> ->]. cbn [negb orb]. destruct (Z.eqb_spec r o) as [->|Hne]; cbn [negb].
  2:{ right. split; [done|]. congruence. }
  left. destruct (take_block_spec z B L (buddy p o - mem_map_base_pfn z) o Hz) as (z' & L' & -> & Hz' & Hnl & Hs' & Hc' & Hf').
  { by rewrite Eq. }
  cbn [mbind option_bind]. rewrite Eq in *.
  pose proof (merging_take _ _ _ _ _ _ _ _ _ _ z' L' Hmg HB Hlt Hz' Hnl Hs' Hc' Hf') as Hmg'.
  rewrite land_parent; [|unfold is_u64; destruct Hz; lia|unfold MAX_ORDER in *; lia|done].
  rewrite (pfn_to_page_eq z' _ L' _ Hz').
  2:{ destruct (mg_block _ _ _ _ _ _ _ _ _ _ Hmg') as [_ _ ? ?]. pose proof (pow2_pos (o + 1) ltac:(lia)). lia. }
  exists z', (parent p o), (delete (buddy p o) B), L'. split; [done|]. split; [done|unfold MAX_ORDER in *; lia].
Qed.

(** The measure of the loop is the number of orders left. *)
Lemma free_one_page_correct z B L i o :
  let p := mem_map_base_pfn z + i in
  zone_inv z B L -> block_ok (mem_map_base_pfn z) (max_mapnr z) p o -> (forall x, inblk p o x -> ~ free_in B x) ->
  (forall x, inblk p o x -> ~ on_partial L (x - mem_map_base_pfn z)) ->
  exists z' B' L', __free_one_page i o z = Some z' /\ zone_inv z' B' L' /\
    (forall x, free_in B' x <-> inblk p o x \/ free_in B x) /\
    same_partials L L' /\ free_count z' = free_count z /\ frame z z' (fun x => inblk p o x \/ free_in B x).
Proof.
  intros p Hz Hb Hap Hpart. pose proof (pow2_pos o ltac:(destruct Hb; lia)). unfold __free_one_page.
  rewrite (page_to_pfn_eq z B L) by (done || (destruct Hb; subst p; lia)). fold p.
  edestruct (iter_rule
    (fun s => exists z' p' o' B' L', s = (z', p', p' - mem_map_base_pfn z', o') /\ merging z B L p o z' p' o' B' L')
    (fun r => exists z' p' o' B' L', r = (z', p' - mem_map_base_pfn z', o') /\ merging z B L p o z' p' o' B' L' /\
       (o' < MAX_ORDER - 1 -> B' !! buddy p' o' <> Some o'))
    (fun s => Z.to_nat (MAX_ORDER - s.2)) merge_round) with (fuel := order_fuel) (s := (z, p, i, o))
    as (r & Hr & Hpost).
  - intros s (z' & p' & o' & B' & L' & -> & Hmg).
    destruct (merge_round_spec _ _ _ _ _ _ _ _ _ _ Hmg) as [(z2 & p2 & B2 & L2 & -> & Hmg2 & Hlt)|[-> Hbud]].
    + left. eexists. split; [done|]. split; [by exists z2, p2, (o' + 1), B2, L2|].
      cbn [snd]. destruct (mg_block _ _ _ _ _ _ _ _ _ _ Hmg). lia.
    + right. eexists. split; [done|]. by exists z', p', o', B', L'.
  - exists z, p, o, B, L. split; [do 2 f_equal; subst p; lia|]. split; try done.
    + eapply frame_weaken; [apply frame_refl|done].
  - cbn [snd]. destruct Hb. unfold MAX_ORDER, order_fuel in *. lia.
  - rewrite Hr. cbn [mbind option_bind]. destruct Hpost as (z' & p' & o' & B' & L' & -> & [] & Hbud).
    assert (Ep : mem_map_base_pfn z' + (p' - mem_map_base_pfn z') = p') by lia.
    destruct (put_block_spec z' B' L' (p' - mem_map_base_pfn z') o') as (z2 & L2 & -> & Hz2 & Hs2 & Hc2 & Hf2);
      rewrite ?Ep in *; try done.
    exists z2, (<[p' := o']> B'), L2. split; [done|]. split; [done|]. split_and!.
    + intros x. rewrite free_in_insert, mg_pages0; [done|].
      destruct (B' !! p') as [r|] eqn:E; [exfalso|done]. apply (mg_apart0 p'); [apply inblk_start; destruct mg_block0; lia|].
      exists p', r. split; [done|]. apply inblk_start. destruct (bk_ok _ _ _ (zi_blocks _ _ _ mg_inv0) _ _ E). lia.
    + by eapply same_partials_trans.
    + congruence.
    + eapply frame_weaken; [by eapply frame_trans|]. intros x [?| ->]; [done|]. apply mg_pages0. left.
      apply inblk_start. destruct mg_block0; lia.
Qed.

(** *** The allocator as a set of free page frames *)

Definition blk (p o : Z) : gset Z := list_to_set (seqZ p (2 ^ o)).

Lemma elem_of_blk p o x : x ∈ blk p o <-> inblk p o x.
Proof. unfold blk, inblk. rewrite elem_of_list_to_set, elem_of_seqZ. done. Qed.

Lemma size_blk p o : 0 <= o -> Z.of_nat (size (blk p o)) = 2 ^ o.
Proof.
  intros Ho. unfold blk. rewrite size_list_to_set by apply NoDup_seqZ. rewrite length_seqZ.
  pose proof (pow2_pos o Ho). lia.
Qed.

(** The zone manages the free page frames [F] and counts them. *)
Definition zone_free z (F : gset Z) L : Prop :=
  exists B, zone_inv z B L /\ (forall x, x ∈ F <-> free_in B x) /\ free_count z = Z.of_nat (size F).

Lemma zone_free_range z F L x : zone_free z F L -> x ∈ F ->
  mem_map_base_pfn z <= x < mem_map_base_pfn z + max_mapnr z.
Proof.
  intros (B & Hz & HF & _) (p & o & Hp & Hx)%HF. destruct (bk_ok _ _ _ (zi_blocks _ _ _ Hz) _ _ Hp). unfold inblk in Hx. lia.
Qed.

Lemma zone_free_size z F L : zone_free z F L -> Z.of_nat (size F) <= max_mapnr z.
Proof.
  intros HF. assert (Hsub : F ⊆ list_to_set (seqZ (mem_map_base_pfn z) (max_mapnr z))).
  { intros x Hx. apply elem_of_list_to_set, elem_of_seqZ. by apply (zone_free_range z F L). }
  apply subseteq_size in Hsub. rewrite size_list_to_set in Hsub by apply NoDup_seqZ. rewrite length_seqZ in Hsub.
  destruct HF as (B & Hz & _). pose proof (zi_max _ _ _ Hz). lia.
Qed.

Lemma set_free_count_inv n z B L : zone_inv z B L -> zone_inv (set_free_count n z) B L.
Proof. by intros []. Qed.

Lemma set_free_count_frame n z z' T : frame z z' T -> frame z (set_free_count n z') T.
Proof. by intros []. Qed.

Lemma free_pages_correct z F L i o :
  let p := mem_map_base_pfn z + i in
  zone_free z F L -> block_ok (mem_map_base_pfn z) (max_mapnr z) p o -> blk p o ## F ->
  (forall x, x ∈ blk p o -> ~ on_partial L (x - mem_map_base_pfn z)) ->
  exists z' L', __free_pages i o z = Some z' /\ zone_free z' (F ∪ blk p o) L' /\ same_partials L L' /\
    frame z z' (fun x => x ∈ F ∪ blk p o).
Proof.
  intros p HF Hb Hd Hpart. pose proof HF as (B & Hz & HB & Hc). pose proof (pow2_pos o ltac:(destruct Hb; lia)).
  destruct (free_one_page_correct z B L i o Hz Hb) as (z' & B' & L' & E & Hz' & HB' & Hs & Hc' & Hf).
  { intros x Hx Hf. apply (Hd x); [by apply elem_of_blk|by apply HB]. }
  { intros x Hx. by apply Hpart, elem_of_blk. }
  assert (HU : forall x, x ∈ F ∪ blk p o <-> inblk p o x \/ free_in B x).
  { intros x. rewrite elem_of_union, elem_of_blk, HB. tauto. }
  assert (HF' : forall n, (n = Z.of_nat (size (F ∪ blk p o))) -> zone_free (set_free_count n z') (F ∪ blk p o) L').
  { intros n ->. exists B'. split; [by apply set_free_count_inv|]. split; [|done]. intros x. rewrite HB', HU. done. }
  pose proof (zone_free_size _ _ _ (HF' _ eq_refl)) as Hsz. cbn [max_mapnr set_free_count] in Hsz. rewrite (fr_max _ _ _ Hf) in Hsz.
  assert (Hsum : Z.of_nat (size (F ∪ blk p o)) = size F + 2 ^ o).
  { rewrite size_union by done. rewrite Nat2Z.inj_add, size_blk; [done|destruct Hb; lia]. }
  unfold __free_pages. rewrite E. cbn [mbind option_bind]. rewrite shiftl_1 by (destruct Hb; lia).
  eexists _, L'. split; [done|]. split_and!.
  - apply HF'. rewrite Hc', Hc. unfold p in *. rewrite u64_id; [done|]. unfold is_u64. destruct Hz. lia.
  - done.
  - apply set_free_count_frame. eapply frame_weaken; [done|]. intros x. apply HU.
Qed.

(** *** Splitting *)

(** The upper half of the block in hand goes back to its free list. *)
Lemma expand_put z0 B0 L0 p0 o0 z p h B L :
  merging z0 B0 L0 p0 o0 z p (h + 1) B L -> 0 <= h ->
  exists z' L', put_block (p - mem_map_base_pfn z + 2 ^ h) h z = Some z' /\ mem_map_base_pfn z' = mem_map_base_pfn z /\
    merging z0 B0 L0 p0 o0 z' p h (<[p + 2 ^ h := h]> B) L'.
Proof.
  intros [Hz Hb Hap Hpg Hpart Hsame Hcnt Hfr] Hh. pose proof (pow2_pos h Hh).
  assert (Hpow : 2 ^ (h + 1) = 2 ^ h + 2 ^ h) by (rewrite Z.pow_add_r by lia; lia).
  assert (Hsplit : forall x, inblk p (h + 1) x <-> inblk p h x \/ inblk (p + 2 ^ h) h x) by (unfold inblk; lia).
  pose proof Hb as [Ho Hal Hlo Hhi]. assert (Hal' : (2 ^ h | p)) by (apply (divide_pow2_le h (h + 1)); [lia|done]).
  assert (Hnone : forall q, inblk p (h + 1) q -> B !! q = None).
  { intros q Hq. destruct (B !! q) as [r|] eqn:E; [exfalso|done]. apply (Hap q Hq). exists q, r. split; [done|].
    apply inblk_start. destruct (bk_ok _ _ _ (zi_blocks _ _ _ Hz) _ _ E). lia. }
  assert (Ep : mem_map_base_pfn z + (p - mem_map_base_pfn z + 2 ^ h) = p + 2 ^ h) by lia.
  assert (Hbud : buddy (p + 2 ^ h) h = p).
  { rewrite <- (buddy_invol p h) at 2 by done. f_equal. destruct (buddy_cases p h Hh Hal') as [(-> & _)|(_ & _ & Hd)]; [done|].
    exfalso. apply (not_both_even (p - 2 ^ h) h); [done|done|]. by replace (p - 2 ^ h + 2 ^ h) with p by lia. }
  destruct (put_block_spec z B L (p - mem_map_base_pfn z + 2 ^ h) h Hz) as (z' & L' & E & Hz' & Hs' & Hc' & Hf'); rewrite ?Ep.
  - split; [lia|apply Z.divide_add_r; [done|apply Z.divide_refl]|lia|lia].
  - intros x ?. apply Hap, Hsplit. by right.
  - intros _. rewrite Hbud, Hnone; [done|]. unfold inblk. lia.
  - intros x ?. apply Hpart, Hsplit. by right.
  - rewrite Ep in *. exists z', L'. split; [done|]. split; [apply Hf'|].
    pose proof (fr_base _ _ _ Hf') as Eb. pose proof (fr_max _ _ _ Hf') as Em.
    assert (Hfi := fun x => free_in_insert B (p + 2 ^ h) h x (Hnone (p + 2 ^ h) ltac:(unfold inblk; lia))).
    split; [done| | | | |by eapply same_partials_trans|congruence|].
    + rewrite Eb, Em. split; try done; lia.
    + intros x Hx. rewrite Hfi. intros [?|?]; [unfold inblk in *; lia|]. apply (Hap x); [|done]. apply Hsplit. by left.
    + intros x. rewrite Hfi, <- Hpg, Hsplit. tauto.
    + intros x Hx. rewrite Eb, (same_partials_on L) by done. apply Hpart, Hsplit. by left.
    + eapply frame_weaken; [by eapply frame_trans|]. intros x [?| ->]; [done|]. apply Hpg. left. unfold inblk. lia.
Qed.

Lemma expand_correct z0 B0 L0 p0 o0 z p low high B L :
  merging z0 B0 L0 p0 o0 z p high B L -> 0 <= low <= high ->
  exists z' B' L', expand (p - mem_map_base_pfn z) low high z = Some (p - mem_map_base_pfn z, z') /\
    merging z0 B0 L0 p0 o0 z' p low B' L'.
Proof.
  intros Hmg Hlow. unfold expand. rewrite shiftl_1 by lia. set (i := p - mem_map_base_pfn z).
  edestruct (iter_rule
    (fun s => exists z' h B' L', s = (z', h, 2 ^ h) /\ low <= h /\ i = p - mem_map_base_pfn z' /\ merging z0 B0 L0 p0 o0 z' p h B' L')
    (fun z' => exists B' L', merging z0 B0 L0 p0 o0 z' p low B' L')
    (fun s => Z.to_nat s.1.2) (expand_round i low)) with (fuel := order_fuel) (s := (z, high, 2 ^ high))
    as (r & -> & B' & L' & Hpost).
  - intros s (z' & h & B' & L' & -> & Hh & Hi & Hm). unfold expand_round. destruct (Z.ltb_spec low h).
    + left. rewrite Z.shiftr_div_pow2 by lia. replace (2 ^ h / 2 ^ 1) with (2 ^ (h - 1)).
      2:{ apply Z.pow_sub_r; lia. }
      replace h with (h - 1 + 1) in Hm by lia.
      destruct (expand_put _ _ _ _ _ _ _ _ _ _ Hm ltac:(lia)) as (z2 & L2 & E & Eb & Hm2). rewrite Hi, E. cbn [mbind option_bind].
      eexists. split; [done|]. split; [|cbn [fst snd]; lia]. exists z2, (h - 1), (<[p + 2 ^ (h - 1) := h - 1]> B'), L2.
      split_and!; [done|lia|congruence|done].
    + right. exists z'. split; [done|]. exists B', L'. by replace low with h by lia.
  - exists z, high, B, L. split_and!; [done|lia|done|done].
  - cbn [fst snd]. destruct (mg_block _ _ _ _ _ _ _ _ _ _ Hmg). unfold MAX_ORDER, order_fuel in *. lia.
  - cbn [mbind option_bind]. by exists r, B', L'.
Qed.

(** *** Allocating *)

(** An aligned run of [2^o] free page frames. *)
Definition free_run (F : gset Z) (p o : Z) : Prop := (2 ^ o | p) /\ blk p o ⊆ F.

Lemma free_run_block z B L F p o :
  zone_inv z B L -> (forall x, x ∈ F <-> free_in B x) -> 0 <= o < MAX_ORDER -> free_run F p o ->
  exists q r, B !! q = Some r /\ o <= r.
Proof.
  intros Hz HF Ho [Hal Hsub]. destruct (free_run_in_block _ _ B o p (zi_blocks _ _ _ Hz) Ho Hal) as (q & r & ? & ? & _).
  - intros x Hx. by apply HF, Hsub, elem_of_blk.
  - by exists q, r.
Qed.

Definition alloc_post z F L o (res : option Z * zone S) : Prop :=
  match res with
  | (None, z') => z' = z /\ forall p, ~ free_run F p o
  | (Some i, z') =>
      let p := mem_map_base_pfn z + i in
      block_ok (mem_map_base_pfn z) (max_mapnr z) p o /\ free_run F p o /\
      exists L', zone_free z' (F ∖ blk p o) L' /\ same_partials L L' /\ frame z z' (fun x => x ∈ F)
  end.

(** A block of order [c >= o] was found. *)
Lemma alloc_found z B L F o c i :
  zone_inv z B L -> (forall x, x ∈ F <-> free_in B x) -> free_count z = Z.of_nat (size F) ->
  B !! (mem_map_base_pfn z + i) = Some c -> 0 <= o <= c ->
  exists res, (let* z := take_block i c z in
    let z := set_free_count (u64 (free_count z - Z.shiftl 1 o)) z in
    let* '(page, z) := expand i o c z in Some (inr (Some page, z))) = Some (inr res : Z + _) /\
    alloc_post z F L o res.
Proof.
  intros Hz HF Hc Hi Ho. set (p := mem_map_base_pfn z + i) in *.
  pose proof (bk_ok _ _ _ (zi_blocks _ _ _ Hz) _ _ Hi) as Hb. pose proof (pow2_pos c ltac:(lia)).
  assert (HBF : forall x, inblk p c x -> x ∈ F) by (intros x ?; apply HF; by exists p, c).
  destruct (take_block_spec z B L i c Hz Hi) as (z1 & L1 & -> & Hz1 & Hnl & Hs1 & Hc1 & Hf1). fold p in Hz1, Hf1.
  cbn [mbind option_bind]. rewrite shiftl_1, Hc1, Hc by lia. set (z2 := set_free_count _ z1).
  assert (Hfd := fun x => free_in_delete _ _ _ _ _ x (zi_blocks _ _ _ Hz) Hi).
  assert (Hf2 : frame z z2 (fun x => x ∈ F)).
  { apply set_free_count_frame. eapply frame_weaken; [done|]. intros x ->. apply HBF, inblk_start. lia. }
  pose proof (fr_base _ _ _ Hf2) as Eb. pose proof (fr_max _ _ _ Hf2) as Em.
  assert (Hmg : merging z2 (delete p B) L1 p c z2 p c (delete p B) L1).
  { split; try done.
    - by apply set_free_count_inv.
    - by rewrite Eb, Em.
    - intros x Hx. rewrite Hfd. tauto.
    - intros x Hx. rewrite Eb, (same_partials_on L) by done. apply Hz. by exists p, c.
    - eapply frame_weaken; [apply frame_refl|done]. }
  destruct (expand_correct _ _ _ _ _ _ _ o _ _ _ Hmg Ho) as (z3 & B3 & L3 & E & [Hz3 Hb3 Hap3 Hpg3 Hpart3 Hs3 Hc3 Hf3]).
  assert (Ei : p - mem_map_base_pfn z2 = i) by (subst p; lia). rewrite Ei in E. rewrite E. cbn [mbind option_bind].
  eexists. split; [done|]. cbn. fold p.
  rewrite (fr_base _ _ _ Hf3), (fr_max _ _ _ Hf3), Eb, Em in Hb3.
  assert (HB3 : forall x, free_in B3 x <-> x ∈ F /\ ~ inblk p o x).
  { intros x. specialize (Hpg3 x). specialize (Hap3 x). rewrite Hfd in Hpg3. rewrite HF. specialize (HBF x). rewrite HF in HBF.
    destruct (decide (p <= x < p + 2 ^ c)); unfold inblk in *; tauto. }
  assert (Hsub : blk p o ⊆ F).
  { intros x Hx%elem_of_blk. apply HBF. pose proof (Z.pow_le_mono_r 2 o c ltac:(lia) ltac:(lia)). unfold inblk in *. lia. }
  split; [done|]. split; [split; [apply Hb3|done]|]. exists L3. split_and!.
  - exists B3. split; [done|]. split.
    + intros x. rewrite elem_of_difference, elem_of_blk. by rewrite HB3.
    + rewrite Hc3. unfold z2. cbn [free_count set_free_count].
      assert (Hsz := size_difference F (blk p o) Hsub). pose proof (subseteq_size _ _ Hsub).
      pose proof (size_blk p o ltac:(lia)). assert (HFz : zone_free z F L) by (by exists B).
      pose proof (zone_free_size _ _ _ HFz). pose proof (pow2_pos o ltac:(lia)).
      rewrite u64_id; [lia|]. unfold is_u64. destruct Hz. lia.
  - by eapply same_partials_trans.
  - eapply frame_weaken; [by eapply frame_trans|]. intros x [?|[?|Hx]]; [done|by apply HBF|].
    apply HF. apply Hfd in Hx. tauto.
Qed.

Lemma alloc_pages_correct z F L o :
  zone_free z F L -> 0 <= o < MAX_ORDER ->
  exists res, alloc_pages o z = Some res /\ alloc_post z F L o res.
Proof.
  intros (B & Hz & HF & Hc) Ho. unfold alloc_pages. rewrite (proj2 (Z.leb_gt MAX_ORDER o)) by lia.
  apply (iter_rule (fun c => o <= c <= MAX_ORDER /\ forall p r, B !! p = Some r -> o <= r -> c <= r) _
    (fun c => Z.to_nat (MAX_ORDER - c))).
  2:{ split; [lia|]. done. }
  2:{ unfold MAX_ORDER, order_fuel in *. lia. }
  intros c [Hoc Hmin]. unfold alloc_round. destruct (Z.ltb_spec c MAX_ORDER) as [Hlt|].
  - destruct (zi_area _ _ _ Hz c ltac:(lia)) as (l & Hl & Hn & Hm).
    rewrite (ls_empty_spec _ _ _ _ (zi_rep _ _ _ Hz) Hl). cbn [mbind option_bind]. destruct l as [|x l].
    + rewrite bool_decide_true by done. left. eexists. split; [done|]. split; [|lia]. split; [lia|].
      intros p r Hp Hr. specialize (Hmin p r Hp Hr). assert (r <> c); [|lia]. intros ->.
      apply (not_elem_of_nil (Lru (p - mem_map_base_pfn z))), Hm.
      exists (p - mem_map_base_pfn z). split; [done|]. by replace (mem_map_base_pfn z + (p - mem_map_base_pfn z)) with p by lia.
    + rewrite bool_decide_false by done. rewrite (ls_first_spec _ _ _ _ _ (zi_rep _ _ _ Hz) Hl). cbn [mbind option_bind].
      destruct (proj1 (Hm x)) as (i & -> & Hi); [constructor|].
      right. apply (alloc_found z B L F o c i); try done. lia.
  - right. eexists. split; [done|]. split; [done|]. intros p Hrun.
    destruct (free_run_block z B L F p o Hz HF Ho Hrun) as (q & r & Hq & Hr).
    specialize (Hmin q r Hq Hr). destruct (bk_ok _ _ _ (zi_blocks _ _ _ Hz) _ _ Hq). lia.
Qed.

(** *** The free lists are a function of the free page frames *)

(** The largest aligned free run at [p] has order [o]. *)
Definition maximal_run (F : gset Z) (p o : Z) : Prop :=
  0 <= o < MAX_ORDER /\ free_run F p o /\
  forall q r, o < r < MAX_ORDER -> free_run F q r -> ~ inblk q r p.

Lemma free_list_canonical z F L o l i :
  zone_free z F L -> 0 <= o < MAX_ORDER -> L !! FreeList o = Some l ->
  Lru i ∈ l <-> maximal_run F (mem_map_base_pfn z + i) o.
Proof.
  intros (B & Hz & HF & _) Ho Hl. destruct (zi_area _ _ _ Hz o Ho) as (l' & Hl' & _ & Hm). simplify_eq.
  pose proof (zi_blocks _ _ _ Hz) as Hok. set (p := mem_map_base_pfn z + i).
  assert (Hi : Lru i ∈ l <-> B !! p = Some o) by (rewrite Hm; naive_solver). rewrite Hi. clear Hi Hm.
  assert (Hrun : forall q r, B !! q = Some r -> free_run F q r).
  { intros q r Hq. split; [by apply (bk_ok _ _ _ Hok)|]. intros x Hx%elem_of_blk. apply HF. by exists q, r. }
  assert (Hin : forall q r, 0 <= r < MAX_ORDER -> free_run F q r ->
    exists p' o', B !! p' = Some o' /\ r <= o' /\ p' <= q /\ q + 2 ^ r <= p' + 2 ^ o').
  { intros q r Hr [Hal Hsub]. apply (free_run_in_block _ _ _ _ _ Hok Hr Hal). intros x Hx. by apply HF, Hsub, elem_of_blk. }
  split.
  - intros Hp. split; [done|]. split; [by apply Hrun|]. intros q r Hr Hq Hx.
    destruct (Hin q r ltac:(lia) Hq) as (p' & o' & Hp' & ? & ? & ?).
    assert (p' = p) as ->.
    { apply (bk_apart _ _ _ Hok p' o' p o p Hp' Hp); [unfold inblk in *; lia|apply inblk_start; lia]. }
    simplify_eq. lia.
  - intros (_ & Hp & Hmax). destruct (Hin p o Ho Hp) as (q & r & Hq & Hle & Hlo & Hhi).
    pose proof (bk_ok _ _ _ Hok _ _ Hq) as [Hr _ _ _]. pose proof (pow2_pos o ltac:(lia)).
    destruct (decide (o = r)) as [->|Hne]; [by replace p with q by lia|].
    exfalso. apply (Hmax q r ltac:(lia)); [by apply Hrun|]. unfold inblk. lia.
Qed.

(** *** Seeding *)

Definition rng (a b : Z) : gset Z := list_to_set (seqZ a (b - a)).

Lemma elem_of_rng a b x : x ∈ rng a b <-> a <= x < b.
Proof. unfold rng. rewrite elem_of_list_to_set, elem_of_seqZ. lia. Qed.

Lemma core_order_correct pfn limit :
  0 <= pfn < limit -> limit <= 2 ^ 52 ->
  exists o, iter order_fuel (core_order_round pfn limit) (MAX_ORDER - 1) = Some o /\
    0 <= o < MAX_ORDER /\ (2 ^ o | pfn) /\ pfn + 2 ^ o <= limit.
Proof.
  intros Hp Hl. apply (iter_rule (fun o => 0 <= o < MAX_ORDER) _ Z.to_nat); [|unfold MAX_ORDER, order_fuel; lia..].
  intros o Ho. unfold core_order_round. pose proof (pow2_pos o ltac:(lia)). rewrite shiftl_1 by lia.
  assert (2 ^ o <= 2 ^ 10) by (apply Z.pow_le_mono_r; unfold MAX_ORDER in *; lia).
  rewrite u64_id by (unfold is_u64; lia).
  replace (2 ^ o - 1) with (Z.ones o) by (rewrite Z.ones_equiv; lia). rewrite Z.land_ones by lia.
  destruct (Z.eqb_spec o 0) as [->|Hne]; cbn [negb andb].
  { right. eexists. split; [done|]. split; [done|]. split; [apply Z.divide_1_l|lia]. }
  destruct (Z.eqb_spec (pfn mod 2 ^ o) 0) as [Hm|Hm]; cbn [negb orb];
    [destruct (Z.ltb_spec limit (pfn + 2 ^ o))|].
  - left. eexists. split; [done|]. lia.
  - right. eexists. split; [done|]. split; [done|]. split; [|lia]. apply Z.mod_divide; lia.
  - left. eexists. split; [done|]. lia.
Qed.

(** The page frames wholly inside the byte range, clipped to the zone. *)
Definition core_first z (start : Z) : Z := Z.max (mem_map_base_pfn z) ((start + PAGE_SIZE - 1) / PAGE_SIZE).
Definition core_limit z (finish : Z) : Z := Z.min (mem_map_base_pfn z + max_mapnr z) (finish / PAGE_SIZE).

(** The frames from [first] up to [pfn] were handed over. *)
Record seeding z0 F L0 (first limit : Z) (z : zone S) (pfn : Z) L : Prop := {
  sd_first : first <= pfn;
  sd_limit : pfn <= limit \/ pfn = first;
  sd_free : zone_free z (F ∪ rng first pfn) L;
  sd_same : same_partials L0 L;
  sd_frame : frame z0 z (fun x => x ∈ F ∪ rng first limit);
}.

Lemma core_round_spec z0 F L0 first limit z pfn L :
  seeding z0 F L0 first limit z pfn L -> pfn < limit ->
  mem_map_base_pfn z0 <= first -> limit <= mem_map_base_pfn z0 + max_mapnr z0 -> rng first limit ## F ->
  (forall x, x ∈ rng first limit -> ~ on_partial L0 (x - mem_map_base_pfn z0)) ->
  exists z' pfn' L', core_round limit (z, pfn) = Some (inl (z', pfn')) /\ pfn < pfn' /\
    seeding z0 F L0 first limit z' pfn' L'.
Proof.
  intros [Hge Hle HF Hs Hfr] Hlt Hlo Hhi Hd Hpart. unfold core_round. rewrite (proj2 (Z.ltb_lt _ _) Hlt).
  pose proof HF as (B & Hz & _). pose proof (fr_base _ _ _ Hfr) as Eb. pose proof (fr_max _ _ _ Hfr) as Em.
  pose proof (zi_base _ _ _ Hz). pose proof (zi_end _ _ _ Hz).
  destruct (core_order_correct pfn limit ltac:(lia) ltac:(lia)) as (o & -> & Ho & Hal & Hend). cbn [mbind option_bind].
  pose proof (pow2_pos o ltac:(lia)). rewrite (pfn_to_page_eq z B L) by (done || (rewrite Eb, Em; lia)).
  assert (Ep : mem_map_base_pfn z + (pfn - mem_map_base_pfn z) = pfn) by lia.
  destruct (free_pages_correct z (F ∪ rng first pfn) L (pfn - mem_map_base_pfn z) o HF) as (z2 & L2 & -> & HF2 & Hs2 & Hf2);
    rewrite ?Ep in *.
  - split; [done|done|lia|rewrite Em; lia].
  - intros x Hx%elem_of_blk [Hx'|Hx'%elem_of_rng]%elem_of_union; unfold inblk in Hx; [|lia].
    apply (Hd x); [apply elem_of_rng; lia|done].
  - intros x Hx%elem_of_blk. unfold inblk in Hx. rewrite Eb, (same_partials_on L0) by done. apply Hpart, elem_of_rng. lia.
  - cbn [mbind option_bind]. rewrite shiftl_1 by lia. rewrite u64_id by (unfold is_u64; lia).
    assert (EF : F ∪ rng first pfn ∪ blk pfn o = F ∪ rng first (pfn + 2 ^ o)).
    { apply set_eq. intros x. rewrite !elem_of_union, !elem_of_rng, elem_of_blk. unfold inblk.
      assert (first <= x < pfn + 2 ^ o <-> first <= x < pfn \/ pfn <= x < pfn + 2 ^ o) as -> by lia. tauto. }
    rewrite EF in *. exists z2, (pfn + 2 ^ o), L2. split; [done|]. split; [lia|].
    split; [lia|lia|done|by eapply same_partials_trans|].
    eapply frame_weaken; [by eapply frame_trans|]. intros x [?|Hx]; [done|].
    rewrite !elem_of_union, !elem_of_rng in *. destruct Hx; [by left|right; lia].
Qed.

Lemma free_memory_core_correct z F L start finish :
  zone_free z F L -> 0 <= start -> start + PAGE_SIZE - 1 < 2 ^ 64 -> 0 <= finish < 2 ^ 64 ->
  let R := rng (core_first z start) (core_limit z finish) in
  R ## F -> (forall x, x ∈ R -> ~ on_partial L (x - mem_map_base_pfn z)) ->
  exists z' L', __free_memory_core start finish z = Some z' /\ zone_free z' (F ∪ R) L' /\ same_partials L L' /\
    frame z z' (fun x => x ∈ F ∪ R).
Proof.
  intros HF Hs Hs' Hf R Hd Hpart. pose proof HF as (B & Hz & _). unfold __free_memory_core. change PAGE_SIZE with (2 ^ 12) in *.
  rewrite (u64_id (start + _ - 1)) by (unfold is_u64; lia). rewrite (u64_id (_ + max_mapnr z)) by (unfold is_u64; destruct Hz; lia).
  unfold PAGE_SHIFT. rewrite !Z.shiftr_div_pow2 by lia.
  assert (Elim : forall a b, (if a <? b then a else b) = Z.min a b) by (intros; case_cmp; lia).
  assert (Efst : forall a b, (if a <? b then b else a) = Z.max b a) by (intros; case_cmp; lia).
  rewrite Elim, Efst. change (2 ^ 12) with PAGE_SIZE. fold (core_first z start) (core_limit z finish).
  set (first := core_first z start) in *. set (limit := core_limit z finish) in *.
  assert (Hlo : mem_map_base_pfn z <= first) by (subst first; unfold core_first; lia).
  assert (Hhi : limit <= mem_map_base_pfn z + max_mapnr z) by (subst limit; unfold core_limit; lia).
  edestruct (iter_rule (fun s : zone S * Z => exists L', seeding z F L first limit s.1 s.2 L')
    (fun z' => exists L', zone_free z' (F ∪ R) L' /\ same_partials L L' /\ frame z z' (fun x => x ∈ F ∪ R))
    (fun s => Z.to_nat (limit - s.2)) (core_round limit)) with (fuel := Datatypes.S (Z.to_nat (max_mapnr z))) (s := (z, first))
    as (z' & -> & L' & Hpost); [| | |by exists z', L'].
  - intros [z' pfn] (L' & Hsd). cbn [fst snd] in *. destruct (Z.lt_ge_cases pfn limit) as [Hlt|Hnlt].
    + left. destruct (core_round_spec _ _ _ _ _ _ _ _ Hsd Hlt Hlo Hhi Hd Hpart) as (z2 & p2 & L2 & -> & ? & ?).
      eexists. split; [done|]. cbn [fst snd]. split; [by exists L2|lia].
    + right. unfold core_round. rewrite (proj2 (Z.ltb_ge _ _) Hnlt). exists z'. split; [done|]. exists L'. destruct Hsd.
      split; [|done]. replace (F ∪ R) with (F ∪ rng first pfn); [done|]. f_equal. apply set_eq. intros x. subst R. rewrite !elem_of_rng. lia.
  - exists L. split; cbn [fst snd]; [lia|by right| |done|].
    + replace (F ∪ rng first first) with F; [done|]. apply set_eq. intros x. rewrite elem_of_union, elem_of_rng.
      split; [by left|]. intros [?|?]; [done|lia].
    + eapply frame_weaken; [apply frame_refl|done].
  - cbn [snd]. lia.
Qed.

(** *** Initialization *)

Lemma zero_nodes (xs : list node) s :
  ls_rep s ∅ -> ls_rep (foldr ls_zero s xs) ∅ /\ forall y, ls_valid (foldr ls_zero s xs) y <-> y ∈ xs \/ ls_valid s y.
Proof.
  intros Hs. induction xs as [|x xs [IH IHv]]; cbn [foldr].
  - split; [done|]. intros y. split; [by right|]. by intros [?%not_elem_of_nil|?].
  - destruct (ls_zero_spec _ _ x IH) as [Hr Hv]; [by intros (? & ? & ? & _)|].
    split; [done|]. intros y. rewrite Hv, IHv, elem_of_cons. tauto.
Qed.

(** Only free lists, all of them empty. *)
Definition empties L : Prop := forall hd l, L !! hd = Some l -> l = [] /\ exists o, hd = FreeList o /\ 0 <= o < MAX_ORDER.

Record initializing z0 L0 (os : list Z) (z : zone S) L : Prop := {
  it_rep : ls_rep (lists z) L;
  it_empty : empties L;
  it_valid x : ls_valid (lists z) x <-> ls_valid (lists z0) x;
  it_map : mem_map z = mem_map z0;
  it_base : mem_map_base_pfn z = mem_map_base_pfn z0;
  it_max : max_mapnr z = max_mapnr z0;
  it_count : free_count z = free_count z0;
  it_done o : o ∈ os -> L !! FreeList o = Some [] /\ nr_free z !! o = Some 0;
}.

Lemma init_area_spec z0 L0 os z L o :
  initializing z0 L0 os z L -> 0 <= o < MAX_ORDER -> ls_valid (lists z0) (FreeList o) ->
  exists z' L', init_area (Some z) o = Some z' /\ initializing z0 L0 (os ++ [o]) z' L'.
Proof.
  intros [Hr He Hv Em Eb Ex Ec Hd] Ho Hval. unfold init_area, on_lists. cbn [mbind option_bind].
  destruct (ls_init_spec _ _ (FreeList o) Hr) as (s' & -> & Hr' & Hv').
  - intros (hd & l & [Hne Hl]%lookup_delete_Some & Hx). destruct (He _ _ Hl) as [-> _].
    apply list_elem_of_singleton in Hx. congruence.
  - by apply Hv.
  - intros l Hl. by destruct (He _ _ Hl).
  - cbn [mbind option_bind]. eexists _, (<[FreeList o := []]> L). split; [done|].
    split; cbn [lists mem_map mem_map_base_pfn max_mapnr nr_free free_count set_lists set_nr_free]; try done.
    + intros hd l [[<- <-]|[_ Hl]]%lookup_insert_Some; [split; [done|by exists o]|by apply He].
    + intros x. by rewrite Hv', Hv.
    + intros o' Ho'. destruct (decide (o' = o)) as [->|Hne]; [by rewrite !lookup_insert_eq|].
      rewrite !lookup_insert_ne by congruence. apply Hd. apply elem_of_app in Ho' as [?|?%list_elem_of_singleton]; done.
Qed.

Lemma init_areas z0 L0 todo : forall os z L,
  initializing z0 L0 os z L -> (forall o, o ∈ todo -> 0 <= o < MAX_ORDER /\ ls_valid (lists z0) (FreeList o)) ->
  exists z' L', foldl init_area (Some z) todo = Some z' /\ initializing z0 L0 (os ++ todo) z' L'.
Proof.
  induction todo as [|o todo IH]; intros os z L Hi Ht; cbn [foldl].
  - exists z, L. rewrite app_nil_r. done.
  - destruct (Ht o) as [Ho Hv]; [constructor|].
    destruct (init_area_spec _ _ _ _ _ o Hi Ho Hv) as (z1 & L1 & -> & Hi1).
    destruct (IH _ _ _ Hi1) as (z2 & L2 & E & Hi2); [intros; apply Ht; by constructor|].
    exists z2, L2. split; [done|]. by rewrite <- app_assoc in Hi2.
Qed.

Lemma zero_map_lookup n i pg :
  (list_to_map ((fun i => (i, zero_page)) <$> seqZ 0 n) : gmap Z page) !! i = Some pg <-> 0 <= i < n /\ pg = zero_page.
Proof.
  rewrite <- elem_of_list_to_map.
  - rewrite list_elem_of_fmap. setoid_rewrite elem_of_seqZ. split; [intros (j & [= -> ->] & ?); split; [lia|done]|].
    intros [? ->]. exists i. split; [done|lia].
  - rewrite <- list_fmap_compose. apply NoDup_fmap_2; [|apply NoDup_seqZ]. by intros ? ? ?.
Qed.

Lemma free_area_init_correct z base pages :
  ls_rep (lists z) ∅ -> (forall o, 0 <= o < MAX_ORDER -> ls_valid (lists z) (FreeList o)) ->
  0 <= base < 2 ^ 64 -> 0 <= pages -> base / PAGE_SIZE + pages <= 2 ^ 52 ->
  exists z' L', free_area_init base pages z = Some z' /\ zone_free z' ∅ L' /\
    mem_map_base_pfn z' = base / PAGE_SIZE /\ max_mapnr z' = pages /\ empties L' /\
    (forall x, ls_valid (lists z) x -> ls_valid (lists z') x) /\
    (forall i pg, mem_map z' !! i = Some pg -> pg = zero_page).
Proof.
  intros Hr Hv Hb Hp He. assert (0 <= base / PAGE_SIZE) by (apply Z.div_pos; [lia|done]).
  unfold free_area_init. rewrite (proj2 (Z.ltb_lt _ _)) by (unfold sizeof_page; lia).
  rewrite Z.shiftr_div_pow2 by done. change (2 ^ PAGE_SHIFT) with PAGE_SIZE.
  destruct (zero_nodes (Lru <$> seqZ 0 pages) _ Hr) as [Hr1 Hv1]. set (z1 := Zone _ _ _ _ _ _).
  destruct (init_areas z1 ∅ (seqZ 0 MAX_ORDER) [] z1 ∅) as (z' & L' & -> & [Hr2 He2 Hv2 Em Eb Ex Ec Hd]).
  - split; try done. by intros o ?%not_elem_of_nil.
  - intros o Ho%elem_of_seqZ. split; [lia|]. apply Hv1. right. apply Hv. lia.
  - subst z1. cbn [app mem_map mem_map_base_pfn max_mapnr free_count lists] in *. exists z', L'. split; [done|]. rewrite Eb, Ex. split; [|split_and!; try done].
    + exists ∅. split; [|split; [|by rewrite Ec]; intros x; split; [by intros ?%not_elem_of_empty|by intros (? & ? & ? & _)]]. split; rewrite ?Eb, ?Ex, ?Em; try done.
      * intros i Hi. apply Hv2, Hv1. left. apply list_elem_of_fmap. exists i. split; [done|]. apply elem_of_seqZ. lia.
      * intros i. split; [intros [pg ?%zero_map_lookup]; lia|]. intros. exists zero_page. by apply zero_map_lookup.
      * by intros i pg [_ ->]%zero_map_lookup.
      * intros o Ho. destruct (Hd o) as [Hl Hn]; [apply elem_of_seqZ; lia|]. exists []. split; [done|]. split; [done|].
        intros x. split; [by intros ?%not_elem_of_nil|]. by intros (? & _ & ?).
      * intros hd [l Hl]. destruct (He2 _ _ Hl) as [_ ?]. by left.
      * by intros x (? & ? & ? & _).
    + intros x Hx. apply Hv2, Hv1. by right.
    + intros i pg. rewrite Em. by intros [_ ->]%zero_map_lookup.
Qed.

End zones.
