(* ===== verification/PageAllocSpec.v ===== *)
(** * The promises of the page allocator

    The properties of [alloc_pages], [__free_pages], [__free_memory_core] and
    [free_area_init] over the set of free page frames, and of any sequence
    of requests a client can make. *)

From S2P Require Import Prelude MemoryH ListH PageAlloc PageAllocProof.

(** ** Sequences of requests

    A client that allocates blocks and frees blocks it holds, each with the
    order it was allocated with; a request to free something else is not
    made. *)
Inductive request := Alloc (o : Z) | Free (i : Z).

Section requests.
Context {S : Type} `{!ListStore node S}.

(** The zone and the blocks the client holds: page index to order. *)
Definition serve (s : zone S * gmap Z Z) (r : request) : option (zone S * gmap Z Z) :=
  let '(z, A) := s in
  match r with
  | Alloc o =>
      let* '(page, z) := alloc_pages o z in
      Some (z, match page with Some i => <[i := o]> A | None => A end)
  | Free i =>
      match A !! i with
      | Some o => let* z := __free_pages i o z in Some (z, delete i A)
      | None => Some (z, A)
      end
  end.

Definition serve_all (s : zone S * gmap Z Z) (rs : list request) : option (zone S * gmap Z Z) :=
  foldl (fun s r => let* s := s in serve s r) (Some s) rs.

(** Page frame [x] belongs to a block of [A]. *)
Definition held (z : zone S) (A : gmap Z Z) (x : Z) : Prop :=
  exists i o, A !! i = Some o /\ inblk (mem_map_base_pfn z + i) o x.

End requests.

Section service.
Context {S : Type} `{!ListStore node S, !ListStoreLaws node S}.
Implicit Types (z : zone S) (A : gmap Z Z) (F : gset Z) (L : gmap node (list node)).

(** Nothing is lost and nothing is handed out twice: the frames of [F0] are
    each either free or in exactly one held block. *)
Record service_ok (base len : Z) F0 L0 z F A L : Prop := {
  sv_base : mem_map_base_pfn z = base;
  sv_len : max_mapnr z = len;
  sv_free : zone_free z F L;
  sv_same : same_partials L0 L;
  sv_block i o : A !! i = Some o -> block_ok base len (base + i) o;
  sv_apart i o j r x : A !! i = Some o -> A !! j = Some r -> inblk (base + i) o x -> inblk (base + j) r x -> i = j;
  sv_split x : x ∈ F0 <-> x ∈ F \/ held z A x;
  sv_excl x : x ∈ F -> ~ held z A x;
}.

Lemma held_insert z A i o x : A !! i = None ->
  held z (<[i := o]> A) x <-> inblk (mem_map_base_pfn z + i) o x \/ held z A x.
Proof.
  intros Hi. split.
  - intros (j & r & [[<- <-]|[_ Hj]]%lookup_insert_Some & Hx); [by left|right; by exists j, r].
  - intros [Hx|(j & r & Hj & Hx)]; [exists i, o; by rewrite lookup_insert_eq|].
    exists j, r. rewrite lookup_insert_ne; [done|]. intros ->. congruence.
Qed.

Lemma serve_alloc base len F0 L0 z F A L o :
  service_ok base len F0 L0 z F A L -> 0 <= o ->
  exists z' A' F' L', serve (z, A) (Alloc o) = Some (z', A') /\ service_ok base len F0 L0 z' F' A' L'.
Proof.
  intros Hsv Ho. pose proof Hsv as [<- <- HF Hs Hb Ha Hsp Hex]. unfold serve.
  destruct (Z.le_gt_cases MAX_ORDER o) as [Hbig|Hlt].
  { unfold alloc_pages. rewrite (proj2 (Z.leb_le _ _) Hbig). cbn. by exists z, A, F, L. }
  destruct (alloc_pages_correct z F L o HF ltac:(lia)) as ([[i|] z'] & -> & Hpost); cbn [mbind option_bind].
  2:{ destruct Hpost as [-> _]. by exists z, A, F, L. }
  destruct Hpost as (Hblk & [Hal Hsub] & L' & HF' & Hs' & Hfr). pose proof (fr_base _ _ _ Hfr) as Eb.
  set (p := mem_map_base_pfn z + i) in *.
  assert (Hnh : forall x, inblk p o x -> ~ held z A x) by (intros x Hx; apply Hex, Hsub; by apply elem_of_blk).
  assert (HAi : A !! i = None).
  { destruct (A !! i) as [r|] eqn:E; [exfalso|done]. apply (Hnh p); [by apply inblk_start|]. exists i, r. split; [done|].
    apply inblk_start. destruct (Hb _ _ E). lia. }
  exists z', (<[i := o]> A), (F ∖ blk p o), L'. split; [done|].
  assert (Hh : forall x, held z' (<[i := o]> A) x <-> inblk p o x \/ held z A x).
  { intros x. rewrite held_insert by done. unfold held. by rewrite Eb. }
  split; try done.
  - apply Hfr.
  - by eapply same_partials_trans.
  - intros j r [[<- <-]|[_ Hj]]%lookup_insert_Some; [done|by apply Hb].
  - intros j1 r1 j2 r2 x [[<- <-]|[_ Hj1]]%lookup_insert_Some [[<- <-]|[_ Hj2]]%lookup_insert_Some Hx1 Hx2; try done.
    + exfalso. apply (Hnh x Hx1). by exists j2, r2.
    + exfalso. apply (Hnh x Hx2). by exists j1, r1.
    + by eapply Ha.
  - intros x. rewrite Hh, Hsp, elem_of_difference. pose proof (Hsub x). rewrite elem_of_blk in *.
    destruct (decide (p <= x < p + 2 ^ o)); unfold inblk in *; tauto.
  - intros x [Hx Hn]%elem_of_difference. rewrite Hh. rewrite elem_of_blk in Hn. specialize (Hex x Hx). tauto.
Qed.

Lemma serve_free base len F0 L0 z F A L i :
  service_ok base len F0 L0 z F A L -> (forall x, x ∈ F0 -> ~ on_partial L0 (x - base)) ->
  exists z' A' F' L', serve (z, A) (Free i) = Some (z', A') /\ service_ok base len F0 L0 z' F' A' L'.
Proof.
  intros Hsv Hpart. pose proof Hsv as [<- <- HF Hs Hb Ha Hsp Hex]. unfold serve.
  destruct (A !! i) as [o|] eqn:HA; [|by exists z, A, F, L].
  set (p := mem_map_base_pfn z + i) in *.
  destruct (free_pages_correct z F L i o HF (Hb _ _ HA)) as (z' & L' & -> & HF' & Hs' & Hfr).
  - intros x Hx%elem_of_blk Hx'. apply (Hex x Hx'). by exists i, o.
  - intros x Hx%elem_of_blk. rewrite (same_partials_on L0) by done. apply Hpart, Hsp. right. by exists i, o.
  - fold p in HF'. pose proof (fr_base _ _ _ Hfr) as Eb. cbn [mbind option_bind].
    exists z', (delete i A), (F ∪ blk p o), L'. split; [done|].
    assert (Hh : forall x, held z' (delete i A) x <-> held z A x /\ ~ inblk p o x).
    { intros x. unfold held. rewrite Eb. split.
      - intros (j & r & [Hne Hj]%lookup_delete_Some & Hx). split; [by exists j, r|]. intros Hx'. apply Hne. by eapply Ha.
      - intros [(j & r & Hj & Hx) Hn]. exists j, r. split; [|done]. apply lookup_delete_Some. split; [|done].
        intros ->. simplify_eq. done. }
    split; try done.
    + apply Hfr.
    + by eapply same_partials_trans.
    + intros j r [_ Hj]%lookup_delete_Some. by apply Hb.
    + intros j1 r1 j2 r2 x [_ Hj1]%lookup_delete_Some [_ Hj2]%lookup_delete_Some. by eapply Ha.
    + intros x. rewrite Hh, Hsp, elem_of_union, elem_of_blk.
      assert (inblk p o x -> held z A x) by (intros; by exists i, o).
      destruct (decide (p <= x < p + 2 ^ o)); unfold inblk in *; tauto.
    + intros x Hx. rewrite Hh. rewrite elem_of_union, elem_of_blk in Hx. specialize (Hex x). tauto.
Qed.

Definition request_ok (r : request) : Prop := match r with Alloc o => 0 <= o | Free _ => True end.

Lemma serve_all_correct base len F0 L0 rs : forall z F A L,
  service_ok base len F0 L0 z F A L -> (forall x, x ∈ F0 -> ~ on_partial L0 (x - base)) -> Forall request_ok rs ->
  exists z' A' F' L', serve_all (z, A) rs = Some (z', A') /\ service_ok base len F0 L0 z' F' A' L'.
Proof.
  unfold serve_all. induction rs as [|r rs IH]; intros z F A L Hsv Hp Hr; cbn [foldl]; [by exists z, A, F, L|].
  apply Forall_cons in Hr as [Hr Hrs].
  assert (exists z' A' F' L', serve (z, A) r = Some (z', A') /\ service_ok base len F0 L0 z' F' A' L')
    as (z' & A' & F' & L' & E & Hsv') by (destruct r; [by eapply serve_alloc|by eapply serve_free]).
  cbn [mbind option_bind]. rewrite E. by eapply IH.
Qed.

Lemma service_start z F L : zone_free z F L -> service_ok (mem_map_base_pfn z) (max_mapnr z) F L z F ∅ L.
Proof. intros HF. by split; try done; unfold held; set_solver. Qed.

Lemma zone_free_partial z F L x : zone_free z F L -> x ∈ F -> ~ on_partial L (x - mem_map_base_pfn z).
Proof. intros (B & Hz & HF & _) Hx. by apply Hz, HF. Qed.

End service.

(** ** Handing memory over *)

Section ranges.
Context {S : Type} `{!ListStore node S, !ListStoreLaws node S}.
Implicit Types (z : zone S) (F : gset Z) (L : gmap node (list node)) (ranges : list (Z * Z)).

(** Hand the byte ranges over, one after the other. *)
Definition hand_over ranges z : option (zone S) :=
  foldl (fun o r => let* z := o in __free_memory_core r.1 r.2 z) (Some z) ranges.

Definition range_ok (r : Z * Z) : Prop := 0 <= r.1 /\ r.1 + PAGE_SIZE - 1 < 2 ^ 64 /\ 0 <= r.2 < 2 ^ 64.

Definition separate (r1 r2 : Z * Z) : Prop := r1.2 <= r2.1 \/ r2.2 <= r1.1.

(** Page frame [x] lies wholly inside a range. *)
Definition inside (r : Z * Z) (x : Z) : Prop := r.1 <= x * PAGE_SIZE /\ (x + 1) * PAGE_SIZE <= r.2.

Definition handed_over ranges (x : Z) : Prop := exists r, r ∈ ranges /\ inside r x.

Lemma handed_over_cons r ranges x : handed_over (r :: ranges) x <-> inside r x \/ handed_over ranges x.
Proof. unfold handed_over. set_solver. Qed.

Lemma core_pages z start finish x :
  x ∈ rng (core_first z start) (core_limit z finish) <->
  inside (start, finish) x /\ mem_map_base_pfn z <= x < mem_map_base_pfn z + max_mapnr z.
Proof.
  rewrite elem_of_rng. unfold core_first, core_limit, inside. cbn [fst snd]. change PAGE_SIZE with 4096.
  pose proof (Z.div_mod (start + 4096 - 1) 4096). pose proof (Z.mod_pos_bound (start + 4096 - 1) 4096).
  pose proof (Z.div_mod finish 4096). pose proof (Z.mod_pos_bound finish 4096). lia.
Qed.

Lemma separate_inside r1 r2 x : separate r1 r2 -> inside r1 x -> ~ inside r2 x.
Proof. unfold separate, inside. change PAGE_SIZE with 4096. lia. Qed.

Lemma empties_not_partial (L : gmap node (list node)) i : empties L -> ~ on_partial L i.
Proof. intros He (c & l & Hl & Hx). destruct (He _ _ Hl) as [-> _]. by apply not_elem_of_nil in Hx. Qed.

(** The frames free afterwards are those free before and those handed over. *)
Lemma hand_over_correct ranges : Forall range_ok ranges -> ForallOrdPairs separate ranges -> forall z F L,
  zone_free z F L -> (forall i, ~ on_partial L i) -> (forall x, x ∈ F -> ~ handed_over ranges x) ->
  exists z' F' L', hand_over ranges z = Some z' /\ zone_free z' F' L' /\
    mem_map_base_pfn z' = mem_map_base_pfn z /\ max_mapnr z' = max_mapnr z /\
    forall x, x ∈ F' <-> x ∈ F \/
      handed_over ranges x /\ mem_map_base_pfn z <= x < mem_map_base_pfn z + max_mapnr z.
Proof.
  unfold hand_over. intros Hok Hsep. induction Hsep as [|[s f] ranges Hhd Hsep IH]; intros z F L HF Hp Hd; cbn [foldl].
  { exists z, F, L. split_and!; try done. unfold handed_over. set_solver. }
  apply Forall_cons in Hok as [(? & ? & ?) Hok]. cbn [fst snd mbind option_bind] in *.
  setoid_rewrite handed_over_cons in Hd. setoid_rewrite handed_over_cons.
  destruct (free_memory_core_correct z F L s f HF) as (z1 & L1 & -> & HF1 & Hs1 & Hfr); try done.
  { intros x Hx%core_pages HxF. apply (Hd x HxF). tauto. }
  pose proof (fr_base _ _ _ Hfr) as Eb. pose proof (fr_max _ _ _ Hfr) as Em.
  destruct (IH Hok z1 _ L1 HF1) as (z' & F' & L' & E & HF' & Eb' & Em' & Hx').
  - intros i. by rewrite (same_partials_on L) by done.
  - intros x Hx (r & Hr & Hin). apply elem_of_union in Hx as [Hx|[Hx _]%core_pages].
    + apply (Hd x Hx). right. by exists r.
    + rewrite Forall_forall in Hhd. by apply (separate_inside _ _ x (Hhd _ Hr)).
  - exists z', F', L'. split_and!; [done|done|congruence|congruence|].
    intros x. rewrite Hx', elem_of_union, core_pages, Eb, Em. tauto.
Qed.

(** What the invariant says of one free list. *)
Lemma free_lists_maximal z F L o :
  zone_free z F L -> 0 <= o < MAX_ORDER ->
  exists l, L !! FreeList o = Some l /\ nr_free z !! o = Some (Z.of_nat (length l)) /\ NoDup l /\
    forall x, x ∈ l <-> exists i, x = Lru i /\ maximal_run F (mem_map_base_pfn z + i) o.
Proof.
  intros HF Ho. pose proof HF as (B & Hz & _). destruct (zi_area _ _ _ Hz o Ho) as (l & Hl & Hn & Hm).
  pose proof (ls_rep_NoDup _ _ _ _ (zi_rep _ _ _ Hz) Hl) as [_ Hnd]%NoDup_cons.
  assert (Hcan := fun i => free_list_canonical z F L o l i HF Ho Hl). exists l. split_and!; try done. intros x. split.
  - intros Hx. pose proof Hx as (i & -> & _)%Hm. exists i. by rewrite <- Hcan.
  - intros (i & -> & Hi). by apply Hcan.
Qed.

End ranges.

(** ** The properties *)

Section properties.
Context {S : Type} `{!ListStore node S, !ListStoreLaws node S}.
Implicit Types (z : zone S) (F : gset Z) (L : gmap node (list node)).

(** C15. [alloc_pages] is total.  It returns NULL, changing nothing, exactly
    when the order is out of range or no aligned run of [2^order] free page
    frames exists; otherwise it returns the first page of such a run, the
    run and nothing else stops being free, the page is not marked free, and
    no descriptor of a page in use is touched. *)
Theorem alloc_pages_spec z F L o :
  zone_free z F L -> 0 <= o ->
  exists r z', alloc_pages o z = Some (r, z') /\
    match r with
    | None => z' = z /\ (MAX_ORDER <= o \/ forall p, ~ free_run F p o)
    | Some i =>
        let p := mem_map_base_pfn z + i in
        o < MAX_ORDER /\ 0 <= i /\ i + 2 ^ o <= max_mapnr z /\ free_run F p o /\
        (exists pg, mem_map z' !! i = Some pg /\ has_flag PAGE_BUDDY pg = false) /\
        exists L', zone_free z' (F ∖ blk p o) L' /\ same_partials L L' /\ frame z z' (fun x => x ∈ F)
    end.
Proof.
  intros HF Ho. destruct (Z.le_gt_cases MAX_ORDER o) as [Hbig|Hlt].
  - exists None, z. unfold alloc_pages. rewrite (proj2 (Z.leb_le _ _) Hbig). split; [done|]. split; [done|by left].
  - destruct (alloc_pages_correct z F L o HF ltac:(lia)) as ([[i|] z'] & E & Hpost).
    + exists (Some i), z'. split; [done|]. destruct Hpost as ([] & Hrun & L' & HF' & Hs & Hfr). cbn.
      pose proof (pow2_pos o Ho). split_and!; [done|lia|lia|done| |by exists L'].
      pose proof HF' as (B & Hz & HB & _). pose proof (fr_base _ _ _ Hfr) as Eb. pose proof (fr_max _ _ _ Hfr) as Em.
      destruct (proj2 (zi_dom _ _ _ Hz i)) as [pg Hpg]; [lia|]. exists pg. split; [done|].
      pose proof (zi_page _ _ _ Hz _ _ Hpg) as Hp. unfold page_ok in Hp. rewrite Eb in Hp.
      destruct (B !! _) as [r|] eqn:Er; [exfalso|done].
      assert (Hin : mem_map_base_pfn z + i ∈ F ∖ blk (mem_map_base_pfn z + i) o).
      { apply HB. exists (mem_map_base_pfn z + i), r. split; [done|]. apply inblk_start.
        destruct (bk_ok _ _ _ (zi_blocks _ _ _ Hz) _ _ Er). lia. }
      apply elem_of_difference in Hin as [_ []]. apply elem_of_blk. by apply inblk_start.
    + destruct Hpost as [-> Hno]. exists None, z. split; [done|]. split; [done|by right].
Qed.

(** C16. [__free_pages] of an aligned block in range, none of whose page
    frames is free or on a slab list, makes exactly its frames free, keeps
    the invariant (so buddies are merged as far as they can be) and adds
    [2^order] to the count of free pages. *)
Theorem free_pages_spec z F L i o :
  let p := mem_map_base_pfn z + i in
  zone_free z F L -> 0 <= o < MAX_ORDER -> (2 ^ o | p) -> 0 <= i -> i + 2 ^ o <= max_mapnr z ->
  blk p o ## F -> (forall x, x ∈ blk p o -> ~ on_partial L (x - mem_map_base_pfn z)) ->
  exists z' L', __free_pages i o z = Some z' /\ zone_free z' (F ∪ blk p o) L' /\
    nr_free_pages z' = nr_free_pages z + 2 ^ o /\ same_partials L L' /\ frame z z' (fun x => x ∈ F ∪ blk p o).
Proof.
  intros p HF Ho Hal Hlo Hhi Hd Hp.
  destruct (free_pages_correct z F L i o HF) as (z' & L' & E & HF' & Hs & Hfr); [split; (done || lia)|done|done|].
  exists z', L'. split; [done|]. split; [done|]. split; [|done]. unfold nr_free_pages.
  destruct HF as (B & _ & _ & ->). destruct HF' as (B' & _ & _ & ->).
  rewrite size_union by done. rewrite Nat2Z.inj_add, size_blk; [done|lia].
Qed.

(** C31. The free lists depend on nothing but which page frames are free.
    After [free_area_init], the hand-over of any separate byte ranges and any
    requests of a client, all of which run to the end, each free list holds
    exactly the pages at which the largest aligned run of free frames has
    that order, once each, and its counter is its length; the free frames
    are those wholly inside a range handed over and inside the zone, except
    the ones in a block the client still holds. *)
Theorem free_lists_follow_frames z base pages ranges rs :
  ls_rep (lists z) ∅ -> (forall o, 0 <= o < MAX_ORDER -> ls_valid (lists z) (FreeList o)) ->
  0 <= base < 2 ^ 64 -> 0 <= pages -> base / PAGE_SIZE + pages <= 2 ^ 52 ->
  Forall range_ok ranges -> ForallOrdPairs separate ranges -> Forall request_ok rs ->
  exists z0 z1 z2 A F L,
    free_area_init base pages z = Some z0 /\ hand_over ranges z0 = Some z1 /\
    serve_all (z1, ∅) rs = Some (z2, A) /\ ls_rep (lists z2) L /\
    (forall x, x ∈ F <-> handed_over ranges x /\ base / PAGE_SIZE <= x < base / PAGE_SIZE + pages /\ ~ held z2 A x) /\
    forall o, 0 <= o < MAX_ORDER -> exists l, L !! FreeList o = Some l /\
      nr_free z2 !! o = Some (Z.of_nat (length l)) /\ NoDup l /\
      forall x, x ∈ l <-> exists i, x = Lru i /\ maximal_run F (base / PAGE_SIZE + i) o.
Proof.
  intros Hr Hv Hb Hp He Hok Hsep Hrs.
  destruct (free_area_init_correct z base pages Hr Hv Hb Hp He) as (z0 & L0 & E0 & HF0 & Eb & Em & Hemp & _).
  destruct (hand_over_correct ranges Hok Hsep z0 ∅ L0 HF0) as (z1 & F1 & L1 & E1 & HF1 & Eb1 & Em1 & HF1x);
    [intros i; by apply empties_not_partial|done|].
  destruct (serve_all_correct _ _ F1 L1 rs z1 F1 ∅ L1 (service_start z1 F1 L1 HF1)) as (z2 & A & F & L & E2 & []); [|done|].
  { intros x. by apply zone_free_partial. }
  exists z0, z1, z2, A, F, L. split_and!; try done.
  - destruct sv_free0 as (B & Hz & _). apply Hz.
  - intros x. specialize (sv_split0 x). specialize (sv_excl0 x). specialize (HF1x x).
    rewrite Eb, Em in HF1x. set_solver.
  - intros o Ho. replace (base / PAGE_SIZE) with (mem_map_base_pfn z2) by congruence. by apply free_lists_maximal.
Qed.

(** [__free_memory_core] terminates and makes free exactly the page
    frames that lie wholly inside the byte range and inside the managed
    range. *)
Theorem free_memory_core_spec z F L start finish :
  zone_free z F L -> 0 <= start -> start + PAGE_SIZE - 1 < 2 ^ 64 -> 0 <= finish < 2 ^ 64 ->
  let R := rng (core_first z start) (core_limit z finish) in
  R ## F -> (forall x, x ∈ R -> ~ on_partial L (x - mem_map_base_pfn z)) ->
  exists z' L', __free_memory_core start finish z = Some z' /\ zone_free z' (F ∪ R) L' /\ same_partials L L' /\
    forall x, x ∈ R <-> start <= x * PAGE_SIZE /\ (x + 1) * PAGE_SIZE <= finish /\
      mem_map_base_pfn z <= x < mem_map_base_pfn z + max_mapnr z.
Proof.
  intros HF Hs Hs' Hf R Hd Hp.
  destruct (free_memory_core_correct z F L start finish HF Hs Hs' Hf Hd Hp) as (z' & L' & E & HF' & Hsp & _).
  exists z', L'. split_and!; try done. intros x. subst R. rewrite core_pages. unfold inside. cbn [fst snd]. tauto.
Qed.

(** [free_area_init] over cleared list heads yields a well-formed zone
    with no free pages, all free lists empty and all descriptors zero. *)
Theorem free_area_init_spec z base pages :
  ls_rep (lists z) ∅ -> (forall o, 0 <= o < MAX_ORDER -> ls_valid (lists z) (FreeList o)) ->
  0 <= base < 2 ^ 64 -> 0 <= pages -> base / PAGE_SIZE + pages <= 2 ^ 52 ->
  exists z' L', free_area_init base pages z = Some z' /\ zone_free z' ∅ L' /\ empties L' /\
    mem_map_base_pfn z' = base / PAGE_SIZE /\ max_mapnr z' = pages /\
    (forall i pg, mem_map z' !! i = Some pg -> pg = zero_page).
Proof.
  intros Hr Hv Hb Hp He.
  destruct (free_area_init_correct z base pages Hr Hv Hb Hp He) as (z' & L' & ? & ? & ? & ? & ? & _ & ?).
  by exists z', L'.
Qed.

(** C3. Any sequence of allocations and frees of held blocks runs to the
    end; at every point the page frames that were free at the start are each
    either free or in exactly one held block, held blocks are aligned and in
    range and do not overlap, and once everything is freed the set of free
    frames is the one of the start. *)
Theorem requests_conserve_pages z F0 L0 rs :
  zone_free z F0 L0 -> Forall request_ok rs ->
  exists z' A F L, serve_all (z, ∅) rs = Some (z', A) /\ zone_free z' F L /\
    nr_free_pages z' = Z.of_nat (size F) /\
    (forall i o, A !! i = Some o -> block_ok (mem_map_base_pfn z) (max_mapnr z) (mem_map_base_pfn z + i) o) /\
    (forall i o j r x, A !! i = Some o -> A !! j = Some r ->
       inblk (mem_map_base_pfn z + i) o x -> inblk (mem_map_base_pfn z + j) r x -> i = j) /\
    (forall x, x ∈ F0 <-> x ∈ F \/ held z' A x) /\ (forall x, x ∈ F -> ~ held z' A x) /\
    (A = ∅ -> F = F0).
Proof.
  intros HF Hr.
  destruct (serve_all_correct _ _ F0 L0 rs z F0 ∅ L0 (service_start z F0 L0 HF)) as (z' & A & F & L & E & []); [|done|].
  { intros x. by apply zone_free_partial. }
  exists z', A, F, L. split_and!; try done.
  - destruct sv_free0 as (B & _ & _ & Hc). done.
  - intros ->. apply set_eq. intros x. rewrite sv_split0. unfold held. split; [by left|]. by intros [?|(? & ? & ? & _)].
Qed.

End properties.

(** ** Instances *)

(** The static list heads before initialization, in the linked heap. *)
Definition boot_lists : lheap node :=
  list_to_map (((fun o => (FreeList o, ListHead None None)) <$> seqZ 0 MAX_ORDER) ++
               ((fun c => (Partial c, ListHead None None)) <$> seqZ 0 8)).

Definition boot_zone : zone (lheap node) := Zone ∅ 0 0 ∅ 0 boot_lists.

Lemma boot_lists_rep : ls_rep boot_lists ∅.
Proof. by split. Qed.

Lemma boot_lists_valid o : 0 <= o < MAX_ORDER -> ls_valid boot_lists (FreeList o).
Proof.
  intros Ho. assert (Hall : forallb (fun o => bool_decide (is_Some (boot_lists !! FreeList o))) (seqZ 0 MAX_ORDER) = true)
    by (by vm_compute).
  rewrite forallb_forall in Hall. specialize (Hall o). rewrite bool_decide_eq_true in Hall.
  apply elem_of_dom, Hall, list_elem_of_In, elem_of_seqZ. lia.
Qed.

(** Sixteen pages at the start of RAM, the first two and the last one not
    handed over. *)
Definition sample_init : option (zone (lheap node)) := free_area_init 0x40000000 16 boot_zone.
Definition sample_zone : zone (lheap node) :=
  default boot_zone (let* z := sample_init in __free_memory_core 0x40001800 0x4000f000 z).

Lemma sample_init_free :
  exists z L, sample_init = Some z /\ zone_free z ∅ L /\ empties L /\ mem_map_base_pfn z = 0x40000 /\ max_mapnr z = 16 /\
    (forall x, ls_valid boot_lists x -> ls_valid (lists z) x) /\ (forall i pg, mem_map z !! i = Some pg -> pg = zero_page).
Proof.
  destruct (free_area_init_correct boot_zone 0x40000000 16 boot_lists_rep boot_lists_valid) as (z & L & E & HF & Eb & Em & He & Hv & Hz);
    [lia|lia|vm_compute; discriminate|].
  exists z, L. unfold sample_init. split_and!; assumption.
Qed.

Lemma empties_no_partial (L : gmap node (list node)) c : empties L -> L !! Partial c = None.
Proof. intros He. destruct (L !! Partial c) as [l|] eqn:E; [|done]. by destruct (He _ _ E) as [_ (? & ? & _)]. Qed.

(** What later users of the sample need of it. *)
Lemma sample_zone_facts : exists L, zone_free sample_zone (rng 0x40002 0x4000f) L /\
  mem_map_base_pfn sample_zone = 0x40000 /\ max_mapnr sample_zone = 16 /\ (forall c, L !! Partial c = None) /\
  (forall x, ls_valid boot_lists x -> ls_valid (lists sample_zone) x) /\
  (forall i pg, mem_map sample_zone !! i = Some pg -> has_flag PAGE_SLAB pg = false).
Proof.
  destruct sample_init_free as (z & L & E & HF & He & Eb & Em & Hv & Hz). unfold sample_zone. rewrite E. clear E. cbn [mbind option_bind].
  assert (ER : rng (core_first z 0x40001800) (core_limit z 0x4000f000) = rng 0x40002 0x4000f).
  { unfold core_first, core_limit. rewrite Eb, Em. done. }
  destruct (free_memory_core_correct z ∅ L 0x40001800 0x4000f000 HF) as (z' & L' & -> & HF' & Hs & Hfr);
    [lia|reflexivity|lia|apply disjoint_empty_r|intros; apply empties_not_partial; exact He|].
  rewrite ER in HF'. rewrite (left_id_L ∅ (∪)) in HF'. change (default boot_zone (Some z')) with z'. exists L'. split; [exact HF'|].
  rewrite (fr_base _ _ _ Hfr), (fr_max _ _ _ Hfr). split; [exact Eb|]. split; [exact Em|]. split_and!.
  - intros c. rewrite Hs. by apply empties_no_partial.
  - intros x Hx. apply (fr_valid _ _ _ Hfr). by apply Hv.
  - intros i pg Hpg. pose proof HF' as (B & Hz' & _). pose proof HF as (B0 & Hz0 & _).
    destruct (proj2 (zi_dom _ _ _ Hz0 i)) as [pg0 Hpg0].
    { rewrite <- (fr_max _ _ _ Hfr). apply (zi_dom _ _ _ Hz' i). by eexists. }
    destruct (fr_page _ _ _ Hfr i pg0 Hpg0) as (pg' & Hpg' & (Hf & _) & _). simplify_eq. rewrite Hf. by rewrite (Hz i pg0 Hpg0).
Qed.

Lemma sample_zone_free : exists L, zone_free sample_zone (rng 0x40002 0x4000f) L /\
  mem_map_base_pfn sample_zone = 0x40000 /\ max_mapnr sample_zone = 16 /\ forall i, ~ on_partial L i.
Proof.
  destruct sample_zone_facts as (L & HF & Eb & Em & Hp & _). exists L. split_and!; [exact HF|exact Eb|exact Em|].
  intros i (c & l & Hl & _). by rewrite Hp in Hl.
Qed.

Lemma alloc_pages_spec_witness :
  exists L r z', zone_free sample_zone (rng 0x40002 0x4000f) L /\ alloc_pages 2 sample_zone = Some (r, z') /\
    match r with
    | None => z' = sample_zone /\ (MAX_ORDER <= 2 \/ forall p, ~ free_run (rng 0x40002 0x4000f) p 2)
    | Some i =>
        let p := mem_map_base_pfn sample_zone + i in
        2 < MAX_ORDER /\ 0 <= i /\ i + 2 ^ 2 <= max_mapnr sample_zone /\ free_run (rng 0x40002 0x4000f) p 2 /\
        (exists pg, mem_map z' !! i = Some pg /\ has_flag PAGE_BUDDY pg = false) /\
        exists L', zone_free z' (rng 0x40002 0x4000f ∖ blk p 2) L' /\ same_partials L L' /\
          frame sample_zone z' (fun x => x ∈ rng 0x40002 0x4000f)
    end.
Proof.
  destruct sample_zone_free as (L & HF & _).
  destruct (alloc_pages_spec sample_zone (rng 0x40002 0x4000f) L 2 HF ltac:(lia)) as (r & z' & H).
  exists L, r, z'. split; [exact HF|exact H].
Defined.

(** Page 1 of the zone is not free; it merges with nothing below and is
    freed as a block of order 0. *)
Lemma free_pages_spec_witness :
  exists L z' L', zone_free sample_zone (rng 0x40002 0x4000f) L /\ __free_pages 1 0 sample_zone = Some z' /\
    zone_free z' (rng 0x40002 0x4000f ∪ blk (mem_map_base_pfn sample_zone + 1) 0) L' /\
    nr_free_pages z' = nr_free_pages sample_zone + 2 ^ 0 /\ same_partials L L' /\
    frame sample_zone z' (fun x => x ∈ rng 0x40002 0x4000f ∪ blk (mem_map_base_pfn sample_zone + 1) 0).
Proof.
  destruct sample_zone_free as (L & HF & Eb & Em & Hp).
  destruct (free_pages_spec sample_zone (rng 0x40002 0x4000f) L 1 0 HF) as (z' & L' & H).
  - unfold MAX_ORDER. lia.
  - apply Z.divide_1_l.
  - lia.
  - rewrite Em. lia.
  - intros x Hx%elem_of_blk Hx'%elem_of_rng. unfold inblk in Hx. rewrite Eb in Hx. lia.
  - intros x _. apply Hp.
  - exists L, z', L'. split; [exact HF|exact H].
Defined.

(** Two ranges of one zone; the client keeps one block of two pages. *)
Lemma free_lists_follow_frames_witness :
  exists z0 z1 z2 A F L,
    free_area_init 0x40000000 16 boot_zone = Some z0 /\
    hand_over [(0x40001800, 0x40007000); (0x40008000, 0x4000f000)] z0 = Some z1 /\
    serve_all (z1, ∅) [Alloc 1; Alloc 0; Free 14; Alloc 3] = Some (z2, A) /\ ls_rep (lists z2) L /\
    (forall x, x ∈ F <-> handed_over [(0x40001800, 0x40007000); (0x40008000, 0x4000f000)] x /\
      0x40000000 / PAGE_SIZE <= x < 0x40000000 / PAGE_SIZE + 16 /\ ~ held z2 A x) /\
    forall o, 0 <= o < MAX_ORDER -> exists l, L !! FreeList o = Some l /\
      nr_free z2 !! o = Some (Z.of_nat (length l)) /\ NoDup l /\
      forall x, x ∈ l <-> exists i, x = Lru i /\ maximal_run F (0x40000000 / PAGE_SIZE + i) o.
Proof.
  apply (free_lists_follow_frames boot_zone 0x40000000 16 _ [Alloc 1; Alloc 0; Free 14; Alloc 3] boot_lists_rep boot_lists_valid).
  - lia.
  - lia.
  - vm_compute. discriminate.
  - repeat constructor; unfold range_ok; cbn [fst snd]; change PAGE_SIZE with 4096; lia.
  - repeat constructor. unfold separate. cbn [fst snd]. lia.
  - repeat constructor; cbn; lia.
Defined.

(** The block held is the one at page 12; the lists hold pages 2, 4 and 8
    with their runs of 2, 2 and 4 frames and the single pages 6 and 14. *)
Example two_ranges_blocks :
  (let* z := free_area_init 0x40000000 16 boot_zone in
   let* z := hand_over [(0x40001800, 0x40007000); (0x40008000, 0x4000f000)] z in
   let* '(z, A) := serve_all (z, ∅) [Alloc 1; Alloc 0; Free 14; Alloc 3] in
   Some (map_to_list A, map (fun o => nr_free z !! o) [0; 1; 2; 3])) =
  Some ([(12, 1)], [Some 2; Some 2; Some 1; Some 0]).
Proof. vm_compute. reflexivity. Qed.

Lemma free_memory_core_spec_witness :
  exists z L z' L', sample_init = Some z /\ zone_free z ∅ L /\
    __free_memory_core 0x40001800 0x4000f000 z = Some z' /\
    zone_free z' (∅ ∪ rng (core_first z 0x40001800) (core_limit z 0x4000f000)) L' /\ same_partials L L' /\
    forall x, x ∈ rng (core_first z 0x40001800) (core_limit z 0x4000f000) <->
      0x40001800 <= x * PAGE_SIZE /\ (x + 1) * PAGE_SIZE <= 0x4000f000 /\
      mem_map_base_pfn z <= x < mem_map_base_pfn z + max_mapnr z.
Proof.
  destruct sample_init_free as (z & L & E & HF & He & _).
  destruct (free_memory_core_spec z ∅ L 0x40001800 0x4000f000 HF) as (z' & L' & H);
    [lia|reflexivity|lia|apply disjoint_empty_r|intros; apply empties_not_partial; exact He|].
  exists z, L, z', L'. split; [exact E|]. split; [exact HF|exact H].
Defined.

Lemma free_area_init_spec_witness :
  exists z' L', free_area_init 0x40000000 16 boot_zone = Some z' /\ zone_free z' ∅ L' /\ empties L' /\
    mem_map_base_pfn z' = 0x40000000 / PAGE_SIZE /\ max_mapnr z' = 16 /\
    (forall i pg, mem_map z' !! i = Some pg -> pg = zero_page).
Proof.
  apply (free_area_init_spec boot_zone 0x40000000 16 boot_lists_rep boot_lists_valid); [lia|lia|vm_compute; discriminate].
Defined.

Lemma requests_conserve_pages_witness :
  exists L0 z' A F L, zone_free sample_zone (rng 0x40002 0x4000f) L0 /\
    serve_all (sample_zone, ∅) [Alloc 1; Alloc 0; Free 12; Alloc 3] = Some (z', A) /\ zone_free z' F L /\
    (forall x, x ∈ rng 0x40002 0x4000f <-> x ∈ F \/ held z' A x).
Proof.
  destruct sample_zone_free as (L0 & HF & _).
  destruct (requests_conserve_pages sample_zone (rng 0x40002 0x4000f) L0 [Alloc 1; Alloc 0; Free 12; Alloc 3] HF)
    as (z' & A & F & L & E & HF' & _ & _ & _ & Hsp & _).
  - repeat constructor; cbn; lia.
  - exists L0, z', A, F, L. split; [exact HF|]. split; [exact E|]. split; [exact HF'|exact Hsp].
Defined.

(** The zone computes: thirteen free pages in blocks of 2, 4, 4, 2 and 1
    pages; two allocations and a free leave twelve. *)
Example sample_zone_blocks :
  (nr_free_pages sample_zone,
   map (fun o => nr_free sample_zone !! o) [0; 1; 2; 3],
   (fun r => nr_free_pages r.1) <$> serve_all (sample_zone, ∅) [Alloc 1; Alloc 0; Free 12; Alloc 3]) =
  (13, [Some 1; Some 2; Some 2; Some 0], Some 12).
Proof. vm_compute. reflexivity. Qed.
