(* ===== verification/Slab.v ===== *)
(** * The kernel heap ([mm/slab.c], [include/miaow/slab.h])

    A cache is its index in [kmalloc_caches]; its partial list is the node
    [Partial c] of the list store the page allocator uses too.  Objects live
    in the byte memory [ram], where a free object holds the address of the
    next free one; pointers are addresses and NULL is 0. *)

From S2P Require Import Prelude MemoryH ListH Mem StringC PageAlloc.

Definition KMALLOC_SHIFT_LOW : Z := 4.
Definition KMALLOC_SHIFT_HIGH : Z := 11.
Definition KMALLOC_MIN_SIZE : Z := Z.shiftl 1 KMALLOC_SHIFT_LOW.
Definition KMALLOC_MAX_SIZE : Z := Z.shiftl 1 KMALLOC_SHIFT_HIGH.
Definition KMALLOC_CACHES : Z := KMALLOC_SHIFT_HIGH - KMALLOC_SHIFT_LOW + 1.

(** [struct kmem_cache], less [partial], which lives in the list store. *)
Record kmem_cache := KmemCache { c_size : Z; c_objects : Z }.

(** Everything [slab.c] can change. *)
Record heap (S : Type) := Heap { hzone : zone S; kmalloc_caches : gmap Z kmem_cache; ram : mem }.

Arguments Heap {S} _ _ _.
Arguments hzone {S} _.
Arguments kmalloc_caches {S} _.
Arguments ram {S} _.

Definition set_freelist a p := Page (flags p) (order p) a (slab p) (inuse p).
Definition set_slab c p := Page (flags p) (order p) (freelist p) c (inuse p).
Definition set_inuse n p := Page (flags p) (order p) (freelist p) (slab p) n.

Definition get_freepointer (object : Z) (m : mem) : option Z := load64 m object.

Definition set_freepointer (object fp : Z) (m : mem) : option mem := store64 object fp m.

Section operations.
Context {S : Type} `{!ListStore node S}.
Implicit Type h : heap S.

Definition set_hzone (z : zone S) h : heap S := Heap z (kmalloc_caches h) (ram h).
Definition set_ram (m : mem) h : heap S := Heap (hzone h) (kmalloc_caches h) m.

Definition on_zone (f : zone S -> option (zone S)) h : option (heap S) :=
  let* z := f (hzone h) in Some (set_hzone z h).

Definition on_ram (f : mem -> option mem) h : option (heap S) :=
  let* m := f (ram h) in Some (set_ram m h).

Definition page_address (z : zone S) (page : Z) : Z := __va (page_to_phys z page).

Definition virt_to_page (z : zone S) (address : Z) : Z := phys_to_page z (__pa address).

(** One round of the loop of [kmem_cache_init]. *)
Definition init_cache (h : option (heap S)) (index : Z) : option (heap S) :=
  let* h := h in
  let size := u64 (Z.shiftl KMALLOC_MIN_SIZE index) in
  let cache := KmemCache size (u32 (PAGE_SIZE / size)) in
  on_zone (on_lists (ls_init (Partial index))) (Heap (hzone h) (<[index := cache]> (kmalloc_caches h)) (ram h)).

Definition kmem_cache_init h : option (heap S) :=
  foldl init_cache (Some h) (seqZ 0 KMALLOC_CACHES).

(** A slab has at most 256 objects. *)
Definition carve_fuel : nat := 300.

(** The loop of [new_slab]; the state is [obj], [last] and the memory. *)
Definition carve_round (cache : kmem_cache) (start : Z) (s : Z * Z * mem) : option ((Z * Z * mem) + (Z * mem)) :=
  let '(obj, last, m) := s in
  if obj <? u64 (start + u64 (c_objects cache * c_size cache)) then
    let* m := set_freepointer last obj m in
    Some (inl (u64 (obj + c_size cache), obj, m))
  else Some (inr (last, m)).

Definition new_slab (c : Z) h : option (option Z * heap S) :=
  let* '(page, z) := alloc_pages 0 (hzone h) in
  match page with
  | None => Some (None, set_hzone z h)
  | Some page =>
      let* cache := kmalloc_caches h !! c in
      let* z := on_page page (set_slab (Some c)) z in
      let* z := on_page page (set_inuse 0) z in
      let* z := on_page page (add_flag PAGE_SLAB) z in
      let start := page_address z page in
      let* '(last, m) := iter carve_fuel (carve_round cache start) (u64 (start + c_size cache), start, ram h) in
      let* m := set_freepointer last 0 m in
      let* z := on_page page (set_freelist start) z in
      let* z := on_lists (ls_add (Lru page) (Partial c)) z in
      Some (Some page, Heap z (kmalloc_caches h) m)
  end.

(** The part of [slab_alloc] after a slab with a free object was found. *)
Definition pop_object (page : Z) h : option (Z * heap S) :=
  let* pg := mem_map (hzone h) !! page in
  let object := freelist pg in
  let* next := get_freepointer object (ram h) in
  let* h := on_zone (on_page page (set_freelist next)) h in
  let* h := on_zone (on_page page (fun pg => set_inuse (u32 (inuse pg + 1)) pg)) h in
  let* h := if next =? 0 then on_zone (on_lists (ls_del (Lru page))) h else Some h in
  Some (object, h).

Definition slab_alloc (c : Z) h : option (Z * heap S) :=
  let* empty := ls_empty (Partial c) (lists (hzone h)) in
  if (empty : bool) then
    let* '(page, h) := new_slab c h in
    match page with
    | None => Some (0, h)
    | Some page => pop_object page h
    end
  else
    let* first := ls_first (Partial c) (lists (hzone h)) in
    match first with
    | Lru page => pop_object page h
    | _ => None
    end.

Definition slab_free (page object : Z) h : option (heap S) :=
  let* pg := mem_map (hzone h) !! page in
  let cache := slab pg in
  let prior := freelist pg in
  let* h := on_ram (set_freepointer object prior) h in
  let* h := on_zone (on_page page (set_freelist object)) h in
  let* h := on_zone (on_page page (fun pg => set_inuse (u32 (inuse pg - 1)) pg)) h in
  let* pg := mem_map (hzone h) !! page in
  if inuse pg =? 0 then
    let* h := if negb (prior =? 0) then on_zone (on_lists (ls_del (Lru page))) h else Some h in
    let* h := on_zone (on_page page (clear_flag PAGE_SLAB)) h in
    on_zone (__free_pages page 0) h
  else if prior =? 0 then
    let* c := cache in
    on_zone (on_lists (ls_add (Lru page) (Partial c))) h
  else Some h.

(** The loop of [kmalloc_index]. *)
Definition index_round (size index : Z) : option (Z + Z) :=
  if u64 (Z.shiftl KMALLOC_MIN_SIZE index) <? size then Some (inl (u32 (index + 1))) else Some (inr index).

Definition kmalloc_index (size : Z) : option Z := iter order_fuel (index_round size) 0.

(** The loop of [kmalloc] that finds the block order; [inr None] is its
    [return nullptr]. *)
Definition order_round (size o : Z) : option (Z + option Z) :=
  if u64 (Z.shiftl PAGE_SIZE o) <? size then
    let o := o + 1 in
    if MAX_ORDER <=? o then Some (inr None) else Some (inl o)
  else Some (inr (Some o)).

Definition kmalloc (size : Z) h : option (Z * heap S) :=
  if size =? 0 then Some (0, h)
  else if KMALLOC_MAX_SIZE <? size then
    let* o := iter order_fuel (order_round size) 0 in
    match o with
    | None => Some (0, h)
    | Some o =>
        let* '(page, z) := alloc_pages o (hzone h) in
        match page with
        | None => Some (0, set_hzone z h)
        | Some page =>
            let* z := on_page page (set_order o) z in
            Some (page_address z page, set_hzone z h)
        end
    end
  else
    let* index := kmalloc_index size in
    slab_alloc index h.

Definition kzalloc (size : Z) h : option (Z * heap S) :=
  let* '(object, h) := kmalloc size h in
  if object =? 0 then Some (object, h)
  else
    let* '(_, m) := memset object 0 size (ram h) in
    Some (object, set_ram m h).

Definition kfree (object : Z) h : option (heap S) :=
  if object =? 0 then Some h
  else
    let page := virt_to_page (hzone h) object in
    let* pg := mem_map (hzone h) !! page in
    if has_flag PAGE_SLAB pg then slab_free page object h
    else on_zone (__free_pages page (order pg)) h.

End operations.
