(* ===== verification/SlabProof.v ===== *)
(** * Invariant and operations of the kernel heap

    The abstract state of the heap is: the free page frames [F], the slab
    pages [sl] (their cache and their free objects, in free-list order), and
    the large blocks [lg] (first page and order).  [heap_wk] relates it to
    the memory; an allocation is live when it is an object of a slab page
    that is not free, or a large block. *)

From S2P Require Import Prelude MemoryH ListH Mem StringC PageAlloc PageAllocProof Slab.

(** ** Addresses *)

(** The address of page index [i] of a zone that starts at frame [base]. *)
Definition va (base i : Z) : Z := PAGE_OFFSET + (base + i) * PAGE_SIZE - PHYS_OFFSET.

(** The zone lies in the linear map, below the top of the address space. *)
Definition addr_ok (base len : Z) : Prop :=
  PHYS_OFFSET <= base * PAGE_SIZE /\ (base + len) * PAGE_SIZE - PHYS_OFFSET + PAGE_OFFSET < 2 ^ 64.

Lemma va_range base len i : addr_ok base len -> 0 <= i < len -> PAGE_OFFSET <= va base i /\ va base i + PAGE_SIZE < 2 ^ 64.
Proof. unfold addr_ok, va. change PAGE_SIZE with 4096. nia. Qed.

Lemma va_page base i j x y :
  0 <= x < PAGE_SIZE -> 0 <= y < PAGE_SIZE -> va base i + x = va base j + y -> i = j /\ x = y.
Proof. unfold va. change PAGE_SIZE with 4096. nia. Qed.

Lemma u64_eq z k r : z = k * 2 ^ 64 + r -> is_u64 r -> u64 z = r.
Proof. intros -> Hr. unfold u64. rewrite Z.add_comm, Z_mod_plus_full. by apply Z.mod_small. Qed.

Lemma page_address_eq {S} (z : zone S) i :
  addr_ok (mem_map_base_pfn z) (max_mapnr z) -> 0 <= mem_map_base_pfn z -> 0 <= i < max_mapnr z ->
  page_address z i = va (mem_map_base_pfn z) i.
Proof.
  intros Ha Hb Hi. pose proof (va_range _ _ i Ha Hi) as Hv. unfold addr_ok, va in *. unfold page_address, page_to_phys, page_to_pfn, __va, PAGE_SHIFT.
  change PAGE_SIZE with 4096 in *. unfold PHYS_OFFSET, PAGE_OFFSET in *.
  rewrite (u64_id (_ + i)) by (unfold is_u64; lia). rewrite Z.shiftl_mul_pow2 by lia. change (2 ^ 12) with 4096.
  rewrite (u64_id (_ * 4096)) by (unfold is_u64; lia). rewrite (u64_id (_ - _)) by (unfold is_u64; lia).
  rewrite u64_id by (unfold is_u64; lia). lia.
Qed.

Lemma virt_to_page_eq {S} (z : zone S) i x :
  addr_ok (mem_map_base_pfn z) (max_mapnr z) -> 0 <= i < max_mapnr z -> 0 <= x < PAGE_SIZE ->
  virt_to_page z (va (mem_map_base_pfn z) i + x) = i.
Proof.
  intros Ha Hi Hx. pose proof (va_range _ _ i Ha Hi) as Hv. unfold addr_ok, va in *. unfold virt_to_page, phys_to_page, pfn_to_page, __pa, PAGE_SHIFT.
  change PAGE_SIZE with 4096 in *. unfold PHYS_OFFSET, PAGE_OFFSET in *.
  rewrite (u64_id (_ - 0xffffffc000000000)) by (unfold is_u64; lia). rewrite (u64_id (_ + 0x40000000)) by (unfold is_u64; lia).
  rewrite Z.shiftr_div_pow2 by lia. change (2 ^ 12) with 4096.
  assert (((0xffffffc000000000 + (mem_map_base_pfn z + i) * 4096 - 0x40000000 + x - 0xffffffc000000000 + 0x40000000) / 4096)
    = mem_map_base_pfn z + i) as ->.
  { symmetry. apply (Z.div_unique _ _ _ x); lia. }
  rewrite u64_id; [lia|]. unfold is_u64. lia.
Qed.

(** ** Size classes *)

Definition csz (c : Z) : Z := 2 ^ (4 + c).
Definition cnum (c : Z) : Z := 2 ^ (8 - c).

Lemma class_facts c : 0 <= c < KMALLOC_CACHES ->
  16 <= csz c /\ 2 <= cnum c <= 256 /\ csz c * cnum c = PAGE_SIZE /\ csz c <= 2048.
Proof.
  unfold csz, cnum, KMALLOC_CACHES. intros Hc.
  assert (c = 0 \/ c = 1 \/ c = 2 \/ c = 3 \/ c = 4 \/ c = 5 \/ c = 6 \/ c = 7)
    as [->|[->|[->|[->|[->|[->|[->| ->]]]]]]] by (unfold KMALLOC_SHIFT_HIGH, KMALLOC_SHIFT_LOW in *; lia);
    vm_compute; intuition discriminate.
Qed.

(** [a] is an object of page [i] in class [c]. *)
Definition object_of (base i c a : Z) : Prop := exists k, 0 <= k < cnum c /\ a = va base i + k * csz c.

Lemma object_in_page base i c a : 0 <= c < KMALLOC_CACHES -> object_of base i c a ->
  0 <= a - va base i /\ a - va base i + csz c <= PAGE_SIZE.
Proof. intros Hc (k & Hk & ->). destruct (class_facts c Hc) as (? & ? & <- & ?). nia. Qed.

(** The first byte of a page is an object of that page only. *)
Lemma va_object base i j c : 0 <= c < KMALLOC_CACHES -> object_of base j c (va base i) -> i = j.
Proof.
  intros Hc Ho. pose proof (object_in_page _ _ _ _ Hc Ho). pose proof (class_facts c Hc).
  by destruct (va_page base i j 0 (va base i - va base j)); [done|lia|lia|].
Qed.

Lemma objects_apart base i c a b : 0 <= c < KMALLOC_CACHES ->
  object_of base i c a -> object_of base i c b -> a <> b -> a + csz c <= b \/ b + csz c <= a.
Proof. intros Hc (k & Hk & ->) (j & Hj & ->) Hne. destruct (class_facts c Hc). assert (k <> j) by congruence. nia. Qed.

Lemma kmalloc_index_correct size :
  0 < size <= KMALLOC_MAX_SIZE ->
  exists c, kmalloc_index size = Some c /\ 0 <= c < KMALLOC_CACHES /\ size <= csz c /\ (c = 0 \/ csz (c - 1) < size).
Proof.
  intros Hs. apply (iter_rule (fun c => 0 <= c < KMALLOC_CACHES /\ (c = 0 \/ csz (c - 1) < size)) _ (fun c => Z.to_nat (8 - c))).
  2:{ split; [done|by left]. }
  2:{ unfold order_fuel. lia. }
  intros c [Hc Hlow]. unfold index_round.
  assert (Hc8 : 0 <= c < 8) by exact Hc.
  assert (Esz : u64 (Z.shiftl KMALLOC_MIN_SIZE c) = csz c).
  { unfold KMALLOC_MIN_SIZE, KMALLOC_SHIFT_LOW, csz. rewrite !Z.shiftl_mul_pow2, Z.mul_1_l, <- Z.pow_add_r by lia.
    apply u64_id. split; [apply Z.pow_nonneg; lia|]. apply Z.pow_lt_mono_r; lia. }
  rewrite Esz. destruct (Z.ltb_spec (csz c) size) as [Hlt|Hge].
  - left. exists (c + 1). rewrite u32_id by (unfold is_u32; lia). split; [done|]. split; [|lia].
    assert (c <> 7). { intros ->. change (csz 7) with KMALLOC_MAX_SIZE in Hlt. lia. }
    split; [change KMALLOC_CACHES with 8; lia|]. right. by replace (c + 1 - 1) with c by lia.
  - right. exists c. done.
Qed.

(** The block order of a large request. *)
Lemma order_loop_correct size :
  0 < size ->
  exists r, iter order_fuel (order_round size) 0 = Some r /\
    match r with
    | Some o => 0 <= o < MAX_ORDER /\ size <= PAGE_SIZE * 2 ^ o /\ (o = 0 \/ PAGE_SIZE * 2 ^ (o - 1) < size)
    | None => PAGE_SIZE * 2 ^ (MAX_ORDER - 1) < size
    end.
Proof.
  intros Hs. apply (iter_rule (fun o => 0 <= o < MAX_ORDER /\ (o = 0 \/ PAGE_SIZE * 2 ^ (o - 1) < size)) _ (fun o => Z.to_nat (MAX_ORDER - o))).
  2:{ split; [done|by left]. }
  2:{ vm_compute. lia. }
  intros o [Ho Hlow]. unfold order_round. rewrite Z.shiftl_mul_pow2 by lia.
  assert (0 < 2 ^ o <= 2 ^ 10) by (split; [apply pow2_pos; lia|apply Z.pow_le_mono_r; unfold MAX_ORDER in *; lia]).
  rewrite u64_id by (unfold is_u64; change PAGE_SIZE with 4096; lia).
  destruct (Z.ltb_spec (PAGE_SIZE * 2 ^ o) size) as [Hlt|Hge]; [|right; by exists (Some o)].
  destruct (Z.leb_spec MAX_ORDER (o + 1)) as [Hm|Hm].
  - right. exists None. split; [done|]. by replace (MAX_ORDER - 1) with o by lia.
  - left. exists (o + 1). split; [done|]. split; [|lia]. split; [lia|]. right. by replace (o + 1 - 1) with o by lia.
Qed.

(** ** Free lists inside slabs *)

(** From pointer [p] the free objects [l] are chained, up to NULL. *)
Fixpoint fchain (m : mem) (p : Z) (l : list Z) : Prop :=
  match l with
  | [] => p = 0
  | a :: l => p = a /\ exists q, load64 m a = Some q /\ fchain m q l
  end.

Lemma fchain_agree m m' p l : (forall a, a ∈ l -> agree m m' a 8) -> fchain m p l -> fchain m' p l.
Proof.
  revert p. induction l as [|a l IH]; intros p Ha; [done|]. cbn. intros (-> & q & Hq & Hc). split; [done|].
  exists q. split; [by rewrite (load64_agree m) by (apply Ha; constructor)|]. apply IH; [|done]. intros b ?. apply Ha. by constructor.
Qed.

(** The first [n] objects of a page, in address order. *)
Definition objects (start sz : Z) (k : Z) (n : nat) : list Z := (fun j => start + j * sz) <$> seqZ k (Z.of_nat n).

Lemma fchain_objects m start sz (n : nat) : forall k,
  (forall j, k <= j < k + Z.of_nat n -> load64 m (start + j * sz) = Some (if j + 1 <? k + Z.of_nat n then start + (j + 1) * sz else 0)) ->
  (0 < n)%nat -> fchain m (start + k * sz) (objects start sz k n).
Proof.
  induction n as [|n IH]; intros k Hl Hn; [lia|]. unfold objects. rewrite seqZ_cons by lia. cbn [fmap list_fmap fchain].
  split; [done|]. eexists. split; [apply Hl; lia|].
  replace (Z.pred (Datatypes.S n)) with (Z.of_nat n) by lia. rewrite <- Z.add_1_r.
  destruct n as [|n]; [case_cmp; [lia|done]|]. rewrite (proj2 (Z.ltb_lt _ _)) by lia. apply IH; [|lia].
  intros j Hj. rewrite Hl by lia. replace (k + 1 + Z.of_nat (Datatypes.S n)) with (k + Z.of_nat (Datatypes.S (Datatypes.S n))) by lia. done.
Qed.

Lemma elem_of_objects start sz n a : a ∈ objects start sz 0 n <-> exists k, 0 <= k < n /\ a = start + k * sz.
Proof.
  unfold objects. rewrite list_elem_of_fmap. setoid_rewrite elem_of_seqZ. split; intros (k & ? & ?); exists k; split; (done || lia).
Qed.

Lemma NoDup_objects start sz k n : 0 < sz -> NoDup (objects start sz k n).
Proof. intros. apply NoDup_fmap_2; [|apply NoDup_seqZ]. intros a b E. nia. Qed.

Lemma length_objects start sz k n : length (objects start sz k n) = n.
Proof. unfold objects. rewrite length_fmap, length_seqZ. lia. Qed.

(** Storing one free pointer. *)
Lemma set_freepointer_spec a p m :
  mapped m a 8 -> is_u64 p ->
  exists m', set_freepointer a p m = Some m' /\ load64 m' a = Some p /\
    (forall b n, b + n <= a \/ a + 8 <= b -> agree m m' b n) /\ (forall b n, mapped m b n -> mapped m' b n).
Proof.
  intros Hm Hp. unfold set_freepointer. rewrite store64_write by done. eexists. split; [done|]. split_and!.
  - rewrite load64_written. by rewrite u64_id.
  - intros b n Hd. apply agree_write. by rewrite le8_length.
  - intros b n. apply mapped_write.
Qed.

(** *** Carving a page *)

Section carve.
Context (m0 : mem) (start sz : Z) (n : nat).
Hypothesis Hmap : mapped m0 start (sz * n).
Hypothesis Hsz : 16 <= sz.
Hypothesis Hn : (1 <= n <= 256)%nat.
Hypothesis Hlo : 0 < start.
Hypothesis Hhi : start + sz * n < 2 ^ 64.

(** After [k] rounds the first [k] objects are chained. *)
Record carving (k : Z) (m : mem) : Prop := {
  cv_chain j : 0 <= j < k -> load64 m (start + j * sz) = Some (start + (j + 1) * sz);
  cv_mapped : mapped m start (sz * n);
  cv_out b l : b + l <= start \/ start + sz * n <= b -> agree m0 m b l;
}.

Lemma carve_store k m p :
  carving k m -> 0 <= k < n -> is_u64 p ->
  exists m', set_freepointer (start + k * sz) p m = Some m' /\ load64 m' (start + k * sz) = Some p /\ carving k m'.
Proof.
  intros [Hc Hm Ho] Hk Hp. destruct (set_freepointer_spec (start + k * sz) p m) as (m' & E & Hl & Ha & Hm'); [|done|].
  { apply (mapped_sub _ _ _ _ _ Hm); nia. }
  exists m'. split; [done|]. split; [done|]. split.
  - intros j Hj. rewrite (load64_agree m) by (apply Ha; nia). by apply Hc.
  - by apply Hm'.
  - intros b l Hb. apply (agree_trans _ m); [by apply Ho|]. apply Ha. nia.
Qed.

Lemma carve_loop :
  exists last m, iter carve_fuel (carve_round (KmemCache sz n) start) (u64 (start + sz), start, m0) = Some (last, m) /\
    last = start + (n - 1) * sz /\ carving (n - 1) m.
Proof.
  rewrite u64_id by (unfold is_u64; nia).
  edestruct (iter_rule (fun s => exists k m, 0 <= k < n /\ s = (start + (k + 1) * sz, start + k * sz, m) /\ carving k m)
    (fun r => r.1 = start + (n - 1) * sz /\ carving (n - 1) r.2)
    (fun s => Z.to_nat ((start + (n + 1) * sz - s.1.1) / sz)) (carve_round (KmemCache sz n) start))
    with (fuel := carve_fuel) (s := (start + sz, start, m0)) as ([last m] & -> & H); [| | |by exists last, m].
  - intros s (k & m & Hk & -> & Hcv). unfold carve_round. cbn [c_objects c_size].
    rewrite (u64_id (n * sz)) by (unfold is_u64; nia). rewrite (u64_id (start + _)) by (unfold is_u64; nia).
    destruct (Z.ltb_spec (start + (k + 1) * sz) (start + n * sz)) as [Hlt|Hge].
    + left. assert (k + 1 < n) by nia. destruct (carve_store k m (start + (k + 1) * sz) Hcv) as (m' & -> & Hl & Hcv'); [lia|unfold is_u64; nia|].
      cbn [mbind option_bind]. rewrite u64_id by (unfold is_u64; nia). eexists. split; [done|]. cbn [fst]. split.
      * exists (k + 1), m'. split; [lia|]. split; [do 2 f_equal; lia|]. destruct Hcv' as [Hc Hm Ho]. split; [|done|done].
        intros j Hj. destruct (decide (j = k)) as [->|]; [done|]. apply Hc. lia.
      * replace (start + (n + 1) * sz - (start + (k + 1) * sz)) with ((n - k) * sz) by lia.
        replace (start + (n + 1) * sz - (start + (k + 1) * sz + sz)) with ((n - k - 1) * sz) by lia.
        rewrite !Z.div_mul by lia. lia.
    + right. assert (k = n - 1) as -> by nia. by eexists.
  - exists 0, m0. split; [lia|]. split; [do 2 f_equal; lia|]. split; [lia|done|]. by intros b l _ x.
  - cbn [fst]. replace (start + (n + 1) * sz - (start + sz)) with (n * sz) by lia. rewrite Z.div_mul by lia. unfold carve_fuel. lia.
Qed.

(** The whole carving, with the end mark. *)
Lemma carve_page :
  exists last m m', iter carve_fuel (carve_round (KmemCache sz n) start) (u64 (start + sz), start, m0) = Some (last, m) /\
    set_freepointer last 0 m = Some m' /\ fchain m' start (objects start sz 0 n) /\
    mapped m' start (sz * n) /\ forall b l, b + l <= start \/ start + sz * n <= b -> agree m0 m' b l.
Proof.
  destruct carve_loop as (last & m & E & -> & Hcv).
  destruct (carve_store (n - 1) m 0 Hcv) as (m' & E' & Hl & [Hc Hm Ho]); [lia|done|].
  exists (start + (n - 1) * sz), m, m'. split; [done|]. split; [done|]. split; [|done].
  replace start with (start + 0 * sz) at 1 by lia. apply fchain_objects; [|lia].
  intros j Hj. destruct (Z.ltb_spec (j + 1) (0 + Z.of_nat n)); [apply Hc; lia|]. by replace j with (n - 1) by lia.
Qed.

End carve.

(** ** Descriptor and list updates the slab code makes *)

Section updates.
Context {S : Type} `{!ListStore node S, !ListStoreLaws node S}.
Implicit Types (z : zone S) (F : gset Z) (L : gmap node (list node)).

Definition put_page (i : Z) (pg : page) z : zone S := set_mem_map (<[i := pg]> (mem_map z)) z.

Lemma on_page_eq i f z pg : mem_map z !! i = Some pg -> on_page i f z = Some (put_page i (f pg) z).
Proof. intros H. unfold on_page. by rewrite H. Qed.

Lemma put_page_twice i pg pg' z : put_page i pg' (put_page i pg z) = put_page i pg' z.
Proof. unfold put_page, set_mem_map. cbn. by rewrite insert_insert_eq. Qed.

Lemma put_page_lookup i pg z j : mem_map (put_page i pg z) !! j = if decide (i = j) then Some pg else mem_map z !! j.
Proof. apply lookup_insert. Qed.

(** Fields the page allocator does not look at may change. *)
Lemma put_page_free z F L i pg pg' :
  zone_free z F L -> mem_map z !! i = Some pg -> has_flag PAGE_BUDDY pg' = has_flag PAGE_BUDDY pg ->
  (order pg' = order pg \/ mem_map_base_pfn z + i ∉ F) -> zone_free (put_page i pg' z) F L.
Proof.
  intros (B & Hz & HF & Hc) Hpg Hf Ho. exists B. split; [|done].
  destruct Hz as [? ? ? ? ? Hd Hp ? ? ? Hb]. split; try done.
  - intros j. cbn. rewrite (dom_update z i pg) by done. apply Hd.
  - intros j pgj. rewrite put_page_lookup. case_decide as Hij; [|apply Hp]. intros [= <-]. subst j.
    specialize (Hp _ _ Hpg). unfold page_ok in *. change (mem_map_base_pfn (put_page i pg' z)) with (mem_map_base_pfn z).
    destruct (B !! (mem_map_base_pfn z + i)) as [o|] eqn:E; [|congruence].
    destruct Ho as [Ho|Hn]; [destruct Hp; split; congruence|]. destruct Hn. apply HF.
    exists (mem_map_base_pfn z + i), o. split; [done|]. apply inblk_start. destruct (bk_ok _ _ _ Hb _ _ E). lia.
Qed.

Lemma zone_free_page z F L i : zone_free z F L -> 0 <= i < max_mapnr z -> exists pg, mem_map z !! i = Some pg.
Proof. intros (B & Hz & _) Hi. by destruct (proj2 (zi_dom _ _ _ Hz i) Hi) as [pg ?]; exists pg. Qed.

(** A page in use goes on a partial list, or leaves it. *)
Lemma partial_insert z F L c l (s : S) :
  zone_free z F L -> ls_rep s (<[Partial c := l]> L) -> (forall x, ls_valid s x <-> ls_valid (lists z) x) ->
  (forall x, x ∈ l -> exists i, x = Lru i /\ mem_map_base_pfn z + i ∉ F) ->
  zone_free (set_lists s z) F (<[Partial c := l]> L).
Proof.
  intros (B & [Hb Hm He Hr Hv Hd Hp Ha Hh Hpt Hk] & HF & Hc) Hrep Hval Hl. exists B. split; [|done].
  split; try done.
  - intros i Hi. by apply Hval, Hv.
  - intros o Ho. destruct (Ha o Ho) as (l' & Hl' & ? & ?). exists l'. split; [|done]. by rewrite lookup_insert_ne.
  - intros hd Hs. destruct (decide (hd = Partial c)) as [->|Hne].
    + right. exists c. split; [done|]. intros l' x. rewrite lookup_insert_eq. intros [= <-] Hx. destruct (Hl x Hx) as (i & ? & _). eauto.
    + rewrite lookup_insert_ne in Hs by done. destruct (Hh hd Hs) as [?|(c' & -> & Hc')]; [by left|right].
      exists c'. split; [done|]. intros l'. rewrite lookup_insert_ne by done. apply Hc'.
  - intros x Hx (c' & l' & Hl' & Hin). apply lookup_insert_Some in Hl' as [[_ <-]|[Hne Hl']].
    + destruct (Hl _ Hin) as (i & [= Ei] & Hn). apply Hn, HF. by replace (mem_map_base_pfn z + i) with x by (cbn in Ei; lia).
    + apply (Hpt x Hx). by exists c', l'.
Qed.

Lemma partial_add z F L c l i :
  zone_free z F L -> L !! Partial c = Some l -> 0 <= i < max_mapnr z -> mem_map_base_pfn z + i ∉ F -> ~ on_partial L i ->
  exists s, on_lists (ls_add (Lru i) (Partial c)) z = Some (set_lists s z) /\
    zone_free (set_lists s z) F (<[Partial c := Lru i :: l]> L) /\ (forall x, ls_valid s x <-> ls_valid (lists z) x).
Proof.
  intros HF Hl Hi Hn Hp. pose proof HF as (B & Hz & HB & _).
  assert (Hnil : ~ in_lists L (Lru i)).
  { rewrite (in_lists_lru z B L i Hz). intros [[o Ho]|?]; [|done]. apply Hn, HB. exists (mem_map_base_pfn z + i), o.
    split; [done|]. apply inblk_start. destruct (bk_ok _ _ _ (zi_blocks _ _ _ Hz) _ _ Ho). lia. }
  destruct (ls_add_spec _ _ _ _ (Lru i) (zi_rep _ _ _ Hz) Hl Hnil (zi_valid _ _ _ Hz i Hi)) as (s & E & Hr & Hv).
  exists s. unfold on_lists. rewrite E. split; [done|]. split; [|done]. apply partial_insert; try done.
  intros x [->|Hx]%elem_of_cons; [by exists i|]. destruct (zi_heads _ _ _ Hz (Partial c)) as [(? & ? & _)|(c' & [= <-] & Hc)]; [by eexists|done|].
  destruct (Hc l x Hl Hx) as [j ->]. exists j. split; [done|]. intros HjF. apply HB in HjF.
  apply (zi_partial _ _ _ Hz _ HjF). exists c, l. split; [done|]. by replace (mem_map_base_pfn z + j - mem_map_base_pfn z) with j by lia.
Qed.

Lemma partial_del z F L c l1 i l2 :
  zone_free z F L -> L !! Partial c = Some (l1 ++ Lru i :: l2) ->
  exists s, on_lists (ls_del (Lru i)) z = Some (set_lists s z) /\
    zone_free (set_lists s z) F (<[Partial c := l1 ++ l2]> L) /\ (forall x, ls_valid s x <-> ls_valid (lists z) x).
Proof.
  intros HF Hl. pose proof HF as (B & Hz & HB & _).
  destruct (ls_del_spec _ _ _ _ _ _ (zi_rep _ _ _ Hz) Hl) as (s & E & Hr & Hv).
  exists s. unfold on_lists. rewrite E. split; [done|]. split; [|done]. apply partial_insert; try done.
  intros x Hx. destruct (zi_heads _ _ _ Hz (Partial c)) as [(? & ? & _)|(c' & [= <-] & Hc)]; [by eexists|done|].
  assert (Hx' : x ∈ l1 ++ Lru i :: l2) by set_solver. destruct (Hc _ x Hl Hx') as [j ->]. exists j. split; [done|].
  intros HjF. apply HB in HjF. apply (zi_partial _ _ _ Hz _ HjF). exists c, (l1 ++ Lru i :: l2). split; [done|].
  by replace (mem_map_base_pfn z + j - mem_map_base_pfn z) with j by lia.
Qed.

End updates.

(** ** The invariant *)

(** A slab page: its cache and its free objects. *)
Record slab_info := SlabInfo { si_cache : Z; si_free : list Z }.

Section heap_invariant.
Context {S : Type} `{!ListStore node S, !ListStoreLaws node S}.
Implicit Types (h : heap S) (F : gset Z) (L : gmap node (list node)).
Implicit Types (sl : gmap Z slab_info) (lg : gmap Z Z).

Abbreviation hbase h := (mem_map_base_pfn (hzone h)).
Abbreviation hlen h := (max_mapnr (hzone h)).

Record slab_ok h (i : Z) (s : slab_info) : Prop := {
  so_page : 0 <= i < hlen h;
  so_cache : 0 <= si_cache s < KMALLOC_CACHES;
  so_desc : exists pg, mem_map (hzone h) !! i = Some pg /\ has_flag PAGE_SLAB pg = true /\ slab pg = Some (si_cache s) /\
    inuse pg = cnum (si_cache s) - length (si_free s) /\ fchain (ram h) (freelist pg) (si_free s);
  so_nodup : NoDup (si_free s);
  so_objects a : a ∈ si_free s -> object_of (hbase h) i (si_cache s) a;
}.

(** The large block at page [i] covers frame [x]. *)
Definition in_large h lg (x : Z) : Prop := exists i o, lg !! i = Some o /\ inblk (hbase h + i) o x.

Definition partial_ok L sl (c : Z) : Prop :=
  exists l, L !! Partial c = Some l /\
    forall x, x ∈ l <-> exists i s, x = Lru i /\ sl !! i = Some s /\ si_cache s = c /\ si_free s <> [].

(** [F0] are the frames the heap shares out: each is free, a slab page or in
    one large block. *)
Record heap_wk (F0 : gset Z) h F L sl lg : Prop := {
  hw_zone : zone_free (hzone h) F L;
  hw_addr : addr_ok (hbase h) (hlen h);
  hw_caches c : 0 <= c < KMALLOC_CACHES -> kmalloc_caches h !! c = Some (KmemCache (csz c) (cnum c));
  hw_partial c : 0 <= c < KMALLOC_CACHES -> partial_ok L sl c;
  hw_partials c : is_Some (L !! Partial c) -> 0 <= c < KMALLOC_CACHES;
  hw_mapped i : 0 <= i < hlen h -> mapped (ram h) (va (hbase h) i) PAGE_SIZE;
  hw_slab i s : sl !! i = Some s -> slab_ok h i s;
  hw_large i o : lg !! i = Some o -> block_ok (hbase h) (hlen h) (hbase h + i) o /\
    exists pg, mem_map (hzone h) !! i = Some pg /\ order pg = o;
  hw_flags i pg : mem_map (hzone h) !! i = Some pg -> sl !! i = None -> has_flag PAGE_SLAB pg = false;
  hw_split x : x ∈ F0 <-> x ∈ F \/ is_Some (sl !! (x - hbase h)) \/ in_large h lg x;
  hw_slab_used i : is_Some (sl !! i) -> (hbase h + i ∉ F) /\ ~ in_large h lg (hbase h + i);
  hw_large_used x : in_large h lg x -> x ∉ F;
  hw_large_apart i o j r x : lg !! i = Some o -> lg !! j = Some r ->
    inblk (hbase h + i) o x -> inblk (hbase h + j) r x -> i = j;
}.

(** No slab page is left without an object in use. *)
Definition tight sl : Prop := forall i s, sl !! i = Some s -> length (si_free s) < cnum (si_cache s).

Definition heap_inv F0 h F L sl lg : Prop := heap_wk F0 h F L sl lg /\ tight sl.

(** The allocation at [p] is live and has [cap] bytes. *)
Definition live (b : Z) sl lg (p cap : Z) : Prop :=
  (exists i s, sl !! i = Some s /\ object_of b i (si_cache s) p /\ (p ∉ si_free s) /\ cap = csz (si_cache s)) \/
  (exists i o, lg !! i = Some o /\ p = va b i /\ cap = PAGE_SIZE * 2 ^ o).

(** *** Consequences *)

Lemma partial_is_slab F0 h F L sl lg i : heap_wk F0 h F L sl lg -> on_partial L i ->
  exists s, sl !! i = Some s /\ si_free s <> [].
Proof.
  intros Hw (c & l & Hl & Hx). destruct (hw_partial _ _ _ _ _ _ Hw c) as (l' & Hl' & Hm).
  { apply (hw_partials _ _ _ _ _ _ Hw). by eexists. }
  simplify_eq. apply Hm in Hx as (j & s & [= <-] & Hs & _ & Hne). by exists s.
Qed.

(** Bytes of other pages are outside page [i]. *)
Lemma other_page h i j a n :
  i <> j -> va (hbase h) j <= a -> a + n <= va (hbase h) j + PAGE_SIZE ->
  a + n <= va (hbase h) i \/ va (hbase h) i + PAGE_SIZE <= a.
Proof. unfold va. change PAGE_SIZE with 4096. intros. nia. Qed.

(** Slab [j] looks the same after a change that leaves its descriptor and
    its bytes alone. *)
Lemma slab_ok_frame h h' i j s :
  slab_ok h j s -> i <> j -> hbase h' = hbase h -> hlen h' = hlen h ->
  (forall pg, mem_map (hzone h) !! j = Some pg -> mem_map (hzone h') !! j = Some pg) ->
  (forall a n, a + n <= va (hbase h) i \/ va (hbase h) i + PAGE_SIZE <= a -> agree (ram h) (ram h') a n) ->
  slab_ok h' j s.
Proof.
  intros [Hp Hc (pg & Hpg & Hf & Hs & Hi & Hch) Hn Ho] Hne Eb El Hmap Hag. split; try done.
  - by rewrite El.
  - exists pg. split_and!; try done; [by apply Hmap|]. eapply fchain_agree; [|done].
    intros a Ha. apply Hag. pose proof (object_in_page _ _ _ _ Hc (Ho a Ha)). pose proof (class_facts _ Hc).
    apply (other_page h i j); [done|lia|lia].
  - by rewrite Eb.
Qed.

(** Page [i] is made a slab page [s'], or an existing one is changed, and
    nothing outside the page is. *)
Lemma slab_put F0 h F L sl lg i s' z' m' F' L' :
  heap_wk F0 h F L sl lg -> zone_free z' F' L' ->
  mem_map_base_pfn z' = hbase h -> max_mapnr z' = hlen h ->
  (is_Some (sl !! i) \/ hbase h + i ∈ F) -> ~ in_large h lg (hbase h + i) ->
  (forall x, x ∈ F' <-> x ∈ F /\ x <> hbase h + i) ->
  (forall j pg, i <> j -> mem_map (hzone h) !! j = Some pg ->
     exists pg', mem_map z' !! j = Some pg' /\ same_slab pg pg' /\ (hbase h + j ∉ F -> pg' = pg)) ->
  (forall a n, a + n <= va (hbase h) i \/ va (hbase h) i + PAGE_SIZE <= a -> agree (ram h) m' a n) ->
  (forall a n, mapped (ram h) a n -> mapped m' a n) ->
  slab_ok (Heap z' (kmalloc_caches h) m') i s' ->
  (forall c, c <> si_cache s' -> L' !! Partial c = L !! Partial c) -> partial_ok L' (<[i := s']> sl) (si_cache s') ->
  (forall s, sl !! i = Some s -> si_cache s = si_cache s') ->
  heap_wk F0 (Heap z' (kmalloc_caches h) m') F' L' (<[i := s']> sl) lg.
Proof.
  intros Hw HF' Eb El Hown Hnl HFx Hfr Hag Hmap Hs' Hpo Hp Hsame.
  pose proof Hw as [Hz Ha Hca Hpa Hpd Hm Hsl Hlg Hfl Hsp Hsu Hlu Hla].
  split; cbn [hzone kmalloc_caches ram]; rewrite ?Eb, ?El; try done.
  - intros c Hc. destruct (decide (c = si_cache s')) as [->|Hne]; [done|].
    destruct (Hpa c Hc) as (l & Hl & Hin). exists l. rewrite Hpo by done. split; [done|]. intros x. rewrite Hin.
    split; intros (j & s & -> & Hj & Hcs & Hne'); exists j, s; (split; [done|]); split; try done.
    + rewrite lookup_insert_ne; [done|]. intros <-. by rewrite <- (Hsame s Hj) in Hne.
    + apply lookup_insert_Some in Hj as [[<- <-]|[_ Hj]]; congruence.
  - intros c Hc. destruct (decide (c = si_cache s')) as [->|Hne]; [apply Hs'|]. apply Hpd. by rewrite <- Hpo.
  - intros j Hj. by apply Hmap, Hm.
  - intros j s [[<- <-]|[Hne Hj]]%lookup_insert_Some; [done|].
    apply (slab_ok_frame h _ i); try done; [by apply Hsl|]. cbn [hzone]. intros pg Hpg.
    destruct (Hfr j pg Hne Hpg) as (pg' & ? & _ & Heq). destruct (Hsu j) as [Hn _]; [by eexists|]. by rewrite <- (Heq Hn).
  - intros j o Hj. destruct (Hlg j o Hj) as (Hb & pg & Hpg & Ho). split; [done|].
    assert (Hin : in_large h lg (hbase h + j)) by (exists j, o; split; [done|]; apply inblk_start; destruct Hb; lia).
    assert (Hne : i <> j) by (intros ->; done). destruct (Hfr j pg Hne Hpg) as (pg' & Hpg' & _ & Heq).
    exists pg'. split; [done|]. by rewrite (Heq (Hlu _ Hin)).
  - intros j pg Hpg [Hj Hne]%lookup_insert_None. destruct HF' as (B & Hz' & _).
    destruct Hz as (B0 & Hz0 & _). destruct (proj2 (zi_dom _ _ _ Hz0 j)) as [pg0 Hpg0].
    { rewrite <- El. apply (zi_dom _ _ _ Hz' j). by eexists. }
    destruct (Hfr j pg0 Hne Hpg0) as (pg' & Hpg' & (Hsf & _) & _). simplify_eq. rewrite Hsf. by apply (Hfl j).
  - intros x. rewrite Hsp, HFx. unfold in_large. cbn [hzone]. rewrite Eb. destruct (decide (x = hbase h + i)) as [->|Hne].
    + replace (hbase h + i - hbase h) with i by lia. rewrite lookup_insert_eq.
      split; [by right; left; eexists|]. intros _. destruct Hown; [right; by left|by left].
    + rewrite lookup_insert_ne by lia. tauto.
  - intros j Hj. rewrite HFx. unfold in_large in *. cbn [hzone]. rewrite Eb. destruct (decide (i = j)) as [<-|Hne].
    + split; [tauto|done].
    + rewrite lookup_insert_ne in Hj by done. destruct (Hsu j Hj). tauto.
  - intros x Hx. rewrite HFx. unfold in_large in *. cbn [hzone] in Hx. rewrite Eb in Hx. specialize (Hlu x Hx). tauto.
Qed.

Lemma object_not_null h i c a : addr_ok (hbase h) (hlen h) -> 0 <= i < hlen h -> 0 <= c < KMALLOC_CACHES ->
  object_of (hbase h) i c a -> 0 < a < 2 ^ 64.
Proof.
  intros Ha Hi Hc Ho. pose proof (object_in_page _ _ _ _ Hc Ho). pose proof (va_range _ _ _ Ha Hi).
  pose proof (class_facts c Hc). unfold PAGE_OFFSET in *. lia.
Qed.

Lemma fchain_null h i s q l : addr_ok (hbase h) (hlen h) -> slab_ok h i s -> (forall a, a ∈ l -> a ∈ si_free s) ->
  fchain (ram h) q l -> (q =? 0) = bool_decide (l = []).
Proof.
  intros Ha [Hp Hc _ _ Ho] Hl. destruct l as [|a l]; cbn [fchain]; [by intros ->|]. intros (-> & _).
  rewrite bool_decide_false by done. apply Z.eqb_neq.
  pose proof (object_not_null h i _ a Ha Hp Hc (Ho a (Hl a ltac:(constructor)))). lia.
Qed.

Lemma objects_length b i c l : 0 <= c < KMALLOC_CACHES -> NoDup l -> (forall a, a ∈ l -> object_of b i c a) -> length l <= cnum c.
Proof.
  intros Hc Hn Ho. destruct (class_facts _ Hc) as (? & ? & _).
  assert (Hsub : l ⊆+ objects (va b i) (csz c) 0 (Z.to_nat (cnum c))).
  { apply NoDup_submseteq; [done|]. intros a Ha. apply elem_of_objects. destruct (Ho a Ha) as (k & ? & ->). exists k. split; [lia|done]. }
  apply submseteq_length in Hsub. rewrite length_objects in Hsub. lia.
Qed.

Lemma free_length h i s : slab_ok h i s -> length (si_free s) <= cnum (si_cache s).
Proof. intros [Hp Hc _ Hn Ho]. by apply (objects_length (hbase h) i). Qed.

(** How the partial list of a class follows its slabs. *)
Lemma partial_leave L sl c i s' l1 l2 :
  partial_ok L sl c -> L !! Partial c = Some (l1 ++ Lru i :: l2) -> NoDup (l1 ++ Lru i :: l2) ->
  si_free s' = [] -> partial_ok (<[Partial c := l1 ++ l2]> L) (<[i := s']> sl) c.
Proof.
  intros (l & Hl & Hm) Hl' Hnd Hs'. simplify_eq. exists (l1 ++ l2). rewrite lookup_insert_eq. split; [done|]. intros x.
  apply NoDup_app in Hnd as (_ & Hd1 & [Hd2 _]%NoDup_cons). split.
  - intros Hx. destruct (proj1 (Hm x)) as (j & s0 & -> & Hj & ? & ?); [set_solver|]. exists j, s0.
    rewrite lookup_insert_ne; [done|]. intros <-. set_solver.
  - intros (j & s0 & -> & [[<- <-]|[Hne Hj]]%lookup_insert_Some & ? & ?); [done|].
    assert (Lru j ∈ l1 ++ Lru i :: l2) by (apply Hm; by exists j, s0). assert (Lru j <> Lru i) by congruence. set_solver.
Qed.

Lemma partial_keep L sl i s s' :
  partial_ok L sl (si_cache s) -> sl !! i = Some s -> si_cache s' = si_cache s -> si_free s <> [] -> si_free s' <> [] ->
  partial_ok L (<[i := s']> sl) (si_cache s).
Proof.
  intros (l & Hl & Hm) Hi Hc Hs Hs'. exists l. split; [done|]. intros x. rewrite Hm.
  split; intros (j & s0 & -> & Hj & ? & Hne); exists j; (destruct (decide (i = j)) as [<-|Hij]).
  - exists s'. by rewrite lookup_insert_eq.
  - exists s0. by rewrite lookup_insert_ne.
  - by exists s.
  - exists s0. by rewrite lookup_insert_ne in Hj.
Qed.

Lemma partial_enter L sl c i s' l :
  partial_ok L sl c -> L !! Partial c = Some l -> si_cache s' = c -> si_free s' <> [] ->
  (forall s, sl !! i = Some s -> si_free s = []) ->
  partial_ok (<[Partial c := Lru i :: l]> L) (<[i := s']> sl) c.
Proof.
  intros (l0 & Hl & Hm) Hl' Hc Hs' Hold. simplify_eq. eexists. rewrite lookup_insert_eq. split; [done|]. intros x.
  rewrite elem_of_cons, Hm. split.
  - intros [->|(j & s0 & -> & Hj & ? & Hne)]; [exists i, s'; by rewrite lookup_insert_eq|].
    exists j, s0. rewrite lookup_insert_ne; [done|]. intros <-. by apply Hold in Hj.
  - intros (j & s0 & -> & [[<- <-]|[Hne Hj]]%lookup_insert_Some & ? & ?); [by left|right]. by exists j, s0.
Qed.

(** A free object is taken from slab page [i]. *)
Lemma pop_object_spec F0 h F L sl lg i c a rest :
  heap_wk F0 h F L sl lg -> sl !! i = Some (SlabInfo c (a :: rest)) ->
  exists z' L', pop_object i h = Some (a, Heap z' (kmalloc_caches h) (ram h)) /\
    mem_map_base_pfn z' = hbase h /\ max_mapnr z' = hlen h /\
    heap_wk F0 (Heap z' (kmalloc_caches h) (ram h)) F L' (<[i := SlabInfo c rest]> sl) lg.
Proof.
  intros Hw Hi. pose proof (hw_slab _ _ _ _ _ _ Hw _ _ Hi) as Hok. pose proof (free_length _ _ _ Hok) as Hlen.
  pose proof Hok as [Hp Hc (pg & Hpg & Hf & Hs & Hu & Hch) Hn Ho]. cbn [si_cache si_free length] in *.
  destruct Hch as (Hfl & q & Hq & Hch). pose proof (class_facts c Hc).
  destruct (hw_slab_used _ _ _ _ _ _ Hw i) as [HnF Hnl]; [by eexists|]. set (z := hzone h).
  pose (pg' := set_inuse (u32 (inuse pg + 1)) (set_freelist q pg)).
  assert (HF1 : zone_free (put_page i pg' z) F L) by (eapply put_page_free; [apply Hw|done|done|by left]).
  assert (Hinuse : inuse pg' = cnum c - length rest) by (cbn; rewrite u32_id; unfold is_u32; lia).
  assert (Hput : forall s L', zone_free (set_lists s (put_page i pg' z)) F L' ->
    (forall c', c' <> c -> L' !! Partial c' = L !! Partial c') -> partial_ok L' (<[i := SlabInfo c rest]> sl) c ->
    heap_wk F0 (Heap (set_lists s (put_page i pg' z)) (kmalloc_caches h) (ram h)) F L' (<[i := SlabInfo c rest]> sl) lg).
  { intros s L' Hzf Hoth Hpart. apply (slab_put F0 h F L sl lg i); try done.
    - left. by eexists.
    - intros x. split; [|tauto]. intros Hx. split; [done|]. by intros ->.
    - intros j pgj Hne Hj. exists pgj. split; [|done]. cbn. by rewrite lookup_insert_ne.
    - split; try done; cbn [si_cache si_free].
      + exists pg'. split_and!; try done. cbn. by rewrite lookup_insert_eq.
      + by apply NoDup_cons in Hn as [_ Hn].
      + intros b Hb. apply Ho. by constructor.
    - intros s0 Hs0. rewrite Hi in Hs0. by injection Hs0 as <-. }
  unfold pop_object. rewrite Hpg. cbn [mbind option_bind]. rewrite Hfl. unfold get_freepointer. rewrite Hq. cbn [mbind option_bind].
  unfold on_zone. rewrite (on_page_eq _ _ _ pg) by done. cbn [mbind option_bind set_hzone hzone].
  rewrite (on_page_eq _ _ _ (set_freelist q pg)) by (rewrite put_page_lookup; by rewrite decide_True).
  cbn [mbind option_bind set_hzone hzone kmalloc_caches ram]. rewrite put_page_twice. change (set_inuse _ (set_freelist q pg)) with pg'.
  rewrite (fchain_null h i (SlabInfo c (a :: rest)) q rest) by (done || apply Hw || (intros; by constructor)).
  destruct (hw_partial _ _ _ _ _ _ Hw c Hc) as (l & Hl & Hm).
  case_bool_decide as Hr.
  - subst rest. destruct (list_elem_of_split l (Lru i)) as (l1 & l2 & ->); [apply Hm; by exists i, (SlabInfo c [a])|].
    destruct (partial_del _ F L c l1 i l2 HF1 Hl) as (s & E & Hzf & _). fold z. rewrite E. cbn [mbind option_bind].
    eexists _, _. split; [done|]. split; [done|]. split; [done|]. apply (Hput s _ Hzf).
    + intros c' Hne. rewrite lookup_insert_ne by congruence. done.
    + apply partial_leave; [by exists (l1 ++ Lru i :: l2)|done| |done]. destruct HF1 as (B & Hz1 & _).
      by pose proof (ls_rep_NoDup _ _ _ _ (zi_rep _ _ _ Hz1) Hl) as [_ Hnd]%NoDup_cons.
  - cbn [mbind option_bind]. eexists _, L. split; [done|]. split; [done|]. split; [done|].
    apply (Hput (lists z) L); [done|done|]. by apply (partial_keep L sl i (SlabInfo c (a :: rest))); [exists l|..].
Qed.

(** The whole page as free objects of class [c]. *)
Definition fresh_slab (b i c : Z) : slab_info := SlabInfo c (objects (va b i) (csz c) 0 (Z.to_nat (cnum c))).

Lemma fresh_objects b i c a : 0 <= c < KMALLOC_CACHES -> a ∈ si_free (fresh_slab b i c) <-> object_of b i c a.
Proof.
  intros Hc. pose proof (class_facts c Hc). cbn. rewrite elem_of_objects. unfold object_of.
  split; intros (k & ? & ->); exists k; (split; [lia|done]).
Qed.

Lemma blk_0 x y : x ∈ blk y 0 <-> x = y.
Proof. rewrite elem_of_blk. unfold inblk. lia. Qed.

(** Frame facts carried over a descriptor write. *)
Lemma frame_put_page z z' (T : Z -> Prop) i pg j pgj :
  frame z z' T -> i <> j -> mem_map z !! j = Some pgj ->
  exists pg', mem_map (put_page i pg z') !! j = Some pg' /\ same_slab pgj pg' /\ (~ T (mem_map_base_pfn z + j) -> pg' = pgj).
Proof.
  intros Hfr Hne Hj. destruct (fr_page _ _ _ Hfr j pgj Hj) as (pg' & ? & ? & ?). exists pg'.
  rewrite put_page_lookup, decide_False by done. done.
Qed.

Lemma new_slab_spec F0 h F L sl lg c :
  heap_wk F0 h F L sl lg -> 0 <= c < KMALLOC_CACHES ->
  (new_slab c h = Some (None, h) /\ F = ∅) \/
  exists i z' m' L', new_slab c h = Some (Some i, Heap z' (kmalloc_caches h) m') /\
    mem_map_base_pfn z' = hbase h /\ max_mapnr z' = hlen h /\ 0 <= i < hlen h /\ hbase h + i ∈ F /\ sl !! i = None /\
    (forall a n, a + n <= va (hbase h) i \/ va (hbase h) i + PAGE_SIZE <= a -> agree (ram h) m' a n) /\
    heap_wk F0 (Heap z' (kmalloc_caches h) m') (F ∖ {[hbase h + i]}) L' (<[i := fresh_slab (hbase h) i c]> sl) lg.
Proof.
  intros Hw Hc. pose proof Hw as [Hz Ha Hca Hpa Hpd Hm Hsl Hlg Hfl Hsp Hsu Hlu Hla]. unfold new_slab.
  destruct (alloc_pages_correct _ _ _ 0 Hz) as ([[i|] z1] & -> & Hpost); [done| |]; cbn [mbind option_bind].
  2:{ left. destruct Hpost as [-> Hno]. split; [by destruct h|]. apply set_eq. intros x. split; [|by intros ?%not_elem_of_empty].
      intros Hx. destruct (Hno x). split; [apply Z.divide_1_l|]. by intros y ->%blk_0. }
  right. destruct Hpost as ([_ _ Hlo Hhi] & [_ Hsub] & L1 & HF1 & Hs1 & Hfr). change (2 ^ 0) with 1 in Hhi.
  assert (HiF : hbase h + i ∈ F) by (apply Hsub; by apply blk_0). assert (Hi : 0 <= i < hlen h) by lia.
  assert (Hsli : sl !! i = None).
  { destruct (sl !! i) as [s|] eqn:E; [exfalso|done]. destruct (Hsu i) as [Hn _]; [by eexists|]. done. }
  assert (HB : F ∖ blk (hbase h + i) 0 = F ∖ {[hbase h + i]}).
  { apply set_eq. intros x. rewrite !elem_of_difference, blk_0, elem_of_singleton. done. }
  rewrite HB in HF1. pose proof (fr_base _ _ _ Hfr) as Eb. pose proof (fr_max _ _ _ Hfr) as El.
  assert (Hb0 : 0 <= hbase h) by (destruct Hz as (B & Hz0 & _); apply Hz0).
  destruct (zone_free_page _ _ _ i HF1) as [pg Hpg]; [lia|].
  pose (pg3 := add_flag PAGE_SLAB (set_inuse 0 (set_slab (Some c) pg))). pose (pg4 := set_freelist (va (hbase h) i) pg3).
  destruct (class_facts c Hc) as (Hsz & Hnum & Hprod & _). pose proof (va_range _ _ _ Ha Hi) as Hva.
  destruct (carve_page (ram h) (va (hbase h) i) (csz c) (Z.to_nat (cnum c))) as (last & m1 & m2 & Hloop & Hend & Hch & Hm2 & Hag);
    rewrite ?Z2Nat.id, ?Hprod in * by lia; [by apply Hm|done|lia|unfold PAGE_OFFSET in *; lia|lia|].
  rewrite Hca by done. cbn [mbind option_bind].
  rewrite (on_page_eq _ _ _ pg) by done. cbn [mbind option_bind].
  rewrite (on_page_eq _ _ _ (set_slab (Some c) pg)) by (by rewrite put_page_lookup, decide_True). cbn [mbind option_bind]. rewrite put_page_twice.
  rewrite (on_page_eq _ _ _ (set_inuse 0 (set_slab (Some c) pg))) by (by rewrite put_page_lookup, decide_True). cbn [mbind option_bind]. rewrite put_page_twice.
  fold pg3. rewrite page_address_eq by (cbn; rewrite ?Eb, ?El; done). cbn [mem_map_base_pfn put_page set_mem_map c_size].
  rewrite Eb, Hloop. cbn [mbind option_bind]. rewrite Hend. cbn [mbind option_bind].
  rewrite (on_page_eq _ _ _ pg3) by (by rewrite put_page_lookup, decide_True). cbn [mbind option_bind]. rewrite put_page_twice. fold pg4.
  destruct (Hpa c Hc) as (l & Hl & Hin).
  assert (HF4 : zone_free (put_page i pg4 z1) (F ∖ {[hbase h + i]}) L1).
  { eapply put_page_free; [done|done| |by left].
    exact (buddy_add_slab (set_inuse 0 (set_slab (Some c) pg))). }
  destruct (partial_add _ _ _ c l i HF4) as (s & -> & HF5 & _); [by rewrite Hs1|cbn; lia|cbn; rewrite Eb; set_solver| |].
  { rewrite (same_partials_on L) by done. intros Hon. destruct (partial_is_slab _ _ _ _ _ _ _ Hw Hon) as (? & ? & _). congruence. }
  cbn [mbind option_bind]. exists i, (set_lists s (put_page i pg4 z1)), m2, (<[Partial c := Lru i :: l]> L1).
  split; [done|]. split; [done|]. split; [done|]. split; [done|]. split; [done|]. split; [done|]. split; [done|].
  apply (slab_put F0 h F L sl lg i); try done.
  - by right.
  - intros Hx. by apply (Hlu _ Hx).
  - intros x. set_solver.
  - intros j pgj Hne Hj. apply (frame_put_page _ _ _ i pg4 _ _ Hfr Hne Hj).
  - intros a n Hmp x Hx. destruct (decide (va (hbase h) i <= x < va (hbase h) i + PAGE_SIZE)) as [Hin'|Hout]; [by apply Hm2|].
    rewrite (Hag x 1) by lia. by apply Hmp.
  - split; cbn [hzone ram fresh_slab si_cache si_free]; try done.
    + cbn. by rewrite El.
    + exists pg4. split_and!; try done.
      * cbn. by rewrite lookup_insert_eq.
      * exact (slab_add_slab (set_inuse 0 (set_slab (Some c) pg))).
      * rewrite length_objects, Z2Nat.id by lia. change (inuse pg4) with 0. lia.
    + apply NoDup_objects. lia.
    + intros a Hx. cbn [mem_map_base_pfn set_lists put_page set_mem_map]. rewrite Eb. by apply (fresh_objects _ _ c).
  - intros c' Hne. rewrite lookup_insert_ne by (cbn in Hne; congruence). apply Hs1.
  - apply partial_enter; [|by rewrite Hs1|done| |].
    + exists l. by rewrite Hs1.
    + cbn. intros E%(f_equal length). rewrite length_objects in E. cbn in E. lia.
    + intros s0 Hs0. congruence.
  - intros s0 Hs0. congruence.
Qed.

(** ** Live allocations *)

Lemma object_unique b i j c d a : 0 <= c < KMALLOC_CACHES -> 0 <= d < KMALLOC_CACHES ->
  object_of b i c a -> object_of b j d a -> i = j.
Proof.
  intros Hc Hd Hi Hj. pose proof (object_in_page _ _ _ _ Hc Hi). pose proof (object_in_page _ _ _ _ Hd Hj).
  pose proof (class_facts c Hc). pose proof (class_facts d Hd).
  destruct (va_page b i j (a - va b i) (a - va b j)); lia.
Qed.

Lemma live_pop b sl lg i c a rest q n :
  0 <= c < KMALLOC_CACHES -> sl !! i = Some (SlabInfo c (a :: rest)) -> NoDup (a :: rest) -> object_of b i c a ->
  live b (<[i := SlabInfo c rest]> sl) lg q n <-> live b sl lg q n \/ (q = a /\ n = csz c).
Proof.
  intros Hc Hi [Hna _]%NoDup_cons Ho. unfold live. split.
  - intros [(j & s & Hj & Hq & Hf & Hn)|?]; [|by left; right].
    apply lookup_insert_Some in Hj as [[<- <-]|[Hne Hj]]; cbn [si_cache si_free] in *; [|left; left; by exists j, s].
    destruct (decide (q = a)) as [->|Hqa]; [by right|]. left. left. exists i, (SlabInfo c (a :: rest)). cbn.
    split_and!; try done. by apply not_elem_of_cons.
  - intros [[(j & s & Hj & Hq & Hf & Hn)|?]|[-> ->]]; [|by right|].
    + left. destruct (decide (i = j)) as [<-|Hne]; [|exists j, s; by rewrite lookup_insert_ne]. rewrite Hi in Hj. injection Hj as <-.
      cbn [si_cache si_free] in *. exists i, (SlabInfo c rest). rewrite lookup_insert_eq. split_and!; try done.
      by apply not_elem_of_cons in Hf as [_ ?].
    + left. exists i, (SlabInfo c rest). rewrite lookup_insert_eq. done.
Qed.

Lemma live_fresh b sl lg i c q n : 0 <= c < KMALLOC_CACHES -> sl !! i = None ->
  live b (<[i := fresh_slab b i c]> sl) lg q n <-> live b sl lg q n.
Proof.
  intros Hc Hi. unfold live. split; (intros [(j & s & Hj & Hq & Hf & Hn)|?]; [left|by right]).
  - apply lookup_insert_Some in Hj as [[<- <-]|[Hne Hj]]; [|by exists j, s]. exfalso. apply Hf, fresh_objects; done.
  - exists j, s. rewrite lookup_insert_ne; [done|]. intros <-. congruence.
Qed.

(** Where a live allocation lies: whole bytes of frames that are in use. *)
Lemma live_frames F0 h F L sl lg p n x : heap_wk F0 h F L sl lg -> live (hbase h) sl lg p n -> p <= x < p + n ->
  exists i, 0 <= i < hlen h /\ va (hbase h) i <= x < va (hbase h) i + PAGE_SIZE /\
    ((exists s, sl !! i = Some s /\ object_of (hbase h) i (si_cache s) p /\ (p ∉ si_free s) /\ n = csz (si_cache s)) \/
     (exists j o, lg !! j = Some o /\ inblk (hbase h + j) o (hbase h + i) /\ p = va (hbase h) j)).
Proof.
  intros Hw [(i & s & Hi & Ho & Hf & ->)|(j & o & Hj & -> & ->)] Hx.
  - pose proof (hw_slab _ _ _ _ _ _ Hw _ _ Hi) as []. pose proof (object_in_page _ _ _ _ so_cache0 Ho).
    exists i. split; [done|]. split; [lia|]. left. by exists s.
  - destruct (hw_large _ _ _ _ _ _ Hw _ _ Hj) as [[Hor Hal Hlo Hhi] _]. pose proof (pow2_pos o ltac:(lia)).
    set (k := (x - va (hbase h) j) / PAGE_SIZE).
    assert (Hk : PAGE_SIZE * k <= x - va (hbase h) j < PAGE_SIZE * (k + 1)).
    { subst k. pose proof (Z.div_mod (x - va (hbase h) j) PAGE_SIZE ltac:(done)).
      pose proof (Z.mod_pos_bound (x - va (hbase h) j) PAGE_SIZE ltac:(done)). lia. }
    assert (0 <= k < 2 ^ o) by (change PAGE_SIZE with 4096 in *; nia).
    exists (j + k). split; [lia|]. split; [unfold va in *; lia|]. right. exists j, o. split; [done|]. split; [unfold inblk; lia|done].
Qed.

Lemma live_apart F0 h F L sl lg p n q k x :
  heap_wk F0 h F L sl lg -> live (hbase h) sl lg p n -> live (hbase h) sl lg q k ->
  p <= x < p + n -> q <= x < q + k -> p = q.
Proof.
  intros Hw Hp Hq Hxp Hxq.
  destruct (live_frames _ _ _ _ _ _ _ _ _ Hw Hp Hxp) as (i & Hi & Hvi & Hwi).
  destruct (live_frames _ _ _ _ _ _ _ _ _ Hw Hq Hxq) as (j & Hj & Hvj & Hwj).
  destruct (va_page (hbase h) i j (x - va (hbase h) i) (x - va (hbase h) j)) as [<- _]; [lia|lia|lia|].
  destruct Hwi as [(s & Hs & Ho & Hf & ->)|(a & o & Ha & Hoa & ->)], Hwj as [(s' & Hs' & Ho' & Hf' & ->)|(b & r & Hb & Hob & ->)].
  - simplify_eq. destruct (decide (p = q)) as [|Hne]; [done|].
    pose proof (hw_slab _ _ _ _ _ _ Hw _ _ Hs) as []. destruct (objects_apart _ _ _ _ _ so_cache0 Ho Ho' Hne); lia.
  - exfalso. destruct (hw_slab_used _ _ _ _ _ _ Hw i) as [_ Hn]; [by eexists|]. apply Hn. by exists b, r.
  - exfalso. destruct (hw_slab_used _ _ _ _ _ _ Hw i) as [_ Hn]; [by eexists|]. apply Hn. by exists a, o.
  - by rewrite (hw_large_apart _ _ _ _ _ _ Hw a o b r (hbase h + i)).
Qed.

Lemma live_mapped F0 h F L sl lg p n : heap_wk F0 h F L sl lg -> live (hbase h) sl lg p n -> mapped (ram h) p n.
Proof.
  intros Hw Hp x Hx. destruct (live_frames _ _ _ _ _ _ _ _ _ Hw Hp Hx) as (i & Hi & Hv & _).
  by apply (hw_mapped _ _ _ _ _ _ Hw i Hi).
Qed.

(** ** Allocation and release of objects *)

(** [a] became live with [cap] bytes and nothing else changed. *)
Record allocated (F0 : gset Z) h sl lg (a cap : Z) h' F' L' sl' lg' : Prop := {
  al_inv : heap_inv F0 h' F' L' sl' lg';
  al_base : hbase h' = hbase h;
  al_len : hlen h' = hlen h;
  al_ptr : 0 < a;
  al_live q n : live (hbase h) sl' lg' q n <-> live (hbase h) sl lg q n \/ (q = a /\ n = cap);
  al_new n : ~ live (hbase h) sl lg a n;
  al_keep q n : live (hbase h) sl lg q n -> agree (ram h) (ram h') q n;
}.

Lemma tight_insert sl i s : tight sl -> length (si_free s) < cnum (si_cache s) -> tight (<[i := s]> sl).
Proof. intros Ht Hs j s0 [[<- <-]|[_ Hj]]%lookup_insert_Some; [done|by apply (Ht j)]. Qed.

(** The object popped from a slab page was not live. *)
Lemma free_not_live F0 h F L sl lg i s a n : heap_wk F0 h F L sl lg -> sl !! i = Some s -> a ∈ si_free s ->
  ~ live (hbase h) sl lg a n.
Proof.
  intros Hw Hi Ha Hl. pose proof (hw_slab _ _ _ _ _ _ Hw _ _ Hi) as [Hp Hc _ _ Ho]. specialize (Ho a Ha).
  pose proof (object_in_page _ _ _ _ Hc Ho). pose proof (class_facts _ Hc).
  destruct Hl as [(j & s' & Hj & Ho' & Hf & _)|(j & o & Hj & -> & _)].
  - pose proof (hw_slab _ _ _ _ _ _ Hw _ _ Hj) as [_ Hc' _ _ _].
    assert (i = j) as <- by (by apply (object_unique (hbase h) i j (si_cache s) (si_cache s') a)). by simplify_eq.
  - apply (va_object _ _ _ _ Hc) in Ho as ->.
    destruct (hw_slab_used _ _ _ _ _ _ Hw i) as [_ Hn]; [by eexists|]. apply Hn. exists i, o. split; [done|]. apply inblk_start.
    destruct (hw_large _ _ _ _ _ _ Hw _ _ Hj) as [[] _]. lia.
Qed.

(** Live allocations do not lie in page [i]. *)
Lemma live_outside F0 h F L sl lg i m' q n :
  heap_wk F0 h F L sl lg -> sl !! i = None -> hbase h + i ∈ F ->
  (forall a n, a + n <= va (hbase h) i \/ va (hbase h) i + PAGE_SIZE <= a -> agree (ram h) m' a n) ->
  live (hbase h) sl lg q n -> agree (ram h) m' q n.
Proof.
  intros Hw Hi HF Hag Hq x Hx. destruct (live_frames _ _ _ _ _ _ _ _ _ Hw Hq Hx) as (j & Hj & Hv & Hwj).
  apply (Hag x 1); [|lia]. assert (i <> j); [|apply (other_page h i j); lia].
  intros <-. destruct Hwj as [(s & ? & _)|(k & o & Hk & Hin & _)]; [congruence|].
  apply (hw_large_used _ _ _ _ _ _ Hw (hbase h + i)); [by exists k, o|done].
Qed.

(** Taking an object from a slab that has one. *)
Lemma pop_allocated F0 h F L sl lg i c a rest :
  heap_wk F0 h F L sl lg -> sl !! i = Some (SlabInfo c (a :: rest)) -> tight (delete i sl) ->
  exists h' L', pop_object i h = Some (a, h') /\
    allocated F0 h sl lg a (csz c) h' F L' (<[i := SlabInfo c rest]> sl) lg.
Proof.
  intros Hw Hi Ht. pose proof (hw_slab _ _ _ _ _ _ Hw _ _ Hi) as Hok. pose proof (free_length _ _ _ Hok) as Hlen.
  pose proof Hok as [Hp Hc _ Hn Ho]. cbn [si_cache si_free length] in *.
  destruct (pop_object_spec _ _ _ _ _ _ _ _ _ _ Hw Hi) as (z' & L' & E & Eb & El & Hw').
  eexists _, L'. split; [exact E|]. specialize (Ho a ltac:(constructor)). split; cbn [hzone ram]; try done.
  - split; [done|]. rewrite <- insert_delete_eq. apply tight_insert; [done|]. cbn. lia.
  - pose proof (object_not_null h i c a (hw_addr _ _ _ _ _ _ Hw) Hp Hc Ho). lia.
  - intros q n. by apply live_pop.
  - intros n. apply (free_not_live _ _ _ _ _ _ i _ a n Hw Hi). constructor.
Qed.

Lemma tight_delete sl i : tight sl -> tight (delete i sl).
Proof. intros Ht j s [_ Hj]%lookup_delete_Some. by apply (Ht j). Qed.

Lemma slab_alloc_spec F0 h F L sl lg c :
  heap_inv F0 h F L sl lg -> 0 <= c < KMALLOC_CACHES ->
  (slab_alloc c h = Some (0, h) /\ F = ∅) \/
  exists a h' F' L' sl', slab_alloc c h = Some (a, h') /\ allocated F0 h sl lg a (csz c) h' F' L' sl' lg.
Proof.
  intros [Hw Ht] Hc. unfold slab_alloc. destruct (hw_partial _ _ _ _ _ _ Hw c Hc) as (l & Hl & Hm).
  pose proof (hw_zone _ _ _ _ _ _ Hw) as (B & Hz & _).
  rewrite (ls_empty_spec _ _ _ _ (zi_rep _ _ _ Hz) Hl). cbn [mbind option_bind]. case_bool_decide as He.
  - destruct (new_slab_spec _ _ _ _ _ _ c Hw Hc) as [[-> ->]|(i & z' & m' & L' & -> & Eb & El & Hi & HiF & Hsl & Hag & Hw')].
    + left. done.
    + right. cbn [mbind option_bind]. destruct (class_facts c Hc) as (? & ? & _). set (h1 := Heap z' (kmalloc_caches h) m') in *.
      destruct (si_free (fresh_slab (hbase h) i c)) as [|a rest] eqn:Ef.
      { apply (f_equal length) in Ef. cbn in Ef. rewrite length_objects in Ef. lia. }
      assert (Efs : fresh_slab (hbase h) i c = SlabInfo c (a :: rest)) by (rewrite <- Ef; done).
      destruct (pop_allocated F0 h1 _ _ _ lg i c a rest Hw') as (h' & L2 & E & [Hinv Hb Hln Hp Hlv Hnew Hkeep]).
      { by rewrite lookup_insert_eq, Efs. }
      { rewrite delete_insert_id by done. done. }
      change (hbase h1) with (mem_map_base_pfn z') in *. change (hlen h1) with (max_mapnr z') in *. rewrite Eb, El in *.
      assert (Hlf := fun q n => live_fresh (hbase h) sl lg i c q n Hc Hsl).
      eexists a, h', _, L2, _. split; [exact E|]. split; [exact Hinv|done|done|done| | |].
      * intros q n. rewrite Hlv, Hlf. done.
      * intros n. rewrite <- Hlf. apply Hnew.
      * intros q n Hq. apply (agree_trans _ m'); [by apply (live_outside F0 h F L sl lg i)|]. apply Hkeep. by apply Hlf.
  - right. destruct l as [|x l]; [done|]. rewrite (ls_first_spec _ _ _ _ _ (zi_rep _ _ _ Hz) Hl). cbn [mbind option_bind].
    destruct (proj1 (Hm x)) as (i & [c' [|a rest]] & -> & Hi & Hcc & Hne); [constructor|done|]. cbn in Hcc. subst c'.
    destruct (pop_allocated _ _ _ _ _ _ _ _ _ _ Hw Hi (tight_delete _ _ Ht)) as (h' & L' & E & Ha).
    by exists a, h', F, L', (<[i := SlabInfo c rest]> sl).
Qed.

(** [a] stopped being live and nothing else changed. *)
Record released (F0 : gset Z) h sl lg (a : Z) h' F' L' sl' lg' : Prop := {
  rl_inv : heap_inv F0 h' F' L' sl' lg';
  rl_base : hbase h' = hbase h;
  rl_len : hlen h' = hlen h;
  rl_live q n : live (hbase h) sl' lg' q n <-> live (hbase h) sl lg q n /\ q <> a;
  rl_keep q n : live (hbase h) sl' lg' q n -> agree (ram h) (ram h') q n;
}.

(** Slab page [i] goes back to the page allocator. *)
Lemma slab_drop F0 h F L sl lg i s z' m' F' L' :
  heap_wk F0 h F L sl lg -> sl !! i = Some s -> zone_free z' F' L' ->
  mem_map_base_pfn z' = hbase h -> max_mapnr z' = hlen h ->
  (forall x, x ∈ F' <-> x ∈ F \/ x = hbase h + i) ->
  (forall j pg, mem_map (hzone h) !! j = Some pg -> exists pg', mem_map z' !! j = Some pg' /\
     (i <> j -> same_slab pg pg' /\ (hbase h + j ∉ F -> pg' = pg)) /\ (i = j -> has_flag PAGE_SLAB pg' = false)) ->
  (forall a n, a + n <= va (hbase h) i \/ va (hbase h) i + PAGE_SIZE <= a -> agree (ram h) m' a n) ->
  (forall a n, mapped (ram h) a n -> mapped m' a n) ->
  (forall c, c <> si_cache s -> L' !! Partial c = L !! Partial c) -> partial_ok L' (delete i sl) (si_cache s) ->
  heap_wk F0 (Heap z' (kmalloc_caches h) m') F' L' (delete i sl) lg.
Proof.
  intros Hw Hi HF' Eb El HFx Hfr Hag Hmap Hpo Hp.
  pose proof Hw as [Hz Ha Hca Hpa Hpd Hm Hsl Hlg Hfl Hsp Hsu Hlu Hla].
  destruct (Hsu i) as [HnF Hnl]; [by eexists|].
  split; cbn [hzone kmalloc_caches ram]; rewrite ?Eb, ?El; try done.
  - intros c Hc. destruct (decide (c = si_cache s)) as [->|Hne]; [done|].
    destruct (Hpa c Hc) as (l & Hl & Hin). exists l. rewrite Hpo by done. split; [done|]. intros x. rewrite Hin.
    split; intros (j & s' & -> & Hj & Hcs & Hne'); exists j, s'; (split; [done|]); split; try done.
    + rewrite lookup_delete_ne; [done|]. intros <-. congruence.
    + by apply lookup_delete_Some in Hj as [_ ?].
  - intros c Hc. destruct (decide (c = si_cache s)) as [->|Hne]; [apply (Hsl _ _ Hi)|]. apply Hpd. by rewrite <- Hpo.
  - intros j Hj. by apply Hmap, Hm.
  - intros j s' [Hne Hj]%lookup_delete_Some. apply (slab_ok_frame h _ i); try done; [by apply Hsl|]. cbn [hzone]. intros pg Hpg.
    destruct (Hfr j pg Hpg) as (pg' & ? & Heq & _). destruct (Hsu j) as [Hn _]; [by eexists|]. destruct (Heq Hne) as [_ Heq']. by rewrite <- (Heq' Hn).
  - intros j o Hj. destruct (Hlg j o Hj) as (Hb & pg & Hpg & Ho). split; [done|].
    assert (Hin : in_large h lg (hbase h + j)) by (exists j, o; split; [done|]; apply inblk_start; destruct Hb; lia).
    assert (Hne : i <> j) by (intros ->; done). destruct (Hfr j pg Hpg) as (pg' & Hpg' & Heq & _).
    exists pg'. split; [done|]. destruct (Heq Hne) as [_ Heq']. by rewrite (Heq' (Hlu _ Hin)).
  - intros j pg Hpg Hj. destruct HF' as (B & Hz' & _). destruct (zone_free_page _ _ _ j Hz) as [pg0 Hpg0].
    { rewrite <- El. apply (zi_dom _ _ _ Hz' j). by eexists. }
    destruct (Hfr j pg0 Hpg0) as (pg' & Hpg' & Heq & Hoff). simplify_eq. destruct (decide (i = j)) as [Hij|Hne]; [by apply Hoff|].
    destruct (Heq Hne) as [(Hsf & _) _]. rewrite Hsf. apply (Hfl j); [done|]. by rewrite lookup_delete_ne in Hj.
  - intros x. rewrite Hsp, HFx. unfold in_large. cbn [hzone]. rewrite Eb. destruct (decide (x = hbase h + i)) as [->|Hne].
    + replace (hbase h + i - hbase h) with i by lia. rewrite Hi. split; [by left; right|]. by right; left.
    + rewrite lookup_delete_ne by lia. tauto.
  - intros j [s' [Hne Hj]%lookup_delete_Some]. rewrite HFx. unfold in_large in *. cbn [hzone]. rewrite Eb.
    destruct (Hsu j) as [? ?]; [by eexists|]. split; [|done]. intros [?|?]; [done|lia].
  - intros x Hx. rewrite HFx. unfold in_large in *. cbn [hzone] in Hx. rewrite Eb in Hx. intros [?| ->]; [by apply (Hlu x)|done].
Qed.

Lemma live_push b sl lg i s a q n :
  0 <= si_cache s < KMALLOC_CACHES -> (forall j t, sl !! j = Some t -> 0 <= si_cache t < KMALLOC_CACHES) ->
  sl !! i = Some s -> object_of b i (si_cache s) a -> (forall k, lg !! k <> None -> k <> i) ->
  live b (<[i := SlabInfo (si_cache s) (a :: si_free s)]> sl) lg q n <-> live b sl lg q n /\ q <> a.
Proof.
  intros Hc Hcs Hi Ho Hlg. unfold live. split.
  - intros [(j & t & Hj & Hq & Hf & Hn)|(j & o & Hj & -> & ->)].
    + apply lookup_insert_Some in Hj as [[<- <-]|[Hne Hj]]; cbn [si_cache si_free] in *.
      * apply not_elem_of_cons in Hf as [? ?]. split; [|done]. left. by exists i, s.
      * split; [left; by exists j, t|]. intros ->. apply Hne. by apply (object_unique b i j (si_cache s) (si_cache t) a Hc (Hcs _ _ Hj)).
    + split; [right; by exists j, o|]. intros <-. apply (va_object _ _ _ _ Hc) in Ho as ->. by apply (Hlg i); [rewrite Hj|].
  - intros [[(j & t & Hj & Hq & Hf & Hn)|?] Hqa]; [left|by right]. destruct (decide (i = j)) as [<-|Hne].
    + simplify_eq. exists i, (SlabInfo (si_cache s) (a :: si_free s)). rewrite lookup_insert_eq. split_and!; try done.
      by apply not_elem_of_cons.
    + exists j, t. by rewrite lookup_insert_ne.
Qed.

End heap_invariant.
