(* ===== verification/SlabFree.v ===== *)
(** * Releasing heap memory, and the whole of [kmalloc] and [kfree] *)

From S2P Require Import Prelude MemoryH ListH Mem StringC PageAlloc PageAllocProof Slab SlabProof.

Section release.
Context {S : Type} `{!ListStore node S, !ListStoreLaws node S}.
Implicit Types (h : heap S) (F : gset Z) (L : gmap node (list node)).
Implicit Types (sl : gmap Z slab_info) (lg : gmap Z Z).

Abbreviation hbase h := (mem_map_base_pfn (hzone h)).
Abbreviation hlen h := (max_mapnr (hzone h)).

(** The object at the head of the free list, before the slab is looked at
    as a whole. *)
Lemma free_prefix F0 h F L sl lg i s a :
  heap_wk F0 h F L sl lg -> sl !! i = Some s -> object_of (hbase h) i (si_cache s) a -> a ∉ si_free s ->
  exists pg m', mem_map (hzone h) !! i = Some pg /\ slab pg = Some (si_cache s) /\
    (freelist pg =? 0) = bool_decide (si_free s = []) /\
    set_freepointer a (freelist pg) (ram h) = Some m' /\ fchain m' a (a :: si_free s) /\
    (forall b n, b + n <= a \/ a + 8 <= b -> agree (ram h) m' b n) /\ (forall b n, mapped (ram h) b n -> mapped m' b n) /\
    (let pg' := set_inuse (u32 (inuse pg - 1)) (set_freelist a pg) in
     inuse pg' = cnum (si_cache s) - length (a :: si_free s) /\ 0 <= inuse pg' /\ has_flag PAGE_SLAB pg' = true /\
     zone_free (put_page i pg' (hzone h)) F L).
Proof.
  intros Hw Hi Ho Hna. pose proof (hw_slab _ _ _ _ _ _ Hw _ _ Hi) as Hok. pose proof Hok as [Hp Hc (pg & Hpg & Hf & Hs & Hu & Hch) Hn Hob].
  pose proof (hw_addr _ _ _ _ _ _ Hw) as Ha. pose proof (class_facts _ Hc). pose proof (object_in_page _ _ _ _ Hc Ho).
  assert (Hlen : length (a :: si_free s) <= cnum (si_cache s)).
  { apply (objects_length (hbase h) i); [done|by constructor|]. intros b [->|?]%elem_of_cons; [done|by apply Hob]. }
  assert (Hfl : is_u64 (freelist pg)).
  { destruct (si_free s) as [|b l]; cbn [fchain] in Hch; [by rewrite Hch|]. destruct Hch as [-> _].
    pose proof (object_not_null h i _ b Ha Hp Hc (Hob b ltac:(constructor))). unfold is_u64. lia. }
  destruct (set_freepointer_spec a (freelist pg) (ram h)) as (m' & E & Hl & Hag & Hmap); [|done|].
  { apply (mapped_sub _ (va (hbase h) i) PAGE_SIZE); [by apply (hw_mapped _ _ _ _ _ _ Hw)|lia|lia]. }
  exists pg, m'. split; [done|]. split; [done|]. split; [by apply (fchain_null h i s)|]. split; [done|]. split; [|split; [done|split; [done|]]].
  - cbn. split; [done|]. exists (freelist pg). split; [done|]. eapply fchain_agree; [|done].
    intros b Hb. apply Hag. assert (Hba : b <> a) by (intros ->; done).
    destruct (objects_apart _ _ _ _ _ Hc (Hob b Hb) Ho Hba); lia.
  - assert (Hiu : u32 (inuse pg - 1) = cnum (si_cache s) - length (a :: si_free s)).
    { cbn [length] in *. rewrite Hu, u32_id; [lia|]. unfold is_u32. lia. }
    cbn zeta. change (inuse (set_inuse _ _)) with (u32 (inuse pg - 1)). rewrite Hiu. split; [done|]. split; [lia|]. split; [done|].
    eapply put_page_free; [apply Hw|done|done|by left].
Qed.

Lemma on_zone_eq f h z' : f (hzone h) = Some z' -> on_zone f h = Some (set_hzone z' h).
Proof. intros H. unfold on_zone. by rewrite H. Qed.

Lemma on_zone_page h i f pg : mem_map (hzone h) !! i = Some pg ->
  on_zone (on_page i f) h = Some (Heap (put_page i (f pg) (hzone h)) (kmalloc_caches h) (ram h)).
Proof. intros H. unfold on_zone. by rewrite (on_page_eq _ _ _ pg). Qed.

(** The part of [slab_free] before the test of [inuse]. *)
Lemma slab_free_unfold h i a pg m' :
  mem_map (hzone h) !! i = Some pg -> set_freepointer a (freelist pg) (ram h) = Some m' ->
  let pg' := set_inuse (u32 (inuse pg - 1)) (set_freelist a pg) in
  let h1 := Heap (put_page i pg' (hzone h)) (kmalloc_caches h) m' in
  slab_free i a h =
    if inuse pg' =? 0 then
      let* h := if negb (freelist pg =? 0) then on_zone (on_lists (ls_del (Lru i))) h1 else Some h1 in
      let* h := on_zone (on_page i (clear_flag PAGE_SLAB)) h in
      on_zone (__free_pages i 0) h
    else if freelist pg =? 0 then
      let* c := slab pg in on_zone (on_lists (ls_add (Lru i) (Partial c))) h1
    else Some h1.
Proof.
  intros Hpg Hm. unfold slab_free. rewrite Hpg. cbn [mbind option_bind]. unfold on_ram. rewrite Hm. cbn [mbind option_bind].
  rewrite (on_zone_page _ i (set_freelist a) pg) by done. cbn [mbind option_bind].
  rewrite (on_zone_page _ i _ (set_freelist a pg)) by (cbn [hzone]; by rewrite put_page_lookup, decide_True).
  cbn [mbind option_bind hzone kmalloc_caches ram set_ram]. rewrite put_page_twice.
  rewrite put_page_lookup, decide_True by done. done.
Qed.

(** What is left of the live allocations, and that the free pointer was
    written inside the object that is gone. *)
Lemma live_after_free F0 h F L sl lg i s a m' :
  heap_wk F0 h F L sl lg -> sl !! i = Some s -> object_of (hbase h) i (si_cache s) a -> a ∉ si_free s ->
  (forall b n, b + n <= a \/ a + 8 <= b -> agree (ram h) m' b n) ->
  (forall q n, live (hbase h) (<[i := SlabInfo (si_cache s) (a :: si_free s)]> sl) lg q n <->
    live (hbase h) sl lg q n /\ q <> a) /\
  (forall q n, live (hbase h) sl lg q n /\ q <> a -> agree (ram h) m' q n).
Proof.
  intros Hw Hi Ho Hna Hag. pose proof (hw_slab _ _ _ _ _ _ Hw _ _ Hi) as [Hp Hc _ Hn Hob].
  destruct (hw_slab_used _ _ _ _ _ _ Hw i) as [HnF Hnl]; [by eexists|]. pose proof (class_facts _ Hc). split.
  - intros q n. apply live_push; try done.
    + intros j t Hj. by apply (hw_slab _ _ _ _ _ _ Hw j t).
    + intros k Hk ->. destruct (lg !! i) as [o|] eqn:E; [|done]. apply Hnl. exists i, o. split; [done|]. apply inblk_start.
      destruct (hw_large _ _ _ _ _ _ Hw _ _ E) as [[] _]. lia.
  - intros q n [Hq Hne] x Hx. apply (Hag x 1); [|lia].
    assert (~ (a <= x < a + csz (si_cache s))); [|lia]. intros Hx'. apply Hne.
    apply (live_apart F0 h F L sl lg q n a (csz (si_cache s)) x Hw Hq); [|done|done]. left. by exists i, s.
Qed.

(** The slab stays: the object joins its free list. *)
Lemma slab_free_keep F0 h F L sl lg i s a :
  heap_inv F0 h F L sl lg -> sl !! i = Some s -> object_of (hbase h) i (si_cache s) a -> a ∉ si_free s ->
  length (a :: si_free s) < cnum (si_cache s) ->
  exists h' L', slab_free i a h = Some h' /\
    released F0 h sl lg a h' F L' (<[i := SlabInfo (si_cache s) (a :: si_free s)]> sl) lg.
Proof.
  intros [Hw Ht] Hi Ho Hna Hlt. pose proof (hw_slab _ _ _ _ _ _ Hw _ _ Hi) as [Hp Hc _ Hn Hob].
  destruct (hw_slab_used _ _ _ _ _ _ Hw i) as [HnF Hnl]; [by eexists|]. pose proof (class_facts _ Hc). pose proof (object_in_page _ _ _ _ Hc Ho).
  destruct (free_prefix _ _ _ _ _ _ _ _ _ Hw Hi Ho Hna) as (pg & m' & Hpg & Hs & Hnull & Hset & Hch & Hag & Hmap & Hiu & Hiu0 & Hfl & HF1).
  set (pg' := set_inuse (u32 (inuse pg - 1)) (set_freelist a pg)) in *. set (s' := SlabInfo (si_cache s) (a :: si_free s)).
  destruct (live_after_free _ _ _ _ _ _ _ _ _ m' Hw Hi Ho Hna Hag) as [Hlive Hkeep].
  assert (Hput : forall ls L', zone_free (set_lists ls (put_page i pg' (hzone h))) F L' ->
    (forall c', c' <> si_cache s -> L' !! Partial c' = L !! Partial c') -> partial_ok L' (<[i := s']> sl) (si_cache s) ->
    released F0 h sl lg a (Heap (set_lists ls (put_page i pg' (hzone h))) (kmalloc_caches h) m') F L' (<[i := s']> sl) lg).
  { intros ls L' Hzf Hoth Hpart. split; try done.
    - split; [|by apply tight_insert]. apply (slab_put F0 h F L sl lg i); try done.
      + left. by eexists.
      + intros x. split; [|tauto]. intros Hx. split; [done|]. by intros ->.
      + intros j pgj Hne Hj. exists pgj. split; [|done]. cbn. by rewrite lookup_insert_ne.
      + intros b n Hb. apply Hag. lia.
      + split; cbn [si_cache si_free s']; try done.
        * exists pg'. split; [|done]. cbn. by rewrite lookup_insert_eq.
        * by constructor.
        * intros b [->|?]%elem_of_cons; [done|by apply Hob].
      + intros s0 Hs0. by simplify_eq.
    - intros q n Hq%Hlive. by apply Hkeep. }
  destruct (hw_partial _ _ _ _ _ _ Hw _ Hc) as (l & Hl & Hm).
  rewrite (slab_free_unfold h i a pg m' Hpg Hset). fold pg'. rewrite Hiu, (proj2 (Z.eqb_neq _ _)) by lia. rewrite Hnull, Hs. cbn [mbind option_bind].
  case_bool_decide as Hnil.
  - destruct (partial_add _ F L (si_cache s) l i HF1) as (ls & E & Hzf & _); [done|done|done| |].
    { intros Hon. destruct (partial_is_slab _ _ _ _ _ _ _ Hw Hon) as (? & ? & ?). by simplify_eq. }
    unfold on_zone. cbn [hzone]. rewrite E. cbn [mbind option_bind]. eexists _, _. split; [done|]. apply (Hput ls _ Hzf).
    + intros c' Hne. by rewrite lookup_insert_ne by congruence.
    + apply partial_enter; [by exists l|done|done|done|]. intros s0 Hs0. by simplify_eq.
  - eexists _, L. split; [done|]. apply (Hput (lists (hzone h)) L); [done|done|]. by apply (partial_keep L sl i s); [exists l|..].
Qed.

(** A free list as long as the slab holds every object. *)
Lemma all_objects b i c l a : 0 <= c < KMALLOC_CACHES -> NoDup l -> (forall x, x ∈ l -> object_of b i c x) ->
  cnum c <= length l -> object_of b i c a -> a ∈ l.
Proof.
  intros Hc Hn Ho Hlen Ha. destruct (class_facts _ Hc) as (? & ? & _).
  assert (Hsub : l ⊆+ si_free (fresh_slab b i c)).
  { apply NoDup_submseteq; [done|]. intros x Hx. by apply fresh_objects, Ho. }
  apply submseteq_length_Permutation in Hsub; [|cbn; rewrite length_objects; lia]. rewrite Hsub. by apply fresh_objects.
Qed.

Lemma live_emptied b sl lg i s q n : 0 <= si_cache s < KMALLOC_CACHES ->
  (forall a, object_of b i (si_cache s) a -> a ∈ si_free s) ->
  live b (delete i sl) lg q n <-> live b (<[i := s]> sl) lg q n.
Proof.
  intros Hc Hall. unfold live. split; (intros [(j & t & Hj & Hq & Hf & Hn)|?]; [left|by right]); exists j, t.
  - apply lookup_delete_Some in Hj as [Hne Hj]. by rewrite lookup_insert_ne.
  - apply lookup_insert_Some in Hj as [[<- <-]|[Hne Hj]]; [by apply Hall in Hq|]. by rewrite lookup_delete_ne.
Qed.

Lemma partial_delete L sl c i s : partial_ok L (<[i := s]> sl) c -> si_free s = [] -> partial_ok L (delete i sl) c.
Proof.
  intros (l & Hl & Hm) Hs. exists l. split; [done|]. intros x. rewrite Hm.
  split; intros (j & t & -> & Hj & ? & Hne); exists j, t; (split; [done|]); (split; [|done]).
  - apply lookup_insert_Some in Hj as [[<- <-]|[Hij Hj]]; [done|]. by rewrite lookup_delete_ne.
  - apply lookup_delete_Some in Hj as [Hij Hj]. by rewrite lookup_insert_ne.
Qed.

(** The last object in use is freed: the page goes back to the page
    allocator. *)
Lemma slab_free_last F0 h F L sl lg i s a :
  heap_inv F0 h F L sl lg -> sl !! i = Some s -> object_of (hbase h) i (si_cache s) a -> a ∉ si_free s ->
  cnum (si_cache s) <= length (a :: si_free s) ->
  exists h' L', slab_free i a h = Some h' /\ released F0 h sl lg a h' (F ∪ {[hbase h + i]}) L' (delete i sl) lg.
Proof.
  intros [Hw Ht] Hi Ho Hna Hge. pose proof (hw_slab _ _ _ _ _ _ Hw _ _ Hi) as [Hp Hc _ Hn Hob].
  destruct (hw_slab_used _ _ _ _ _ _ Hw i) as [HnF Hnl]; [by eexists|]. pose proof (class_facts _ Hc). pose proof (object_in_page _ _ _ _ Hc Ho).
  destruct (free_prefix _ _ _ _ _ _ _ _ _ Hw Hi Ho Hna) as (pg & m' & Hpg & Hs & Hnull & Hset & Hch & Hag & Hmap & Hiu & Hiu0 & Hfl & HF1).
  set (pg' := set_inuse (u32 (inuse pg - 1)) (set_freelist a pg)) in *.
  destruct (live_after_free _ _ _ _ _ _ _ _ _ m' Hw Hi Ho Hna Hag) as [Hlive Hkeep].
  assert (Hdel : forall q n, live (hbase h) (delete i sl) lg q n <-> live (hbase h) sl lg q n /\ q <> a).
  { intros q n. rewrite <- Hlive. apply live_emptied; [done|]. intros b Hb. apply (all_objects (hbase h) i (si_cache s)); try done.
    - by constructor.
    - intros x [->|?]%elem_of_cons; [done|by apply Hob]. }
  assert (Hnil : si_free s <> []) by (intros E; rewrite E in Hge; cbn in Hge; lia).
  rewrite (slab_free_unfold h i a pg m' Hpg Hset). fold pg'. rewrite (proj2 (Z.eqb_eq (inuse pg') 0)) by lia.
  rewrite Hnull, bool_decide_false by done. cbn [negb].
  destruct (hw_partial _ _ _ _ _ _ Hw _ Hc) as (l & Hl & Hm).
  destruct (list_elem_of_split l (Lru i)) as (l1 & l2 & ->); [apply Hm; by exists i, s|].
  destruct (partial_del _ F L _ l1 i l2 HF1 Hl) as (ls & E & HF2 & _).
  rewrite (on_zone_eq _ (Heap (put_page i pg' (hzone h)) (kmalloc_caches h) m') _ E). cbn [mbind option_bind].
  set (L2 := <[Partial (si_cache s) := l1 ++ l2]> L) in *.
  rewrite (on_zone_page _ i _ pg') by (cbn; by rewrite lookup_insert_eq). cbn [mbind option_bind set_hzone hzone kmalloc_caches ram].
  set (pg2 := clear_flag PAGE_SLAB pg'). set (z3 := put_page i pg2 _).
  assert (HF3 : zone_free z3 F L2).
  { eapply put_page_free; [done|by cbn; rewrite lookup_insert_eq|apply buddy_clear_slab|by left]. }
  assert (Hp2 : partial_ok L2 (delete i sl) (si_cache s)).
  { apply (partial_delete _ _ _ _ (SlabInfo (si_cache s) [])); [|done]. apply partial_leave; [by exists (l1 ++ Lru i :: l2)|done| |done].
    destruct HF1 as (B & Hz1 & _). by pose proof (ls_rep_NoDup _ _ _ _ (zi_rep _ _ _ Hz1) Hl) as [_ Hnd]%NoDup_cons. }
  assert (Hoff : ~ on_partial L2 i).
  { intros (c' & l' & Hl' & Hx). destruct (decide (c' = si_cache s)) as [->|Hne].
    - destruct Hp2 as (l0 & Hl0 & Hm0). simplify_eq. apply Hm0 in Hx as (j & t & [= <-] & Hj & _). by rewrite lookup_delete_eq in Hj.
    - unfold L2 in Hl'. rewrite lookup_insert_ne in Hl' by congruence.
      destruct (hw_partial _ _ _ _ _ _ Hw c') as (l0 & Hl0 & Hm0); [apply (hw_partials _ _ _ _ _ _ Hw); by eexists|].
      simplify_eq. apply Hm0 in Hx as (j & t & [= <-] & Hj & Hct & _). by simplify_eq. }
  destruct (free_pages_correct z3 F L2 i 0 HF3) as (z4 & L4 & E4 & HF4 & Hs4 & Hfr4).
  { change (mem_map_base_pfn z3) with (hbase h). change (max_mapnr z3) with (hlen h). split; [done|apply Z.divide_1_l|lia|lia]. }
  { by intros x ->%blk_0. }
  { intros x ->%blk_0. by replace (mem_map_base_pfn z3 + i - mem_map_base_pfn z3) with i by lia. }
  unfold on_zone. cbn [hzone set_hzone]. rewrite E4. cbn [mbind option_bind kmalloc_caches ram].
  change (mem_map_base_pfn z3) with (hbase h) in *.
  assert (EF : F ∪ blk (hbase h + i) 0 = F ∪ {[hbase h + i]}).
  { apply set_eq. intros x. rewrite !elem_of_union, blk_0, elem_of_singleton. done. }
  rewrite EF in *. eexists _, L4. split; [done|]. split; cbn [hzone ram].
  - split; [|by apply tight_delete]. apply (slab_drop F0 h F L sl lg i s); try done.
    + apply Hfr4.
    + apply Hfr4.
    + intros x. by rewrite elem_of_union, elem_of_singleton.
    + intros j pgj Hj. destruct (decide (i = j)) as [<-|Hne].
      * destruct (fr_page _ _ _ Hfr4 i pg2) as (pg4 & ? & (Hf4 & _) & _); [unfold z3; by rewrite put_page_lookup, decide_True|].
        exists pg4. split; [done|]. split; [done|]. intros _. rewrite Hf4. apply slab_clear_slab.
      * destruct (fr_page _ _ _ Hfr4 j pgj) as (pg4 & ? & ? & Heq); [unfold z3; rewrite put_page_lookup, decide_False by done; cbn; by rewrite lookup_insert_ne|].
        exists pg4. split; [done|]. split; [|done]. intros _. split; [done|]. intros Hn'. apply Heq. change (mem_map_base_pfn z3) with (hbase h). set_solver by lia.
    + intros b n Hb. apply Hag. lia.
    + intros c' Hne. rewrite Hs4. unfold L2. by rewrite lookup_insert_ne by congruence.
    + destruct Hp2 as (l0 & Hl0 & Hm0). exists l0. by rewrite Hs4.
  - apply Hfr4.
  - apply Hfr4.
  - done.
  - intros q n Hq%Hdel. by apply Hkeep.
Qed.

(** ** Large blocks *)

(** The set of large blocks changes together with the free frames. *)
Lemma large_change F0 h F L sl lg z' F' L' lg' :
  heap_wk F0 h F L sl lg -> zone_free z' F' L' ->
  mem_map_base_pfn z' = hbase h -> max_mapnr z' = hlen h -> same_partials L L' ->
  (forall j pg, mem_map (hzone h) !! j = Some pg -> exists pg', mem_map z' !! j = Some pg' /\ same_slab pg pg' /\
     (is_Some (sl !! j) -> pg' = pg)) ->
  (forall i o, lg' !! i = Some o -> block_ok (hbase h) (hlen h) (hbase h + i) o /\
     exists pg, mem_map z' !! i = Some pg /\ order pg = o) ->
  (forall x, x ∈ F' \/ in_large h lg' x <-> x ∈ F \/ in_large h lg x) -> (forall x, in_large h lg' x -> x ∉ F') ->
  (forall i o j r x, lg' !! i = Some o -> lg' !! j = Some r ->
     inblk (hbase h + i) o x -> inblk (hbase h + j) r x -> i = j) ->
  heap_wk F0 (set_hzone z' h) F' L' sl lg'.
Proof.
  intros Hw HF' Eb El Hsm Hfr Hlg' Hun Hex Hap. pose proof Hw as [Hz Ha Hca Hpa Hpd Hm Hsl Hlg Hfl Hsp Hsu Hlu Hla].
  assert (Hin : forall lg x, in_large (set_hzone z' h) lg x <-> in_large h lg x) by (intros; unfold in_large; cbn; by rewrite Eb).
  split; cbn [set_hzone hzone kmalloc_caches ram]; rewrite ?Eb, ?El; try done.
  - intros c Hc. destruct (Hpa c Hc) as (l & Hl & Hm'). exists l. by rewrite Hsm.
  - intros c Hc. apply Hpd. by rewrite <- Hsm.
  - intros i s Hi. destruct (Hsl i s Hi) as [Hp Hc (pg & Hpg & Hdesc) Hn Ho]. split; cbn [set_hzone hzone ram]; rewrite ?Eb, ?El; try done.
    destruct (Hfr i pg Hpg) as (pg' & Hpg' & _ & Heq). rewrite Heq in Hpg' by (by eexists). by exists pg.
  - intros j pg Hpg Hj. destruct HF' as (B & Hz' & _). destruct (zone_free_page _ _ _ j Hz) as [pg0 Hpg0].
    { rewrite <- El. apply (zi_dom _ _ _ Hz' j). by eexists. }
    destruct (Hfr j pg0 Hpg0) as (pg' & Hpg' & (Hsf & _) & _). simplify_eq. rewrite Hsf. by apply (Hfl j).
  - intros x. rewrite Hsp, Hin. specialize (Hun x). tauto.
  - intros i Hi. rewrite Hin. specialize (Hun (hbase h + i)). specialize (Hsu i Hi). tauto.
  - intros x Hx%Hin. by apply Hex.
Qed.

Lemma large_alloc F0 h F L sl lg o :
  heap_inv F0 h F L sl lg -> 0 <= o < MAX_ORDER ->
  exists r z1, alloc_pages o (hzone h) = Some (r, z1) /\
    match r with
    | None => z1 = hzone h /\ forall p, ~ free_run F p o
    | Some i => exists z2 F' L', on_page i (set_order o) z1 = Some z2 /\ page_address z2 i = va (hbase h) i /\
        allocated F0 h sl lg (va (hbase h) i) (PAGE_SIZE * 2 ^ o) (set_hzone z2 h) F' L' sl (<[i := o]> lg)
    end.
Proof.
  intros [Hw Ht] Ho. pose proof Hw as [Hz Ha Hca Hpa Hpd Hm Hsl Hlg Hfl Hsp Hsu Hlu Hla].
  destruct (alloc_pages_correct _ _ _ o Hz Ho) as ([[i|] z1] & E & Hpost); [|by exists None, z1].
  exists (Some i), z1. split; [done|]. destruct Hpost as (Hb & [_ Hsub] & L1 & HF1 & Hs1 & Hfr). set (p := hbase h + i) in *.
  pose proof (fr_base _ _ _ Hfr) as Eb. pose proof (fr_max _ _ _ Hfr) as El. pose proof (pow2_pos o ltac:(lia)).
  assert (HpF : forall x, inblk p o x -> x ∈ F) by (intros x Hx; by apply Hsub, elem_of_blk).
  assert (Hi : 0 <= i < hlen h) by (destruct Hb; subst p; lia).
  assert (Hlgi : lg !! i = None).
  { destruct (lg !! i) as [r|] eqn:Er; [exfalso|done]. apply (Hlu p); [|apply HpF, inblk_start; lia].
    exists i, r. split; [done|]. apply inblk_start. destruct (Hlg _ _ Er) as [[] _]. lia. }
  destruct (zone_free_page _ _ _ i HF1) as [pg Hpg]; [lia|]. rewrite (on_page_eq _ _ _ pg) by done. set (z2 := put_page i (set_order o pg) z1).
  assert (Hb0 : 0 <= hbase h) by (destruct Hz as (B & Hz0 & _); apply Hz0).
  assert (Hin : forall x, in_large h (<[i := o]> lg) x <-> inblk p o x \/ in_large h lg x).
  { intros x. split.
    - intros (j & r & [[<- <-]|[_ Hj]]%lookup_insert_Some & Hx); [by left|right; by exists j, r].
    - intros [Hx|(j & r & Hj & Hx)]; [exists i, o; by rewrite lookup_insert_eq|]. exists j, r. rewrite lookup_insert_ne; [done|]. congruence. }
  exists z2, (F ∖ blk p o), L1. split; [done|]. split; [by rewrite page_address_eq by (cbn; rewrite ?Eb, ?El; done); cbn; rewrite Eb|].
  split; try done.
  - split; [|done]. apply (large_change F0 h F L sl lg); try done.
    + eapply put_page_free; [done|done|done|]. right. rewrite Eb. fold p. rewrite elem_of_difference, elem_of_blk.
      intros [_ []]. apply inblk_start. lia.
    + intros j pgj Hj. destruct (fr_page _ _ _ Hfr j pgj Hj) as (pg' & Hpg' & Hss & Heq). unfold z2. rewrite put_page_lookup. case_decide as Hij.
      * subst j. simplify_eq. exists (set_order o pg). split; [done|]. split; [done|]. intros Hsli. destruct (Hsu i Hsli) as [[] _].
        apply HpF, inblk_start. lia.
      * exists pg'. split; [done|]. split; [done|]. intros Hslj. apply Heq. by destruct (Hsu j Hslj).
    + intros j r [[<- <-]|[Hne Hj]]%lookup_insert_Some.
      * split; [done|]. unfold z2. rewrite put_page_lookup, decide_True by done. by eexists.
      * destruct (Hlg j r Hj) as (Hbj & pgj & Hpgj & Hoj). split; [done|]. destruct (fr_page _ _ _ Hfr j pgj Hpgj) as (pg' & Hpg' & _ & Heq).
        unfold z2. rewrite put_page_lookup, decide_False by done. exists pg'. split; [done|]. rewrite Heq; [done|].
        apply Hlu. exists j, r. split; [done|]. apply inblk_start. destruct Hbj. lia.
    + intros x. rewrite Hin, elem_of_difference, elem_of_blk. specialize (HpF x). destruct (decide (p <= x < p + 2 ^ o)); unfold inblk in *; tauto.
    + intros x. rewrite Hin, elem_of_difference, elem_of_blk. intros [?|?]; [tauto|]. specialize (Hlu x). tauto.
    + intros j r k t x [[<- <-]|[Hj1 Hj]]%lookup_insert_Some [[<- <-]|[Hk1 Hk]]%lookup_insert_Some Hx1 Hx2; try done.
      * exfalso. apply (Hlu x); [by exists k, t|by apply HpF].
      * exfalso. apply (Hlu x); [by exists j, r|by apply HpF].
      * by eapply Hla.
  - pose proof (va_range _ _ _ Ha Hi). unfold PAGE_OFFSET in *. lia.
  - intros q n. unfold live. split.
    + intros [?|(j & r & [[<- <-]|[_ Hj]]%lookup_insert_Some & ? & ?)]; [by left; left|by right|left; right; by exists j, r].
    + intros [[?|(j & r & Hj & ? & ?)]|[-> ->]]; [by left|right; exists j, r; rewrite lookup_insert_ne by congruence; done|].
      right. exists i, o. by rewrite lookup_insert_eq.
  - intros n Hl. assert (0 < n).
    { destruct Hl as [(j & s & Hj & _ & _ & ->)|(j & r & Hj & _ & ->)].
      - destruct (Hsl j s Hj) as [_ Hc _ _ _]. pose proof (class_facts _ Hc). lia.
      - destruct (Hlg j r Hj) as [[] _]. pose proof (pow2_pos r ltac:(lia)). change PAGE_SIZE with 4096. lia. }
    destruct (live_frames _ _ _ _ _ _ _ _ (va (hbase h) i) Hw Hl) as (j & Hj & Hv & Hwj); [lia|].
    destruct (va_page (hbase h) i j 0 (va (hbase h) i - va (hbase h) j)) as [<- _]; [done|lia|lia|].
    assert (HpF' := HpF p (inblk_start p o ltac:(lia))).
    destruct Hwj as [(s & Hs & _)|(k & r & Hk & Hkr & _)].
    + destruct (Hsu i) as [[] _]; [by eexists|done].
    + apply (Hlu p); [by exists k, r|done].
Qed.

Lemma large_free F0 h F L sl lg i o :
  heap_inv F0 h F L sl lg -> lg !! i = Some o ->
  exists z' F' L', __free_pages i o (hzone h) = Some z' /\
    released F0 h sl lg (va (hbase h) i) (set_hzone z' h) F' L' sl (delete i lg).
Proof.
  intros [Hw Ht] Hi. pose proof Hw as [Hz Ha Hca Hpa Hpd Hm Hsl Hlg Hfl Hsp Hsu Hlu Hla].
  destruct (Hlg i o Hi) as (Hb & _). pose proof (bo_order _ _ _ _ Hb). set (p := hbase h + i) in *.
  assert (Hpl : forall x, inblk p o x -> in_large h lg x) by (intros x Hx; by exists i, o).
  destruct (free_pages_correct _ _ _ i o Hz Hb) as (z' & L' & E & HF' & Hs & Hfr).
  { intros x Hx%elem_of_blk. by apply Hlu, Hpl. }
  { intros x Hx%elem_of_blk Hon. destruct (partial_is_slab _ _ _ _ _ _ _ Hw Hon) as (s & Hs & _).
    destruct (Hsu (x - hbase h)) as [_ []]; [by eexists|]. replace (hbase h + (x - hbase h)) with x by lia. by apply Hpl. }
  fold p in HF', Hfr.
  assert (Hin : forall x, in_large h (delete i lg) x <-> in_large h lg x /\ ~ inblk p o x).
  { intros x. split.
    - intros (j & r & [Hne Hj]%lookup_delete_Some & Hx). split; [by exists j, r|]. intros Hx'. apply Hne. by eapply Hla.
    - intros [(j & r & Hj & Hx) Hn]. exists j, r. rewrite lookup_delete_ne; [done|]. intros <-. simplify_eq. done. }
  exists z', (F ∪ blk p o), L'. split; [done|]. split; try done.
  - split; [|done]. apply (large_change F0 h F L sl lg); try done.
    + apply Hfr.
    + apply Hfr.
    + intros j pg Hj. destruct (fr_page _ _ _ Hfr j pg Hj) as (pg' & ? & ? & Heq). exists pg'. split; [done|]. split; [done|].
      intros Hslj. apply Heq. destruct (Hsu j Hslj) as [? Hnl]. rewrite elem_of_union, elem_of_blk. intros [?|?]; [done|]. by apply Hnl, Hpl.
    + intros j r [Hne Hj]%lookup_delete_Some. destruct (Hlg j r Hj) as (Hbj & pg & Hpg & Hor). split; [done|].
      destruct (fr_page _ _ _ Hfr j pg Hpg) as (pg' & ? & ? & Heq). exists pg'. split; [done|]. rewrite Heq; [done|].
      pose proof (inblk_start (hbase h + j) r ltac:(destruct Hbj; lia)) as Hst. rewrite elem_of_union, elem_of_blk. intros [Hf|Hin'].
      * apply (Hlu (hbase h + j)); [by exists j, r|done].
      * apply Hne. by apply (Hla i o j r (hbase h + j)).
    + intros x. rewrite Hin, elem_of_union, elem_of_blk. specialize (Hpl x). destruct (decide (p <= x < p + 2 ^ o)); unfold inblk in *; tauto.
    + intros x [Hx Hn]%Hin. rewrite elem_of_union, elem_of_blk. specialize (Hlu x Hx). tauto.
    + intros j r k t x [_ Hj]%lookup_delete_Some [_ Hk]%lookup_delete_Some. by eapply Hla.
  - apply Hfr.
  - apply Hfr.
  - intros q n. unfold live. split.
    + intros [(j & s & Hj & Hq & Hf & Hn)|(j & r & [Hne Hj]%lookup_delete_Some & -> & ->)].
      * split; [left; by exists j, s|]. intros ->. destruct (Hsl j s Hj) as [_ Hc _ _ _]. apply (va_object _ _ _ _ Hc) in Hq as ->.
        destruct (Hsu j) as [_ []]; [by eexists|]. exists j, o. split; [done|]. apply inblk_start. lia.
      * split; [right; by exists j, r|]. intros Eq. apply Hne. unfold va in Eq. change PAGE_SIZE with 4096 in Eq. lia.
    + intros [[?|(j & r & Hj & -> & ->)] Hne]; [by left|]. right. exists j, r. rewrite lookup_delete_ne; [done|]. by intros <-.
Qed.

End release.
