(* ===== verification/SlabSpec.v ===== *)
(** * The promises of the kernel heap

    [kmalloc], [kzalloc] and [kfree] over the live allocations, and any
    sequence of requests and writes of a client against independent byte
    arrays. *)

From S2P Require Import Prelude MemoryH ListH Mem StringC PageAlloc PageAllocProof PageAllocSpec Slab SlabProof SlabFree.

Section calls.
Context {S : Type} `{!ListStore node S, !ListStoreLaws node S}.
Implicit Types (h : heap S) (F : gset Z) (L : gmap node (list node)).
Implicit Types (sl : gmap Z slab_info) (lg : gmap Z Z).

Abbreviation hbase h := (mem_map_base_pfn (hzone h)).
Abbreviation hlen h := (max_mapnr (hzone h)).

(** The order of the block that serves a large request of [size] bytes. *)
Definition block_order (size o : Z) : Prop :=
  0 <= o < MAX_ORDER /\ size <= PAGE_SIZE * 2 ^ o /\ (o = 0 \/ PAGE_SIZE * 2 ^ (o - 1) < size).

(** Why a request can be refused. *)
Definition out_of_memory F (size : Z) : Prop :=
  size = 0 \/ PAGE_SIZE * 2 ^ (MAX_ORDER - 1) < size \/ (size <= KMALLOC_MAX_SIZE /\ F = ∅) \/
  (KMALLOC_MAX_SIZE < size /\ exists o, block_order size o /\ forall p, ~ free_run F p o).

Lemma kmalloc_correct F0 h F L sl lg size :
  heap_inv F0 h F L sl lg -> 0 <= size ->
  exists p h', kmalloc size h = Some (p, h') /\
    ((p = 0 /\ h' = h /\ out_of_memory F size) \/
     exists cap F' L' sl' lg', size <= cap /\ (cap = KMALLOC_MIN_SIZE \/ cap < 2 * size) /\
       allocated F0 h sl lg p cap h' F' L' sl' lg').
Proof.
  intros Hi Hs. unfold kmalloc. destruct (Z.eqb_spec size 0) as [->|Hnz].
  { exists 0, h. split; [done|]. left. split; [done|]. split; [done|]. by left. }
  destruct (Z.ltb_spec KMALLOC_MAX_SIZE size) as [Hbig|Hsmall].
  - destruct (order_loop_correct size ltac:(lia)) as ([o|] & -> & Ho); cbn [mbind option_bind].
    2:{ exists 0, h. split; [done|]. left. split; [done|]. split; [done|]. by right; left. }
    destruct Ho as (Ho & Hle & Hmin). destruct (large_alloc F0 h F L sl lg o Hi Ho) as (r & z1 & -> & Hr). cbn [mbind option_bind].
    destruct r as [i|].
    + destruct Hr as (z2 & F' & L' & -> & Hpa & Hal). cbn [mbind option_bind]. rewrite Hpa. eexists _, _. split; [done|]. right.
      eexists _, F', L', sl, _. split; [exact Hle|]. split; [|exact Hal]. right. destruct Hmin as [->|Hmin].
      * change KMALLOC_MAX_SIZE with 2048 in Hbig. change (PAGE_SIZE * 2 ^ 0) with 4096. lia.
      * replace o with (o - 1 + 1) at 1 by lia. destruct (decide (o = 0)) as [->|]; [change (PAGE_SIZE * 2 ^ (0 - 1 + 1)) with 4096; change KMALLOC_MAX_SIZE with 2048 in Hbig; lia|].
        rewrite Z.pow_add_r by lia. lia.
    + destruct Hr as [-> Hno]. exists 0, h. split; [by destruct h|]. left. split; [done|]. split; [done|]. right; right; right.
      split; [done|]. by exists o.
  - destruct (kmalloc_index_correct size ltac:(lia)) as (c & -> & Hc & Hle & Hmin). cbn [mbind option_bind].
    destruct (slab_alloc_spec _ _ _ _ _ _ _ Hi Hc) as [[-> ->]|(a & h' & F' & L' & sl' & -> & Hal)].
    + exists 0, h. split; [done|]. left. split; [done|]. split; [done|]. by right; right; left.
    + exists a, h'. split; [done|]. right. exists (csz c), F', L', sl', lg. split; [done|]. split; [|done].
      destruct (decide (c = 0)) as [->|Hc0]; [by left|right]. destruct Hmin as [->|Hmin]; [done|].
      unfold csz in *. replace (4 + c) with (4 + (c - 1) + 1) by lia. rewrite Z.pow_add_r by (change KMALLOC_CACHES with 8 in *; lia). lia.
Qed.

Lemma kfree_correct F0 h F L sl lg p n :
  heap_inv F0 h F L sl lg -> live (hbase h) sl lg p n ->
  exists h' F' L' sl' lg', kfree p h = Some h' /\ released F0 h sl lg p h' F' L' sl' lg'.
Proof.
  intros Hi Hl. pose proof Hi as [Hw Ht]. pose proof (hw_addr _ _ _ _ _ _ Hw) as Ha. unfold kfree.
  destruct Hl as [(i & s & Hsl & Ho & Hf & ->)|(i & o & Hlg & -> & ->)].
  - pose proof (hw_slab _ _ _ _ _ _ Hw _ _ Hsl) as [Hp Hc (pg & Hpg & Hfl & _) _ _].
    pose proof (object_not_null h i _ p Ha Hp Hc Ho). pose proof (object_in_page _ _ _ _ Hc Ho). pose proof (class_facts _ Hc).
    rewrite (proj2 (Z.eqb_neq p 0)) by lia.
    assert (virt_to_page (hzone h) p = i) as ->.
    { replace p with (va (hbase h) i + (p - va (hbase h) i)) by lia. apply virt_to_page_eq; [done|done|lia]. }
    rewrite Hpg. cbn [mbind option_bind]. rewrite Hfl.
    destruct (Z.lt_ge_cases (length (p :: si_free s)) (cnum (si_cache s))) as [Hlt|Hge].
    + destruct (slab_free_keep _ _ _ _ _ _ _ _ _ Hi Hsl Ho Hf Hlt) as (h' & L' & E & Hr). eexists h', F, L', _, lg. split; [exact E|exact Hr].
    + destruct (slab_free_last _ _ _ _ _ _ _ _ _ Hi Hsl Ho Hf Hge) as (h' & L' & E & Hr). eexists h', _, L', _, lg. split; [exact E|exact Hr].
  - destruct (hw_large _ _ _ _ _ _ Hw _ _ Hlg) as (Hb & pg & Hpg & Hor). pose proof (pow2_pos o ltac:(destruct Hb; lia)).
    assert (Hii : 0 <= i < hlen h) by (destruct Hb; lia). pose proof (va_range _ _ _ Ha Hii).
    rewrite (proj2 (Z.eqb_neq _ 0)) by (unfold PAGE_OFFSET in *; lia).
    assert (virt_to_page (hzone h) (va (hbase h) i) = i) as ->.
    { replace (va (hbase h) i) with (va (hbase h) i + 0) by lia. by apply virt_to_page_eq. }
    rewrite Hpg. cbn [mbind option_bind]. rewrite (hw_flags _ _ _ _ _ _ Hw i pg Hpg).
    2:{ destruct (sl !! i) as [s|] eqn:E; [exfalso|done]. destruct (hw_slab_used _ _ _ _ _ _ Hw i) as [_ []]; [by eexists|].
        exists i, o. split; [done|]. apply inblk_start. destruct Hb; lia. }
    rewrite Hor. destruct (large_free _ _ _ _ _ _ _ _ Hi Hlg) as (z' & F' & L' & E & Hr).
    rewrite (on_zone_eq _ h z') by done. eexists _, F', L', sl, _. split; [done|exact Hr].
Qed.

(** ** Writes of the clients *)

(** A free object shares no byte with a live allocation. *)
Lemma free_apart F0 h F L sl lg i s a p n x :
  heap_wk F0 h F L sl lg -> sl !! i = Some s -> a ∈ si_free s -> a <= x < a + csz (si_cache s) ->
  live (hbase h) sl lg p n -> ~ p <= x < p + n.
Proof.
  intros Hw Hi Ha Hx Hl Hx'. pose proof (hw_slab _ _ _ _ _ _ Hw _ _ Hi) as [Hp Hc _ _ Ho]. specialize (Ho a Ha).
  pose proof (object_in_page _ _ _ _ Hc Ho). destruct (live_frames _ _ _ _ _ _ _ _ _ Hw Hl Hx') as (j & Hj & Hv & Hwj).
  destruct (va_page (hbase h) i j (x - va (hbase h) i) (x - va (hbase h) j)) as [<- _]; [lia|lia|lia|].
  destruct Hwj as [(t & Hit & Hop & Hf & ->)|(k & o & Hk & Hin & _)].
  - simplify_eq. assert (Hap : a <> p) by (intros ->; done). destruct (objects_apart _ _ _ _ _ Hc Ho Hop Hap); lia.
  - destruct (hw_slab_used _ _ _ _ _ _ Hw i) as [_ []]; [by eexists|]. by exists k, o.
Qed.

Lemma heap_write F0 h F L sl lg m' :
  heap_inv F0 h F L sl lg -> (forall a n, mapped (ram h) a n -> mapped m' a n) ->
  (forall x, (forall p n, live (hbase h) sl lg p n -> ~ p <= x < p + n) -> m' !! x = ram h !! x) ->
  heap_inv F0 (set_ram m' h) F L sl lg.
Proof.
  intros [Hw Ht] Hmap Hout. split; [|done]. pose proof Hw as [Hz Ha Hca Hpa Hpd Hm Hsl Hlg Hfl Hsp Hsu Hlu Hla].
  split; cbn [set_ram hzone kmalloc_caches ram]; try done.
  - intros i Hi. by apply Hmap, Hm.
  - intros i s Hi. pose proof (Hsl i s Hi) as [Hp Hc (pg & Hpg & Hf & Hs & Hu & Hch) Hn Ho]. split; try done.
    exists pg. split_and!; try done. eapply fchain_agree; [|exact Hch]. intros a Hx x Hax. apply Hout. intros p n Hl.
    pose proof (class_facts _ Hc). apply (free_apart F0 h F L sl lg i s a p n x Hw Hi Hx); [lia|done].
Qed.

(** No allocation is live: every frame is back. *)
Lemma heap_drained F0 h F L sl lg :
  heap_inv F0 h F L sl lg -> (forall p n, ~ live (hbase h) sl lg p n) -> F = F0.
Proof.
  intros [Hw Ht] Hno. pose proof Hw as [Hz Ha Hca Hpa Hpd Hm Hsl Hlg Hfl Hsp Hsu Hlu Hla].
  assert (Hs : forall i, sl !! i = None).
  { intros i. destruct (sl !! i) as [s|] eqn:E; [exfalso|done]. pose proof (Ht i s E) as Hlt. destruct (Hsl i s E) as [Hp Hc _ Hn Ho].
    assert (Hall : forall a, object_of (hbase h) i (si_cache s) a -> a ∈ si_free s).
    { intros a Hoa. destruct (decide (a ∈ si_free s)) as [|Hna]; [done|]. exfalso. apply (Hno a (csz (si_cache s))). left. by exists i, s. }
    assert (Hsub : si_free (fresh_slab (hbase h) i (si_cache s)) ⊆+ si_free s).
    { pose proof (class_facts _ Hc). apply NoDup_submseteq; [apply NoDup_objects; lia|]. intros a Hx%fresh_objects; [by apply Hall|done]. }
    apply submseteq_length in Hsub. cbn in Hsub. rewrite length_objects in Hsub. lia. }
  apply set_eq. intros x. rewrite Hsp, Hs. split; [by left|]. intros [?|[[? ?]|(i & o & Hi & _)]]; [done|done|].
  exfalso. apply (Hno (va (hbase h) i) (PAGE_SIZE * 2 ^ o)). right. by exists i, o.
Qed.

End calls.

(** ** Initialization *)

Section init.
Context {S : Type} `{!ListStore node S, !ListStoreLaws node S}.
Implicit Types (h : heap S) (F : gset Z) (L : gmap node (list node)).

(** Caches [0 .. k) are set up. *)
Record caching h0 F (k : Z) h L : Prop := {
  ca_zone : zone_free (hzone h) F L;
  ca_same : mem_map (hzone h) = mem_map (hzone h0) /\ mem_map_base_pfn (hzone h) = mem_map_base_pfn (hzone h0) /\
    max_mapnr (hzone h) = max_mapnr (hzone h0);
  ca_ram : ram h = ram h0;
  ca_valid x : ls_valid (lists (hzone h)) x <-> ls_valid (lists (hzone h0)) x;
  ca_done c : 0 <= c < k -> kmalloc_caches h !! c = Some (KmemCache (csz c) (cnum c));
  ca_lists c : L !! Partial c = if decide (0 <= c < k) then Some [] else None;
}.

Lemma partial_not_in z F L c : zone_free z F L -> L !! Partial c = None -> ~ in_lists L (Partial c).
Proof.
  intros (B & Hz & _) Hn (hd & l & Hl & [E|Hx]%elem_of_cons); [subst; congruence|].
  destruct (zi_heads _ _ _ Hz hd) as [(o & -> & Ho)|(c' & -> & Hc)]; [by eexists| |].
  - destruct (zi_area _ _ _ Hz o Ho) as (l' & Hl' & _ & Hm). simplify_eq. by apply Hm in Hx as (? & ? & _).
  - by destruct (Hc l _ Hl Hx).
Qed.

Lemma class_size c : 0 <= c < KMALLOC_CACHES ->
  u64 (Z.shiftl KMALLOC_MIN_SIZE c) = csz c /\ u32 (PAGE_SIZE / csz c) = cnum c.
Proof.
  intros Hc. change KMALLOC_CACHES with 8 in Hc. unfold csz, cnum.
  assert (c = 0 \/ c = 1 \/ c = 2 \/ c = 3 \/ c = 4 \/ c = 5 \/ c = 6 \/ c = 7)
    as [->|[->|[->|[->|[->|[->|[->| ->]]]]]]] by lia; done.
Qed.

Lemma init_cache_spec h0 F k h L :
  caching h0 F k h L -> 0 <= k < KMALLOC_CACHES -> ls_valid (lists (hzone h0)) (Partial k) ->
  exists h' L', init_cache (Some h) k = Some h' /\ caching h0 F (k + 1) h' L'.
Proof.
  intros [Hz Hsm Hr Hv Hd Hl] Hk Hval. pose proof (Hl k) as Hlk. rewrite decide_False in Hlk by lia.
  pose proof Hz as (B & Hzi & _). destruct (class_size k Hk) as [Es En].
  destruct (ls_init_spec _ _ (Partial k) (zi_rep _ _ _ Hzi)) as (s & E & Hrep & Hvs).
  { rewrite delete_id by done. by apply (partial_not_in (hzone h) F). }
  { by apply Hv. }
  { intros l Hll. congruence. }
  unfold init_cache. cbn [mbind option_bind]. rewrite Es, En. unfold on_zone, on_lists. cbn [hzone]. rewrite E. cbn [mbind option_bind].
  eexists _, (<[Partial k := []]> L). split; [done|]. split; cbn [hzone ram kmalloc_caches set_hzone]; try done.
  - apply partial_insert; [done|done|done|]. by intros x ?%not_elem_of_nil.
  - intros x. rewrite <- Hv. apply Hvs.
  - intros c Hc. destruct (decide (c = k)) as [->|Hne]; [by rewrite lookup_insert_eq|]. rewrite lookup_insert_ne by done. apply Hd. lia.
  - intros c. destruct (decide (c = k)) as [->|Hne]; [rewrite lookup_insert_eq, decide_True by lia; done|].
    rewrite lookup_insert_ne by congruence. rewrite Hl. repeat case_decide; (done || lia).
Qed.

Lemma init_caches h0 F (n : nat) : forall k h L,
  caching h0 F k h L -> 0 <= k -> k + n <= KMALLOC_CACHES -> (forall c, 0 <= c < KMALLOC_CACHES -> ls_valid (lists (hzone h0)) (Partial c)) ->
  exists h' L', foldl init_cache (Some h) (seqZ k n) = Some h' /\ caching h0 F (k + n) h' L'.
Proof.
  induction n as [|n IH]; intros k h L Hc Hk Hn Hv.
  - exists h, L. split; [done|]. by replace (k + 0%nat) with k by lia.
  - rewrite seqZ_cons by lia. cbn [foldl]. destruct (init_cache_spec _ _ _ _ _ Hc) as (h1 & L1 & -> & Hc1); [lia|apply Hv; lia|].
    replace (Z.pred (Datatypes.S n)) with (Z.of_nat n) by lia. rewrite <- Z.add_1_r.
    destruct (IH (k + 1) h1 L1 Hc1) as (h2 & L2 & E & Hc2); [lia|lia|done|]. exists h2, L2. split; [done|].
    by replace (k + Datatypes.S n) with (k + 1 + n) by lia.
Qed.

Lemma kmem_cache_init_correct h F L :
  zone_free (hzone h) F L -> (forall c, L !! Partial c = None) ->
  (forall c, 0 <= c < KMALLOC_CACHES -> ls_valid (lists (hzone h)) (Partial c)) ->
  addr_ok (mem_map_base_pfn (hzone h)) (max_mapnr (hzone h)) ->
  (forall i pg, mem_map (hzone h) !! i = Some pg -> has_flag PAGE_SLAB pg = false) ->
  (forall i, 0 <= i < max_mapnr (hzone h) -> mapped (ram h) (va (mem_map_base_pfn (hzone h)) i) PAGE_SIZE) ->
  exists h' L', kmem_cache_init h = Some h' /\ heap_inv F h' F L' ∅ ∅ /\ ram h' = ram h /\
    mem_map_base_pfn (hzone h') = mem_map_base_pfn (hzone h) /\ max_mapnr (hzone h') = max_mapnr (hzone h).
Proof.
  intros Hz Hl Hv Ha Hf Hm. unfold kmem_cache_init.
  destruct (init_caches h F 8 0 h L) as (h' & L' & E & [Hz' (Em & Eb & El) Er Hv' Hd Hl']); [|done|done|done|].
  { split; try done; [lia|]. intros c. rewrite decide_False by lia. apply Hl. }
  change (0 + 8%nat) with KMALLOC_CACHES in *. exists h', L'. split; [exact E|]. split; [|done]. split; [|by intros i s ?].
  assert (Hnl : forall x, ~ in_large h' ∅ x) by (by intros x (i & o & ? & _)).
  split; rewrite ?Eb, ?El, ?Em, ?Er; try done.
  - intros c Hc. exists []. rewrite Hl', decide_True by done. split; [done|]. intros x. split; [by intros ?%not_elem_of_nil|].
    by intros (i & s & _ & ? & _).
  - intros c [l Hc]. rewrite Hl' in Hc. by case_decide.
  - intros i pg Hpg _. by apply (Hf i).
  - intros x. split; [by left|]. intros [?|[[s ?]|Hx]]; [done|done|]. by apply Hnl in Hx.
  - by intros i [s ?].
  - intros x Hx. by apply Hnl in Hx.
Qed.

End init.

(** ** Clients

    A client allocates, writes single bytes of what it holds and frees what
    it holds.  [A] is the abstract heap: the byte array at each address the
    client holds. *)
Inductive hrequest := KMalloc (size : Z) | KZalloc (size : Z) | KWrite (p k v : Z) | KFree (p : Z).

Definition hrequest_ok (r : hrequest) : Prop :=
  match r with KMalloc size | KZalloc size => is_u64 size | _ => True end.

Section clients.
Context {S : Type} `{!ListStore node S}.

Definition hserve (s : heap S * gmap Z (list Z)) (r : hrequest) : option (heap S * gmap Z (list Z)) :=
  let '(h, A) := s in
  match r with
  | KMalloc size =>
      let* '(p, h) := kmalloc size h in
      if p =? 0 then Some (h, A)
      else let* bs := load (ram h) p (Z.to_nat size) in Some (h, <[p := bs]> A)
  | KZalloc size =>
      let* '(p, h) := kzalloc size h in
      if p =? 0 then Some (h, A) else Some (h, <[p := replicate (Z.to_nat size) 0]> A)
  | KWrite p k v =>
      match A !! p with
      | Some bs =>
          if (0 <=? k) && (k <? length bs) then
            let* m := store8 (p + k) v (ram h) in
            Some (set_ram m h, <[p := <[Z.to_nat k := u8 v]> bs]> A)
          else Some (h, A)
      | None => Some (h, A)
      end
  | KFree p =>
      match A !! p with
      | Some _ => let* h := kfree p h in Some (h, delete p A)
      | None => Some (h, A)
      end
  end.

Definition hserve_all (s : heap S * gmap Z (list Z)) (rs : list hrequest) : option (heap S * gmap Z (list Z)) :=
  foldl (fun s r => let* s := s in hserve s r) (Some s) rs.

End clients.

Section refinement.
Context {S : Type} `{!ListStore node S, !ListStoreLaws node S}.
Implicit Types (h : heap S) (A : gmap Z (list Z)) (F : gset Z) (L : gmap node (list node)).
Implicit Types (sl : gmap Z slab_info) (lg : gmap Z Z).

Abbreviation hbase h := (mem_map_base_pfn (hzone h)).

(** The heap holds the byte arrays [A]. *)
Record heap_rel (F0 : gset Z) h A F L sl lg : Prop := {
  hr_inv : heap_inv F0 h F L sl lg;
  hr_bytes p bs : A !! p = Some bs -> bytes_at (ram h) p bs /\ exists n, live (hbase h) sl lg p n /\ length bs <= n;
  hr_all p n : live (hbase h) sl lg p n -> is_Some (A !! p);
}.

Lemma bytes_at_agree m m' a (bs : list Z) : agree m m' a (length bs) -> bytes_at m a bs -> bytes_at m' a bs.
Proof. intros H Hb i b Hi. rewrite H; [by apply Hb|]. apply lookup_lt_Some in Hi. lia. Qed.

(** A new array at [p] beside the old ones. *)
Lemma heap_rel_alloc F0 h A F L sl lg p cap h' F' L' sl' lg' (bs : list Z) :
  heap_rel F0 h A F L sl lg -> allocated F0 h sl lg p cap h' F' L' sl' lg' ->
  bytes_at (ram h') p bs -> length bs <= cap -> heap_rel F0 h' (<[p := bs]> A) F' L' sl' lg'.
Proof.
  intros [Hi Hb Ha] [Hi' Eb El Hp Hl Hn Hk] Hbs Hlen. split; rewrite ?Eb; [done| |].
  - intros q cs [[<- <-]|[Hne Hq]]%lookup_insert_Some.
    + split; [done|]. exists cap. split; [apply Hl; by right|done].
    + destruct (Hb q cs Hq) as (Hcs & n & Hln & Hle). split.
      * eapply bytes_at_agree; [|done]. eapply agree_sub; [by apply (Hk q n)|lia|lia].
      * exists n. split; [apply Hl; by left|done].
  - intros q n [Hq|[-> ->]]%Hl; [|by rewrite lookup_insert_eq]. destruct (decide (p = q)) as [->|Hne]; [by rewrite lookup_insert_eq|].
    rewrite lookup_insert_ne by done. by apply (Ha q n).
Qed.

(** Bytes of one array rewritten. *)
Lemma heap_rel_write F0 h A F L sl lg p n (bs' : list Z) (k : nat) cs :
  heap_rel F0 h A F L sl lg -> live (hbase h) sl lg p n -> (k + length cs <= n) ->
  bytes_at (write (p + k) cs (ram h)) p bs' -> length bs' <= n ->
  heap_rel F0 (set_ram (write (p + k) cs (ram h)) h) (<[p := bs']> A) F L sl lg.
Proof.
  intros [Hi Hb Ha] Hl Hk Hbs Hlen. pose proof Hi as [Hw _]. split.
  - apply heap_write; [done|by intros; apply mapped_write|]. intros x Hx. apply lookup_write_out. specialize (Hx p n Hl). lia.
  - intros q ds [[<- <-]|[Hne Hq]]%lookup_insert_Some; [split; [done|by exists n]|].
    destruct (Hb q ds Hq) as (Hds & nq & Hlq & Hle). split; [|by exists nq]. cbn [set_ram ram].
    apply bytes_at_write; [|done]. intros x Hx. destruct (decide (p + k <= x < p + k + length cs)) as [Hin|]; [exfalso|lia].
    apply Hne. apply (live_apart F0 h F L sl lg p n q nq x Hw Hl Hlq); lia.
  - intros q nq Hq. destruct (decide (p = q)) as [->|Hne]; [by rewrite lookup_insert_eq|]. rewrite lookup_insert_ne by done. by apply (Ha q nq).
Qed.

Lemma load_mapped m a n : mapped m a n -> 0 <= n -> exists bs, load m a (Z.to_nat n) = Some bs /\ bytes_at m a bs /\ Z.of_nat (length bs) = n.
Proof.
  intros Hm Hn. set (bs := (fun i => default 0 (m !! (a + Z.of_nat i))) <$> seq 0 (Z.to_nat n)).
  assert (Hb : bytes_at m a bs).
  { intros i b Hi. apply list_lookup_fmap_Some in Hi as (j & -> & Hj). apply lookup_seq in Hj as [-> Hlt]. cbn.
    destruct (Hm (a + Z.of_nat i)) as [v Hv]; [lia|]. by rewrite Hv. }
  assert (Hl : length bs = Z.to_nat n) by (unfold bs; rewrite length_fmap, length_seq; done).
  exists bs. split; [rewrite <- Hl; by apply load_bytes|]. split; [done|lia].
Qed.

Lemma allocated_live F0 h sl lg p cap h' F' L' sl' lg' :
  allocated F0 h sl lg p cap h' F' L' sl' lg' -> live (hbase h') sl' lg' p cap /\ mapped (ram h') p cap.
Proof.
  intros [Hi Eb _ _ Hl _ _]. assert (Hlp : live (hbase h') sl' lg' p cap) by (rewrite Eb; apply Hl; by right).
  split; [done|]. eapply live_mapped; [apply Hi|done].
Qed.

Lemma serve_kmalloc F0 h A F L sl lg size :
  heap_rel F0 h A F L sl lg -> is_u64 size ->
  exists h' A' F' L' sl' lg', hserve (h, A) (KMalloc size) = Some (h', A') /\ heap_rel F0 h' A' F' L' sl' lg'.
Proof.
  intros Hr Hs. unfold hserve. destruct (kmalloc_correct _ _ _ _ _ _ size (hr_inv _ _ _ _ _ _ _ Hr) ltac:(unfold is_u64 in *; lia))
    as (p & h' & -> & [(-> & -> & _)|(cap & F' & L' & sl' & lg' & Hle & _ & Hal)]); cbn [mbind option_bind].
  - by exists h, A, F, L, sl, lg.
  - pose proof (al_ptr _ _ _ _ _ _ _ _ _ _ _ Hal). rewrite (proj2 (Z.eqb_neq p 0)) by lia.
    destruct (allocated_live _ _ _ _ _ _ _ _ _ _ _ Hal) as [_ Hm].
    destruct (load_mapped (ram h') p size) as (bs & -> & Hb & Hlen); [by eapply mapped_sub; [done|lia|lia]|unfold is_u64 in *; lia|].
    cbn [mbind option_bind]. eexists h', _, F', L', sl', lg'. split; [done|]. eapply heap_rel_alloc; [done|done|done|lia].
Qed.

Lemma kzalloc_correct F0 h F L sl lg size :
  heap_inv F0 h F L sl lg -> is_u64 size ->
  exists p h', kzalloc size h = Some (p, h') /\
    ((p = 0 /\ h' = h /\ out_of_memory F size) \/
     exists cap F' L' sl' lg', size <= cap /\ allocated F0 h sl lg p cap h' F' L' sl' lg' /\
       bytes_at (ram h') p (replicate (Z.to_nat size) 0)).
Proof.
  intros Hi Hs. unfold kzalloc. destruct (kmalloc_correct _ _ _ _ _ _ size Hi ltac:(unfold is_u64 in *; lia))
    as (p & h1 & -> & [(-> & -> & Hno)|(cap & F' & L' & sl' & lg' & Hle & _ & Hal)]); cbn [mbind option_bind].
  - exists 0, h. split; [done|]. by left.
  - pose proof (al_ptr _ _ _ _ _ _ _ _ _ _ _ Hal). rewrite (proj2 (Z.eqb_neq p 0)) by lia.
    destruct (allocated_live _ _ _ _ _ _ _ _ _ _ _ Hal) as [Hlp Hm].
    assert (Hm' : mapped (ram h1) p size) by (eapply mapped_sub; [done|lia|lia]).
    rewrite memset_correct by done. cbn [mbind option_bind]. change (u8 0) with 0.
    eexists p, _. split; [done|]. right. exists cap, F', L', sl', lg'. split; [done|]. split; [|apply bytes_at_written].
    set (zs := replicate (Z.to_nat size) 0). assert (Hzs : length zs <= cap) by (unfold zs; rewrite length_replicate; unfold is_u64 in *; lia).
    destruct Hal as [Hi' Eb El Hp Hl Hn Hk]. split; try done.
    + apply heap_write; [done|by intros; apply mapped_write|]. intros x Hx. apply lookup_write_out. specialize (Hx p cap Hlp). lia.
    + intros q n Hq. apply (agree_trans _ (ram h1)); [by apply Hk|]. cbn [set_ram ram]. intros x Hx. apply lookup_write_out.
      destruct (decide (p <= x < p + length zs)) as [Hin|]; [exfalso|lia].
      assert (Hqp : q = p); [|subst; by apply (Hn n)].
      eapply (live_apart F0 h1 F' L' sl' lg' q n p cap x (proj1 Hi')); [rewrite Eb; apply Hl; by left|done|done|lia].
Qed.

Lemma serve_kzalloc F0 h A F L sl lg size :
  heap_rel F0 h A F L sl lg -> is_u64 size ->
  exists h' A' F' L' sl' lg', hserve (h, A) (KZalloc size) = Some (h', A') /\ heap_rel F0 h' A' F' L' sl' lg'.
Proof.
  intros Hr Hs. unfold hserve. destruct (kzalloc_correct _ _ _ _ _ _ size (hr_inv _ _ _ _ _ _ _ Hr) Hs)
    as (p & h' & -> & [(-> & -> & _)|(cap & F' & L' & sl' & lg' & Hle & Hal & Hz)]); cbn [mbind option_bind].
  - by exists h, A, F, L, sl, lg.
  - pose proof (al_ptr _ _ _ _ _ _ _ _ _ _ _ Hal). rewrite (proj2 (Z.eqb_neq p 0)) by lia.
    eexists h', _, F', L', sl', lg'. split; [done|]. eapply heap_rel_alloc; [done|done|done|].
    rewrite length_replicate. unfold is_u64 in *. lia.
Qed.

Lemma serve_kwrite F0 h A F L sl lg p k v :
  heap_rel F0 h A F L sl lg ->
  exists h' A' F' L' sl' lg', hserve (h, A) (KWrite p k v) = Some (h', A') /\ heap_rel F0 h' A' F' L' sl' lg'.
Proof.
  intros Hr. unfold hserve. destruct (A !! p) as [bs|] eqn:Hp; [|by exists h, A, F, L, sl, lg].
  destruct (Z.leb_spec 0 k); destruct (Z.ltb_spec k (length bs)); cbn [andb]; try by exists h, A, F, L, sl, lg.
  destruct (hr_bytes _ _ _ _ _ _ _ Hr p bs Hp) as (Hb & n & Hl & Hle).
  destruct (live_mapped _ _ _ _ _ _ _ _ (proj1 (hr_inv _ _ _ _ _ _ _ Hr)) Hl (p + k)) as [w Hw]; [lia|].
  unfold store8. rewrite Hw. cbn [mbind option_bind]. eexists _, _, F, L, sl, lg. split; [done|].
  pose proof (heap_rel_write F0 h A F L sl lg p n (<[Z.to_nat k := u8 v]> bs) (Z.to_nat k) [u8 v] Hr Hl) as Hw'.
  replace (p + Z.to_nat k) with (p + k) in Hw' by lia. apply Hw'; [cbn; lia| |by rewrite length_insert].
  intros i b Hi. cbn [write]. apply list_lookup_insert_Some in Hi as [(<- & <- & _)|[Hne Hi]].
  - replace (p + Z.to_nat k) with (p + k) by lia. apply lookup_insert_eq.
  - rewrite lookup_insert_ne by lia. by apply Hb.
Qed.

Lemma serve_kfree F0 h A F L sl lg p :
  heap_rel F0 h A F L sl lg ->
  exists h' A' F' L' sl' lg', hserve (h, A) (KFree p) = Some (h', A') /\ heap_rel F0 h' A' F' L' sl' lg'.
Proof.
  intros [Hi Hb Ha]. unfold hserve. destruct (A !! p) as [bs|] eqn:Hp; [|by exists h, A, F, L, sl, lg].
  destruct (Hb p bs Hp) as (_ & n & Hl & _).
  destruct (kfree_correct _ _ _ _ _ _ _ _ Hi Hl) as (h' & F' & L' & sl' & lg' & -> & [Hi' Eb El Hlv Hk]). cbn [mbind option_bind].
  exists h', (delete p A), F', L', sl', lg'. split; [done|]. split; rewrite ?Eb; [done| |].
  - intros q cs [Hne Hq]%lookup_delete_Some. destruct (Hb q cs Hq) as (Hcs & m & Hlm & Hle).
    assert (Hq' : live (hbase h) sl' lg' q m) by (apply Hlv; done). split; [|by exists m].
    eapply bytes_at_agree; [|done]. eapply agree_sub; [by apply (Hk q m)|lia|lia].
  - intros q m [Hq Hne]%Hlv. rewrite lookup_delete_ne by done. by apply (Ha q m).
Qed.

Lemma hserve_all_correct F0 rs : forall h A F L sl lg,
  heap_rel F0 h A F L sl lg -> Forall hrequest_ok rs ->
  exists h' A' F' L' sl' lg', hserve_all (h, A) rs = Some (h', A') /\ heap_rel F0 h' A' F' L' sl' lg'.
Proof.
  unfold hserve_all. induction rs as [|r rs IH]; intros h A F L sl lg Hr Hok; cbn [foldl]; [by exists h, A, F, L, sl, lg|].
  apply Forall_cons in Hok as [Hr1 Hrs]. cbn [mbind option_bind].
  assert (exists h' A' F' L' sl' lg', hserve (h, A) r = Some (h', A') /\ heap_rel F0 h' A' F' L' sl' lg')
    as (h' & A' & F' & L' & sl' & lg' & -> & Hr').
  { destruct r; [by eapply serve_kmalloc|by eapply serve_kzalloc|by eapply serve_kwrite|by eapply serve_kfree]. }
  by eapply IH.
Qed.

End refinement.

(** ** The properties *)

Section properties.
Context {S : Type} `{!ListStore node S, !ListStoreLaws node S}.
Implicit Types (h : heap S) (F : gset Z) (L : gmap node (list node)).
Implicit Types (sl : gmap Z slab_info) (lg : gmap Z Z).

Abbreviation hbase h := (mem_map_base_pfn (hzone h)).

(** C17. [kmalloc] is total.  A NULL result leaves the heap unchanged and
    has one of the reasons of [out_of_memory]; otherwise the result is a new
    live allocation of at least [size] and less than twice [size] bytes (or
    the smallest class), overlapping no live allocation, and the contents of
    every live allocation are unchanged. *)
Theorem kmalloc_spec F0 h F L sl lg size :
  heap_inv F0 h F L sl lg -> 0 <= size ->
  exists p h', kmalloc size h = Some (p, h') /\
    ((p = 0 /\ h' = h /\ out_of_memory F size) \/
     exists cap F' L' sl' lg', 0 < p /\ size <= cap /\ (cap = KMALLOC_MIN_SIZE \/ cap < 2 * size) /\
       heap_inv F0 h' F' L' sl' lg' /\ mapped (ram h') p cap /\
       (forall q n, live (hbase h') sl' lg' q n <-> live (hbase h) sl lg q n \/ (q = p /\ n = cap)) /\
       (forall q n x, live (hbase h) sl lg q n -> q <= x < q + n -> ~ p <= x < p + cap /\ ram h' !! x = ram h !! x)).
Proof.
  intros Hi Hs. destruct (kmalloc_correct _ _ _ _ _ _ size Hi Hs) as (p & h' & E & [Hno|(cap & F' & L' & sl' & lg' & Hle & Hlt & Hal)]).
  - exists p, h'. split; [done|]. by left.
  - exists p, h'. split; [done|]. right. exists cap, F', L', sl', lg'. destruct (allocated_live _ _ _ _ _ _ _ _ _ _ _ Hal) as [Hlp Hm].
    destruct Hal as [Hi' Eb El Hp Hl Hn Hk]. split_and!; try done.
    + intros q n. by rewrite Eb, Hl.
    + intros q n x Hq Hx. split; [|by apply (Hk q n)]. intros Hx'. assert (q = p) as ->; [|by apply (Hn n)].
      eapply (live_apart F0 h' F' L' sl' lg' q n p cap x (proj1 Hi')); [rewrite Eb; apply Hl; by left|done|done|lia].
Qed.

(** [kzalloc] is [kmalloc] with the requested bytes all zero. *)
Theorem kzalloc_spec F0 h F L sl lg size :
  heap_inv F0 h F L sl lg -> is_u64 size ->
  exists p h', kzalloc size h = Some (p, h') /\
    ((p = 0 /\ h' = h /\ out_of_memory F size) \/
     exists cap F' L' sl' lg', 0 < p /\ size <= cap /\ heap_inv F0 h' F' L' sl' lg' /\
       (forall x, p <= x < p + size -> ram h' !! x = Some 0) /\
       (forall q n, live (hbase h') sl' lg' q n <-> live (hbase h) sl lg q n \/ (q = p /\ n = cap)) /\
       (forall q n x, live (hbase h) sl lg q n -> q <= x < q + n -> ram h' !! x = ram h !! x)).
Proof.
  intros Hi Hs. destruct (kzalloc_correct _ _ _ _ _ _ size Hi Hs) as (p & h' & E & [Hno|(cap & F' & L' & sl' & lg' & Hle & Hal & Hz)]).
  - exists p, h'. split; [done|]. by left.
  - exists p, h'. split; [done|]. right. exists cap, F', L', sl', lg'. destruct Hal as [Hi' Eb El Hp Hl Hn Hk]. split_and!; try done.
    + intros x Hx. replace x with (p + Z.to_nat (x - p)) by lia. apply Hz, lookup_replicate. split; [done|lia].
    + intros q n. by rewrite Eb, Hl.
    + intros q n x Hq Hx. by apply (Hk q n).
Qed.

(** C18. [kfree] of a live allocation succeeds, makes exactly that
    allocation not live, and leaves the contents of all others unchanged;
    [kfree(NULL)] does nothing. *)
Theorem kfree_spec F0 h F L sl lg p n :
  heap_inv F0 h F L sl lg -> live (hbase h) sl lg p n ->
  kfree 0 h = Some h /\
  exists h' F' L' sl' lg', kfree p h = Some h' /\ heap_inv F0 h' F' L' sl' lg' /\
    (forall q k, live (hbase h') sl' lg' q k <-> live (hbase h) sl lg q k /\ q <> p) /\
    (forall q k x, live (hbase h') sl' lg' q k -> q <= x < q + k -> ram h' !! x = ram h !! x).
Proof.
  intros Hi Hl. split; [done|]. destruct (kfree_correct _ _ _ _ _ _ _ _ Hi Hl) as (h' & F' & L' & sl' & lg' & E & [Hi' Eb El Hlv Hk]).
  exists h', F', L', sl', lg'. split; [done|]. split; [done|]. rewrite Eb. split; [done|]. intros q k x Hq Hx. by apply (Hk q k).
Qed.

(** C1. The heap refines a map from addresses to independent byte arrays:
    any sequence of allocations, byte writes and frees of a client runs to
    the end, every array it holds then has the contents the map says, no two
    arrays overlap, and when it holds nothing every page frame the heap had
    is free again (nothing leaks). *)
Theorem heap_refines_arrays F0 h A F L sl lg rs :
  heap_rel F0 h A F L sl lg -> Forall hrequest_ok rs ->
  exists h' A' F' L' sl' lg', hserve_all (h, A) rs = Some (h', A') /\ heap_rel F0 h' A' F' L' sl' lg' /\
    (forall p bs i b, A' !! p = Some bs -> bs !! i = Some b -> ram h' !! (p + Z.of_nat i) = Some b) /\
    (forall p bs q cs x, A' !! p = Some bs -> A' !! q = Some cs ->
       p <= x < p + length bs -> q <= x < q + length cs -> p = q) /\
    (A' = ∅ -> F' = F0).
Proof.
  intros Hr Hok. destruct (hserve_all_correct F0 rs h A F L sl lg Hr Hok) as (h' & A' & F' & L' & sl' & lg' & E & Hr').
  exists h', A', F', L', sl', lg'. split; [done|]. split; [done|]. destruct Hr' as [Hi Hb Ha]. split_and!.
  - intros p bs i b Hp Hbi. destruct (Hb p bs Hp) as [Hbs _]. by apply Hbs.
  - intros p bs q cs x Hp Hq Hx1 Hx2. destruct (Hb p bs Hp) as (_ & n & Hn & ?). destruct (Hb q cs Hq) as (_ & k & Hk & ?).
    eapply (live_apart F0 h' F' L' sl' lg' p n q k x (proj1 Hi)); [done|done|lia|lia].
  - intros ->. eapply heap_drained; [done|]. intros p n Hl. by destruct (Ha p n Hl).
Qed.

(** [kmem_cache_init] on an initialized page allocator sets up the size
    classes 16 to 2048 with [PAGE_SIZE / size] objects each and establishes
    the heap invariant with nothing allocated. *)
Theorem kmem_cache_init_spec h F L :
  zone_free (hzone h) F L -> (forall c, L !! Partial c = None) ->
  (forall c, 0 <= c < KMALLOC_CACHES -> ls_valid (lists (hzone h)) (Partial c)) ->
  addr_ok (hbase h) (max_mapnr (hzone h)) ->
  (forall i pg, mem_map (hzone h) !! i = Some pg -> has_flag PAGE_SLAB pg = false) ->
  (forall i, 0 <= i < max_mapnr (hzone h) -> mapped (ram h) (va (hbase h) i) PAGE_SIZE) ->
  exists h' L', kmem_cache_init h = Some h' /\ heap_inv F h' F L' ∅ ∅ /\
    (forall c, 0 <= c < KMALLOC_CACHES -> exists cache, kmalloc_caches h' !! c = Some cache /\
       c_size cache = 16 * 2 ^ c /\ c_objects cache * c_size cache = PAGE_SIZE).
Proof.
  intros Hz Hl Hv Ha Hf Hm. destruct (kmem_cache_init_correct h F L Hz Hl Hv Ha Hf Hm) as (h' & L' & E & Hi & _).
  exists h', L'. split; [done|]. split; [done|]. intros c Hc. eexists. split; [by apply Hi|]. cbn [c_size c_objects].
  destruct (class_facts c Hc) as (_ & _ & Hp & _). split; [|lia]. unfold csz. by rewrite Z.pow_add_r by lia.
Qed.

End properties.

(** ** An instance *)

(** Sixteen pages of RAM, all bytes 0, with the sample zone. *)
Definition sample_ram : mem := gset_to_gmap 0 (rng (va 0x40000 0) (va 0x40000 16)).

Definition sample_heap : heap (lheap node) :=
  default (Heap boot_zone ∅ ∅) (kmem_cache_init (Heap sample_zone ∅ sample_ram)).

Lemma sample_ram_mapped i : 0 <= i < 16 -> mapped sample_ram (va 0x40000 i) PAGE_SIZE.
Proof.
  intros Hi x Hx. exists 0. apply lookup_gset_to_gmap_Some. split; [|reflexivity]. apply elem_of_rng.
  unfold va in *. change PAGE_SIZE with 4096 in *. lia.
Qed.

Lemma boot_partials_valid c : 0 <= c < KMALLOC_CACHES -> ls_valid boot_lists (Partial c).
Proof.
  intros Hc. assert (Hall : forallb (fun c => bool_decide (is_Some (boot_lists !! Partial c))) (seqZ 0 KMALLOC_CACHES) = true)
    by (by vm_compute).
  rewrite forallb_forall in Hall. specialize (Hall c). rewrite bool_decide_eq_true in Hall.
  apply elem_of_dom, Hall, list_elem_of_In, elem_of_seqZ. lia.
Qed.

Lemma sample_heap_inv : exists L, heap_inv (rng 0x40002 0x4000f) sample_heap (rng 0x40002 0x4000f) L ∅ ∅.
Proof.
  destruct sample_zone_facts as (L & HF & Eb & Em & Hp & Hv & Hf).
  destruct (kmem_cache_init_correct (Heap sample_zone ∅ sample_ram) (rng 0x40002 0x4000f) L) as (h' & L' & E & Hi & _);
    cbn [hzone ram]; [exact HF|exact Hp| | |exact Hf| |].
  - intros c Hc. by apply Hv, boot_partials_valid.
  - rewrite Eb, Em. split; vm_compute; [discriminate|reflexivity].
  - rewrite Eb, Em. apply sample_ram_mapped.
  - exists L'. unfold sample_heap. rewrite E. exact Hi.
Qed.

Lemma sample_heap_rel : exists L, heap_rel (rng 0x40002 0x4000f) sample_heap ∅ (rng 0x40002 0x4000f) L ∅ ∅.
Proof.
  destruct sample_heap_inv as (L & Hi). exists L. split; [exact Hi|by intros ? ? ?|].
  intros p n [(i & s & Hs & _)|(i & o & Ho & _)]; [by rewrite lookup_empty in Hs|by rewrite lookup_empty in Ho].
Qed.

Lemma kmalloc_spec_witness :
  exists L p h', heap_inv (rng 0x40002 0x4000f) sample_heap (rng 0x40002 0x4000f) L ∅ ∅ /\
    kmalloc 100 sample_heap = Some (p, h').
Proof.
  destruct sample_heap_inv as (L & Hi).
  destruct (kmalloc_spec _ sample_heap _ L ∅ ∅ 100 Hi ltac:(lia)) as (p & h' & E & _).
  exists L, p, h'. split; [exact Hi|exact E].
Defined.

Lemma kzalloc_spec_witness :
  exists L p h', heap_inv (rng 0x40002 0x4000f) sample_heap (rng 0x40002 0x4000f) L ∅ ∅ /\
    kzalloc 5000 sample_heap = Some (p, h').
Proof.
  destruct sample_heap_inv as (L & Hi).
  destruct (kzalloc_spec _ sample_heap _ L ∅ ∅ 5000 Hi ltac:(unfold is_u64; lia)) as (p & h' & E & _).
  exists L, p, h'. split; [exact Hi|exact E].
Defined.

(** After one successful request the new allocation can be freed. *)
Lemma sample_live : exists p h1 F L sl lg n,
  kmalloc 100 sample_heap = Some (p, h1) /\ heap_inv (rng 0x40002 0x4000f) h1 F L sl lg /\
  live (mem_map_base_pfn (hzone h1)) sl lg p n.
Proof.
  destruct sample_heap_inv as (L & Hi).
  destruct (kmalloc_correct _ sample_heap _ L ∅ ∅ 100 Hi ltac:(lia))
    as (p & h' & E & [(_ & _ & [H0|[H0|[[_ HF]|[H0 _]]]])|(cap & F' & L' & sl' & lg' & Hle & _ & Hal)]).
  - lia.
  - exfalso. revert H0. vm_compute. discriminate.
  - exfalso. apply (not_elem_of_empty (C := gset Z) 0x40002). rewrite <- HF. apply elem_of_rng. lia.
  - exfalso. revert H0. vm_compute. discriminate.
  - destruct (allocated_live _ _ _ _ _ _ _ _ _ _ _ Hal) as [Hl _].
    exists p, h', F', L', sl', lg', cap. split; [exact E|]. split; [apply Hal|exact Hl].
Qed.

Lemma kfree_spec_witness :
  exists p h1 h', kmalloc 100 sample_heap = Some (p, h1) /\ kfree 0 h1 = Some h1 /\ kfree p h1 = Some h'.
Proof.
  destruct sample_live as (p & h1 & F & L & sl & lg & n & E & Hi & Hl).
  destruct (kfree_spec _ h1 F L sl lg p n Hi Hl) as (E0 & h' & F' & L' & sl' & lg' & E1 & _).
  exists p, h1, h'. split; [exact E|]. split; [exact E0|exact E1].
Defined.

Lemma heap_refines_arrays_witness :
  exists L h' A', heap_rel (rng 0x40002 0x4000f) sample_heap ∅ (rng 0x40002 0x4000f) L ∅ ∅ /\
    hserve_all (sample_heap, ∅) [KMalloc 24; KZalloc 3000; KWrite 0xffffffc000002000 3 7; KFree 0xffffffc000002000] = Some (h', A').
Proof.
  destruct sample_heap_rel as (L & Hr).
  destruct (heap_refines_arrays _ sample_heap ∅ _ L ∅ ∅
    [KMalloc 24; KZalloc 3000; KWrite 0xffffffc000002000 3 7; KFree 0xffffffc000002000] Hr) as (h' & A' & F' & L' & sl' & lg' & E & _).
  - repeat (constructor; [cbn; unfold is_u64; first [lia|exact I]|]). constructor.
  - exists L, h', A'. split; [exact Hr|exact E].
Defined.

Lemma kmem_cache_init_spec_witness :
  exists h' L', kmem_cache_init (Heap sample_zone ∅ sample_ram) = Some h' /\
    heap_inv (rng 0x40002 0x4000f) h' (rng 0x40002 0x4000f) L' ∅ ∅.
Proof.
  destruct sample_zone_facts as (L & HF & Eb & Em & Hp & Hv & Hf).
  destruct (kmem_cache_init_spec (Heap sample_zone ∅ sample_ram) (rng 0x40002 0x4000f) L) as (h' & L' & E & Hi & _);
    cbn [hzone ram]; [exact HF|exact Hp| | |exact Hf| |].
  - intros c Hc. apply Hv, boot_partials_valid, Hc.
  - rewrite Eb, Em. split; vm_compute; [discriminate|reflexivity].
  - rewrite Eb, Em. apply sample_ram_mapped.
  - exists h', L'. split; [exact E|exact Hi].
Defined.

(** The heap computes: two objects of the 32-byte class from one page, both
    freed, and all thirteen pages are free again. *)
Definition one_page_heap : heap (lheap node) :=
  default (Heap boot_zone ∅ ∅)
    (kmem_cache_init (Heap sample_zone ∅ (list_to_map ((fun a => (a, 0)) <$> seqZ (va 0x40000 14) PAGE_SIZE)))).

Example two_objects :
  (let* '(p, h) := kmalloc 24 one_page_heap in
   let* '(q, h) := kmalloc 24 h in
   let* h := kfree p h in
   let* h := kfree q h in
   Some (p, q - p, nr_free_pages (hzone h))) = Some (0xffffffc00000e000, 32, 13).
Proof. vm_compute. reflexivity. Qed.
