(* ===== verification/Vsprintf.v ===== *)
(** * Formatted output and number parsing ([lib/vsprintf.c])

    Strings are NUL-terminated byte ranges of a memory; [char] is unsigned on
    the target.  The code writes its output with one idiom,
    [if (str <= end) *str = c; ++str;], so the formatter is written once over
    [Class Sink], whose [put] is that idiom: the instance [buffer_sink] is the
    C buffer with its [end], the instance [text_sink] collects the output in a
    list and is the reference the buffer is compared with.

    A variable argument is the 32-bit or the 64-bit pattern that was passed;
    reading it with the other width is undefined.  Signed overflow of an
    [int] is undefined. *)

From Stdlib Require Import Ascii String.
From S2P Require Import Prelude Mem.

(** The code of a character. *)
Definition chr (a : ascii) : Z := Z.of_N (N_of_ascii a).

Definition bytes_of (s : String.string) : list Z := chr <$> String.list_ascii_of_string s.

#[global] Arguments chr : simpl never.

Definition INT_MAX : Z := 2 ^ 31 - 1.
Definition is_int (z : Z) : bool := (- 2 ^ 31 <=? z) && (z <=? INT_MAX).

(** ** Character classes *)

Definition isdigit (c : Z) : bool := (chr "0" <=? c) && (c <=? chr "9").

Definition isxdigit (c : Z) : bool :=
  isdigit c || ((chr "a" <=? c) && (c <=? chr "f")) || ((chr "A" <=? c) && (c <=? chr "F")).

Definition islower (c : Z) : bool := (chr "a" <=? c) && (c <=? chr "z").

Definition toupper (c : Z) : Z := if islower c then c - chr "a" + chr "A" else c.

Definition small_digits : list Z := bytes_of "0123456789abcdefghijklmnopqrstuvwxyz"%string.
Definition large_digits : list Z := bytes_of "0123456789ABCDEFGHIJKLMNOPQRSTUVWXYZ"%string.

(** A string is not longer than the memory it is in. *)
Definition reach (m : mem) : nat := Datatypes.S (size m).

(** ** Parsing numbers *)

(** The value of a digit, as [simple_strtoul] and as [simple_strtoull]
    compute it. *)
Definition digit_ul (c : Z) : Z := if isdigit c then c - chr "0" else toupper c - chr "A" + 10.

Definition digit_ull (c : Z) : Z :=
  if isdigit c then c - chr "0" else (if islower c then toupper c else c) - chr "A" + 10.

(** The test of the prefix when [base] is 0. *)
Definition guess_base (cp base : Z) (m : mem) : option (Z * Z) :=
  if base =? 0 then
    let* c := load8 m cp in
    if c =? chr "0" then
      let cp := cp + 1 in
      let* c := load8 m cp in
      if c =? chr "x" then
        let* d := load8 m (cp + 1) in
        if isxdigit d then Some (cp + 1, 16) else Some (cp, 8)
      else Some (cp, 8)
    else Some (cp, 10)
  else Some (cp, base).

(** The digit loop; the state is [cp] and [result]. *)
Definition strto_round (digit : Z -> Z) (base : Z) (m : mem) (s : Z * Z) : option ((Z * Z) + (Z * Z)) :=
  let '(cp, result) := s in
  let* c := load8 m cp in
  if isxdigit c && (digit c <? base)
  then Some (inl (cp + 1, u64 (u64 (result * base) + digit c)))
  else Some (inr (cp, result)).

(** The common body; a NULL [endp] is 0. *)
Definition strto (digit : Z -> Z) (cp endp base : Z) (m : mem) : option (Z * mem) :=
  let* '(cp, base) := guess_base cp base m in
  let* '(cp, result) := iter (reach m) (strto_round digit base m) (cp, 0) in
  let* m := if endp =? 0 then Some m else store64 endp cp m in
  Some (result, m).

Definition simple_strtoul : Z -> Z -> Z -> mem -> option (Z * mem) := strto digit_ul.

Definition simple_strtoull : Z -> Z -> Z -> mem -> option (Z * mem) := strto digit_ull.

(** The unsigned negation is converted to the signed type. *)
Definition simple_strtol (cp endp base : Z) (m : mem) : option (Z * mem) :=
  let* c := load8 m cp in
  if c =? chr "-" then
    let* '(v, m) := simple_strtoul (cp + 1) endp base m in Some (swrap 64 (u64 (- v)), m)
  else
    let* '(v, m) := simple_strtoul cp endp base m in Some (swrap 64 v, m).

Definition simple_strtoll (cp endp base : Z) (m : mem) : option (Z * mem) :=
  let* c := load8 m cp in
  if c =? chr "-" then
    let* '(v, m) := simple_strtoull (cp + 1) endp base m in Some (swrap 64 (u64 (- v)), m)
  else
    let* '(v, m) := simple_strtoull cp endp base m in Some (swrap 64 v, m).

(** ** Output *)

Definition ZEROPAD : Z := 1.
Definition SIGN : Z := 2.
Definition PLUS : Z := 4.
Definition SPACE : Z := 8.
Definition LEFT : Z := 16.
Definition SPECIAL : Z := 32.
Definition LARGE : Z := 64.

(** [type & b] *)
Definition has (b type : Z) : bool := negb (Z.land type b =? 0).

(** Where output goes, with the memory the formatter reads. *)
Class Sink (O : Type) := {
  put : Z -> O -> option O;
  poke : Z -> list Z -> O -> option O;
  memory_of : O -> mem;
  written : O -> Z;
}.

(** The C buffer: [buf], [end], [str] and the memory. *)
Record buffer := Buffer { b_buf : Z; b_end : Z; b_str : Z; b_mem : mem }.

#[global] Instance buffer_sink : Sink buffer := {|
  put c b :=
    let* m := if b_str b <=? b_end b then store8 (b_str b) c (b_mem b) else Some (b_mem b) in
    Some (Buffer (b_buf b) (b_end b) (u64 (b_str b + 1)) m);
  poke a bs b := let* m := store a bs (b_mem b) in Some (Buffer (b_buf b) (b_end b) (b_str b) m);
  memory_of := b_mem;
  written b := u64 (b_str b - b_buf b);
|}.

(** The reference: everything that is output, in order.  The result of the
    functions is an [int], so a longer output has no reference. *)
Record text := Text { t_out : list Z; t_mem : mem }.

#[global] Instance text_sink : Sink text := {|
  put c t := assert* length (t_out t) <? INT_MAX in Some (Text (t_out t ++ [u8 c]) (t_mem t));
  poke a bs t := let* m := store a bs (t_mem t) in Some (Text (t_out t) m);
  memory_of := t_mem;
  written t := Z.of_nat (length (t_out t));
|}.

(** An argument of the call. *)
Inductive arg := Arg32 (v : Z) | Arg64 (v : Z).

(** [va_arg(args, int)] or [unsigned int], and the 64-bit types, as bit
    patterns. *)
Definition va_arg32 (args : list arg) : option (Z * list arg) :=
  match args with Arg32 v :: args => Some (u32 v, args) | _ => None end.

Definition va_arg64 (args : list arg) : option (Z * list arg) :=
  match args with Arg64 v :: args => Some (u64 v, args) | _ => None end.

Section formatter.
Context {O : Type} `{!Sink O}.
Implicit Type o : O.

(** [while (n-- > 0) put(c);], which leaves [n] at most -1. *)
Definition pad_round (c : Z) (s : Z * O) : option ((Z * O) + (Z * O)) :=
  let '(n, o) := s in
  assert* is_int (n - 1) in
  if 0 <? n then
    let* o := put c o in Some (inl (n - 1, o))
  else Some (inr (n - 1, o)).

Definition pad (c n : Z) o : option (Z * O) := iter (Datatypes.S (Z.to_nat n)) (pad_round c) (n, o).

(** [while (--n > 0) put(c);] of the [%c] conversion. *)
Definition prepad_round (c : Z) (s : Z * O) : option ((Z * O) + (Z * O)) :=
  let '(n, o) := s in
  assert* is_int (n - 1) in
  if 0 <? n - 1 then
    let* o := put c o in Some (inl (n - 1, o))
  else Some (inr (n - 1, o)).

Definition prepad (c n : Z) o : option (Z * O) := iter (Datatypes.S (Z.to_nat n)) (prepad_round c) (n, o).

(** [while (k < n--) put(c);] *)
Definition fill_round (c k : Z) (s : Z * O) : option ((Z * O) + (Z * O)) :=
  let '(n, o) := s in
  assert* is_int (n - 1) in
  if k <? n then
    let* o := put c o in Some (inl (n - 1, o))
  else Some (inr (n - 1, o)).

Definition fill_to (c k n : Z) o : option (Z * O) :=
  iter (Datatypes.S (Z.to_nat (n - k))) (fill_round c k) (n, o).

(** The digits of [value], least significant first: the array [tmp]. *)
Definition digit_round (digits : list Z) (base : Z) (s : Z * list Z) : option ((Z * list Z) + list Z) :=
  let '(value, tmp) := s in
  if value =? 0 then Some (inr tmp)
  else
    let* d := digits !! Z.to_nat (value mod base) in
    assert* Z.of_nat (length tmp) <? 66 in
    Some (inl (value / base, tmp ++ [d])).

Definition digits_of (digits : list Z) (base num : Z) : option (list Z) :=
  if num =? 0 then Some [chr "0"] else iter 66 (digit_round digits base) (num, []).

(** [while (i-- > 0) put(tmp[i]);] *)
Fixpoint put_all (cs : list Z) o : option O :=
  match cs with
  | [] => Some o
  | c :: cs => let* o := put c o in put_all cs o
  end.

(** The sign [number] shows and what is left of the number and the width. *)
Definition sign_of (num size type : Z) : option (Z * Z * Z) :=
  if has SIGN type then
    if num <? 0 then
      assert* negb (num =? - 2 ^ 63) && is_int (size - 1) in Some (chr "-", - num, size - 1)
    else if has PLUS type then assert* is_int (size - 1) in Some (chr "+", num, size - 1)
    else if has SPACE type then assert* is_int (size - 1) in Some (chr " ", num, size - 1)
    else Some (0, num, size)
  else Some (0, num, size).

(** [inr tt] in the result is the NULL returned for a bad base. *)
Definition number o (num base size precision type : Z) : option (O + unit) :=
  let digits := if has LARGE type then large_digits else small_digits in
  let type := if has LEFT type then Z.land type (Z.lnot ZEROPAD) else type in
  if (base <? 2) || (36 <? base) then Some (inr tt)
  else
    let c := if has ZEROPAD type then chr "0" else chr " " in
    let* '(sign, num, size) := sign_of num size type in
    let size := if has SPECIAL type then
        if base =? 16 then size - 2 else if base =? 8 then size - 1 else size
      else size in
    assert* is_int size in
    let* tmp := digits_of digits base (u64 num) in
    let i := Z.of_nat (length tmp) in
    let precision := if precision <? i then i else precision in
    let size := size - precision in
    assert* is_int size in
    let* '(size, o) := if has (ZEROPAD + LEFT) type then Some (size, o) else pad (chr " ") size o in
    let* o := if sign =? 0 then Some o else put sign o in
    let* o := if has SPECIAL type then
        if base =? 8 then put (chr "0") o
        else if base =? 16 then
          let* o := put (chr "0") o in
          let* x := digits !! 33%nat in
          put x o
        else Some o
      else Some o in
    let* '(size, o) := if has LEFT type then Some (size, o) else pad c size o in
    let* '(_, o) := fill_to (chr "0") i precision o in
    let* o := put_all (reverse tmp) o in
    let* '(_, o) := pad (chr " ") size o in
    Some (inl o).

(** [strnlen]: [while (count-- && *end)]; the state is [end] and [count]. *)
Definition strnlen_round (m : mem) (s : Z * Z) : option ((Z * Z) + Z) :=
  let '(p, count) := s in
  if count =? 0 then Some (inr p)
  else
    let* c := load8 m p in
    if c =? 0 then Some (inr p) else Some (inl (p + 1, u64 (count - 1))).

Definition strnlen (m : mem) (s count : Z) : option Z :=
  let* p := iter (reach m) (strnlen_round m) (s, count) in Some (p - s).

(** [skip_atoi]; the state is the pointer and [i]. *)
Definition atoi_round (m : mem) (s : Z * Z) : option ((Z * Z) + (Z * Z)) :=
  let '(p, i) := s in
  let* c := load8 m p in
  if isdigit c then
    assert* is_int (i * 10 + c) in Some (inl (p + 1, i * 10 + c - chr "0"))
  else Some (inr (p, i)).

Definition skip_atoi (m : mem) (p : Z) : option (Z * Z) := iter (reach m) (atoi_round m) (p, 0).

(** From [repeat:]; the state is [fmt] and [flags]. *)
Definition flags_round (m : mem) (s : Z * Z) : option ((Z * Z) + (Z * Z)) :=
  let '(fmt, flags) := s in
  let fmt := fmt + 1 in
  let* c := load8 m fmt in
  if c =? chr "-" then Some (inl (fmt, Z.lor flags LEFT))
  else if c =? chr "+" then Some (inl (fmt, Z.lor flags PLUS))
  else if c =? chr " " then Some (inl (fmt, Z.lor flags SPACE))
  else if c =? chr "#" then Some (inl (fmt, Z.lor flags SPECIAL))
  else if c =? chr "0" then Some (inl (fmt, Z.lor flags ZEROPAD))
  else Some (inr (fmt, flags)).

(** [fmt], [field_width], [flags] and the arguments left. *)
Definition parse_width (m : mem) (fmt flags : Z) (args : list arg) : option (Z * Z * Z * list arg) :=
  let* c := load8 m fmt in
  if isdigit c then
    let* '(fmt, w) := skip_atoi m fmt in Some (fmt, w, flags, args)
  else if c =? chr "*" then
    let* '(w, args) := va_arg32 args in
    let w := swrap 32 w in
    if w <? 0 then
      assert* is_int (- w) in Some (fmt + 1, - w, Z.lor flags LEFT, args)
    else Some (fmt + 1, w, flags, args)
  else Some (fmt, -1, flags, args).

Definition parse_precision (m : mem) (fmt : Z) (args : list arg) : option (Z * Z * list arg) :=
  let* c := load8 m fmt in
  if c =? chr "." then
    let fmt := fmt + 1 in
    let* c := load8 m fmt in
    let* '(fmt, precision, args) :=
      if isdigit c then let* '(fmt, p) := skip_atoi m fmt in Some (fmt, p, args)
      else if c =? chr "*" then
        let* '(p, args) := va_arg32 args in Some (fmt + 1, swrap 32 p, args)
      else Some (fmt, -1, args) in
    Some (fmt, (if precision <? 0 then 0 else precision), args)
  else Some (fmt, -1, args).

(** The qualifier is 0 when there is none. *)
Definition parse_qualifier (m : mem) (fmt : Z) : option (Z * Z) :=
  let* c := load8 m fmt in
  if (c =? chr "h") || (c =? chr "l") || (c =? chr "L") || (c =? chr "Z")
  then Some (fmt + 1, c) else Some (fmt, 0).

(** [case 'c'] *)
Definition conv_char o (flags field_width : Z) (args : list arg) : option (O * list arg) :=
  let* '(field_width, o) := if has LEFT flags then Some (field_width, o) else prepad (chr " ") field_width o in
  let* '(c, args) := va_arg32 args in
  let* o := put (u8 c) o in
  let* '(_, o) := prepad (chr " ") field_width o in
  Some (o, args).

(** The copy loop of [case 's']; the state is [i] and [s]. *)
Definition copy_round (len : Z) (s : Z * Z * O) : option ((Z * Z * O) + O) :=
  let '(i, p, o) := s in
  if i <? len then
    let* c := load8 (memory_of o) p in
    let* o := put c o in
    Some (inl (i + 1, p + 1, o))
  else Some (inr o).

(** [case 's']; [null] is the address of the literal ["<NULL>"]. *)
Definition conv_string (null : Z) o (flags field_width precision : Z) (args : list arg) : option (O * list arg) :=
  let* '(s, args) := va_arg64 args in
  let s := if s =? 0 then null else s in
  let* n := strnlen (memory_of o) s (u64 precision) in
  let len := swrap 32 n in
  let* '(field_width, o) := if has LEFT flags then Some (field_width, o) else fill_to (chr " ") len field_width o in
  let* o := iter (Datatypes.S (Z.to_nat len)) (copy_round len) (0, s, o) in
  let* '(_, o) := fill_to (chr " ") len field_width o in
  Some (o, args).

(** [case 'p'] *)
Definition conv_pointer o (flags field_width precision : Z) (args : list arg) : option ((O + unit) * list arg) :=
  let '(field_width, flags) := if field_width =? -1 then (16, Z.lor flags ZEROPAD) else (field_width, flags) in
  let* '(v, args) := va_arg64 args in
  let* r := number o (swrap 64 v) 16 field_width precision flags in
  Some (r, args).

(** [case 'n'] *)
Definition conv_count o (qualifier : Z) (args : list arg) : option (O * list arg) :=
  let* '(ip, args) := va_arg64 args in
  let n := if (qualifier =? chr "l") || (qualifier =? chr "Z") then 8 else 4 in
  let* o := poke ip (Z_to_little_endian n 8 (written o)) o in
  Some (o, args).

(** The argument of an integer conversion, as [num] of the code read back as
    [long long]. *)
Definition fetch_number (flags qualifier : Z) (args : list arg) : option (Z * list arg) :=
  if qualifier =? chr "L" then let* '(v, args) := va_arg64 args in Some (swrap 64 v, args)
  else if qualifier =? chr "l" then let* '(v, args) := va_arg64 args in Some (swrap 64 v, args)
  else if qualifier =? chr "Z" then let* '(v, args) := va_arg64 args in Some (swrap 64 v, args)
  else if qualifier =? chr "h" then
    let* '(v, args) := va_arg32 args in Some ((if has SIGN flags then swrap 16 (u16 v) else u16 v), args)
  else
    let* '(v, args) := va_arg32 args in Some ((if has SIGN flags then swrap 32 v else v), args).

(** [default]: the text of an unknown conversion. *)
Definition conv_unknown o (fmt c : Z) : option (O * Z) :=
  let* o := put (chr "%") o in
  if c =? 0 then Some (o, fmt - 1) else let* o := put c o in Some (o, fmt).

Definition conv_number o (c fmt flags field_width precision qualifier : Z) (args : list arg)
    : option ((O + unit) * Z * list arg) :=
  let '(base, flags) :=
    if c =? chr "o" then (8, flags)
    else if c =? chr "X" then (16, Z.lor flags LARGE)
    else if c =? chr "x" then (16, flags)
    else if (c =? chr "d") || (c =? chr "i") then (10, Z.lor flags SIGN)
    else (10, flags) in
  let* '(num, args) := fetch_number flags qualifier args in
  let* r := number o num base field_width precision flags in
  Some (r, fmt, args).

(** The [switch] on the conversion character at [fmt]. *)
Definition convert (null : Z) o (fmt flags field_width precision qualifier : Z) (args : list arg)
    : option ((O + unit) * Z * list arg) :=
  let* c := load8 (memory_of o) fmt in
  if c =? chr "c" then let* '(o, args) := conv_char o flags field_width args in Some (inl o, fmt, args)
  else if c =? chr "s" then
    let* '(o, args) := conv_string null o flags field_width precision args in Some (inl o, fmt, args)
  else if c =? chr "p" then
    let* '(r, args) := conv_pointer o flags field_width precision args in Some (r, fmt, args)
  else if c =? chr "n" then let* '(o, args) := conv_count o qualifier args in Some (inl o, fmt, args)
  else if c =? chr "%" then let* o := put (chr "%") o in Some (inl o, fmt, args)
  else if (c =? chr "o") || (c =? chr "X") || (c =? chr "x") || (c =? chr "d") || (c =? chr "i") || (c =? chr "u")
  then conv_number o c fmt flags field_width precision qualifier args
  else let* '(o, fmt) := conv_unknown o fmt c in Some (inl o, fmt, args).

(** One round of the [for] loop; the state is [fmt], [args] and the output.
    A NULL from [number] cannot be written through. *)
Definition format_round (null : Z) (s : Z * list arg * O) : option ((Z * list arg * O) + O) :=
  let '(fmt, args, o) := s in
  let* c := load8 (memory_of o) fmt in
  if c =? 0 then Some (inr o)
  else if negb (c =? chr "%") then
    let* o := put c o in Some (inl (fmt + 1, args, o))
  else
    let* '(fmt, flags) := iter (reach (memory_of o)) (flags_round (memory_of o)) (fmt, 0) in
    let* '(fmt, field_width, flags, args) := parse_width (memory_of o) fmt flags args in
    let* '(fmt, precision, args) := parse_precision (memory_of o) fmt args in
    let* '(fmt, qualifier) := parse_qualifier (memory_of o) fmt in
    let* '(r, fmt, args) := convert null o fmt flags field_width precision qualifier args in
    match r with
    | inl o => Some (inl (fmt + 1, args, o))
    | inr _ => None
    end.

Definition format (null fmt : Z) (args : list arg) o : option O :=
  iter (reach (memory_of o)) (format_round null) (fmt, args, o).

End formatter.

(** ** The entry points *)

(** The end of the buffer and its size, with the overflow test. *)
Definition clip (buf size : Z) : Z * Z :=
  let e := u64 (buf + size - 1) in
  if e <? u64 (buf - 1) then (2 ^ 64 - 1, u64 (2 ^ 64 - 1 - buf + 1)) else (e, size).

(** The terminating NUL. *)
Definition terminate (size : Z) (b : buffer) : option mem :=
  if b_str b <=? b_end b then store8 (b_str b) 0 (b_mem b)
  else if 0 <? size then store8 (b_end b) 0 (b_mem b)
  else Some (b_mem b).

(** Returns [str - buf] as an [int], and the memory. *)
Definition vsnprintf (null buf size fmt : Z) (args : list arg) (m : mem) : option (Z * mem) :=
  let '(e, size) := clip buf size in
  let* b := format null fmt args (Buffer buf e buf m) in
  let* m := terminate size b in
  Some (swrap 32 (u64 (b_str b - buf)), m).

Definition snprintf : Z -> Z -> Z -> Z -> list arg -> mem -> option (Z * mem) := vsnprintf.

Definition vsprintf (null buf fmt : Z) (args : list arg) (m : mem) : option (Z * mem) :=
  vsnprintf null buf 0xFFFFFFFF fmt args m.

Definition sprintf : Z -> Z -> Z -> list arg -> mem -> option (Z * mem) := vsprintf.
