(* ===== verification/VsprintfProof.v ===== *)
(** * The buffer formatter against its reference

    [osim R x y]: when the reference [x] has a result, the code [y] has one
    that is related to it.  The formatter is one definition over [Sink], so
    the simulation of [put] lifts to the whole of [format]. *)

From Stdlib Require Import Ascii String.
From S2P Require Import Prelude Mem Vsprintf.

(** ** Simulation of partial computations *)

Definition osim {A B : Type} (R : A -> B -> Prop) (x : option A) (y : option B) : Prop :=
  forall a, x = Some a -> exists b, y = Some b /\ R a b.

Definition pair_rel {A B : Type} (R : A -> B -> Prop) {X : Type} (x : X * A) (y : X * B) : Prop :=
  x.1 = y.1 /\ R x.2 y.2.

Definition sum_rel {A B C D : Type} (R : A -> B -> Prop) (Q : C -> D -> Prop) (x : A + C) (y : B + D) : Prop :=
  match x, y with
  | inl a, inl b => R a b
  | inr c, inr d => Q c d
  | _, _ => False
  end.

Lemma osim_ret {A B} (R : A -> B -> Prop) a b : R a b -> osim R (Some a) (Some b).
Proof. intros H x [= <-]. eauto. Qed.

Lemma osim_bind {A B C D} (R : A -> B -> Prop) (Q : C -> D -> Prop) x y f g :
  osim R x y -> (forall a b, R a b -> osim Q (f a) (g b)) -> osim Q (x ≫= f) (y ≫= g).
Proof.
  intros Hx Hf c. destruct x as [a|]; [|done]. destruct (Hx a eq_refl) as (b & -> & Hab). cbn. by apply Hf.
Qed.

Lemma osim_if {A B} (R : A -> B -> Prop) (c : bool) x x' y y' :
  osim R x y -> osim R x' y' -> osim R (if c then x else x') (if c then y else y').
Proof. by destruct c. Qed.

Lemma osim_none {A B} (R : A -> B -> Prop) y : osim R None y.
Proof. by intros a. Qed.

Lemma osim_eq {A} (x y : option A) : (forall a, x = Some a -> y = Some a) -> osim eq x y.
Proof. intros H a Ha. exists a. split; [by apply H|done]. Qed.

Lemma osim_iter {S1 R1 S2 R2} (RS : S1 -> S2 -> Prop) (RR : R1 -> R2 -> Prop) f g :
  (forall s t, RS s t -> osim (sum_rel RS RR) (f s) (g t)) ->
  forall n m s t, (n <= m)%nat -> RS s t -> osim RR (iter n f s) (iter m g t).
Proof.
  intros Hfg n. induction n as [|n IH]; intros m s t Hnm Hst r; [done|]. destruct m as [|m]; [lia|]. cbn.
  destruct (f s) as [[s'|r']|] eqn:E; [| |done]; destruct (Hfg s t Hst _ E) as ([t'|q] & -> & Hr); try done.
  - intros Hn. by apply (IH m s' t'); [lia|..].
  - intros [= <-]. eauto.
Qed.

(** ** Reading a larger memory *)

Section reading.
Context (m m' : mem).
Hypothesis Hsub : m ⊆ m'.

Lemma load8_mono a : osim eq (load8 m a) (load8 m' a).
Proof. apply osim_eq. intros c Hc. unfold load8 in *. by apply (lookup_weaken m). Qed.

Lemma reach_mono : (reach m <= reach m')%nat.
Proof. unfold reach. apply map_subseteq_size in Hsub. lia. Qed.

(** One step of a computation that reads memory and is otherwise the same. *)
Ltac same_step :=
  repeat first
    [ apply osim_ret; (reflexivity || (cbn; reflexivity))
    | apply osim_none
    | match goal with |- osim _ (load8 m ?a ≫= _) _ => eapply osim_bind; [apply load8_mono|intros ? ? ->] end
    | match goal with |- osim _ (if ?c then _ else _) (if ?c then _ else _) => destruct c end ].

Lemma skip_atoi_mono p : osim eq (skip_atoi m p) (skip_atoi m' p).
Proof.
  unfold skip_atoi. apply (osim_iter eq eq); [|apply reach_mono|done]. intros [q i] ? <-. unfold atoi_round. same_step.
Qed.

Lemma flags_mono s : osim eq (iter (reach m) (flags_round m) s) (iter (reach m') (flags_round m') s).
Proof.
  apply (osim_iter eq eq); [|apply reach_mono|done]. intros [q i] ? <-. unfold flags_round. same_step.
Qed.

Lemma strnlen_mono p n : osim eq (strnlen m p n) (strnlen m' p n).
Proof.
  unfold strnlen. eapply (osim_bind eq); [|intros ? ? <-; by apply osim_ret].
  apply (osim_iter eq eq); [|apply reach_mono|done]. intros [q i] ? <-. unfold strnlen_round. same_step.
Qed.

Lemma parse_width_mono fmt flags args : osim eq (parse_width m fmt flags args) (parse_width m' fmt flags args).
Proof.
  unfold parse_width. eapply osim_bind; [apply load8_mono|intros c ? <-]. apply osim_if.
  - eapply osim_bind; [apply skip_atoi_mono|intros [q w] ? <-]. by apply osim_ret.
  - by apply osim_eq.
Qed.

Lemma parse_precision_mono fmt args : osim eq (parse_precision m fmt args) (parse_precision m' fmt args).
Proof.
  unfold parse_precision. eapply osim_bind; [apply load8_mono|intros c ? <-]. apply osim_if; [|by apply osim_eq].
  eapply osim_bind; [apply load8_mono|intros d ? <-].
  eapply (osim_bind eq); [|intros [[q w] l] ? <-; by apply osim_ret]. apply osim_if.
  - eapply osim_bind; [apply skip_atoi_mono|intros [q w] ? <-]. by apply osim_ret.
  - by apply osim_eq.
Qed.

Lemma parse_qualifier_mono fmt : osim eq (parse_qualifier m fmt) (parse_qualifier m' fmt).
Proof. unfold parse_qualifier. eapply osim_bind; [apply load8_mono|intros c ? <-]. by apply osim_eq. Qed.

End reading.

(** ** The buffer and the text *)

Section simulation.
Context (buf e : Z) (m0 : mem).
Hypothesis Hbuf : 0 <= buf.
Hypothesis Hroom : buf + INT_MAX < 2 ^ 64.

(** The buffer holds the text up to its end; the memory the text reads is
    outside the buffer; everything else is as in [m0]. *)
Record sim (t : text) (b : buffer) : Prop := {
  sm_buf : b_buf b = buf;
  sm_end : b_end b = e;
  sm_len : length (t_out t) <= INT_MAX;
  sm_str : b_str b = buf + length (t_out t);
  sm_out i c : t_out t !! i = Some c -> buf + Z.of_nat i <= e -> b_mem b !! (buf + Z.of_nat i) = Some c;
  sm_rest x : buf + length (t_out t) <= x <= e -> b_mem b !! x = m0 !! x;
  sm_room x : buf <= x <= e -> is_Some (b_mem b !! x);
  sm_read : t_mem t ⊆ b_mem b;
  sm_apart x : buf <= x <= e -> t_mem t !! x = None;
  sm_frame x : ~ buf <= x <= e -> t_mem t !! x = None -> b_mem b !! x = m0 !! x;
}.

Lemma put_sim c t b : sim t b -> osim sim (put c t) (put c b).
Proof.
  intros Hs r. pose proof Hs as [Eb Ee Hl Hst Ho Hre Hro Hrd Hap Hfr]. cbn.
  destruct (Z.ltb_spec (length (t_out t)) INT_MAX) as [Hlt|]; [|done]. intros [= <-]. rewrite Hst, Ee.
  assert (Eu : u64 (buf + length (t_out t) + 1) = buf + length (t_out t ++ [u8 c])) by (rewrite length_app; cbn; rewrite u64_id; unfold is_u64; lia).
  destruct (Z.leb_spec (buf + length (t_out t)) e) as [Hle|Hgt].
  - unfold store8. destruct (Hro (buf + length (t_out t))) as [w ->]; [lia|]. cbn. eexists. split; [done|]. rewrite Eu.
    split; cbn [b_buf b_end b_str b_mem t_out t_mem]; try done.
    + rewrite length_app. cbn. lia.
    + intros i d Hi Hie. rewrite lookup_insert. case_decide as Hx.
      * assert (i = length (t_out t)) as -> by lia. by rewrite list_lookup_middle in Hi by done.
      * rewrite lookup_app_l in Hi; [by apply Ho|]. apply lookup_lt_Some in Hi. rewrite length_app in Hi. cbn in Hi. lia.
    + intros x Hx. rewrite length_app in Hx. cbn in Hx. rewrite lookup_insert_ne by lia. apply Hre. lia.
    + intros x Hx. rewrite lookup_insert. case_decide; [by eexists|by apply Hro].
    + apply map_subseteq_spec. intros x v Hx. rewrite lookup_insert_ne.
      * by apply (lookup_weaken (t_mem t)).
      * intros <-. rewrite Hap in Hx by lia. done.
    + intros x Hx Hn. rewrite lookup_insert_ne by lia. by apply Hfr.
  - cbn. eexists. split; [done|]. rewrite Eu. split; cbn [b_buf b_end b_str b_mem t_out t_mem]; try done.
    + rewrite length_app. cbn. lia.
    + intros i d Hi Hie. rewrite lookup_app_l in Hi; [by apply Ho|]. apply lookup_lt_Some in Hi. rewrite length_app in Hi. cbn in Hi. lia.
    + intros x Hx. rewrite length_app in Hx. cbn in Hx. apply Hre. lia.
Qed.

Lemma store8_sim a v (m m' : mem) : m ⊆ m' -> osim (fun r r' => r = <[a := u8 v]> m /\ r' = <[a := u8 v]> m' /\ is_Some (m !! a))
  (store8 a v m) (store8 a v m').
Proof.
  intros Hsub r. unfold store8. destruct (m !! a) as [w|] eqn:Ha; [|done]. rewrite (lookup_weaken m m' a w) by done. cbn.
  intros [= <-]. eexists. split; [done|]. split; [done|]. split; [done|]. by eexists.
Qed.

Lemma poke_sim a bs t b : sim t b -> osim sim (poke a bs t) (poke a bs b).
Proof.
  cbn. revert a t b. induction bs as [|v bs IH]; intros a t b Hs; cbn [store mbind option_bind].
  - apply osim_ret. by destruct t, b.
  - intros r. destruct (store8 a v (t_mem t)) as [mt|] eqn:Et; [|done]. cbn.
    pose proof Hs as [Eb Ee Hl Hst Ho Hre Hro Hrd Hap Hfr].
    destruct (store8_sim a v _ _ Hrd mt Et) as (mb & -> & -> & -> & [w Hw]). cbn.
    assert (Hout : ~ buf <= a <= e) by (intros Hx; by rewrite Hap in Hw).
    refine (IH (a + 1) (Text (t_out t) (<[a := u8 v]> (t_mem t))) (Buffer (b_buf b) (b_end b) (b_str b) (<[a := u8 v]> (b_mem b))) _ r).
    split; cbn [b_buf b_end b_str b_mem t_out t_mem]; try done.
    + intros i c Hi Hie. rewrite lookup_insert_ne by lia. by apply Ho.
    + intros x Hx. rewrite lookup_insert_ne by lia. by apply Hre.
    + intros x Hx. rewrite lookup_insert_ne by lia. by apply Hro.
    + by apply insert_mono.
    + intros x Hx. rewrite lookup_insert_ne by lia. by apply Hap.
    + intros x Hx Hn. apply lookup_insert_None in Hn as [Hn Hne]. rewrite lookup_insert_ne by done. by apply Hfr.
Qed.

(** *** The loops *)

(** Closes a step whose results have the same shape. *)
Ltac step := first
  [ apply osim_none
  | apply osim_if
  | eapply osim_bind; [by apply put_sim|intros ? ? ?]
  | by apply osim_ret ].

Lemma pad_sim c n t b : sim t b -> osim (pair_rel sim) (pad c n t) (pad c n b).
Proof.
  intros Hs. unfold pad. apply (osim_iter (pair_rel sim) (pair_rel sim)); [|done|done].
  intros [k x] [k' y] [E Hxy]. cbn in E, Hxy. subst k'. unfold pad_round. repeat step.
Qed.

Lemma prepad_sim c n t b : sim t b -> osim (pair_rel sim) (prepad c n t) (prepad c n b).
Proof.
  intros Hs. unfold prepad. apply (osim_iter (pair_rel sim) (pair_rel sim)); [|done|done].
  intros [k x] [k' y] [E Hxy]. cbn in E, Hxy. subst k'. unfold prepad_round. repeat step.
Qed.

Lemma fill_to_sim c k n t b : sim t b -> osim (pair_rel sim) (fill_to c k n t) (fill_to c k n b).
Proof.
  intros Hs. unfold fill_to. apply (osim_iter (pair_rel sim) (pair_rel sim)); [|done|done].
  intros [j x] [j' y] [E Hxy]. cbn in E, Hxy. subst j'. unfold fill_round. repeat step.
Qed.

Lemma put_all_sim cs : forall t b, sim t b -> osim sim (put_all cs t) (put_all cs b).
Proof.
  induction cs as [|c cs IH]; intros t b Hs; cbn [put_all]; [by apply osim_ret|].
  eapply osim_bind; [by apply put_sim|]. intros. by apply IH.
Qed.

(** A choice between a loop and nothing. *)
Lemma skip_or {A} (c : bool) (n : A) (t : text) (b : buffer) x y :
  sim t b -> osim (pair_rel sim) x y -> osim (pair_rel sim) (if c then Some (n, t) else x) (if c then Some (n, b) else y).
Proof. intros Hs Hx. apply osim_if; [by apply osim_ret|done]. Qed.

Definition number_rel : text + unit -> buffer + unit -> Prop := sum_rel sim eq.

Lemma number_sim t b num base size precision type :
  sim t b -> osim number_rel (number t num base size precision type) (number b num base size precision type).
Proof.
  intros Hs. unfold number. set (ty := if has LEFT type then _ else _). set (dg := if has LARGE type then _ else _).
  apply osim_if; [by apply osim_ret|].
  eapply (osim_bind eq); [by apply osim_eq|]. intros [[sign num'] size'] ? <-.
  apply osim_if; [|apply osim_none]. eapply (osim_bind eq); [by apply osim_eq|]. intros tmp ? <-.
  apply osim_if; [|apply osim_none].
  eapply (osim_bind (pair_rel sim)); [apply skip_or; [done|by apply pad_sim]|]. intros [n1 t1] [n1' b1] [E1 H1]. cbn in E1, H1. subst n1'.
  eapply (osim_bind sim); [apply osim_if; [by apply osim_ret|by apply put_sim]|]. intros t2 b2 H2.
  eapply (osim_bind sim).
  { apply osim_if; [|by apply osim_ret]. apply osim_if; [by apply put_sim|]. apply osim_if; [|by apply osim_ret].
    eapply osim_bind; [by apply put_sim|]. intros t3 b3 H3. eapply (osim_bind eq); [by apply osim_eq|]. intros x ? <-. by apply put_sim. }
  intros t3 b3 H3.
  eapply (osim_bind (pair_rel sim)); [apply skip_or; [done|by apply pad_sim]|]. intros [n4 t4] [n4' b4] [E4 H4]. cbn in E4, H4. subst n4'.
  eapply (osim_bind (pair_rel sim)); [by apply fill_to_sim|]. intros [n5 t5] [n5' b5] [E5 H5]. cbn in E5, H5.
  eapply (osim_bind sim); [by apply put_all_sim|]. intros t6 b6 H6.
  eapply (osim_bind (pair_rel sim)); [by apply pad_sim|]. intros [n7 t7] [n7' b7] [E7 H7]. by apply osim_ret.
Qed.

(** *** The conversions *)

(** Results with the output first. *)
Definition fst_rel {A B X : Type} (R : A -> B -> Prop) (x : A * X) (y : B * X) : Prop := R x.1 y.1 /\ x.2 = y.2.

Lemma conv_char_sim t b flags w args : sim t b -> osim (fst_rel sim) (conv_char t flags w args) (conv_char b flags w args).
Proof.
  intros Hs. unfold conv_char.
  eapply (osim_bind (pair_rel sim)); [apply skip_or; [done|by apply prepad_sim]|]. intros [n1 t1] [n1' b1] [E1 H1]. cbn in E1, H1. subst n1'.
  eapply (osim_bind eq); [by apply osim_eq|]. intros [c args'] ? <-.
  eapply (osim_bind sim); [by apply put_sim|]. intros t2 b2 H2.
  eapply (osim_bind (pair_rel sim)); [by apply prepad_sim|]. intros [n3 t3] [n3' b3] [E3 H3]. by apply osim_ret.
Qed.

Lemma conv_string_sim null t b flags w p args :
  sim t b -> osim (fst_rel sim) (conv_string null t flags w p args) (conv_string null b flags w p args).
Proof.
  intros Hs. unfold conv_string. eapply (osim_bind eq); [by apply osim_eq|]. intros [s args'] ? <-.
  eapply (osim_bind eq); [apply strnlen_mono, Hs|]. intros n ? <-.
  eapply (osim_bind (pair_rel sim)); [apply skip_or; [done|by apply fill_to_sim]|]. intros [n1 t1] [n1' b1] [E1 H1]. cbn in E1, H1. subst n1'.
  eapply (osim_bind sim).
  { apply (osim_iter (pair_rel sim) sim); [|done|done]. intros [[i q] x] [[i' q'] y] [E Hxy]. cbn in E, Hxy. simplify_eq.
    unfold copy_round. apply osim_if; [|by apply osim_ret].
    eapply (osim_bind eq); [apply load8_mono, Hxy|]. intros c ? <-. eapply osim_bind; [by apply put_sim|]. intros. by apply osim_ret. }
  intros t2 b2 H2. eapply (osim_bind (pair_rel sim)); [by apply fill_to_sim|]. intros [n3 t3] [n3' b3] [E3 H3]. by apply osim_ret.
Qed.

Lemma conv_count_sim t b q args : sim t b -> osim (fst_rel sim) (conv_count t q args) (conv_count b q args).
Proof.
  intros Hs. unfold conv_count. eapply (osim_bind eq); [by apply osim_eq|]. intros [ip args'] ? <-.
  assert (written b = written t) as ->.
  { cbn. destruct Hs as [-> _ Hl -> _ _ _ _ _ _]. rewrite u64_id; [lia|]. unfold is_u64, INT_MAX in *. lia. }
  eapply (osim_bind sim); [by apply poke_sim|]. intros. by apply osim_ret.
Qed.

(** What [convert] and [conv_number] return. *)
Definition conv_rel (x : (text + unit) * Z * list arg) (y : (buffer + unit) * Z * list arg) : Prop :=
  number_rel x.1.1 y.1.1 /\ x.1.2 = y.1.2 /\ x.2 = y.2.

Lemma convert_sim null t b fmt flags w p q args :
  sim t b -> osim conv_rel (convert null t fmt flags w p q args) (convert null b fmt flags w p q args).
Proof.
  intros Hs. unfold convert. eapply (osim_bind eq); [apply load8_mono, Hs|]. intros c ? <-.
  apply osim_if.
  { eapply osim_bind; [by apply conv_char_sim|]. intros [t1 a1] [b1 a1'] [H1 E1]. cbn in *. subst. by apply osim_ret. }
  apply osim_if.
  { eapply osim_bind; [by apply conv_string_sim|]. intros [t1 a1] [b1 a1'] [H1 E1]. cbn in *. subst. by apply osim_ret. }
  apply osim_if.
  { eapply (osim_bind (fst_rel number_rel)); [|intros [t1 a1] [b1 a1'] [H1 E1]; cbn in *; subst; by apply osim_ret].
    unfold conv_pointer. destruct (if w =? -1 then _ else _) as [w' flags'].
    eapply (osim_bind eq); [by apply osim_eq|]. intros [v args'] ? <-.
    eapply osim_bind; [by apply number_sim|]. intros. by apply osim_ret. }
  apply osim_if.
  { eapply osim_bind; [by apply conv_count_sim|]. intros [t1 a1] [b1 a1'] [H1 E1]. cbn in *. subst. by apply osim_ret. }
  apply osim_if; [eapply osim_bind; [by apply put_sim|]; intros; by apply osim_ret|].
  apply osim_if.
  { unfold conv_number. destruct (if c =? chr "o" then _ else _) as [base flags'].
    eapply (osim_bind eq); [by apply osim_eq|]. intros [num args'] ? <-.
    eapply osim_bind; [by apply number_sim|]. intros. by apply osim_ret. }
  eapply (osim_bind (fst_rel sim)); [|intros [t1 a1] [b1 a1'] [H1 E1]; cbn in *; subst; by apply osim_ret].
  unfold conv_unknown. eapply osim_bind; [by apply put_sim|]. intros t1 b1 H1. apply osim_if; [by apply osim_ret|].
  eapply osim_bind; [by apply put_sim|]. intros. by apply osim_ret.
Qed.

Lemma format_sim null fmt args t b : sim t b -> osim sim (format null fmt args t) (format null fmt args b).
Proof.
  intros Hs. unfold format. apply (osim_iter (pair_rel sim) sim); [|apply reach_mono, Hs|done].
  intros [[f a] x] [[f' a'] y] [E Hxy]. cbn in E, Hxy. simplify_eq. unfold format_round.
  eapply (osim_bind eq); [apply load8_mono, Hxy|]. intros c ? <-. apply osim_if; [by apply osim_ret|].
  apply osim_if; [eapply osim_bind; [by apply put_sim|]; intros; by apply osim_ret|].
  eapply (osim_bind eq); [apply flags_mono, Hxy|]. intros [f1 fl] ? <-.
  eapply (osim_bind eq); [apply parse_width_mono, Hxy|]. intros [[[f2 w] fl2] a2] ? <-.
  eapply (osim_bind eq); [apply parse_precision_mono, Hxy|]. intros [[f3 p] a3] ? <-.
  eapply (osim_bind eq); [apply parse_qualifier_mono, Hxy|]. intros [f4 q] ? <-.
  eapply osim_bind; [by apply convert_sim|]. intros [[[t1|[]] f5] a5] [[[b1|[]] f5'] a5'] (H1 & E1 & E2); cbn in *; subst; try done.
  by apply osim_ret.
Qed.

End simulation.

(** ** The whole call *)

Lemma clip_id buf size : 0 < buf -> 0 <= size -> buf + size <= 2 ^ 64 -> clip buf size = (buf + size - 1, size).
Proof.
  intros Hb Hs He. unfold clip. rewrite !u64_id by (unfold is_u64; lia). by rewrite (proj2 (Z.ltb_ge _ _)) by lia.
Qed.

(** What the buffer of [size] bytes at [buf] holds after the output [out]:
    the NUL-terminated part that fits, and the old bytes behind it. *)
Definition holds_text (buf size : Z) (m m' : mem) (out : list Z) : Prop :=
  (0 < size -> bytes_at m' buf (take (Z.to_nat (size - 1)) out ++ [0])) /\
  (forall x, buf + length out < x < buf + size -> m' !! x = m !! x).

Lemma terminate_sim buf size m t b :
  0 <= size -> sim buf (buf + size - 1) m t b ->
  exists m', terminate size b = Some m' /\ holds_text buf size m m' (t_out t) /\ t_mem t ⊆ m' /\
    forall x, ~ buf <= x < buf + size -> t_mem t !! x = None -> m' !! x = m !! x.
Proof.
  intros Hs [Eb Ee Hl Hst Ho Hre Hro Hrd Hap Hfr]. unfold terminate, store8. rewrite Hst, Ee. set (n := length (t_out t)) in *.
  assert (Hend : forall a, buf <= a <= buf + size - 1 -> a = buf + n \/ (a = buf + size - 1 /\ size <= n) ->
    exists m', (let* _ := b_mem b !! a in Some (<[a := u8 0]> (b_mem b))) = Some m' /\ holds_text buf size m m' (t_out t) /\
    t_mem t ⊆ m' /\ forall x, ~ buf <= x < buf + size -> t_mem t !! x = None -> m' !! x = m !! x).
  { intros a Ha Hcase. destruct (Hro a Ha) as [w ->]. cbn. eexists. split; [done|]. split; [|split].
    - split.
      + intros Hs0 i c Hi. apply lookup_app_Some in Hi as [Hi|[Hge Hi]].
        * apply lookup_take_Some in Hi as [Hi Hlt]. pose proof (lookup_lt_Some _ _ _ Hi). fold n in H. rewrite lookup_insert_ne by lia. apply Ho; [done|lia].
        * apply list_lookup_singleton_Some in Hi as [Hz <-]. rewrite length_take in *. fold n in Hz, Hge. replace (buf + i) with a by lia.
          by rewrite lookup_insert_eq.
      + intros x Hx. fold n in Hx. rewrite lookup_insert_ne by lia. apply Hre. fold n. lia.
    - apply map_subseteq_spec. intros x v Hx. rewrite lookup_insert_ne; [by apply (lookup_weaken (t_mem t))|]. intros <-. by rewrite Hap in Hx.
    - intros x Hx Hn. rewrite lookup_insert_ne by lia. apply Hfr; [lia|done]. }
  destruct (Z.leb_spec (buf + n) (buf + size - 1)); [apply Hend; lia|]. destruct (Z.ltb_spec 0 size); [apply Hend; lia|].
  exists (b_mem b). split; [done|]. split; [split; [lia|]|split; [done|]].
  - intros x Hx. lia.
  - intros x Hx Hn. apply Hfr; [lia|done].
Qed.

Lemma vsnprintf_correct null buf size fmt args (ro m : mem) t :
  0 < buf -> buf + INT_MAX < 2 ^ 64 -> 0 <= size -> buf + size <= 2 ^ 64 ->
  mapped m buf size -> ro ⊆ m -> (forall x, buf <= x < buf + size -> ro !! x = None) ->
  format null fmt args (Text [] ro) = Some t ->
  length (t_out t) <= INT_MAX /\
  exists m', vsnprintf null buf size fmt args m = Some (Z.of_nat (length (t_out t)), m') /\
    holds_text buf size m m' (t_out t) /\ t_mem t ⊆ m' /\
    forall x, ~ buf <= x < buf + size -> t_mem t !! x = None -> m' !! x = m !! x.
Proof.
  intros Hb Hroom Hs He Hm Hsub Hap Hf. unfold vsnprintf. rewrite clip_id by lia.
  destruct (format_sim buf (buf + size - 1) m ltac:(lia) Hroom null fmt args (Text [] ro) (Buffer buf (buf + size - 1) buf m)) with (a := t)
    as (b & -> & Hsim); [|done|].
  { split; cbn [b_buf b_end b_str b_mem t_out t_mem length]; try done; try lia.
    - intros x Hx. apply Hm. lia.
    - intros x Hx. apply Hap. lia. }
  cbn [mbind option_bind]. destruct (terminate_sim buf size m t b Hs Hsim) as (m' & -> & Hout & Hread & Hfr). cbn [mbind option_bind].
  pose proof (sm_len _ _ _ _ _ Hsim) as Hl. split; [done|]. exists m'. split; [|done]. do 2 f_equal.
  rewrite (sm_str _ _ _ _ _ Hsim). unfold INT_MAX in *. rewrite u64_id by (unfold is_u64; lia).
  unfold swrap. change (2 ^ (32 - 1)) with (2 ^ 31). rewrite Z.mod_small by lia. lia.
Qed.
