(* ===== verification/VsprintfNumber.v ===== *)
(** * What [number] prints, and reading it back

    [layout] is the text of an integer conversion as its format says it;
    [number_text] shows that [number] prints it.  [simple_strtoul] applied to
    printed digits gives the number back. *)

From Stdlib Require Import Ascii String.
From S2P Require Import Prelude Mem Vsprintf VsprintfProof.

(** ** The loops on a text *)

Section loops.
Context (m : mem).

(** Room for [n] more characters. *)
Definition fits_in (out : list Z) (n : Z) : Prop := length out + n <= INT_MAX.

Lemma put_text c out : fits_in out 1 -> put c (Text out m) = Some (Text (out ++ [u8 c]) m).
Proof. unfold fits_in. intros H. cbn. by rewrite (proj2 (Z.ltb_lt (length out) INT_MAX)) by lia. Qed.

Lemma is_int_true z : - 2 ^ 31 <= z <= INT_MAX -> is_int z = true.
Proof. intros H. unfold is_int. rewrite (proj2 (Z.leb_le (- 2 ^ 31) z)), (proj2 (Z.leb_le z INT_MAX)) by lia. done. Qed.

(** The three countdown loops are one loop with a different bound. *)
Lemma countdown (round : Z * text -> option ((Z * text) + (Z * text))) c lim (n : nat) : forall k out fuel,
  (forall k out, - 2 ^ 31 < k <= INT_MAX -> round (k, Text out m) =
     if lim <? k then let* o := put c (Text out m) in Some (inl (k - 1, o)) else Some (inr (k - 1, Text out m))) ->
  - 2 ^ 31 < lim -> - 2 ^ 31 < k <= INT_MAX -> n = Z.to_nat (k - lim) -> (n < fuel)%nat -> fits_in out n ->
  iter fuel round (k, Text out m) = Some (Z.min k lim - 1, Text (out ++ replicate n (u8 c)) m).
Proof.
  induction n as [|n IH]; intros k out fuel Hr Hlim Hk Hn Hf Hfit; (destruct fuel as [|fuel]; [lia|]); cbn [iter]; rewrite Hr by done.
  - rewrite (proj2 (Z.ltb_ge lim k)) by lia. cbn [replicate]. rewrite app_nil_r. do 3 f_equal. lia.
  - rewrite (proj2 (Z.ltb_lt lim k)) by lia. rewrite put_text by (unfold fits_in in *; lia). cbn [mbind option_bind].
    rewrite (IH (k - 1)); [|done|done|lia|lia|lia|unfold fits_in in *; rewrite length_app; cbn; lia].
    rewrite <- app_assoc. cbn. do 3 f_equal. lia.
Qed.

Lemma pad_text c n out : - 2 ^ 31 < n <= INT_MAX -> fits_in out (Z.max 0 n) ->
  pad c n (Text out m) = Some (Z.min n 0 - 1, Text (out ++ replicate (Z.to_nat n) (u8 c)) m).
Proof.
  intros Hn Hfit. unfold pad. replace (Z.to_nat n) with (Z.to_nat (n - 0)) at 2 by lia.
  apply (countdown _ c 0); [|lia|done|done|lia|unfold fits_in in *; lia].
  intros k o Hk. unfold pad_round. by rewrite is_int_true by lia.
Qed.

Lemma fill_to_text c k n out : - 2 ^ 31 < k -> - 2 ^ 31 < n <= INT_MAX -> fits_in out (Z.max 0 (n - k)) ->
  fill_to c k n (Text out m) = Some (Z.min n k - 1, Text (out ++ replicate (Z.to_nat (n - k)) (u8 c)) m).
Proof.
  intros Hk Hn Hfit. unfold fill_to. apply (countdown _ c k); [|done|done|done|lia|unfold fits_in in *; lia].
  intros j o Hj. unfold fill_round. by rewrite is_int_true by lia.
Qed.

Lemma put_all_text cs : forall out, fits_in out (length cs) -> put_all cs (Text out m) = Some (Text (out ++ (u8 <$> cs)) m).
Proof.
  induction cs as [|c cs IH]; intros out Hfit; cbn [put_all fmap list_fmap]; [by rewrite app_nil_r|].
  unfold fits_in in *. cbn [length] in Hfit. rewrite put_text by (unfold fits_in; lia). cbn [mbind option_bind].
  rewrite IH by (rewrite length_app; cbn; lia). by rewrite <- app_assoc.
Qed.

End loops.

(** ** Digits *)

(** The digits of [n] in [base], least significant first. *)
Definition is_digits (base : Z) (ds : list Z) (n : Z) : Prop :=
  Forall (fun d => 0 <= d < base) ds /\ foldr (fun d v => d + base * v) 0 ds = n.

(** Zero is the one digit 0; any other number starts with another digit. *)
Definition no_leading_zeros (n : Z) (ds : list Z) : Prop := (n = 0 -> ds = [0]) /\ (0 < n -> last ds <> Some 0).

Lemma digits_bound base ds n : 2 <= base -> is_digits base ds n -> 0 <= n < base ^ length ds.
Proof.
  intros Hb [Hd <-]. induction Hd as [|d ds Hd Hds IH]; cbn [foldr length]; [done|].
  rewrite Nat2Z.inj_succ, Z.pow_succ_r by lia. nia.
Qed.

(** The character of a digit. *)
Definition digit_chars (digits : list Z) (ds tmp : list Z) : Prop :=
  Forall2 (fun d c => digits !! Z.to_nat d = Some c) ds tmp.

Lemma digit_loop digits base (k : nat) : forall value done tmp fuel,
  2 <= base <= length digits -> 0 <= value < base ^ k -> length tmp + k <= 65 -> (k < fuel)%nat ->
  digit_chars digits done tmp ->
  exists ds tmp', iter fuel (digit_round digits base) (value, tmp) = Some (tmp ++ tmp') /\
    digit_chars digits ds tmp' /\ is_digits base ds value /\ (length ds <= k)%nat /\ (0 < value -> last ds <> Some 0).
Proof.
  induction k as [|k IH]; intros value dn tmp fuel Hb Hv Hl Hf Hdn; (destruct fuel as [|fuel]; [lia|]); cbn [iter]; unfold digit_round at 1.
  - assert (value = 0) as -> by (cbn in Hv; lia). cbn. exists [], []. rewrite app_nil_r. split; [done|]. split; [constructor|].
    split; [by split; [constructor|]|]. split; [done|lia].
  - destruct (Z.eqb_spec value 0) as [->|Hnz].
    + exists [], []. rewrite app_nil_r. split; [done|]. split; [constructor|]. split; [by split; [constructor|]|]. split; [cbn; lia|lia].
    + pose proof (Z.mod_pos_bound value base ltac:(lia)) as Hmod. pose proof (Z.div_mod value base ltac:(lia)) as Hdm.
      destruct (lookup_lt_is_Some_2 digits (Z.to_nat (value mod base))) as [c Hc]; [lia|]. rewrite Hc. cbn [mbind option_bind].
      rewrite (proj2 (Z.ltb_lt (length tmp) 66)) by lia.
      rewrite Nat2Z.inj_succ, Z.pow_succ_r in Hv by lia.
      destruct (IH (value / base) (dn ++ [value mod base]) (tmp ++ [c]) fuel Hb) as (ds & tmp' & E & Hch & Hds & Hlen & Hlast).
      * split; [apply Z.div_pos; lia|apply Z.div_lt_upper_bound; lia].
      * rewrite length_app. cbn. lia.
      * lia.
      * apply Forall2_app; [done|]. by constructor.
      * exists (value mod base :: ds), (c :: tmp'). rewrite E, <- app_assoc. split; [done|]. split; [by constructor|]. split; [|split; [cbn; lia|]].
        -- destruct Hds as [Hd Hv']. split; [by constructor|]. cbn [foldr]. rewrite Hv'. lia.
        -- intros _. destruct ds as [|d ds].
           ++ cbn. intros [= E0]. destruct Hds as [_ Hz]. cbn in Hz. lia.
           ++ cbn. apply Hlast. destruct (Z.lt_ge_cases 0 (value / base)) as [|Hle]; [done|].
              exfalso. assert (Hz : value / base = 0) by (pose proof (Z.div_pos value base); lia). rewrite Hz in *.
              destruct fuel; [lia|]. cbn in E. injection E as E. apply (f_equal length) in E. rewrite !length_app in E.
              apply Forall2_length in Hch. cbn in *. lia.
Qed.

Lemma digits_of_correct digits base n :
  2 <= base <= length digits -> is_u64 n -> head digits = Some (chr "0") ->
  exists ds tmp, digits_of digits base n = Some tmp /\ digit_chars digits ds tmp /\ is_digits base ds n /\
    1 <= length tmp <= 64 /\ no_leading_zeros n ds.
Proof.
  intros Hb Hn Hz. unfold digits_of, is_u64 in *. destruct (Z.eqb_spec n 0) as [->|Hnz].
  - exists [0], [chr "0"]. split; [done|]. split; [constructor; [by destruct digits|constructor]|]. split; [|split; [cbn; lia|split; [done|lia]]].
    split; [|cbn; lia]. constructor; [lia|constructor].
  - assert (2 ^ 64 <= base ^ 64) by (apply Z.pow_le_mono_l; lia).
    destruct (digit_loop digits base 64 n [] [] 66 Hb) as (ds & tmp & E & Hch & Hds & Hlen & Hlast); [lia|cbn; lia|lia|constructor|].
    exists ds, tmp. cbn [app] in E. pose proof (Forall2_length _ _ _ Hch) as HL. unfold no_leading_zeros. split_and!; try done; [|lia].
    destruct tmp; [|cbn; lia]. destruct ds; [|done]. destruct Hds as [_ Hz']. cbn in Hz'. lia.
Qed.

(** ** Flags *)

Lemma has_lor a b t : has (Z.lor a b) t = has a t || has b t.
Proof.
  unfold has. rewrite Z.land_lor_distr_r. destruct (Z.eqb_spec (Z.land t a) 0) as [->|Ha]; cbn [negb orb].
  - by rewrite Z.lor_0_l.
  - rewrite (proj2 (Z.eqb_neq _ 0)); [done|]. intros [? _]%Z.lor_eq_0_iff. done.
Qed.

(** Clearing [ZEROPAD] changes no other flag. *)
Lemma has_clear_zeropad b t : Z.land b ZEROPAD = 0 -> has b (Z.land t (Z.lnot ZEROPAD)) = has b t.
Proof.
  intros Hb. unfold has. do 2 f_equal. rewrite <- Z.land_assoc. f_equal. apply Z.bits_inj'. intros i Hi.
  apply (f_equal (fun z => Z.testbit z i)) in Hb. rewrite Z.land_spec, Z.bits_0 in Hb. rewrite Z.land_spec, Z.lnot_spec by done.
  by destruct (Z.testbit b i), (Z.testbit ZEROPAD i).
Qed.

Lemma has_zeropad_cleared t : has ZEROPAD (Z.land t (Z.lnot ZEROPAD)) = false.
Proof. unfold has. rewrite <- Z.land_assoc. by rewrite Z.land_0_r. Qed.

(** ** The text of an integer conversion *)

Definition digit_table (type : Z) : list Z := if has LARGE type then large_digits else small_digits.

Definition sign_text (num type : Z) : list Z :=
  if has SIGN type then
    if num <? 0 then [chr "-"] else if has PLUS type then [chr "+"] else if has SPACE type then [chr " "] else []
  else [].

Definition prefix_text (base type : Z) : list Z :=
  if has SPECIAL type then
    if base =? 16 then [chr "0"; if has LARGE type then chr "X" else chr "x"]
    else if base =? 8 then [chr "0"] else []
  else [].

Definition magnitude (num type : Z) : Z := if has SIGN type && (num <? 0) then - num else u64 num.

(** Sign, prefix and digits in a field of [width] characters: digits at the
    right unless [LEFT], filled with blanks, or with zeros between prefix and
    digits when [ZEROPAD] is given and [LEFT] is not. *)
Definition layout (sign prefix body : list Z) (width type : Z) : list Z :=
  let n := Z.to_nat (width - Z.of_nat (length (sign ++ prefix ++ body))) in
  if has LEFT type then sign ++ prefix ++ body ++ replicate n (chr " ")
  else if has ZEROPAD type then sign ++ prefix ++ replicate n (chr "0") ++ body
  else replicate n (chr " ") ++ sign ++ prefix ++ body.

Lemma layout_length sign prefix body width type :
  Z.of_nat (length (layout sign prefix body width type)) = Z.max width (length (sign ++ prefix ++ body)).
Proof. unfold layout. destruct (has LEFT type), (has ZEROPAD type); rewrite !length_app, !length_replicate; lia. Qed.

(** A field that is not wider than its text has no filling. *)
Lemma layout_narrow sign prefix body width type :
  width <= length (sign ++ prefix ++ body) -> layout sign prefix body width type = sign ++ prefix ++ body.
Proof.
  intros Hw. unfold layout. replace (Z.to_nat _) with 0%nat by lia. cbn [replicate app]. rewrite app_nil_r.
  by destruct (has LEFT type), (has ZEROPAD type).
Qed.

Lemma digit_table_facts type : length (digit_table type) = 36%nat /\ head (digit_table type) = Some (chr "0") /\
  Forall is_byte (digit_table type) /\ digit_table type !! 33%nat = Some (if has LARGE type then chr "X" else chr "x").
Proof.
  unfold digit_table. destruct (has LARGE type); (split; [done|]); (split; [done|]); (split; [|done]);
    apply (bool_decide_unpack (Forall is_byte _)); by vm_compute.
Qed.

Lemma table_bytes type ds tmp : digit_chars (digit_table type) ds tmp -> u8 <$> reverse tmp = reverse tmp.
Proof.
  intros Hd. assert (Hb : Forall is_byte tmp).
  { destruct (digit_table_facts type) as (_ & _ & Ht & _). rewrite Forall_lookup in Ht.
    clear -Hd Ht. induction Hd; constructor; [by eapply Ht|done]. }
  rewrite fmap_reverse. f_equal. clear -Hb. induction Hb as [|c tmp Hc _ IH]; [done|]. cbn. rewrite IH. f_equal.
  unfold u8, is_byte in *. by apply Z.mod_small.
Qed.

Lemma sign_of_text num size type :
  (has SIGN type = true -> - 2 ^ 63 < num) -> -1 <= size <= INT_MAX ->
  exists sign, sign_of num size type = Some (sign, if has SIGN type && (num <? 0) then - num else num, size - length (sign_text num type)) /\
    sign_text num type = (if sign =? 0 then [] else [sign]) /\ u8 sign = sign.
Proof.
  intros Hnum Hs. unfold sign_of, sign_text. destruct (has SIGN type); cbn [andb]; [|exists 0; cbn; rewrite Z.sub_0_r; done].
  specialize (Hnum eq_refl). rewrite is_int_true by lia.
  destruct (Z.ltb_spec num 0).
  - rewrite (proj2 (Z.eqb_neq num (- 2 ^ 63))) by lia. exists (chr "-"). done.
  - destruct (has PLUS type); [exists (chr "+"); done|]. destruct (has SPACE type); [exists (chr " "); done|].
    exists 0. cbn [length]. by rewrite Z.sub_0_r.
Qed.

Lemma put_sign m out sign : fits_in out (length (if sign =? 0 then [] else [sign])) -> u8 sign = sign ->
  (if sign =? 0 then Some (Text out m) else put sign (Text out m)) =
  Some (Text (out ++ (if sign =? 0 then [] else [sign])) m).
Proof.
  intros Hf Hu. destruct (Z.eqb_spec sign 0); [by rewrite app_nil_r|]. rewrite put_text by done. by rewrite Hu.
Qed.

Lemma put_prefix m out base type :
  fits_in out (length (prefix_text base type)) ->
  (if has SPECIAL type then
     if base =? 8 then put (chr "0") (Text out m)
     else if base =? 16 then
       let* o := put (chr "0") (Text out m) in
       let* x := digit_table type !! 33%nat in put x o
     else Some (Text out m)
   else Some (Text out m)) = Some (Text (out ++ prefix_text base type) m).
Proof.
  destruct (digit_table_facts type) as (_ & _ & _ & H33). unfold prefix_text.
  destruct (has SPECIAL type); [|by rewrite app_nil_r]. destruct (Z.eqb_spec base 8) as [->|]; [intros Hf; cbn [Z.eqb] in *; by rewrite put_text|].
  destruct (Z.eqb_spec base 16) as [->|]; [|by rewrite app_nil_r]. unfold fits_in. cbn [length]. intros Hf.
  rewrite put_text by (unfold fits_in; lia). cbn [mbind option_bind]. rewrite H33. cbn [mbind option_bind].
  rewrite put_text by (unfold fits_in; rewrite length_app; cbn; lia). rewrite <- app_assoc. by destruct (has LARGE type).
Qed.

(** The last three loops, from the blanks or zeros before the digits on. *)
Lemma number_tail m out type (left_ : bool) c size i precision tmp ds :
  digit_chars (digit_table type) ds tmp -> i = Z.of_nat (length tmp) -> i <= precision <= 2 ^ 30 -> - 2 ^ 30 - 100 <= size <= 2 ^ 30 ->
  u8 c = c -> fits_in out (Z.max 0 size + precision) ->
  (let* '(size, o) := if left_ then Some (size, Text out m) else pad c size (Text out m) in
   let* '(_, o) := fill_to (chr "0") i precision o in
   let* o := put_all (reverse tmp) o in
   let* '(_, o) := pad (chr " ") size o in
   Some (inl o : text + unit)) =
  Some (inl (Text (out ++ (if left_ then [] else replicate (Z.to_nat size) c) ++ replicate (Z.to_nat (precision - i)) (chr "0") ++
    reverse tmp ++ (if left_ then replicate (Z.to_nat size) (chr " ") else [])) m)).
Proof.
  intros Hd Hi Hp Hs Hc Hf. unfold fits_in in Hf. assert (Hmax : INT_MAX = 2 ^ 31 - 1) by done.
  assert (Hrest : forall out' size', length out' + Z.max 0 size' + precision <= INT_MAX -> - 2 ^ 30 - 200 <= size' <= 2 ^ 30 ->
    (let* '(_, o) := fill_to (chr "0") i precision (Text out' m) in
     let* o := put_all (reverse tmp) o in
     let* '(_, o) := pad (chr " ") size' o in Some (inl o : text + unit)) =
    Some (inl (Text (out' ++ replicate (Z.to_nat (precision - i)) (chr "0") ++ reverse tmp ++ replicate (Z.to_nat size') (chr " ")) m))).
  { intros out' size' Hf' Hs'. rewrite fill_to_text; [|lia|lia|unfold fits_in; lia]. cbn [mbind option_bind].
    rewrite put_all_text by (unfold fits_in; rewrite length_app, length_replicate, length_reverse; lia). cbn [mbind option_bind].
    rewrite (table_bytes type ds tmp Hd).
    rewrite pad_text; [|lia|unfold fits_in; rewrite !length_app, length_replicate, length_reverse; lia]. cbn [mbind option_bind].
    change (u8 (chr "0")) with (chr "0"). change (u8 (chr " ")) with (chr " "). by rewrite <- !app_assoc. }
  destruct left_; cbn [mbind option_bind].
  - rewrite Hrest by lia. done.
  - rewrite pad_text; [|lia|unfold fits_in; lia]. cbn [mbind option_bind]. rewrite Hrest; [|rewrite length_app, length_replicate; lia|lia].
    rewrite Hc. replace (Z.to_nat (Z.min size 0 - 1)) with 0%nat by lia. cbn [replicate]. by rewrite <- !app_assoc.
Qed.

(** [number] prints its layout. *)
Lemma number_text m out num base width precision type :
  2 <= base <= 36 -> (has SIGN type = true -> - 2 ^ 63 < num) -> - 2 ^ 63 <= num < 2 ^ 63 ->
  -1 <= width <= 2 ^ 30 -> -1 <= precision <= 2 ^ 30 -> fits_in out (2 ^ 30 + 100) ->
  exists ds tmp, digit_chars (digit_table type) ds tmp /\ is_digits base ds (magnitude num type) /\
    no_leading_zeros (magnitude num type) ds /\ 1 <= length tmp <= 64 /\
    number (Text out m) num base width precision type =
      Some (inl (Text (out ++ layout (sign_text num type) (prefix_text base type)
        (replicate (Z.to_nat (precision - length tmp)) (chr "0") ++ reverse tmp) width type) m)).
Proof.
  intros Hb Hsg Hnum Hw Hp Hf. assert (Hmax : INT_MAX = 2 ^ 31 - 1) by done. unfold number. fold (digit_table type).
  set (ty := if has LEFT type then _ else _).
  assert (Hty : forall b, Z.land b ZEROPAD = 0 -> has b ty = has b type).
  { intros b Hb0. unfold ty. destruct (has LEFT type); [by apply has_clear_zeropad|done]. }
  assert (Hzp : has ZEROPAD ty = has ZEROPAD type && negb (has LEFT type)).
  { unfold ty. destruct (has LEFT type); [rewrite has_zeropad_cleared; by rewrite andb_false_r|by rewrite andb_true_r]. }
  rewrite (proj2 (Z.ltb_ge base 2)), (proj2 (Z.ltb_ge 36 base)) by lia. cbn [orb].
  assert (Esg : sign_of num width ty = sign_of num width type) by (unfold sign_of; by rewrite !Hty).
  destruct (sign_of_text num width type Hsg ltac:(lia)) as (sign & Es & Est & Hu8). rewrite Esg, Es. cbn [mbind option_bind].
  rewrite !Hty by done.
  assert (Epre : (if has SPECIAL type then if base =? 16 then width - length (sign_text num type) - 2
      else if base =? 8 then width - length (sign_text num type) - 1 else width - length (sign_text num type)
      else width - length (sign_text num type)) = width - length (sign_text num type) - length (prefix_text base type)).
  { unfold prefix_text. destruct (has SPECIAL type); [|cbn; lia]. destruct (base =? 16); [cbn; lia|]. destruct (base =? 8); cbn; lia. }
  rewrite Epre. assert (Hsl : length (sign_text num type) <= 1) by (rewrite Est; destruct (sign =? 0); cbn; lia).
  assert (Hpl : length (prefix_text base type) <= 2).
  { unfold prefix_text. destruct (has SPECIAL type); [|cbn; lia]. destruct (base =? 16); [cbn; lia|]. destruct (base =? 8); cbn; lia. }
  rewrite is_int_true by lia.
  assert (Emag : u64 (if has SIGN type && (num <? 0) then - num else num) = magnitude num type).
  { unfold magnitude. destruct (has SIGN type) eqn:Es'; cbn [andb]; [|done]. specialize (Hsg eq_refl).
    destruct (Z.ltb_spec num 0); [|done]. apply u64_id. unfold is_u64. lia. }
  rewrite Emag. destruct (digit_table_facts type) as (Hlen & Hhd & _).
  destruct (digits_of_correct (digit_table type) base (magnitude num type)) as (ds & tmp & -> & Hch & Hds & Hl & Hlast);
    [rewrite Hlen; lia|rewrite <- Emag; apply u64_range|done|]. cbn [mbind option_bind].
  exists ds, tmp. split; [done|]. split; [done|]. split; [done|]. split; [done|].
  set (sg := sign_text num type) in *. set (pre := prefix_text base type) in *.
  assert (Epr : (if precision <? length tmp then Z.of_nat (length tmp) else precision) = Z.max precision (length tmp)) by (case_cmp; lia).
  rewrite Epr. set (P := Z.max precision (length tmp)). set (n := width - length sg - length pre - P).
  rewrite is_int_true by (unfold n, P; lia).
  change (ZEROPAD + LEFT) with (Z.lor ZEROPAD LEFT). rewrite has_lor, Hzp, Hty by done.
  assert (Hn : Z.to_nat (width - Z.of_nat (length (sg ++ pre ++ replicate (Z.to_nat (precision - length tmp)) (chr "0") ++ reverse tmp))) = Z.to_nat n).
  { rewrite !length_app, length_replicate, length_reverse. unfold n, P. lia. }
  unfold layout. rewrite Hn. unfold fits_in in Hf.
  assert (Hbody : Z.to_nat (P - length tmp) = Z.to_nat (precision - length tmp)) by (unfold P; lia).
  destruct (has LEFT type) eqn:HL; cbn [andb orb negb]; [|destruct (has ZEROPAD type) eqn:HZ; cbn [andb orb negb]].
  - rewrite andb_false_r. cbn [orb mbind option_bind].
    rewrite put_sign by (rewrite <- ?Est; unfold fits_in; fold sg; lia || done). rewrite <- Est. fold sg. cbn [mbind option_bind].
    rewrite put_prefix by (unfold fits_in; fold pre; rewrite length_app; lia). fold pre. cbn [mbind option_bind].
    pose proof (number_tail m ((out ++ sg) ++ pre) type true (chr " ") n _ P tmp ds Hch eq_refl ltac:(unfold P; lia) ltac:(unfold n, P; lia) eq_refl) as Ht.
    cbn [mbind option_bind] in Ht. rewrite Ht by (unfold fits_in; rewrite !length_app; unfold n, P; lia).
    rewrite Hbody. cbn [app]. by rewrite <- !app_assoc.
  - cbn [mbind option_bind].
    rewrite put_sign by (rewrite <- ?Est; unfold fits_in; fold sg; lia || done). rewrite <- Est. fold sg. cbn [mbind option_bind].
    rewrite put_prefix by (unfold fits_in; fold pre; rewrite length_app; lia). fold pre. cbn [mbind option_bind].
    rewrite (number_tail m _ type false (chr "0") n _ P tmp ds); [|done|done|unfold P; lia|unfold n, P; lia|done|unfold fits_in; rewrite !length_app; unfold n, P; lia].
    rewrite Hbody. rewrite app_nil_r. by rewrite <- !app_assoc.
  - rewrite pad_text; [|unfold n, P; lia|unfold fits_in, n, P; lia]. cbn [mbind option_bind]. change (u8 (chr " ")) with (chr " ").
    rewrite put_sign; [|rewrite <- Est; unfold fits_in; fold sg; rewrite length_app, length_replicate; unfold n, P; lia|done]. rewrite <- Est. fold sg. cbn [mbind option_bind].
    rewrite put_prefix by (unfold fits_in; fold pre; rewrite !length_app, length_replicate; unfold n, P; lia). fold pre. cbn [mbind option_bind].
    rewrite (number_tail m _ type false (chr " ") (Z.min n 0 - 1) _ P tmp ds);
      [|done|done|unfold P; lia|unfold n, P; lia|done|unfold fits_in; rewrite !length_app, length_replicate; unfold n, P; lia].
    replace (Z.to_nat (Z.min n 0 - 1)) with 0%nat by lia. rewrite Hbody. cbn [replicate app]. rewrite app_nil_r. by rewrite <- !app_assoc.
Qed.

(** ** Reading numbers back *)

Lemma load8_nth m p bs (k : nat) c a : bytes_at m p bs -> bs !! k = Some c -> a = p + Z.of_nat k -> load8 m a = Some c.
Proof. intros Hb Hk ->. by apply Hb. Qed.

(** [c] is the character of digit [d] in [base]. *)
Definition reads (digit : Z -> Z) (base d c : Z) : Prop := isxdigit c = true /\ digit c = d /\ 0 <= d < base.

Lemma strto_loop digit base m z : (isxdigit z && (digit z <? base)) = false -> 0 < base ->
  forall es cs p v fuel, Forall2 (reads digit base) es cs -> bytes_at m p (cs ++ [z]) -> (length cs < fuel)%nat ->
  0 <= v -> foldl (fun v d => v * base + d) v es < 2 ^ 64 ->
  iter fuel (strto_round digit base m) (p, v) = Some (p + length cs, foldl (fun v d => v * base + d) v es).
Proof.
  intros Hz Hb es cs p v fuel Hr. revert p v fuel. induction Hr as [|d c es cs (Hx & Hd & Hrg) Hr IH]; intros p v fuel Hby Hf Hv Hlt;
    (destruct fuel as [|fuel]; [cbn in Hf; lia|]); cbn [iter foldl length] in *; unfold strto_round at 1.
  - rewrite (load8_nth m p _ 0 z p Hby eq_refl ltac:(lia)). cbn [mbind option_bind]. rewrite Hz. by rewrite Z.add_0_r.
  - rewrite (load8_nth m p _ 0 c p Hby eq_refl ltac:(lia)). cbn [mbind option_bind]. rewrite Hx, Hd, (proj2 (Z.ltb_lt d base)) by lia. cbn [andb].
    assert (Hmono : forall es v, Forall2 (reads digit base) es cs -> 0 <= v -> v <= foldl (fun v d => v * base + d) v es).
    { clear -Hb. intros es w Hr. revert w. induction Hr as [|e c' es cs (_ & _ & ?) Hr IH]; intros w Hw; cbn [foldl]; [lia|].
      specialize (IH (w * base + e) ltac:(nia)). nia. }
    specialize (Hmono es (v * base + d) Hr ltac:(nia)). rewrite (u64_id (v * base)) by (unfold is_u64; nia). rewrite u64_id by (unfold is_u64; nia).
    rewrite IH; [do 2 f_equal; lia| |lia|nia|done].
    intros i b Hi. specialize (Hby (Datatypes.S i) b Hi). by replace (p + 1 + Z.of_nat i) with (p + Z.of_nat (Datatypes.S i)) by lia.
Qed.

Lemma foldl_digits base ds : foldl (fun v d => v * base + d) 0 (reverse ds) = foldr (fun d v => d + base * v) 0 ds.
Proof.
  induction ds as [|d ds IH]; [done|]. rewrite reverse_cons, foldl_app. cbn [foldl foldr]. rewrite IH. lia.
Qed.

(** The digits both tables share with the parsers. *)
Lemma table_reads type base d c : base <= 16 -> 0 <= d < base -> digit_table type !! Z.to_nat d = Some c ->
  reads digit_ul base d c /\ reads digit_ull base d c.
Proof.
  intros Hb Hd Hc. assert (Hall : forallb (fun k : nat => match digit_table type !! k with
      | Some c => isxdigit c && (digit_ul c =? k) && (digit_ull c =? k) | None => false end) (seq 0 16) = true).
  { unfold digit_table. by destruct (has LARGE type); vm_compute. }
  rewrite forallb_forall in Hall. specialize (Hall (Z.to_nat d)). rewrite Hc in Hall.
  specialize (Hall ltac:(apply list_elem_of_In, elem_of_seq; lia)). bool_prop. unfold reads. split_and!; (done || lia).
Qed.

Lemma printed_reads digit type base ds tmp :
  digit = digit_ul \/ digit = digit_ull -> base <= 16 -> digit_chars (digit_table type) ds tmp -> Forall (fun d => 0 <= d < base) ds ->
  Forall2 (reads digit base) (reverse ds) (reverse tmp).
Proof.
  intros Hdg Hb Hch Hd. apply Forall2_reverse. induction Hch as [|d c ds tmp Hc Hch IH]; constructor.
  - apply Forall_cons in Hd as [Hd _]. destruct (table_reads type base d c Hb Hd Hc) as [? ?]. by destruct Hdg as [->| ->].
  - apply Forall_cons in Hd as [_ Hd]. by apply IH.
Qed.

(** Printed digits followed by anything that is not a digit of the base. *)
Lemma strto_printed digit type base ds tmp n m p z :
  digit = digit_ul \/ digit = digit_ull -> 2 <= base <= 16 -> is_u64 n -> digit_chars (digit_table type) ds tmp -> is_digits base ds n ->
  bytes_at m p (reverse tmp ++ [z]) -> (isxdigit z && (digit z <? base)) = false ->
  strto digit p 0 base m = Some (n, m).
Proof.
  intros Hdg Hb Hn Hch [Hd Hv] Hby Hz. unfold strto, guess_base. rewrite (proj2 (Z.eqb_neq base 0)) by lia. cbn [mbind option_bind].
  pose proof (bytes_size _ _ _ Hby) as Hsz. rewrite length_app in Hsz. cbn in Hsz.
  rewrite (strto_loop digit base m z Hz ltac:(lia) (reverse ds) (reverse tmp)); [| |done|unfold reach; lia|lia|].
  - cbn. by rewrite foldl_digits, Hv.
  - by eapply printed_reads; [done|lia|..].
  - rewrite foldl_digits, Hv. unfold is_u64 in Hn. lia.
Qed.
