(* ===== verification/VsprintfSpec.v ===== *)
(** * The promises of the formatter and the number parsers *)

From Stdlib Require Import Ascii String.
From S2P Require Import Prelude Mem Vsprintf VsprintfProof VsprintfNumber.

(** ** Following a format string *)

(** Reads the format at offset [k]. *)
Ltac read_at Hb k :=
  match type of Hb with bytes_at ?m ?p ?bs =>
    match goal with |- context [load8 m ?a] =>
      let c := eval vm_compute in (default 0 (bs !! k)) in
      rewrite (load8_nth m p bs k c a Hb eq_refl ltac:(lia)) end end; cbn [mbind option_bind].

(** Decides the tests on the character just read. *)
Ltac tests := repeat match goal with
  | |- context [if ?b then _ else _] => let v := eval vm_compute in b in
      match v with true => change b with true | false => change b with false end; cbn iota
  end.

Lemma iter_S {S R : Type} (n : nat) (f : S -> option (S + R)) s :
  (0 < n)%nat -> iter n f s = match f s with Some (inl s') => iter (pred n) f s' | Some (inr r) => Some r | None => None end.
Proof. intros. destruct n; [lia|]. cbn. by destruct (f s) as [[]|]. Qed.

(** ["%ld"] prints the sign and the digits. *)
Lemma format_ld null fmt ro n :
  bytes_at ro fmt (bytes_of "%ld"%string ++ [0]) -> - 2 ^ 63 < n < 2 ^ 63 ->
  exists ds tmp, digit_chars small_digits ds tmp /\ is_digits 10 ds (Z.abs n) /\ 1 <= length tmp <= 64 /\
    format null fmt [Arg64 n] (Text [] ro) = Some (Text ((if n <? 0 then [chr "-"] else []) ++ reverse tmp) ro).
Proof.
  intros Hb Hn. pose proof (bytes_size _ _ _ Hb) as Hsz. change (length _) with 4%nat in Hsz.
  destruct (number_text ro [] n 10 (-1) (-1) SIGN) as (ds & tmp & Hch & Hds & _ & Hl & E);
    [lia|intros; lia|lia|lia|lia|unfold fits_in, INT_MAX; cbn [length]; lia|].
  assert (Emag : magnitude n SIGN = Z.abs n).
  { unfold magnitude. change (has SIGN SIGN) with true. cbn [andb]. destruct (Z.ltb_spec n 0); [lia|]. rewrite u64_id; [lia|]. unfold is_u64. lia. }
  rewrite Emag in Hds. exists ds, tmp. split; [exact Hch|]. split; [done|]. split; [done|].
  unfold format. rewrite iter_S by (unfold reach; lia). unfold format_round at 1. cbn [memory_of text_sink t_mem].
  read_at Hb 0%nat. tests. cbn [negb].
  rewrite iter_S by (unfold reach; lia). unfold flags_round at 1. read_at Hb 1%nat. tests. cbn [mbind option_bind].
  unfold parse_width. read_at Hb 1%nat. tests. cbn [mbind option_bind].
  unfold parse_precision. read_at Hb 1%nat. tests. cbn [mbind option_bind].
  unfold parse_qualifier. read_at Hb 1%nat. tests. cbn [mbind option_bind].
  unfold convert. cbn [memory_of text_sink t_mem]. read_at Hb 2%nat. tests. cbn [mbind option_bind].
  unfold conv_number, fetch_number, va_arg64. tests. cbn [mbind option_bind].
  assert (swrap 64 (u64 n) = n) as ->.
  { unfold swrap, u64. rewrite Z.add_mod_idemp_l by lia. change (2 ^ (64 - 1)) with (2 ^ 63). rewrite Z.mod_small by lia. lia. }
  change (Z.lor 0 SIGN) with SIGN. rewrite E. cbn [mbind option_bind].
  rewrite iter_S by (unfold reach; lia). unfold format_round at 1. cbn [memory_of text_sink t_mem]. read_at Hb 3%nat. tests.
  rewrite layout_narrow by lia. do 2 f_equal. replace (Z.to_nat (-1 - length tmp)) with 0%nat by lia.
  change (prefix_text 10 SIGN) with (@nil Z). cbn [replicate app]. by f_equal.
Qed.

(** ** The properties *)

(** C20. [vsnprintf] into a buffer of [size] bytes, for a format whose
    reference text is defined and reads only memory outside the buffer:
    it returns the length of the whole text, leaves the text truncated to
    [size - 1] characters and a NUL at the start of the buffer, and writes
    nothing outside the buffer (a [%n] pointer apart) nor behind the NUL; with
    [size = 0] it writes nothing at all. *)
Theorem vsnprintf_refines_text null buf size fmt args (ro m : mem) t :
  0 < buf -> buf + INT_MAX < 2 ^ 64 -> 0 <= size -> buf + size <= 2 ^ 64 ->
  mapped m buf size -> ro ⊆ m -> (forall x, buf <= x < buf + size -> ro !! x = None) ->
  format null fmt args (Text [] ro) = Some t ->
  exists m', vsnprintf null buf size fmt args m = Some (Z.of_nat (length (t_out t)), m') /\
    (0 < size -> bytes_at m' buf (take (Z.to_nat (size - 1)) (t_out t) ++ [0])) /\
    (forall x, buf + length (t_out t) < x < buf + size -> m' !! x = m !! x) /\ t_mem t ⊆ m' /\
    (forall x, ~ buf <= x < buf + size -> t_mem t !! x = None -> m' !! x = m !! x).
Proof.
  intros Hb Hr Hs He Hm Hsub Hap Hf.
  destruct (vsnprintf_correct null buf size fmt args ro m t Hb Hr Hs He Hm Hsub Hap Hf) as (_ & m' & E & [Hout Hrest] & Hrd & Hfr).
  by exists m'.
Qed.

(** C32. [number], for every number but the smallest [long long] as a signed
    one, every base from 2 to 36 and any flags, prints the sign, the base
    prefix and the digits of the magnitude in a field of [width] characters
    filled as the flags say.  The digits have no leading zeros (zero is the
    one digit 0) other than those that bring them up to [precision] digits;
    the text has exactly [max(width, needed)] characters. *)
Theorem number_prints_layout m out num base width precision type :
  2 <= base <= 36 -> (has SIGN type = true -> - 2 ^ 63 < num) -> - 2 ^ 63 <= num < 2 ^ 63 ->
  -1 <= width <= 2 ^ 30 -> -1 <= precision <= 2 ^ 30 -> length out + 2 ^ 30 + 100 <= INT_MAX ->
  exists ds tmp, digit_chars (digit_table type) ds tmp /\ is_digits base ds (magnitude num type) /\
    no_leading_zeros (magnitude num type) ds /\
    let body := replicate (Z.to_nat (precision - length tmp)) (chr "0") ++ reverse tmp in
    let txt := layout (sign_text num type) (prefix_text base type) body width type in
    number (Text out m) num base width precision type = Some (inl (Text (out ++ txt) m)) /\
    Z.of_nat (length txt) = Z.max width (length (sign_text num type ++ prefix_text base type ++ body)).
Proof.
  intros Hb Hsg Hn Hw Hp Hf. destruct (number_text m out num base width precision type Hb Hsg Hn Hw Hp) as (ds & tmp & ? & ? & ? & _ & E).
  - unfold fits_in. lia.
  - exists ds, tmp. split_and!; try done. cbn zeta. split; [exact E|apply layout_length].
Qed.

(** C33. Digits printed by [number] in a base from 2 to 16, in either case,
    are read back by [simple_strtoul] and [simple_strtoull] as the same
    number, for every 64-bit number, wherever the text is stored, as long as
    what follows it is not a digit of the base. *)
Theorem strtoul_reads_printed ro n base type m p z :
  is_u64 n -> 2 <= base <= 16 -> has SIGN type = false -> has SPECIAL type = false ->
  (isxdigit z && (digit_ul z <? base)) = false -> (isxdigit z && (digit_ull z <? base)) = false ->
  exists txt, number (Text [] ro) (swrap 64 n) base (-1) (-1) type = Some (inl (Text txt ro)) /\
    (bytes_at m p (txt ++ [z]) ->
     simple_strtoul p 0 base m = Some (n, m) /\ simple_strtoull p 0 base m = Some (n, m)).
Proof.
  intros Hn Hb Hsg Hsp Hz1 Hz2.
  assert (Hsw : - 2 ^ 63 <= swrap 64 n < 2 ^ 63).
  { unfold swrap. change (2 ^ (64 - 1)) with (2 ^ 63). pose proof (Z.mod_pos_bound (n + 2 ^ 63) (2 ^ 64)). lia. }
  destruct (number_text ro [] (swrap 64 n) base (-1) (-1) type) as (ds & tmp & Hch & Hds & _ & Hl & E);
    [lia|by rewrite Hsg|lia|lia|lia|unfold fits_in, INT_MAX; cbn [length]; lia|].
  assert (Emag : magnitude (swrap 64 n) type = n).
  { unfold magnitude. rewrite Hsg. cbn [andb]. unfold swrap, u64, is_u64 in *. change (2 ^ (64 - 1)) with (2 ^ 63).
    rewrite Zminus_mod_idemp_l. replace (n + 2 ^ 63 - 2 ^ 63) with n by lia. by apply Z.mod_small. }
  rewrite Emag in Hds. eexists. split; [exact E|].
  rewrite layout_narrow by lia. unfold sign_text, prefix_text. rewrite Hsg, Hsp. replace (Z.to_nat (-1 - length tmp)) with 0%nat by lia.
  cbn [replicate app]. intros Hby. unfold simple_strtoul, simple_strtoull.
  split; (eapply strto_printed; [by auto|lia|done|exact Hch|exact Hds|exact Hby|done]).
Qed.

(** C34. Round trip of a signed decimal through memory: for every [long]
    above LONG_MIN, [snprintf(buf, size, "%ld", n)] into a buffer that is
    large enough returns the number of characters, and
    [simple_strtol(buf, NULL, 10)] then returns [n]. *)
Theorem strtol_reads_snprintf null buf size fmt n (ro m : mem) :
  bytes_at ro fmt (bytes_of "%ld"%string ++ [0]) -> - 2 ^ 63 < n < 2 ^ 63 ->
  0 < buf -> buf + INT_MAX < 2 ^ 64 -> 66 <= size -> buf + size <= 2 ^ 64 ->
  mapped m buf size -> ro ⊆ m -> (forall x, buf <= x < buf + size -> ro !! x = None) ->
  exists len m', snprintf null buf size fmt [Arg64 n] m = Some (len, m') /\ 1 <= len < size /\
    m' !! (buf + len) = Some 0 /\ simple_strtol buf 0 10 m' = Some (n, m').
Proof.
  intros Hb Hn Hbuf Hroom Hs He Hm Hsub Hap. destruct (format_ld null fmt ro n Hb Hn) as (ds & tmp & Hch & Hds & Hl & E).
  destruct (vsnprintf_correct null buf size fmt [Arg64 n] ro m _ Hbuf Hroom ltac:(lia) He Hm Hsub Hap E) as (_ & m' & Ev & [Hout _] & _ & _).
  cbn [t_out] in *. set (sg := if n <? 0 then [chr "-"] else []) in *.
  assert (Hsg : length sg <= 1) by (unfold sg; destruct (n <? 0); cbn; lia).
  rewrite firstn_all2 in Hout by (rewrite length_app, length_reverse; lia). specialize (Hout ltac:(lia)).
  eexists _, m'. split; [exact Ev|]. rewrite length_app, length_reverse. split; [lia|]. split.
  { replace (buf + Z.of_nat (length sg + length tmp)) with (buf + Z.of_nat (length (sg ++ reverse tmp))) by (rewrite length_app, length_reverse; lia).
    apply Hout. by rewrite list_lookup_middle. }
  assert (Hdig : forall p, bytes_at m' p (reverse tmp ++ [0]) -> simple_strtoul p 0 10 m' = Some (Z.abs n, m')).
  { intros p Hp. eapply (strto_printed _ 0); [by left|lia|unfold is_u64; lia|exact Hch|exact Hds|exact Hp|done]. }
  unfold simple_strtol, sg in *. destruct (Z.ltb_spec n 0) as [Hneg|Hpos].
  - rewrite (load8_nth m' buf _ 0 (chr "-") buf Hout eq_refl ltac:(lia)). cbn [mbind option_bind]. change (chr "-" =? chr "-") with true. cbn iota.
    rewrite Hdig. 2:{ intros i b Hi. specialize (Hout (Datatypes.S i) b Hi). by replace (buf + 1 + Z.of_nat i) with (buf + Z.of_nat (Datatypes.S i)) by lia. }
    cbn [mbind option_bind]. do 2 f_equal. unfold swrap, u64. rewrite Z.add_mod_idemp_l by lia. change (2 ^ (64 - 1)) with (2 ^ 63).
    rewrite Z.mod_small by lia. lia.
  - cbn [app] in Hout. destruct (reverse tmp) as [|c rest] eqn:Er.
    { apply (f_equal length) in Er. rewrite length_reverse in Er. cbn in Er. lia. }
    rewrite (load8_nth m' buf _ 0 c buf Hout eq_refl ltac:(lia)). cbn [mbind option_bind].
    assert (Hc : (c =? chr "-") = false).
    { destruct Hds as [Hd _]. pose proof (printed_reads digit_ul 0 10 ds tmp ltac:(by left) ltac:(lia) Hch Hd) as Hr. rewrite Er in Hr.
      apply Forall2_cons_inv_r in Hr as (d & es & (Hx & _) & _ & _). destruct (Z.eqb_spec c (chr "-")) as [->|]; [by vm_compute in Hx|done]. }
    rewrite Hc, Hdig by done. cbn [mbind option_bind]. do 2 f_equal. unfold swrap. change (2 ^ (64 - 1)) with (2 ^ 63).
    rewrite Z.mod_small by lia. lia.
Qed.

(** ** Instances *)

(** A buffer of 80 bytes, a format, ["<NULL>"] and a string. *)
Definition at_buf : Z := 0x1000.
Definition at_fmt : Z := 0x2000.
Definition at_null : Z := 0x3000.
Definition at_str : Z := 0x4000.

Definition strings (f : string) : mem :=
  write at_fmt (bytes_of f ++ [0]) (write at_null (bytes_of "<NULL>"%string ++ [0])
    (write at_str (bytes_of "abcdef"%string ++ [0]) ∅)).

Definition sample_mem (f : string) : mem := write at_buf (replicate 80 0xaa) (strings f).

Lemma strings_apart f x : (String.length f < 0x800)%nat -> at_buf <= x < at_buf + 80 -> strings f !! x = None.
Proof.
  intros Hf Hx. unfold strings, at_buf, at_fmt, at_null, at_str in *.
  assert (Hlen : length (bytes_of f ++ [0]) = Datatypes.S (String.length f)).
  { rewrite length_app. unfold bytes_of. rewrite length_fmap. cbn.
    assert (El : forall g, length (list_ascii_of_string g) = String.length g) by (intros g; induction g as [|a g IH]; cbn; [done|by rewrite IH]).
    rewrite El. lia. }
  rewrite lookup_write_out by (rewrite Hlen; lia). rewrite !lookup_write_out by (cbn; lia). apply lookup_empty.
Qed.

Lemma strings_sub f : (String.length f < 0x800)%nat -> strings f ⊆ sample_mem f.
Proof.
  intros Hf. apply map_subseteq_spec. intros x v Hx. unfold sample_mem. rewrite lookup_write_out; [done|].
  rewrite length_replicate. destruct (decide (at_buf <= x < at_buf + 80)) as [Hin|]; [|lia].
  rewrite strings_apart in Hx by (done || lia). done.
Qed.

Lemma sample_buf_mapped f size : size <= 80 -> mapped (sample_mem f) at_buf size.
Proof.
  intros Hs x Hx. unfold sample_mem. rewrite lookup_write, length_replicate, decide_True by lia.
  exists 0xaa. apply lookup_replicate. split; [reflexivity|lia].
Qed.

Lemma vsnprintf_refines_text_witness :
  exists t m', format at_null at_fmt [Arg64 at_str; Arg32 42] (Text [] (strings "%s=%05d"%string)) = Some t /\
    vsnprintf at_null at_buf 8 at_fmt [Arg64 at_str; Arg32 42] (sample_mem "%s=%05d"%string) = Some (Z.of_nat (length (t_out t)), m') /\
    bytes_at m' at_buf (take 7 (t_out t) ++ [0]).
Proof.
  eexists. edestruct (vsnprintf_refines_text at_null at_buf 8 at_fmt [Arg64 at_str; Arg32 42] (strings "%s=%05d"%string)
    (sample_mem "%s=%05d"%string)) as (m' & E & Hout & _).
  - reflexivity.
  - reflexivity.
  - lia.
  - unfold at_buf. lia.
  - apply sample_buf_mapped. lia.
  - apply strings_sub. cbn. lia.
  - intros x Hx. apply strings_apart; [cbn; lia|unfold at_buf in *; lia].
  - vm_compute. reflexivity.
  - exists m'. split; [vm_compute; reflexivity|]. split; [exact E|]. apply Hout. lia.
Defined.

Lemma number_prints_layout_witness :
  exists ds tmp, digit_chars (digit_table (SIGN + ZEROPAD)) ds tmp /\ is_digits 10 ds 42 /\
    number (Text [] ∅) (-42) 10 8 (-1) (SIGN + ZEROPAD) =
      Some (inl (Text (layout [chr "-"] [] (reverse tmp) 8 (SIGN + ZEROPAD)) ∅)).
Proof.
  destruct (number_prints_layout ∅ [] (-42) 10 8 (-1) (SIGN + ZEROPAD)) as (ds & tmp & Hch & Hd & _ & E & _);
    [lia|intros _; lia|lia|lia|lia|vm_compute; discriminate|].
  exists ds, tmp. split; [exact Hch|]. split; [exact Hd|]. replace (Z.to_nat (-1 - length tmp)) with 0%nat in E by lia. exact E.
Defined.

Lemma strtoul_reads_printed_witness :
  exists txt, number (Text [] ∅) (swrap 64 0xfedcba9876543210) 16 (-1) (-1) LARGE = Some (inl (Text txt ∅)) /\
    simple_strtoul 0x100 0 16 (write 0x100 (txt ++ [0]) ∅) = Some (0xfedcba9876543210, write 0x100 (txt ++ [0]) ∅).
Proof.
  pose (T := strtoul_reads_printed ∅ 0xfedcba9876543210 16 LARGE).
  assert (E : number (Text [] ∅) (swrap 64 0xfedcba9876543210) 16 (-1) (-1) LARGE =
    Some (inl (Text (bytes_of "FEDCBA9876543210"%string) ∅))) by (vm_compute; reflexivity).
  exists (bytes_of "FEDCBA9876543210"%string). split; [exact E|].
  destruct (T (write 0x100 (bytes_of "FEDCBA9876543210"%string ++ [0]) ∅) 0x100 0) as (txt & E' & H);
    [unfold is_u64; lia|lia|reflexivity|reflexivity|reflexivity|reflexivity|].
  rewrite E in E'. injection E' as <-. apply H, bytes_at_written.
Defined.

Lemma strtol_reads_snprintf_witness :
  exists len m', snprintf at_null at_buf 80 at_fmt [Arg64 (-9223372036854775807)] (sample_mem "%ld"%string) = Some (len, m') /\
    simple_strtol at_buf 0 10 m' = Some (-9223372036854775807, m').
Proof.
  destruct (strtol_reads_snprintf at_null at_buf 80 at_fmt (-9223372036854775807) (strings "%ld"%string) (sample_mem "%ld"%string))
    as (len & m' & E & _ & _ & Es).
  - apply bytes_at_written.
  - lia.
  - reflexivity.
  - reflexivity.
  - lia.
  - unfold at_buf. lia.
  - apply sample_buf_mapped. lia.
  - apply strings_sub. cbn. lia.
  - intros x Hx. apply strings_apart; [cbn; lia|exact Hx].
  - exists len, m'. split; [exact E|exact Es].
Defined.

(** What the calls of the test program print. *)
Definition printed (size : Z) (f : string) (args : list arg) : option (Z * list Z) :=
  let* '(n, m) := vsnprintf at_null at_buf size at_fmt args (sample_mem f) in
  let* bs := load m at_buf (Z.to_nat (Z.min n (size - 1))) in
  Some (n, bs).

Definition prints (s : string) : option (Z * list Z) := Some (Z.of_nat (String.length s), bytes_of s).

Example printed_samples :
  printed 80 "%016lx"%string [Arg64 0xffffffc000080800] = prints "ffffffc000080800"%string /\
  printed 80 "%d|%u"%string [Arg32 (-42); Arg32 4000000000] = prints "-42|4000000000"%string /\
  printed 80 "%x|%X|%o"%string [Arg32 0xdead; Arg32 0xbeef; Arg32 64] = prints "dead|BEEF|100"%string /\
  printed 80 "%.2s %s %c%%"%string [Arg64 at_str; Arg64 0; Arg32 65] = prints "ab <NULL> A%"%string /\
  printed 80 "%5d|%-5d|%05d"%string [Arg32 42; Arg32 42; Arg32 42] = prints "   42|42   |00042"%string /\
  printed 80 "%+d|% d|%hx"%string [Arg32 42; Arg32 42; Arg32 0x1beef] = prints "+42| 42|beef"%string /\
  printed 4 "%s"%string [Arg64 at_str] = Some (6, bytes_of "abc"%string).
Proof. vm_compute. repeat split. Qed.

(** The smallest [long] is negated as a signed number, which overflows; and a
    NULL buffer of size 0 is written to. *)
Example long_min_is_undefined : printed 80 "%ld"%string [Arg64 (- 2 ^ 63)] = None.
Proof. vm_compute. reflexivity. Qed.

Example null_buffer_is_written : vsnprintf at_null 0 0 at_fmt [] (sample_mem "a"%string) = None.
Proof. vm_compute. reflexivity. Qed.
