(* ===== verification/Mmu.v ===== *)
(** * The page tables ([mm/mmu.c])

    With the MMU off a table is a page of 64-bit words at a physical address.
    [tables] holds the words of the four static arrays of the file, by
    address; an access to any other address is [None].  The addresses of the
    arrays are chosen by the linker and are parameters.  Barriers and TLB
    maintenance have no effect in the model. *)

From S2P Require Import Prelude MemoryH.

Definition PTRS_PER_PGD : Z := 512.
Definition PTRS_PER_PMD : Z := 512.
Definition PTRS_PER_PTE : Z := 512.
Definition PGDIR_SHIFT : Z := 30.
Definition PMD_SHIFT : Z := 21.
Definition pgd_index (addr : Z) : Z := Z.land (Z.shiftr addr PGDIR_SHIFT) (PTRS_PER_PGD - 1).
Definition pmd_index (addr : Z) : Z := Z.land (Z.shiftr addr PMD_SHIFT) (PTRS_PER_PMD - 1).
Definition pte_index (addr : Z) : Z := Z.land (Z.shiftr addr PAGE_SHIFT) (PTRS_PER_PTE - 1).
Definition PTE_ADDR_MASK : Z := 0x0000fffffffff000.
Definition PMD_TYPE_TABLE : Z := 3.
Definition PTE_TYPE_PAGE : Z := 3.
Definition PTE_ATTRINDX (t : Z) : Z := Z.shiftl t 2.
Definition PTE_USER : Z := Z.shiftl 1 6.
Definition PTE_RDONLY : Z := Z.shiftl 1 7.
Definition PTE_SHARED : Z := Z.shiftl 3 8.
Definition PTE_AF : Z := Z.shiftl 1 10.
Definition PTE_PXN : Z := Z.shiftl 1 53.
Definition PTE_UXN : Z := Z.shiftl 1 54.
Definition MT_DEVICE_nGnRnE : Z := 0.
Definition MT_NORMAL_NC : Z := 1.
Definition MAIR (attr mt : Z) : Z := u64 (Z.shiftl attr (mt * 8)).

(** Bitwise or of several words. *)
Definition bits (ws : list Z) : Z := foldr Z.lor 0 ws.

Definition PROT_DEFAULT : Z := bits [PTE_TYPE_PAGE; PTE_AF; PTE_SHARED].
Definition PROT_DEVICE_nGnRnE : Z := bits [PROT_DEFAULT; PTE_PXN; PTE_UXN; PTE_ATTRINDX MT_DEVICE_nGnRnE].
Definition PROT_NORMAL_NC : Z := bits [PROT_DEFAULT; PTE_PXN; PTE_UXN; PTE_ATTRINDX MT_NORMAL_NC].
Definition _PAGE_DEFAULT : Z := bits [PROT_DEFAULT; PTE_ATTRINDX MT_NORMAL_NC].
Definition PAGE_KERNEL : Z := PROT_NORMAL_NC.
Definition PAGE_KERNEL_RO : Z := bits [PAGE_KERNEL; PTE_RDONLY].
Definition PAGE_KERNEL_ROX : Z := bits [Z.land PAGE_KERNEL (u64 (Z.lnot PTE_PXN)); PTE_RDONLY].
Definition PAGE_SHARED : Z := bits [_PAGE_DEFAULT; PTE_USER; PTE_PXN; PTE_UXN].
Definition PAGE_READONLY_EXEC : Z := bits [_PAGE_DEFAULT; PTE_USER; PTE_RDONLY; PTE_PXN].

Definition EARLY_PGTABLES : Z := 6 + Z.shiftr RAM_SIZE PMD_SHIFT.

(** ** State *)

(** Where the linker put the static arrays (physical addresses). *)
Record statics := Statics {
  swapper_pg_dir : Z;
  idmap_pg_dir : Z;
  user_pg_dir : Z;
  early_pgtables : Z;
}.

Record sysregs := SysRegs {
  mair_el1 : Z;
  tcr_el1 : Z;
  ttbr0_el1 : Z;
  ttbr1_el1 : Z;
  sctlr_el1 : Z;
}.

Record mmu := Mmu {
  tables : gmap Z Z;
  early_pgtables_used : Z;
  sys : sysregs;
}.

Definition read_entry (a : Z) (m : mmu) : option Z := tables m !! a.

Definition write_entry (a v : Z) (m : mmu) : option mmu :=
  let* _ := tables m !! a in
  Some (Mmu (<[a := v]> (tables m)) (early_pgtables_used m) (sys m)).

Definition set_sys (r : sysregs) (m : mmu) : mmu := Mmu (tables m) (early_pgtables_used m) r.

(** ** Operations *)

Section mmu.
Context (k : image) (g : statics).

(** Indexing past the array is undefined. *)
Definition early_pgtable_alloc (m : mmu) : option (Z * mmu) :=
  let n := early_pgtables_used m in
  assert* n <? EARLY_PGTABLES in
  Some (early_pgtables g + n * (8 * PTRS_PER_PTE), Mmu (tables m) (u32 (n + 1)) (sys m)).

(** One level: [if (!*p) *p = early_pgtable_alloc() | PMD_TYPE_TABLE;] and the
    table that [*p] then refers to. *)
Definition next_level (p : Z) (m : mmu) : option (Z * mmu) :=
  let* d := read_entry p m in
  let* m :=
    if d =? 0 then
      let* '(t, m) := early_pgtable_alloc m in
      write_entry p (Z.lor t PMD_TYPE_TABLE) m
    else Some m in
  let* d := read_entry p m in
  Some (Z.land d PTE_ADDR_MASK, m).

(** The result is the address of the entry. *)
Definition walk_to_pte (pgdir addr : Z) (m : mmu) : option (Z * mmu) :=
  let* '(pmd, m) := next_level (pgdir + 8 * pgd_index addr) m in
  let* '(pte, m) := next_level (pmd + 8 * pmd_index addr) m in
  Some (pte + 8 * pte_index addr, m).

(** The loop; the state is [offset] and the tables. *)
Definition map_round (pgdir phys virt size prot : Z) (s : Z * mmu) : option ((Z * mmu) + mmu) :=
  let '(offset, m) := s in
  if offset <? size then
    let* '(p, m) := walk_to_pte pgdir (u64 (virt + offset)) m in
    let* m := write_entry p (Z.lor (u64 (phys + offset)) prot) m in
    Some (inl (u64 (offset + PAGE_SIZE), m))
  else Some (inr m).

Definition create_pgd_mapping (pgdir phys virt size prot : Z) (m : mmu) : option mmu :=
  iter (Datatypes.S (Z.to_nat size)) (map_round pgdir phys virt size prot) (0, m).

Definition map_kernel_segment (start finish prot : Z) (m : mmu) : option mmu :=
  create_pgd_mapping (swapper_pg_dir g) start (__va start) (u64 (finish - start)) prot m.

(** The loop over the application slots. *)
Definition slot_round (s : Z * mmu) : option ((Z * mmu) + mmu) :=
  let '(slot, m) := s in
  if slot <? APP_FIRST + APP_COUNT * APP_SLOT_SIZE then
    let stack := u64 (slot + APP_SLOT_SIZE - APP_STACK_SIZE) in
    let* m := create_pgd_mapping (user_pg_dir g) slot slot APP_IMAGE_SIZE PAGE_READONLY_EXEC m in
    let* m := create_pgd_mapping (user_pg_dir g) stack stack APP_STACK_SIZE PAGE_SHARED m in
    Some (inl (u64 (slot + APP_SLOT_SIZE), m))
  else Some (inr m).

(** The tables. *)
Definition build_tables (m : mmu) : option mmu :=
  let* m := create_pgd_mapping (swapper_pg_dir g) PHYS_OFFSET PAGE_OFFSET RAM_SIZE PAGE_KERNEL m in
  let* m := map_kernel_segment (_text k) (_etext k) PAGE_KERNEL_ROX m in
  let* m := map_kernel_segment (__start_rodata k) (__end_rodata k) PAGE_KERNEL_RO m in
  let* m := create_pgd_mapping (swapper_pg_dir g) 0x08000000 (IO_ADDRESS 0x08000000) 0x10000 PROT_DEVICE_nGnRnE m in
  let* m := create_pgd_mapping (swapper_pg_dir g) 0x080a0000 (IO_ADDRESS 0x080a0000) 0x20000 PROT_DEVICE_nGnRnE m in
  let* m := create_pgd_mapping (swapper_pg_dir g) 0x09000000 (IO_ADDRESS 0x09000000) PAGE_SIZE PROT_DEVICE_nGnRnE m in
  let* m := iter (Datatypes.S (Z.to_nat APP_COUNT)) slot_round (APP_FIRST, m) in
  let* d := read_entry (swapper_pg_dir g + 8 * pgd_index PAGE_OFFSET) m in
  write_entry (idmap_pg_dir g + 8 * pgd_index PHYS_OFFSET) d m.

(** The system registers. *)
Definition enable_mmu (r : sysregs) : sysregs :=
  {| mair_el1 := Z.lor (MAIR 0x00 MT_DEVICE_nGnRnE) (MAIR 0x44 MT_NORMAL_NC);
     tcr_el1 := bits [25; Z.shiftl 3 12; Z.shiftl 25 16; Z.shiftl 3 28; Z.shiftl 2 30];
     ttbr0_el1 := idmap_pg_dir g;
     ttbr1_el1 := swapper_pg_dir g;
     sctlr_el1 := Z.lor (Z.land (sctlr_el1 r)
       (u64 (Z.lnot (bits [Z.shiftl 1 1; Z.shiftl 1 2; Z.shiftl 1 12; Z.shiftl 1 19])))) 1 |}.

Definition mmu_init (m : mmu) : option mmu :=
  let* m := build_tables m in
  Some (set_sys (enable_mmu (sys m)) m).

(** Runs at the linked, virtual addresses: [user_pg_dir] is [__va] of its
    physical address. *)
Definition cpu_uninstall_idmap (m : mmu) : mmu :=
  set_sys {| mair_el1 := mair_el1 (sys m); tcr_el1 := tcr_el1 (sys m);
             ttbr0_el1 := __pa (__va (user_pg_dir g));
             ttbr1_el1 := ttbr1_el1 (sys m); sctlr_el1 := sctlr_el1 (sys m) |} m.

End mmu.

#[global] Arguments next_level : simpl never.
#[global] Arguments walk_to_pte : simpl never.
#[global] Arguments write_entry : simpl never.
#[global] Arguments read_entry : simpl never.
#[global] Arguments create_pgd_mapping : simpl never.

(** ** The translation the hardware performs

    As the comments of the file describe it: bit 55 selects the table, bits
    63:39 must all equal it, three levels of tables, a page descriptor at the
    last.  [None] is a walk that reads outside the tables; [Some None] is a
    fault. *)

Definition is_table (d : Z) : bool := Z.land d 3 =? 3.

(** The output address size is 32 bits (IPS = 0). *)
Definition in_range (d : Z) : bool := Z.land d PTE_ADDR_MASK <? 2 ^ 32.

(** Follows a table descriptor; an invalid one faults, and there are no block
    descriptors to follow. *)
Definition follow (d : Z) (next : Z -> option (option Z)) : option (option Z) :=
  if Z.land d 1 =? 0 then Some None
  else if negb (is_table d) then None
  else if in_range d then next (Z.land d PTE_ADDR_MASK) else Some None.

(** A page descriptor that is valid and has its access flag. *)
Definition page_descriptor (d : Z) : option Z :=
  if is_table d && in_range d && Z.testbit d 10 then Some d else None.

Definition hw_walk (w : gmap Z Z) (root va : Z) : option (option Z) :=
  let* d1 := w !! (root + 8 * pgd_index va) in
  follow d1 (fun t2 =>
    let* d2 := w !! (t2 + 8 * pmd_index va) in
    follow d2 (fun t3 =>
      let* d3 := w !! (t3 + 8 * pte_index va) in
      Some (page_descriptor d3))).

Record perms := Perms { p_r : bool; p_w : bool; p_x : bool }.

(** What a page descriptor grants: the frame, the rights at EL0 and EL1 and
    the memory attribute [MAIR_EL1] gives for it. *)
Record grant := Grant { frame : Z; el0 : perms; el1 : perms; attribute : Z }.

Definition decode (mair d : Z) : grant :=
  let user := Z.testbit d 6 in
  let rdonly := Z.testbit d 7 in
  let user_w := user && negb rdonly in
  {| frame := Z.land d PTE_ADDR_MASK;
     el0 := Perms user user_w (negb (Z.testbit d 54));
     el1 := Perms true (negb rdonly) (negb (Z.testbit d 53) && negb user_w);
     attribute := Z.land (Z.shiftr mair (8 * Z.land (Z.shiftr d 2) 7)) 255 |}.

(** The fields of [TCR_EL1] that the three-level walk depends on: T0SZ = T1SZ
    = 25, EPD0 = EPD1 = 0, 4 KiB granules (TG0 = 0, TG1 = 2), TBI0 = TBI1 = 0. *)
Definition tcr_ok (tcr : Z) : bool :=
  (Z.land tcr 63 =? 25) && (Z.land (Z.shiftr tcr 16) 63 =? 25) &&
  negb (Z.testbit tcr 7) && negb (Z.testbit tcr 23) &&
  (Z.land (Z.shiftr tcr 14) 3 =? 0) && (Z.land (Z.shiftr tcr 30) 3 =? 2) &&
  negb (Z.testbit tcr 37) && negb (Z.testbit tcr 38).

(** The physical address and the rights of an access to [va], with the MMU
    on and configured so. *)
Definition translate (m : mmu) (va : Z) : option (option (Z * grant)) :=
  let r := sys m in
  assert* Z.testbit (sctlr_el1 r) 0 && tcr_ok (tcr_el1 r) in
  let high := Z.shiftr va 39 in
  let* root :=
    if high =? 0 then Some (Some (ttbr0_el1 r))
    else if high =? 2 ^ 25 - 1 then Some (Some (ttbr1_el1 r)) else Some None in
  match root with
  | None => Some None
  | Some root =>
      let* d := hw_walk (tables m) root va in
      Some (match d with
      | None => None
      | Some d => let gr := decode (mair_el1 r) d in Some (frame gr + va mod PAGE_SIZE, gr)
      end)
  end.
