(* ===== verification/MmuProof.v ===== *)
(** * The page tables: proofs

    The words of the tables are related to a tree: [T] gives, for the path of
    indices from a root, the address of the table at the end of the path.
    [next_level] extends the tree, a store to a last-level entry changes the
    walk of exactly one page, and [create_pgd_mapping] therefore changes the
    walks of exactly the pages of its range. *)

From S2P Require Import Prelude MemoryH Mmu.

(** What the C compiler and the linker guarantee of the static arrays: page
    alignment, inside the kernel's image, no overlap. *)
Record statics_ok (k : image) (g : statics) : Prop := {
  g_aligned : (4096 | swapper_pg_dir g) /\ (4096 | idmap_pg_dir g) /\ (4096 | user_pg_dir g) /\ (4096 | early_pgtables g);
  g_range : Forall (fun a => __end_rodata k <= a /\ a + 4096 <= _end k) [swapper_pg_dir g; idmap_pg_dir g; user_pg_dir g] /\
    __end_rodata k <= early_pgtables g /\ early_pgtables g + EARLY_PGTABLES * 4096 <= _end k;
  g_apart : swapper_pg_dir g <> idmap_pg_dir g /\ swapper_pg_dir g <> user_pg_dir g /\ idmap_pg_dir g <> user_pg_dir g /\
    Forall (fun a => a + 4096 <= early_pgtables g \/ early_pgtables g + EARLY_PGTABLES * 4096 <= a)
      [swapper_pg_dir g; idmap_pg_dir g; user_pg_dir g];
}.

(** ** Indices and descriptors *)

(** The 27-bit number of the page of an address in its half. *)
Definition vpn (va : Z) : Z := va / 4096 mod 2 ^ 27.

Definition i1 (n : Z) : Z := n / 2 ^ 18.
Definition i2 (n : Z) : Z := n / 2 ^ 9 mod 512.
Definition i3 (n : Z) : Z := n mod 512.

Lemma land_511 z : Z.land z 511 = z mod 512.
Proof. change 511 with (Z.ones 9). by rewrite Z.land_ones by lia. Qed.

Lemma indices va : pgd_index va = i1 (vpn va) /\ pmd_index va = i2 (vpn va) /\ pte_index va = i3 (vpn va).
Proof.
  unfold pgd_index, pmd_index, pte_index, i1, i2, i3, vpn, PTRS_PER_PGD, PTRS_PER_PMD, PTRS_PER_PTE, PGDIR_SHIFT, PMD_SHIFT, PAGE_SHIFT.
  change (512 - 1) with 511. rewrite !land_511, !Z.shiftr_div_pow2 by lia.
  change (2 ^ 30) with 1073741824. change (2 ^ 21) with 2097152. change (2 ^ 12) with 4096. change (2 ^ 27) with 134217728.
  change (2 ^ 18) with 262144. change (2 ^ 9) with 512. split_and!; Z.div_mod_to_equations; lia.
Qed.

Lemma index_range n : 0 <= n < 2 ^ 27 -> 0 <= i1 n < 512 /\ 0 <= i2 n < 512 /\ 0 <= i3 n < 512.
Proof.
  unfold i1, i2, i3. change (2 ^ 27) with 134217728. change (2 ^ 18) with 262144. change (2 ^ 9) with 512. intros.
  split_and!; Z.div_mod_to_equations; lia.
Qed.

Lemma index_inj n n' : i1 n = i1 n' -> i2 n = i2 n' -> i3 n = i3 n' -> n = n'.
Proof.
  unfold i1, i2, i3. change (2 ^ 18) with 262144. change (2 ^ 9) with 512. intros. Z.div_mod_to_equations; lia.
Qed.

Lemma vpn_range va : 0 <= vpn va < 2 ^ 27.
Proof. apply Z.mod_pos_bound. lia. Qed.

(** Table and page addresses survive the attribute bits. *)
Lemma addr_mask a : (4096 | a) -> 0 <= a < 2 ^ 48 -> Z.land a PTE_ADDR_MASK = a.
Proof.
  intros [q ->] Ha. change PTE_ADDR_MASK with (Z.shiftl (Z.ones 36) 12). replace (q * 4096) with (Z.shiftl q 12) by (rewrite Z.shiftl_mul_pow2; lia).
  rewrite <- Z.shiftl_land, Z.land_ones by lia. f_equal. apply Z.mod_small. lia.
Qed.

Lemma desc_addr a prot :
  (4096 | a) -> 0 <= a < 2 ^ 48 -> Z.land prot PTE_ADDR_MASK = 0 -> Z.land (Z.lor a prot) PTE_ADDR_MASK = a.
Proof. intros. by rewrite Z.land_lor_distr_l, addr_mask, H1, Z.lor_0_r. Qed.

Lemma desc_bit a prot i :
  (4096 | a) -> 0 <= a < 2 ^ 48 -> (0 <= i < 12 \/ 48 <= i) -> Z.testbit (Z.lor a prot) i = Z.testbit prot i.
Proof.
  intros [q ->] Ha Hi. rewrite Z.lor_spec. replace (q * 4096) with (Z.shiftl q 12) in * by (rewrite Z.shiftl_mul_pow2; lia).
  assert (Z.testbit (Z.shiftl q 12) i = false) as ->; [|done].
  rewrite Z.shiftl_spec by lia. destruct Hi; [apply Z.testbit_neg_r; lia|].
  rewrite Z.shiftl_mul_pow2 in Ha by lia. destruct (decide (q = 0)) as [->|]; [apply Z.testbit_0_l|].
  apply Z.bits_above_log2; [lia|]. apply Z.log2_lt_pow2; [lia|].
  apply Z.lt_le_trans with (2 ^ 36); [lia|apply Z.pow_le_mono_r; lia].
Qed.

(** The low bits of a descriptor are those of its attributes. *)
Lemma desc_low a prot n :
  (4096 | a) -> 0 <= a < 2 ^ 48 -> 0 <= n <= 12 -> Z.land (Z.lor a prot) (Z.ones n) = Z.land prot (Z.ones n).
Proof.
  intros Ha Hr Hn. apply Z.bits_inj'. intros i Hi. rewrite !Z.land_spec. destruct (decide (i < n)).
  - rewrite desc_bit by (done || lia). done.
  - rewrite Z.ones_spec_high by lia. by rewrite !andb_false_r.
Qed.

Lemma table_desc a : (4096 | a) -> 0 <= a < 2 ^ 32 ->
  Z.lor a PMD_TYPE_TABLE <> 0 /\ Z.land (Z.lor a PMD_TYPE_TABLE) PTE_ADDR_MASK = a /\
  forall next, follow (Z.lor a PMD_TYPE_TABLE) next = next a.
Proof.
  intros Ha Hr. unfold PMD_TYPE_TABLE.
  assert (E : Z.land (Z.lor a 3) PTE_ADDR_MASK = a) by (apply desc_addr; [done|lia|reflexivity]).
  assert (E3 : Z.land (Z.lor a 3) 3 = 3) by (change 3 with (Z.ones 2) at 2; rewrite desc_low by (done || lia); reflexivity).
  assert (E1 : Z.land (Z.lor a 3) 1 = 1) by (change 1 with (Z.ones 1) at 1; rewrite desc_low by (done || lia); reflexivity).
  split_and!; [intros H0; by rewrite H0 in E3|exact E|]. intros next. unfold follow, is_table, in_range. rewrite E1, E3, E.
  rewrite (proj2 (Z.ltb_lt a (2 ^ 32))) by lia. done.
Qed.

(** ** The tree of tables *)

Section tree.
Context (k : image) (g : statics).
Hypothesis (Hk : image_ok k) (Hg : statics_ok k g).

(** The entries of [idmap_pg_dir], which the tree does not use. *)
Context (idm : Z -> Z).

(** Every table the mappings of [mmu_init] need: two roots and
    [EARLY_PGTABLES] tables below them. *)
Definition paths : list (list Z) :=
  [[swapper_pg_dir g]; [user_pg_dir g]; [swapper_pg_dir g; 0]; [swapper_pg_dir g; 0; 64]; [swapper_pg_dir g; 0; 72];
   [user_pg_dir g; 1]; [user_pg_dir g; 1; 8]; [swapper_pg_dir g; 256]] ++
  ((fun j : Z => [swapper_pg_dir g; 256; j]) <$> seqZ 0 64).

Definition tbl (n : Z) : Z := early_pgtables g + n * 4096.

Record tree (T : gmap (list Z) Z) (m : mmu) : Prop := {
  t_roots : T !! [swapper_pg_dir g] = Some (swapper_pg_dir g) /\ T !! [user_pg_dir g] = Some (user_pg_dir g);
  t_paths p : is_Some (T !! p) -> p ∈ paths;
  t_used : 0 <= early_pgtables_used m /\ early_pgtables_used m + 2 = Z.of_nat (size T);
  t_addr p a : T !! p = Some a ->
    (a = swapper_pg_dir g \/ a = user_pg_dir g) \/ exists n, 0 <= n < early_pgtables_used m /\ a = tbl n;
  t_inj p q a : T !! p = Some a -> T !! q = Some a -> p = q;
  t_parent p i : p <> [] -> is_Some (T !! (p ++ [i])) -> is_Some (T !! p);
  t_inner p a i : T !! p = Some a -> (length p <= 2)%nat -> 0 <= i < 512 ->
    tables m !! (a + 8 * i) = Some (match T !! (p ++ [i]) with Some b => Z.lor b PMD_TYPE_TABLE | None => 0 end);
  t_leaf p a i : T !! p = Some a -> length p = 3%nat -> 0 <= i < 512 -> is_Some (tables m !! (a + 8 * i));
  t_free n i : early_pgtables_used m <= n < EARLY_PGTABLES -> 0 <= i < 512 -> tables m !! (tbl n + 8 * i) = Some 0;
  t_idmap i : 0 <= i < 512 -> tables m !! (idmap_pg_dir g + 8 * i) = Some (idm i);
}.

Lemma tables_apart a b i j :
  (4096 | a) -> (4096 | b) -> 0 <= i < 512 -> 0 <= j < 512 -> a + 8 * i = b + 8 * j -> a = b.
Proof. intros [x ->] [y ->]. lia. Qed.

Lemma static_facts :
  (4096 | swapper_pg_dir g) /\ (4096 | user_pg_dir g) /\ (4096 | idmap_pg_dir g) /\
  0 < swapper_pg_dir g < 2 ^ 32 /\ 0 < user_pg_dir g < 2 ^ 32 /\ 0 < idmap_pg_dir g < 2 ^ 32 /\
  swapper_pg_dir g <> user_pg_dir g /\ idmap_pg_dir g <> swapper_pg_dir g /\ idmap_pg_dir g <> user_pg_dir g.
Proof using Hk Hg.
  destruct Hg as [(?&?&?&?) [Hr [??]] (?&?&?&_)]. destruct Hk as [Et ? _]. rewrite !Forall_cons in Hr. destruct Hr as ([??]&[??]&[??]&_).
  unfold PHYS_OFFSET, TEXT_OFFSET, APP_FIRST in *. split_and!; (done || lia).
Qed.

Lemma tbl_facts n : 0 <= n < EARLY_PGTABLES ->
  (4096 | tbl n) /\ 0 < tbl n < 2 ^ 32 /\ tbl n <> swapper_pg_dir g /\ tbl n <> user_pg_dir g /\ tbl n <> idmap_pg_dir g.
Proof using Hk Hg.
  intros Hn. destruct Hg as [(?&?&?&Ha) [_ [??]] (_&_&_&Hf)]. destruct Hk as [Et ? _]. rewrite !Forall_cons in Hf. destruct Hf as (?&?&?&_).
  unfold tbl, PHYS_OFFSET, TEXT_OFFSET, APP_FIRST in *. split_and!; try lia. apply Z.divide_add_r; [done|]. by exists n.
Qed.

Lemma paths_length : length paths = 72%nat.
Proof. reflexivity. Qed.

(** A list has at least as many elements as distinct ones. *)
Lemma size_list_set (ps : list (list Z)) : (size (list_to_set ps : gset (list Z)) <= length ps)%nat.
Proof.
  induction ps as [|q ps IH]; [done|]. cbn [list_to_set length]. rewrite size_union_alt, size_singleton.
  transitivity (1 + size (list_to_set ps : gset (list Z)))%nat; [|lia]. apply Nat.add_le_mono_l, subseteq_size. set_solver.
Qed.

Lemma tree_size T m : tree T m -> (size T <= 72)%nat.
Proof.
  intros Ht. rewrite <- size_dom, <- paths_length. transitivity (size (list_to_set paths : gset (list Z))).
  - apply subseteq_size. intros p Hp. apply elem_of_list_to_set, (t_paths T m Ht), elem_of_dom, Hp.
  - apply size_list_set.
Qed.

Lemma tree_room T m p : tree T m -> p ∈ paths -> T !! p = None -> early_pgtables_used m < EARLY_PGTABLES.
Proof.
  intros Ht Hp Hn. destruct (t_used T m Ht) as [_ E]. change EARLY_PGTABLES with 70.
  assert (Datatypes.S (size T) <= 72)%nat; [|lia]. rewrite <- size_dom, <- paths_length.
  transitivity (size (list_to_set paths : gset (list Z))).
  - assert ({[p]} ∪ dom T ⊆ (list_to_set paths : gset (list Z))) as Hsub.
    { intros q. rewrite elem_of_union, elem_of_singleton, elem_of_dom, elem_of_list_to_set. intros [-> |Hq]; [done|by apply (t_paths T m Ht)]. }
    apply subseteq_size in Hsub. rewrite size_union, size_singleton in Hsub; [done|].
    apply not_elem_of_dom in Hn. set_solver.
  - apply size_list_set.
Qed.

Lemma tree_addr T m p a : tree T m -> T !! p = Some a ->
  (4096 | a) /\ 0 < a < 2 ^ 32 /\ a <> idmap_pg_dir g /\ (forall n, early_pgtables_used m <= n < EARLY_PGTABLES -> a <> tbl n).
Proof using Hk Hg.
  intros Ht Hp. destruct static_facts as (?&?&?&?&?&?&?&?&?). destruct (t_used T m Ht) as [Hu Es]. pose proof (tree_size T m Ht).
  destruct (t_addr T m Ht p a Hp) as [[-> | ->]|(n & Hn & ->)].
  - split_and!; try (done || lia). intros n Hn. destruct (tbl_facts n) as (?&?&?&?&?); [lia|done].
  - split_and!; try (done || lia). intros n Hn. destruct (tbl_facts n) as (?&?&?&?&?); [lia|done].
  - destruct (tbl_facts n) as (?&?&?&?&?); [change EARLY_PGTABLES with 70; lia|]. split_and!; try (done || lia).
    intros n' Hn'. unfold tbl. lia.
Qed.

(** The entry cells of different tables are different. *)
Lemma cell_inj T m p q a b i j : tree T m -> T !! p = Some a -> T !! q = Some b ->
  0 <= i < 512 -> 0 <= j < 512 -> a + 8 * i = b + 8 * j -> p = q /\ i = j.
Proof using Hk Hg.
  intros Ht Hp Hq Hi Hj E. destruct (tree_addr T m p a Ht Hp) as [Ha _], (tree_addr T m q b Ht Hq) as [Hb _].
  assert (a = b) as -> by (by apply (tables_apart a b i j)). split; [by eapply t_inj|lia].
Qed.

Lemma cell_free T m p a n i j : tree T m -> T !! p = Some a -> early_pgtables_used m <= n < EARLY_PGTABLES ->
  0 <= i < 512 -> 0 <= j < 512 -> a + 8 * i <> tbl n + 8 * j.
Proof using Hk Hg.
  intros Ht Hp Hn Hi Hj E. destruct (tree_addr T m p a Ht Hp) as (Ha & _ & _ & Hne). apply (Hne n Hn).
  destruct (t_used T m Ht) as [? _]. destruct (tbl_facts n) as [Hb _]; [lia|]. by apply (tables_apart _ _ i j).
Qed.

Lemma cell_idmap T m p a i j : tree T m -> T !! p = Some a -> 0 <= i < 512 -> 0 <= j < 512 ->
  a + 8 * i <> idmap_pg_dir g + 8 * j.
Proof using Hk Hg.
  intros Ht Hp Hi Hj E. destruct (tree_addr T m p a Ht Hp) as (Ha & _ & Hne & _). apply Hne.
  destruct static_facts as (_ & _ & Hid & _). by apply (tables_apart _ _ i j).
Qed.

(** A new table under the entry [i] of the table [p]. *)
Lemma tree_grow T m p a i : tree T m -> T !! p = Some a -> p <> [] -> (length p <= 2)%nat -> 0 <= i < 512 ->
  p ++ [i] ∈ paths -> T !! (p ++ [i]) = None ->
  let b := tbl (early_pgtables_used m) in
  tree (<[p ++ [i] := b]> T)
    (Mmu (<[a + 8 * i := Z.lor b PMD_TYPE_TABLE]> (tables m)) (early_pgtables_used m + 1) (sys m)).
Proof using Hk Hg.
  intros Ht Hp Hp0 Hl Hi Hin Hnone b. pose proof (tree_room T m _ Ht Hin Hnone) as Hroom.
  destruct (t_used T m Ht) as [Hu Es]. set (u := early_pgtables_used m) in *.
  assert (Hfresh : forall q c, T !! q = Some c -> c <> b) by (intros q c Hq; apply (tree_addr T m q c Ht Hq); lia).
  assert (Hroot : forall r, (T !! [r] = Some r) -> <[p ++ [i] := b]> T !! [r] = Some r).
  { intros r Hr. rewrite lookup_insert_ne; [done|]. intros E. by rewrite E, Hr in Hnone. }
  split; cbn [tables early_pgtables_used].
  - destruct (t_roots T m Ht). split; by apply Hroot.
  - intros q. destruct (decide (q = p ++ [i])) as [-> |]; [done|]. rewrite lookup_insert_ne by done. apply (t_paths T m Ht).
  - split; [lia|]. rewrite map_size_insert_None by done. lia.
  - intros q c. destruct (decide (q = p ++ [i])) as [-> |].
    + rewrite lookup_insert_eq. intros [= <-]. right. exists u. split; [lia|done].
    + rewrite lookup_insert_ne by done. intros Hq. destruct (t_addr T m Ht q c Hq) as [|(n1 & ? & ->)]; [by left|]. right. exists n1. split; [lia|done].
  - intros q q' c. destruct (decide (q = p ++ [i])) as [-> |], (decide (q' = p ++ [i])) as [-> |];
      rewrite ?lookup_insert_eq, ?lookup_insert_ne by done; [done| | |apply (t_inj T m Ht)].
    + intros [= <-] Hq. by apply Hfresh in Hq.
    + intros Hq [= <-]. by apply Hfresh in Hq.
  - intros q j Hq. destruct (decide (q ++ [j] = p ++ [i])) as [E|].
    + intros _. apply app_inj_tail in E as [-> ->]. rewrite lookup_insert_ne; [by exists a|]. intros E. apply (f_equal length) in E. rewrite length_app in E. cbn in E. lia.
    + rewrite lookup_insert_ne by done. intros Hs. apply (t_parent T m Ht) in Hs; [|done]. destruct Hs as [c Hc]. destruct (decide (q = p ++ [i])) as [-> |].
      * by rewrite Hc in Hnone.
      * rewrite lookup_insert_ne by done. by exists c.
  - intros q c j. destruct (decide (q = p ++ [i])) as [-> |].
    + rewrite lookup_insert_eq. intros [= <-] _ Hj. rewrite lookup_insert_ne by (apply (cell_free T m p); (done || lia)).
      rewrite (t_free T m Ht u) by lia. rewrite lookup_insert_ne; [|intros E; apply (f_equal length) in E; rewrite !length_app in E; cbn in E; lia].
      destruct (T !! ((p ++ [i]) ++ [j])) eqn:E; [|done]. destruct (t_parent T m Ht (p ++ [i]) j) as [x Hx]; [by destruct p|by rewrite E|]. by rewrite Hx in Hnone.
    + rewrite lookup_insert_ne by done. intros Hq Hlq Hj. destruct (decide (q ++ [j] = p ++ [i])) as [E|Hne].
      * apply app_inj_tail in E as [-> ->]. rewrite Hp in Hq. injection Hq as <-. by rewrite !lookup_insert_eq.
      * rewrite (lookup_insert_ne T) by done. rewrite lookup_insert_ne; [by apply (t_inner T m Ht)|]. intros E.
        destruct (cell_inj T m p q a c i j Ht Hp Hq Hi Hj E) as [-> ->]. done.
  - intros q c j. destruct (decide (q = p ++ [i])) as [-> |].
    + rewrite lookup_insert_eq. intros [= <-] _ Hj. rewrite lookup_insert_ne by (apply (cell_free T m p); (done || lia)).
      rewrite (t_free T m Ht u) by lia. by eexists.
    + rewrite lookup_insert_ne by done. intros Hq Hlq Hj. apply lookup_insert_is_Some'. right. by apply (t_leaf T m Ht q).
  - intros n j Hn Hj. rewrite lookup_insert_ne by (apply (cell_free T m p); (done || lia)). apply (t_free T m Ht); lia.
  - intros j Hj. rewrite lookup_insert_ne by by apply (cell_idmap T m p). by apply (t_idmap T m Ht).
Qed.

(** A store to an entry of a last-level table. *)
Lemma tree_store T m p a i v : tree T m -> T !! p = Some a -> length p = 3%nat -> 0 <= i < 512 ->
  tree T (Mmu (<[a + 8 * i := v]> (tables m)) (early_pgtables_used m) (sys m)).
Proof using Hk Hg.
  intros Ht Hp Hl Hi. split; cbn [tables early_pgtables_used];
    [apply (t_roots T m Ht)|apply (t_paths T m Ht)|apply (t_used T m Ht)|apply (t_addr T m Ht)|apply (t_inj T m Ht)|apply (t_parent T m Ht)|..].
  - intros q b j Hq Hlq Hj. rewrite lookup_insert_ne; [by apply (t_inner T m Ht)|]. intros E.
    destruct (cell_inj T m p q a b i j Ht Hp Hq Hi Hj E) as [-> _]. lia.
  - intros q b j Hq Hlq Hj. apply lookup_insert_is_Some'. right. by apply (t_leaf T m Ht q).
  - intros n j Hn Hj. rewrite lookup_insert_ne by (apply (cell_free T m p); (done || lia)). by apply (t_free T m Ht).
  - intros j Hj. rewrite lookup_insert_ne by by apply (cell_idmap T m p). by apply (t_idmap T m Ht).
Qed.

(** ** Walks *)

(** The walk the hardware makes for page [n], read off the tree. *)
Definition walk_of (T : gmap (list Z) Z) (m : mmu) (r n : Z) : option (option Z) :=
  match T !! [r; i1 n; i2 n] with
  | None => Some None
  | Some a => let* d := tables m !! (a + 8 * i3 n) in Some (page_descriptor d)
  end.

Definition is_root (r : Z) : Prop := r = swapper_pg_dir g \/ r = user_pg_dir g.

Lemma tree_root T m r : tree T m -> is_root r -> T !! [r] = Some r.
Proof. intros Ht. destruct (t_roots T m Ht). by intros [-> | ->]. Qed.

Lemma walk_tree T m r va : tree T m -> is_root r -> hw_walk (tables m) r va = walk_of T m r (vpn va).
Proof using Hk Hg.
  intros Ht Hr. destruct (indices va) as (E1 & E2 & E3), (index_range (vpn va) (vpn_range va)) as (H1 & H2 & H3).
  unfold hw_walk, walk_of. rewrite E1, E2, E3, (t_inner T m Ht [r] r) by (by apply (tree_root T m) || (cbn; lia) || done).
  cbn [mbind option_bind app]. destruct (T !! [r; i1 (vpn va)]) as [b|] eqn:Eb.
  - destruct (tree_addr T m _ b Ht Eb) as (Hb & Hb' & _). destruct (table_desc b Hb) as (_ & _ & ->); [lia|].
    rewrite (t_inner T m Ht [r; i1 (vpn va)] b) by (done || (cbn; lia)). cbn [mbind option_bind app].
    destruct (T !! [r; i1 (vpn va); i2 (vpn va)]) as [c|] eqn:Ec; [|done].
    destruct (tree_addr T m _ c Ht Ec) as (Hc & Hc' & _). destruct (table_desc c Hc) as (_ & _ & ->); [lia|done].
  - destruct (T !! [r; i1 (vpn va); i2 (vpn va)]) as [c|] eqn:Ec; [|done].
    destruct (t_parent T m Ht [r; i1 (vpn va)] (i2 (vpn va))) as [x Hx]; [done|by exists c|]. by rewrite Hx in Eb.
Qed.

(** A new table is empty, so it changes no walk. *)
Lemma walk_grow T m p a i r n : tree T m -> T !! p = Some a -> p <> [] -> (length p <= 2)%nat -> 0 <= i < 512 ->
  p ++ [i] ∈ paths -> T !! (p ++ [i]) = None -> 0 <= n < 2 ^ 27 ->
  let b := tbl (early_pgtables_used m) in
  walk_of (<[p ++ [i] := b]> T)
    (Mmu (<[a + 8 * i := Z.lor b PMD_TYPE_TABLE]> (tables m)) (early_pgtables_used m + 1) (sys m)) r n = walk_of T m r n.
Proof using Hk Hg.
  intros Ht Hp Hp0 Hl Hi Hin Hnone Hn b. pose proof (tree_room T m _ Ht Hin Hnone) as Hroom. destruct (t_used T m Ht) as [Hu _].
  destruct (index_range n Hn) as (H1 & H2 & H3). unfold walk_of. cbn [tables].
  destruct (decide ([r; i1 n; i2 n] = p ++ [i])) as [E|Hne].
  - rewrite E, lookup_insert_eq, Hnone. rewrite lookup_insert_ne by (apply (cell_free T m p); (done || lia)).
    unfold b. by rewrite (t_free T m Ht) by lia.
  - rewrite lookup_insert_ne by done. destruct (T !! [r; i1 n; i2 n]) as [c|] eqn:Ec; [|done].
    rewrite lookup_insert_ne; [done|]. intros E. destruct (cell_inj T m p _ a c i (i3 n) Ht Hp Ec Hi H3 E) as [-> _]. cbn in Hl. lia.
Qed.

(** A store to the entry of page [n] changes the walk of page [n] only. *)
Lemma walk_store T m r n a v r' n' : tree T m -> T !! [r; i1 n; i2 n] = Some a -> 0 <= n < 2 ^ 27 -> 0 <= n' < 2 ^ 27 ->
  walk_of T (Mmu (<[a + 8 * i3 n := v]> (tables m)) (early_pgtables_used m) (sys m)) r' n' =
    if decide (r' = r /\ n' = n) then Some (page_descriptor v) else walk_of T m r' n'.
Proof using Hk Hg.
  intros Ht Ha Hn Hn'. destruct (index_range n Hn) as (H1 & H2 & H3), (index_range n' Hn') as (H1' & H2' & H3').
  unfold walk_of. cbn [tables]. case_decide as Hd.
  - destruct Hd as [-> ->]. by rewrite Ha, lookup_insert_eq.
  - destruct (T !! [r'; i1 n'; i2 n']) as [c|] eqn:Ec; [|done]. rewrite lookup_insert_ne; [done|]. intros E.
    destruct (cell_inj T m _ _ a c _ _ Ht Ha Ec H3 H3' E) as [Eq E3]. simplify_eq. apply Hd. split; [done|by apply index_inj].
Qed.

Lemma paths_parent r i j : [r; i; j] ∈ paths -> [r; i] ∈ paths.
Proof.
  unfold paths. rewrite !elem_of_app, list_elem_of_fmap. intros [Hin|(x & E & _)].
  - left. set_unfold. naive_solver.
  - simplify_eq. left. set_solver.
Qed.

Lemma next_level_spec T m p a i : tree T m -> T !! p = Some a -> p <> [] -> (length p <= 2)%nat -> 0 <= i < 512 ->
  p ++ [i] ∈ paths ->
  exists b T' m', next_level g (a + 8 * i) m = Some (b, m') /\ tree T' m' /\ T' !! (p ++ [i]) = Some b /\ sys m' = sys m /\
    forall r n, 0 <= n < 2 ^ 27 -> walk_of T' m' r n = walk_of T m r n.
Proof using Hk Hg.
  intros Ht Hp Hp0 Hl Hi Hin. destruct (T !! (p ++ [i])) as [b|] eqn:Eb.
  - destruct (tree_addr T m _ b Ht Eb) as (Hb & Hb' & _). destruct (table_desc b Hb) as (Hnz & Hmask & _); [lia|].
    exists b, T, m. split_and!; try done. unfold next_level, read_entry. rewrite (t_inner T m Ht p a i), Eb by done.
    cbn [mbind option_bind]. rewrite (proj2 (Z.eqb_neq _ _) Hnz). cbn [mbind option_bind].
    rewrite (t_inner T m Ht p a i), Eb by done. cbn [mbind option_bind]. by rewrite Hmask.
  - pose proof (tree_room T m _ Ht Hin Eb) as Hroom. destruct (t_used T m Ht) as [Hu _].
    set (u := early_pgtables_used m) in *. destruct (tbl_facts u) as (Hb & Hb' & _); [lia|].
    destruct (table_desc (tbl u) Hb) as (_ & Hmask & _); [lia|].
    eexists (tbl u), _, _. split; [|split; [by eapply (tree_grow T m p a i)|]].
    + unfold next_level, read_entry. rewrite (t_inner T m Ht p a i), Eb by done. cbn [mbind option_bind].
      change (0 =? 0) with true. cbn iota. unfold early_pgtable_alloc, write_entry. fold u.
      rewrite (proj2 (Z.ltb_lt u EARLY_PGTABLES)) by done. cbn [mbind option_bind tables early_pgtables_used sys].
      rewrite (t_inner T m Ht p a i), Eb by done. cbn [mbind option_bind tables early_pgtables_used sys].
      change (early_pgtables g + u * (8 * PTRS_PER_PTE)) with (tbl u). rewrite lookup_insert_eq. cbn [mbind option_bind].
      rewrite Hmask, u32_id by (unfold is_u32; change EARLY_PGTABLES with 70 in Hroom; lia). done.
    + split; [apply lookup_insert_eq|]. split; [done|]. intros r n Hn. by apply walk_grow.
Qed.

Lemma walk_to_pte_spec T m r va : tree T m -> is_root r -> [r; i1 (vpn va); i2 (vpn va)] ∈ paths ->
  exists a T' m', walk_to_pte g r va m = Some (a + 8 * i3 (vpn va), m') /\ tree T' m' /\
    T' !! [r; i1 (vpn va); i2 (vpn va)] = Some a /\ sys m' = sys m /\
    forall r n, 0 <= n < 2 ^ 27 -> walk_of T' m' r n = walk_of T m r n.
Proof using Hk Hg.
  intros Ht Hr Hin. destruct (indices va) as (E1 & E2 & E3), (index_range (vpn va) (vpn_range va)) as (H1 & H2 & H3).
  unfold walk_to_pte. rewrite E1, E2, E3.
  destruct (next_level_spec T m [r] r (i1 (vpn va))) as (b & T1 & m1 & -> & Ht1 & Hb & Hs1 & Hw1);
    [done|by apply (tree_root T m)|done|cbn; lia|done|by eapply paths_parent|].
  cbn [mbind option_bind app] in *.
  destruct (next_level_spec T1 m1 [r; i1 (vpn va)] b (i2 (vpn va))) as (c & T2 & m2 & -> & Ht2 & Hc & Hs2 & Hw2);
    [done|done|done|cbn; lia|done|done|].
  cbn [mbind option_bind]. exists c, T2, m2. split_and!; [done|done|done|congruence|]. intros r' n Hn. by rewrite Hw2, Hw1.
Qed.

(** The page tables hold the descriptors [W]. *)
Definition holds_map (W : Z -> Z -> option Z) (m : mmu) : Prop :=
  exists T, tree T m /\ forall r n, is_root r -> 0 <= n < 2 ^ 27 -> walk_of T m r n = Some (W r n).

Definition map_range (pgdir phys v0 cnt prot : Z) (W : Z -> Z -> option Z) (r n : Z) : option Z :=
  if decide (r = pgdir /\ v0 <= n < v0 + cnt) then page_descriptor (Z.lor (phys + (n - v0) * 4096) prot) else W r n.

Lemma map_page W m r va d : holds_map W m -> is_root r -> [r; i1 (vpn va); i2 (vpn va)] ∈ paths ->
  exists p m1 m2, walk_to_pte g r va m = Some (p, m1) /\ write_entry p d m1 = Some m2 /\ sys m2 = sys m /\
    holds_map (fun r' n => if decide (r' = r /\ n = vpn va) then page_descriptor d else W r' n) m2.
Proof using Hk Hg.
  intros (T & Ht & HW) Hr Hin. destruct (walk_to_pte_spec T m r va Ht Hr Hin) as (a & T' & m' & Ew & Ht' & Ha & Hs & Hw).
  destruct (index_range (vpn va) (vpn_range va)) as (H1 & H2 & H3). destruct (t_leaf T' m' Ht' _ a (i3 (vpn va)) Ha eq_refl H3) as [old Eold].
  eexists _, m', _. split; [exact Ew|]. unfold write_entry. rewrite Eold. cbn [mbind option_bind]. split; [done|]. split; [done|].
  exists T'. split; [by eapply tree_store|]. intros r' n Hr' Hn. rewrite (walk_store T' m' r (vpn va) a d r' n) by (done || apply vpn_range).
  case_decide; [done|]. rewrite Hw by done. by apply HW.
Qed.

Lemma vpn_add virt j : (4096 | virt) -> 0 <= virt -> 0 <= j -> vpn virt + j < 2 ^ 27 -> vpn (virt + j * 4096) = vpn virt + j.
Proof.
  intros [q ->] Hv Hj. unfold vpn. rewrite <- Z.mul_add_distr_r, !Z.div_mul by lia. change (2 ^ 27) with 134217728.
  intros. Z.div_mod_to_equations; lia.
Qed.

Lemma holds_map_ext W W' m : (forall r n, is_root r -> 0 <= n < 2 ^ 27 -> W r n = W' r n) -> holds_map W m -> holds_map W' m.
Proof. intros E (T & Ht & HW). exists T. split; [done|]. intros r n Hr Hn. rewrite <- E by done. by apply HW. Qed.

Lemma create_pgd_mapping_spec W m pgdir phys virt cnt prot :
  holds_map W m -> is_root pgdir -> (4096 | virt) -> 0 <= virt -> 0 <= phys -> 0 <= cnt ->
  virt + cnt * 4096 <= 2 ^ 64 -> phys + cnt * 4096 < 2 ^ 64 -> vpn virt + cnt <= 2 ^ 27 ->
  (forall n, vpn virt <= n < vpn virt + cnt -> [pgdir; i1 n; i2 n] ∈ paths) ->
  exists m', create_pgd_mapping g pgdir phys virt (cnt * 4096) prot m = Some m' /\ sys m' = sys m /\
    holds_map (map_range pgdir phys (vpn virt) cnt prot W) m'.
Proof using Hk Hg.
  intros HW Hr Hal Hv Hp Hc Hve Hpe Hn Hin. unfold create_pgd_mapping.
  apply (iter_rule
    (fun s => exists j, 0 <= j <= cnt /\ s.1 = j * 4096 /\ sys s.2 = sys m /\ holds_map (map_range pgdir phys (vpn virt) j prot W) s.2)
    (fun m' => sys m' = sys m /\ holds_map (map_range pgdir phys (vpn virt) cnt prot W) m')
    (fun s => Z.to_nat (cnt * 4096 - s.1))).
  - intros [offset m1] (j & Hj & Eo & Hs & Hm). cbn [fst snd] in *. subst offset. unfold map_round.
    destruct (Z.ltb_spec (j * 4096) (cnt * 4096)) as [Hlt|Hge].
    + left. unwrap. assert (Ev : vpn (virt + j * 4096) = vpn virt + j) by (apply vpn_add; (done || lia)).
      destruct (map_page _ m1 pgdir (virt + j * 4096) (Z.lor (phys + j * 4096) prot) Hm Hr) as (p & m2 & m3 & -> & E3 & Hs3 & Hm3).
      { rewrite Ev. apply Hin. lia. }
      cbn [mbind option_bind]. rewrite E3. cbn [mbind option_bind].
      assert (Eo : u64 (j * 4096 + PAGE_SIZE) = (j + 1) * 4096) by (change PAGE_SIZE with 4096; unwrap; lia).
      eexists. split; [done|]. cbn [fst snd]. rewrite Eo. split; [|lia]. exists (j + 1). split_and!; try (lia || congruence).
      eapply holds_map_ext; [|exact Hm3]. intros r n _ _. rewrite Ev. unfold map_range.
      repeat case_decide; (try done); (try lia). do 2 f_equal. lia.
    + right. assert (j = cnt) as -> by lia. eauto.
  - exists 0. split_and!; (try lia); (try done). eapply holds_map_ext; [|exact HW]. intros r n _ _. unfold map_range. rewrite decide_False by lia. done.
  - cbn [fst]. lia.
Qed.

End tree.

(** ** The identity map *)

Section idmap.
Context (k : image) (g : statics).
Hypothesis (Hk : image_ok k) (Hg : statics_ok k g).

Lemma tree_idmap idm T m i d : tree g idm T m -> 0 <= i < 512 ->
  tree g (fun j => if decide (j = i) then d else idm j) T
    (Mmu (<[idmap_pg_dir g + 8 * i := d]> (tables m)) (early_pgtables_used m) (sys m)).
Proof using Hk Hg.
  intros Ht Hi. split; cbn [tables early_pgtables_used];
    [apply (t_roots _ _ T m Ht)|apply (t_paths _ _ T m Ht)|apply (t_used _ _ T m Ht)|apply (t_addr _ _ T m Ht)
    |apply (t_inj _ _ T m Ht)|apply (t_parent _ _ T m Ht)|..].
  - intros p a j Hp Hl Hj. rewrite lookup_insert_ne; [by apply (t_inner _ _ T m Ht)|]. apply not_eq_sym, (cell_idmap k g Hk Hg idm T m p); done.
  - intros p a j Hp Hl Hj. apply lookup_insert_is_Some'. right. by apply (t_leaf _ _ T m Ht p).
  - intros n j Hn Hj. destruct (t_used _ _ T m Ht). rewrite lookup_insert_ne; [by apply (t_free _ _ T m Ht)|].
    destruct (static_facts k g Hk Hg) as (_ & _ & Hid & _). destruct (tbl_facts k g Hk Hg n) as (Hal & _ & _ & _ & Hne); [lia|].
    intros E. apply Hne. symmetry. by apply (tables_apart _ _ i j).
  - intros j Hj. case_decide as E; [subst; apply lookup_insert_eq|]. rewrite lookup_insert_ne by lia. by apply (t_idmap _ _ T m Ht).
Qed.

(** With one entry that refers to the table of entry [q] of [swapper_pg_dir],
    the identity map translates a page as [swapper_pg_dir] translates the
    page at the same place under entry [q]. *)
Lemma walk_idmap idm T m i q a va : tree g idm T m -> T !! [swapper_pg_dir g; q] = Some a -> 0 <= q < 512 ->
  (forall j, idm j = if decide (j = i) then Z.lor a PMD_TYPE_TABLE else 0) ->
  hw_walk (tables m) (idmap_pg_dir g) va =
    if decide (i1 (vpn va) = i) then walk_of T m (swapper_pg_dir g) (q * 2 ^ 18 + vpn va mod 2 ^ 18) else Some None.
Proof using Hk Hg.
  intros Ht Ha Hq Hidm. destruct (indices va) as (E1 & E2 & E3), (index_range (vpn va) (vpn_range va)) as (H1 & H2 & H3).
  unfold hw_walk. rewrite E1, E2, E3, (t_idmap _ _ T m Ht) by done. cbn [mbind option_bind]. rewrite Hidm. case_decide as Ei; [|done].
  destruct (tree_addr k g Hk Hg idm T m _ a Ht Ha) as (Hal & Hr & _). destruct (table_desc a Hal) as (_ & _ & ->); [lia|].
  rewrite (t_inner _ _ T m Ht _ a (i2 (vpn va)) Ha) by (done || (cbn; lia)). cbn [mbind option_bind app].
  set (n := q * 2 ^ 18 + vpn va mod 2 ^ 18).
  assert (i1 n = q /\ i2 n = i2 (vpn va) /\ i3 n = i3 (vpn va)) as (En1 & En2 & En3).
  { clear -Hq. unfold n, i1, i2, i3. change (2 ^ 18) with 262144. change (2 ^ 9) with 512.
    pose proof (vpn_range va). split_and!; Z.div_mod_to_equations; lia. }
  unfold walk_of. rewrite En1, En2, En3. destruct (T !! [swapper_pg_dir g; q; i2 (vpn va)]) as [c|] eqn:Ec; [|done].
  destruct (tree_addr k g Hk Hg idm T m _ c Ht Ec) as (Hc & Hc' & _). destruct (table_desc c Hc) as (_ & _ & ->); [lia|done].
Qed.

End idmap.
