(* ===== verification/MmuSpec.v ===== *)
(** * The page tables: properties

    The address map that [mmu.c] documents, written as functions from
    virtual addresses to grants, and the proof that the tables [mmu_init]
    builds translate exactly so. *)

From S2P Require Import Prelude MemoryH Mmu MmuProof.

(** ** The documented map *)

Definition none : perms := Perms false false false.
Definition ro : perms := Perms true false false.
Definition rw : perms := Perms true true false.
Definition rx : perms := Perms true false true.

Definition NC : Z := 0x44.
Definition DEVICE : Z := 0x00.

Definition within (a lo n : Z) : bool := (lo <=? a) && (a <? lo + n).

(** The translation of [va] to [pa]. *)
Definition grants (pa : Z) (p0 p1 : perms) (attr : Z) : option (Z * grant) :=
  Some (pa, Grant (pa - pa mod PAGE_SIZE) p0 p1 attr).

(** TTBR1: the linear map with its text and read-only data, and the devices. *)
Definition kernel_view (k : image) (va : Z) : option (Z * grant) :=
  let pa := va - PAGE_OFFSET + PHYS_OFFSET in
  let io := va - IO_OFFSET in
  if within va PAGE_OFFSET RAM_SIZE then
    grants pa none
      (if within pa (__start_rodata k) (__end_rodata k - __start_rodata k) then ro
       else if within pa (_text k) (_etext k - _text k) then rx else rw) NC
  else if within io 0x08000000 0x10000 || within io 0x080a0000 0x20000 || within io 0x09000000 0x1000
  then grants io none rw DEVICE else None.

(** TTBR0: image and stack of every application slot, with a guard between. *)
Definition user_view (va : Z) : option (Z * grant) :=
  let off := (va - APP_FIRST) mod APP_SLOT_SIZE in
  if within va APP_FIRST (APP_COUNT * APP_SLOT_SIZE) then
    if off <? APP_IMAGE_SIZE then grants va rx ro NC
    else if APP_SLOT_SIZE - APP_STACK_SIZE <=? off then grants va rw rw NC else None
  else None.

(** TTBR0 while the MMU is being enabled: RAM at its own address. *)
Definition idmap_view (k : image) (va : Z) : option (Z * grant) :=
  if within va PHYS_OFFSET RAM_SIZE then kernel_view k (va - PHYS_OFFSET + PAGE_OFFSET) else None.

(** ** Descriptors *)

Lemma decode_desc mair a prot : (4096 | a) -> 0 <= a < 2 ^ 48 -> Z.land prot PTE_ADDR_MASK = 0 ->
  decode mair (Z.lor a prot) =
    Grant a (el0 (decode mair prot)) (el1 (decode mair prot)) (attribute (decode mair prot)).
Proof.
  intros Ha Hr Hp. unfold decode. cbn [el0 el1 attribute]. rewrite desc_addr by done. rewrite !desc_bit by (done || lia).
  assert (E : forall d, Z.land (Z.shiftr d 2) 7 = Z.shiftr (Z.land d (Z.ones 5)) 2).
  { intros d. rewrite Z.shiftr_land. reflexivity. }
  rewrite !E, desc_low by (done || lia). done.
Qed.

Lemma page_desc a prot : (4096 | a) -> 0 <= a < 2 ^ 32 -> Z.land prot PTE_ADDR_MASK = 0 ->
  Z.land prot 3 = 3 -> Z.testbit prot 10 = true -> page_descriptor (Z.lor a prot) = Some (Z.lor a prot).
Proof.
  intros Ha Hr Hp H3 H10. unfold page_descriptor, is_table, in_range.
  rewrite desc_addr by (done || lia). rewrite desc_bit, H10 by (done || lia).
  change 3 with (Z.ones 2) in H3 |- * at 1. rewrite desc_low by (done || lia). rewrite H3.
  rewrite (proj2 (Z.ltb_lt a (2 ^ 32))) by lia. done.
Qed.

(** ** The tables of [mmu_init] *)

(** Evaluates the range tests of a view that [lia] can settle. *)
Ltac settle_views :=
  repeat match goal with
  | |- context [bool_decide ?P] => first [rewrite (bool_decide_true P) by lia | rewrite (bool_decide_false P) by lia]
  end; cbn [orb].

Section build.
Context (k : image) (g : statics).
Hypothesis (Hk : image_ok k) (Hg : statics_ok k g).

(** The state [boot.S] leaves: the arrays are in the cleared [.bss]. *)
Definition cleared (m : mmu) : Prop :=
  early_pgtables_used m = 0 /\
  (forall a i, a ∈ [swapper_pg_dir g; idmap_pg_dir g; user_pg_dir g] -> 0 <= i < 512 -> tables m !! (a + 8 * i) = Some 0) /\
  (forall n i, 0 <= n < EARLY_PGTABLES -> 0 <= i < 512 -> tables m !! (early_pgtables g + n * 4096 + 8 * i) = Some 0).

Lemma cleared_holds m : cleared m -> holds_map g (fun _ => 0) (fun _ _ => None) m.
Proof using Hk Hg.
  intros (Hu & Hd & He). destruct (static_facts k g Hk Hg) as (?&?&?&?&?&?&Hne&?&?).
  set (T := <[[swapper_pg_dir g] := swapper_pg_dir g]> {[[user_pg_dir g] := user_pg_dir g]} : gmap (list Z) Z).
  assert (HT : forall p a, T !! p = Some a -> p = [a] /\ is_root g a).
  { unfold T, is_root. intros p a. destruct (decide (p = [swapper_pg_dir g])) as [-> |]; [rewrite lookup_insert_eq; naive_solver|].
    rewrite lookup_insert_ne by done. rewrite lookup_singleton_Some. naive_solver. }
  assert (Hlong : forall p i, p <> [] -> T !! (p ++ [i]) = None).
  { intros p i Hp. destruct (T !! (p ++ [i])) as [a|] eqn:E; [|done]. apply HT in E as [E _]. destruct p as [|x [|]]; done. }
  exists T. split; [split|].
  - unfold T. rewrite lookup_insert_eq, lookup_insert_ne by naive_solver. by rewrite lookup_singleton_eq.
  - intros p [a Ha]. apply HT in Ha as [-> [-> | ->]]; unfold paths; set_solver.
  - rewrite Hu. split; [done|]. unfold T. rewrite map_size_insert_None; [by rewrite map_size_singleton|]. rewrite lookup_singleton_ne by naive_solver. done.
  - intros p a Ha. apply HT in Ha as [_ Ha]. by left.
  - intros p q a Hp Hq. apply HT in Hp as [-> _], Hq as [-> _]. done.
  - intros p i Hp [x Hx]. by rewrite Hlong in Hx.
  - intros p a i Hp Hl Hi. apply HT in Hp as [-> Ha]. rewrite Hlong by done. apply Hd; [|done]. destruct Ha as [-> | ->]; set_solver.
  - intros p a i Hp Hl. apply HT in Hp as [-> _]. done.
  - intros n i Hn Hi. apply He; lia.
  - intros i Hi. apply Hd; [set_solver|done].
  - intros r n Hr Hn. unfold walk_of. change [r; i1 n; i2 n] with ([r; i1 n] ++ [i2 n]). by rewrite Hlong.
Qed.

(** The paths of the linear map, of the devices and of the slots. *)
Lemma linear_path n : 256 * 2 ^ 18 <= n < 256 * 2 ^ 18 + 2 ^ 15 -> [swapper_pg_dir g; i1 n; i2 n] ∈ paths g.
Proof.
  intros Hn. assert (i1 n = 256 /\ 0 <= i2 n < 64) as [-> Hi].
  { unfold i1, i2. change (2 ^ 18) with 262144 in *. change (2 ^ 15) with 32768 in *. change (2 ^ 9) with 512. split; Z.div_mod_to_equations; lia. }
  unfold paths. apply elem_of_app. right. apply list_elem_of_fmap. exists (i2 n). split; [done|]. apply elem_of_seqZ. lia.
Qed.

Lemma small_path r n i j : [r; i; j] ∈ paths g -> i * 2 ^ 18 + j * 2 ^ 9 <= n < i * 2 ^ 18 + (j + 1) * 2 ^ 9 -> 0 <= j < 512 ->
  [r; i1 n; i2 n] ∈ paths g.
Proof.
  intros Hin Hn Hj. assert (i1 n = i /\ i2 n = j) as [-> ->]; [|done].
  unfold i1, i2. change (2 ^ 18) with 262144 in *. change (2 ^ 9) with 512 in *. split; Z.div_mod_to_equations; lia.
Qed.

(** A mapping of [cnt] pages at concrete addresses. *)
Lemma mapping W m pgdir phys virt cnt prot v0 :
  holds_map g (fun _ => 0) W m -> is_root g pgdir -> (4096 | virt) -> 0 <= virt -> 0 <= phys -> 0 <= cnt < 2 ^ 27 ->
  virt + cnt * 4096 <= 2 ^ 64 -> phys < 2 ^ 32 -> vpn virt = v0 -> v0 + cnt <= 2 ^ 27 ->
  (forall n, v0 <= n < v0 + cnt -> [pgdir; i1 n; i2 n] ∈ paths g) ->
  exists m', create_pgd_mapping g pgdir phys virt (cnt * 4096) prot m = Some m' /\ sys m' = sys m /\
    holds_map g (fun _ => 0) (map_range pgdir phys v0 cnt prot W) m'.
Proof using Hk Hg.
  intros HW Hr Hal Hv Hp Hc Hve Hpe Ev Hn Hin. subst v0. by apply (create_pgd_mapping_spec k g Hk Hg); try (done || lia).
Qed.

Definition map_slot (s : Z) (W : Z -> Z -> option Z) : Z -> Z -> option Z :=
  let slot := APP_FIRST + s * APP_SLOT_SIZE in
  let stack := slot + APP_SLOT_SIZE - APP_STACK_SIZE in
  map_range (user_pg_dir g) stack (stack / 4096) 4 PAGE_SHARED
    (map_range (user_pg_dir g) slot (slot / 4096) 16 PAGE_READONLY_EXEC W).

Lemma slot_round_spec W m s : holds_map g (fun _ => 0) W m -> 0 <= s < APP_COUNT ->
  exists m', slot_round g (APP_FIRST + s * APP_SLOT_SIZE, m) = Some (inl (APP_FIRST + (s + 1) * APP_SLOT_SIZE, m')) /\
    sys m' = sys m /\ holds_map g (fun _ => 0) (map_slot s W) m'.
Proof using Hk Hg.
  unfold APP_COUNT. intros HW Hs. unfold slot_round, map_slot. set (slot := APP_FIRST + s * APP_SLOT_SIZE).
  assert (Hslot : slot = (0x41000 + 0x20 * s) * 4096) by (unfold slot, APP_FIRST, APP_SLOT_SIZE; lia).
  assert (Hend : slot + APP_SLOT_SIZE - APP_STACK_SIZE = (0x4101c + 0x20 * s) * 4096) by (unfold APP_SLOT_SIZE, APP_STACK_SIZE; lia).
  rewrite (proj2 (Z.ltb_lt slot (APP_FIRST + APP_COUNT * APP_SLOT_SIZE))) by (unfold slot, APP_FIRST, APP_SLOT_SIZE, APP_COUNT; lia).
  rewrite Hend. unwrap. rewrite Hslot, !Z.div_mul by lia.
  assert (Hin : [user_pg_dir g; 1; 8] ∈ paths g) by (unfold paths; set_solver).
  assert (Ev : forall q, 0x41000 <= q < 0x41200 -> vpn (q * 4096) = q) by (intros q Hq; unfold vpn; rewrite Z.div_mul by lia; apply Z.mod_small; lia).
  change APP_IMAGE_SIZE with (16 * 4096). change APP_STACK_SIZE with (4 * 4096).
  destruct (mapping W m (user_pg_dir g) ((0x41000 + 0x20 * s) * 4096) ((0x41000 + 0x20 * s) * 4096) 16 PAGE_READONLY_EXEC (0x41000 + 0x20 * s))
    as (m1 & -> & Hs1 & HW1); [done|by right|by exists (0x41000 + 0x20 * s)|lia|lia|lia|lia|lia|apply Ev; lia|lia| |].
  { intros n Hn. apply (small_path _ n 1 8 Hin); lia. }
  cbn [mbind option_bind].
  destruct (mapping _ m1 (user_pg_dir g) ((0x4101c + 0x20 * s) * 4096) ((0x4101c + 0x20 * s) * 4096) 4 PAGE_SHARED (0x4101c + 0x20 * s) HW1)
    as (m2 & -> & Hs2 & HW2); [by right|by exists (0x4101c + 0x20 * s)|lia|lia|lia|lia|lia|apply Ev; lia|lia| |].
  { intros n Hn. apply (small_path _ n 1 8 Hin); lia. }
  cbn [mbind option_bind]. exists m2. split; [|split; [congruence|exact HW2]].
  do 4 f_equal. unfold APP_FIRST, APP_SLOT_SIZE. unwrap. lia.
Qed.

(** The descriptors of all pages. *)
Definition linear_map : Z -> Z -> option Z :=
  let s := swapper_pg_dir g in
  map_range s (__start_rodata k) (256 * 2 ^ 18 + (__start_rodata k - PHYS_OFFSET) / 4096)
    ((__end_rodata k - __start_rodata k) / 4096) PAGE_KERNEL_RO
  (map_range s (_text k) (256 * 2 ^ 18 + (_text k - PHYS_OFFSET) / 4096) ((_etext k - _text k) / 4096) PAGE_KERNEL_ROX
  (map_range s PHYS_OFFSET (256 * 2 ^ 18) (2 ^ 15) PAGE_KERNEL (fun _ _ => None))).

Definition device_map (W : Z -> Z -> option Z) : Z -> Z -> option Z :=
  let s := swapper_pg_dir g in
  map_range s 0x09000000 0x9000 1 PROT_DEVICE_nGnRnE
  (map_range s 0x080a0000 0x80a0 32 PROT_DEVICE_nGnRnE
  (map_range s 0x08000000 0x8000 16 PROT_DEVICE_nGnRnE W)).

Definition full_map : Z -> Z -> option Z := map_slot 2 (map_slot 1 (map_slot 0 (device_map linear_map))).

Lemma map_kernel_segment_spec W m start finish prot : holds_map g (fun _ => 0) W m ->
  (4096 | start) -> (4096 | finish) -> PHYS_OFFSET <= start <= finish -> finish <= APP_FIRST ->
  exists m', map_kernel_segment g start finish prot m = Some m' /\ sys m' = sys m /\
    holds_map g (fun _ => 0) (map_range (swapper_pg_dir g) start (256 * 2 ^ 18 + (start - PHYS_OFFSET) / 4096) ((finish - start) / 4096) prot W) m'.
Proof using Hk Hg.
  intros HW [x ->] [y ->] Hs Hf. unfold map_kernel_segment, PHYS_OFFSET, APP_FIRST in *.
  rewrite va_of_ram by (unfold PHYS_OFFSET, RAM_SIZE; lia). unwrap.
  replace (y * 4096 - x * 4096) with ((y - x) * 4096) by lia. rewrite Z.div_mul by lia.
  unfold PHYS_OFFSET, PAGE_OFFSET.
  replace (x * 4096 - 1073741824 + 18446743798831644672) with ((x - 262144 + 4503599560261632) * 4096) by lia.
  replace (x * 4096 - 1073741824) with ((x - 262144) * 4096) by lia. rewrite Z.div_mul by lia.
  apply mapping; try (done || lia); [by left|by eexists| |].
  - unfold vpn. rewrite Z.div_mul by lia. change (256 * 2 ^ 18) with 67108864. change (2 ^ 27) with 134217728. Z.div_mod_to_equations; lia.
  - intros n Hn. apply linear_path. lia.
Qed.

Lemma kernel_tables m : cleared m ->
  exists m', (let* m := create_pgd_mapping g (swapper_pg_dir g) PHYS_OFFSET PAGE_OFFSET RAM_SIZE PAGE_KERNEL m in
    let* m := map_kernel_segment g (_text k) (_etext k) PAGE_KERNEL_ROX m in
    map_kernel_segment g (__start_rodata k) (__end_rodata k) PAGE_KERNEL_RO m) = Some m' /\ sys m' = sys m /\
    holds_map g (fun _ => 0) linear_map m'.
Proof using Hk Hg.
  intros Hc. pose proof Hk as [Et Ho (Ha1 & Ha2 & Ha3)]. change PAGE_SIZE with 4096 in *.
  destruct (mapping _ m (swapper_pg_dir g) PHYS_OFFSET PAGE_OFFSET (2 ^ 15) PAGE_KERNEL (256 * 2 ^ 18) (cleared_holds m Hc))
    as (m1 & E1 & Hs1 & H1); try done.
  { by left. } { by exists (PAGE_OFFSET / 4096). } { intros n Hn. by apply linear_path. }
  change RAM_SIZE with (2 ^ 15 * 4096). rewrite E1. cbn [mbind option_bind].
  destruct (map_kernel_segment_spec _ m1 (_text k) (_etext k) PAGE_KERNEL_ROX H1) as (m2 & -> & Hs2 & H2);
    [rewrite Et; by exists 262272|done|rewrite Et in *; unfold PHYS_OFFSET, TEXT_OFFSET in *; lia|lia|].
  cbn [mbind option_bind].
  destruct (map_kernel_segment_spec _ m2 (__start_rodata k) (__end_rodata k) PAGE_KERNEL_RO H2) as (m3 & -> & Hs3 & H3);
    [done|done|rewrite Et in *; unfold PHYS_OFFSET, TEXT_OFFSET in *; lia|lia|].
  exists m3. split; [done|]. split; [congruence|exact H3].
Qed.

Lemma device_tables W m : holds_map g (fun _ => 0) W m ->
  exists m', (let* m := create_pgd_mapping g (swapper_pg_dir g) 0x08000000 (IO_ADDRESS 0x08000000) 0x10000 PROT_DEVICE_nGnRnE m in
    let* m := create_pgd_mapping g (swapper_pg_dir g) 0x080a0000 (IO_ADDRESS 0x080a0000) 0x20000 PROT_DEVICE_nGnRnE m in
    create_pgd_mapping g (swapper_pg_dir g) 0x09000000 (IO_ADDRESS 0x09000000) PAGE_SIZE PROT_DEVICE_nGnRnE m) = Some m' /\
    sys m' = sys m /\ holds_map g (fun _ => 0) (device_map W) m'.
Proof using Hk Hg.
  intros HW. assert (Hal : forall q, (4096 | IO_ADDRESS (q * 4096))).
  { intros q. exists ((q + IO_OFFSET / 4096) mod 2 ^ 52). unfold IO_ADDRESS, u64. change (2 ^ 64) with (2 ^ 52 * 4096).
    rewrite <- Z.mul_mod_distr_r by lia. f_equal. unfold IO_OFFSET. change (0xffffff8000000000 / 4096) with 4503599493152768. lia. }
  assert (Hin1 : [swapper_pg_dir g; 0; 64] ∈ paths g) by (unfold paths; set_solver).
  assert (Hin2 : [swapper_pg_dir g; 0; 72] ∈ paths g) by (unfold paths; set_solver).
  destruct (mapping W m (swapper_pg_dir g) 0x08000000 (IO_ADDRESS 0x08000000) 16 PROT_DEVICE_nGnRnE 0x8000 HW) as (m1 & E1 & Hs1 & H1); try done.
  { by left. } { apply (Hal 0x8000). } { intros n Hn. apply (small_path _ n 0 64 Hin1); lia. }
  destruct (mapping _ m1 (swapper_pg_dir g) 0x080a0000 (IO_ADDRESS 0x080a0000) 32 PROT_DEVICE_nGnRnE 0x80a0 H1) as (m2 & E2 & Hs2 & H2); try done.
  { by left. } { apply (Hal 0x80a0). } { intros n Hn. apply (small_path _ n 0 64 Hin1); lia. }
  destruct (mapping _ m2 (swapper_pg_dir g) 0x09000000 (IO_ADDRESS 0x09000000) 1 PROT_DEVICE_nGnRnE 0x9000 H2) as (m3 & E3 & Hs3 & H3); try done.
  { by left. } { apply (Hal 0x9000). } { intros n Hn. apply (small_path _ n 0 72 Hin2); lia. }
  change 0x10000 with (16 * 4096). change 0x20000 with (32 * 4096). change PAGE_SIZE with (1 * 4096).
  rewrite E1. cbn [mbind option_bind]. rewrite E2. cbn [mbind option_bind]. exists m3. split; [done|]. split; [congruence|exact H3].
Qed.

Lemma slot_tables W m : holds_map g (fun _ => 0) W m ->
  exists m', iter (Datatypes.S (Z.to_nat APP_COUNT)) (slot_round g) (APP_FIRST, m) = Some m' /\ sys m' = sys m /\
    holds_map g (fun _ => 0) (map_slot 2 (map_slot 1 (map_slot 0 W))) m'.
Proof using Hk Hg.
  intros HW. destruct (slot_round_spec W m 0 HW) as (m1 & E1 & Hs1 & H1); [done|].
  destruct (slot_round_spec _ m1 1 H1) as (m2 & E2 & Hs2 & H2); [done|].
  destruct (slot_round_spec _ m2 2 H2) as (m3 & E3 & Hs3 & H3); [done|].
  exists m3. split; [|split; [congruence|exact H3]]. change (Datatypes.S (Z.to_nat APP_COUNT)) with 4%nat.
  erewrite iter_inl by exact E1. erewrite iter_inl by exact E2. erewrite iter_inl by exact E3. by apply iter_inr.
Qed.

Lemma full_map_base : is_Some (full_map (swapper_pg_dir g) (256 * 2 ^ 18)).
Proof using Hk Hg.
  destruct (static_facts k g Hk Hg) as (_&_&_&_&_&_&Hne&_). pose proof Hk as [Et Ho _].
  unfold full_map, map_slot, device_map, map_range. repeat (rewrite decide_False by (intros [E ?]; (done || lia))).
  unfold linear_map, map_range. rewrite Et in *. unfold PHYS_OFFSET, TEXT_OFFSET in *.
  rewrite decide_False by (Z.div_mod_to_equations; lia). rewrite decide_False by (Z.div_mod_to_equations; lia). rewrite decide_True by (split; [done|lia]).
  rewrite Z.sub_diag. change (0x40000000 + 0 * 4096) with 0x40000000. by eexists.
Qed.

Lemma build_tables_spec m : cleared m ->
  exists m' T a, build_tables k g m = Some m' /\ sys m' = sys m /\
    tree g (fun j => if decide (j = 1) then Z.lor a PMD_TYPE_TABLE else 0) T m' /\ T !! [swapper_pg_dir g; 256] = Some a /\
    forall r n, is_root g r -> 0 <= n < 2 ^ 27 -> walk_of T m' r n = Some (full_map r n).
Proof using Hk Hg.
  intros Hc. destruct (kernel_tables m Hc) as (m1 & E1 & Hs1 & H1). destruct (device_tables _ m1 H1) as (m2 & E2 & Hs2 & H2).
  destruct (slot_tables _ m2 H2) as (m3 & E3 & Hs3 & (T & Ht & HW)). change (map_slot 2 _) with full_map in HW.
  assert (is_Some (T !! [swapper_pg_dir g; 256])) as [a Ha].
  { destruct full_map_base as [d Hd]. specialize (HW (swapper_pg_dir g) (256 * 2 ^ 18) ltac:(by left) ltac:(lia)). rewrite Hd in HW.
    unfold walk_of in HW. change (i1 (256 * 2 ^ 18)) with 256 in HW. change (i2 (256 * 2 ^ 18)) with 0 in HW.
    destruct (T !! [swapper_pg_dir g; 256; 0]) as [c|] eqn:Ec; [|done].
    apply (t_parent _ _ T m3 Ht [swapper_pg_dir g; 256] 0); [done|by exists c]. }
  pose proof (tree_idmap k g Hk Hg _ T m3 1 (Z.lor a PMD_TYPE_TABLE) Ht ltac:(lia)) as Ht'.
  eexists _, T, a. split; [|split; [|split; [exact Ht'|split; [done|]]]].
  - unfold build_tables. destruct (create_pgd_mapping _ _ PHYS_OFFSET _ _ _ m) as [x1|]; [|done]. cbn [mbind option_bind] in E1 |- *.
    destruct (map_kernel_segment _ (_text k) _ _ x1) as [x2|]; [|done]. cbn [mbind option_bind] in E1 |- *. rewrite E1. cbn [mbind option_bind].
    destruct (create_pgd_mapping _ _ 0x08000000 _ _ _ m1) as [y1|]; [|done]. cbn [mbind option_bind] in E2 |- *.
    destruct (create_pgd_mapping _ _ 0x080a0000 _ _ _ y1) as [y2|]; [|done]. cbn [mbind option_bind] in E2 |- *. rewrite E2. cbn [mbind option_bind].
    rewrite E3. cbn [mbind option_bind]. unfold read_entry, write_entry. change (pgd_index PAGE_OFFSET) with 256. change (pgd_index PHYS_OFFSET) with 1.
    rewrite (t_inner _ _ T m3 Ht [swapper_pg_dir g] (swapper_pg_dir g) 256); [|apply (t_roots _ _ T m3 Ht)|cbn; lia|lia]. cbn [app]. rewrite Ha. cbn [mbind option_bind].
    rewrite (t_idmap _ _ T m3 Ht) by lia. done.
  - cbn [sys]. congruence.
  - intros r n Hr Hn. rewrite <- HW by done. unfold walk_of. destruct (T !! [r; i1 n; i2 n]) as [c|] eqn:Ec; [|done]. cbn [tables].
    rewrite lookup_insert_ne; [done|]. apply not_eq_sym. apply (cell_idmap k g Hk Hg _ T m3 _ c _ _ Ht Ec); [by apply index_range|lia].
Qed.

(** ** The views *)

Definition mair_value : Z := Z.lor (MAIR 0x00 MT_DEVICE_nGnRnE) (MAIR 0x44 MT_NORMAL_NC).

(** What a page descriptor means at offset [o] of its page. *)
Definition at_offset (o : Z) (d : option Z) : option (Z * grant) :=
  match d with
  | None => None
  | Some d => let gr := decode mair_value d in Some (frame gr + o, gr)
  end.

Definition good_prot (prot : Z) : bool :=
  (Z.land prot PTE_ADDR_MASK =? 0) && (Z.land prot 3 =? 3) && Z.testbit prot 10.

Lemma at_offset_desc A o prot : (4096 | A) -> 0 <= A < 2 ^ 32 -> 0 <= o < 4096 -> good_prot prot = true ->
  at_offset o (page_descriptor (Z.lor A prot)) =
    grants (A + o) (el0 (decode mair_value prot)) (el1 (decode mair_value prot)) (attribute (decode mair_value prot)).
Proof.
  intros Ha Hr Ho Hp. unfold good_prot in Hp. bool_prop. rewrite page_desc by done. unfold at_offset. rewrite decode_desc by (done || lia).
  unfold grants. cbn [frame]. do 3 f_equal. change PAGE_SIZE with 4096. destruct Ha as [x ->]. Z.div_mod_to_equations; lia.
Qed.

Lemma desc_grants q A o prot pa p0 p1 attr : 0 <= q < 2 ^ 20 -> A = q * 4096 -> 0 <= o < 4096 -> pa = A + o ->
  good_prot prot = true -> el0 (decode mair_value prot) = p0 -> el1 (decode mair_value prot) = p1 ->
  attribute (decode mair_value prot) = attr -> at_offset o (page_descriptor (Z.lor A prot)) = grants pa p0 p1 attr.
Proof. intros Hq -> Ho -> Hp <- <- <-. apply at_offset_desc; (done || lia || by exists q). Qed.

Lemma within_spec a lo n : within a lo n = bool_decide (lo <= a < lo + n).
Proof. unfold within. apply eq_true_iff_eq. rewrite bool_decide_eq_true, andb_true_iff, Z.leb_le, Z.ltb_lt. lia. Qed.

Lemma map_range_same r phys v0 cnt prot W n : map_range r phys v0 cnt prot W r n =
  if decide (v0 <= n < v0 + cnt) then page_descriptor (Z.lor (phys + (n - v0) * 4096) prot) else W r n.
Proof. unfold map_range. repeat case_decide; tauto. Qed.

Lemma map_range_other r r' phys v0 cnt prot W n : r' <> r -> map_range r phys v0 cnt prot W r' n = W r' n.
Proof. intros Hr. unfold map_range. by rewrite decide_False by tauto. Qed.

Lemma kernel_translation n o : 0 <= n < 2 ^ 27 -> 0 <= o < 4096 ->
  at_offset o (full_map (swapper_pg_dir g) n) = kernel_view k (IO_OFFSET + n * 4096 + o).
Proof using Hk Hg.
  intros Hn Ho. destruct (static_facts k g Hk Hg) as (_&_&_&_&_&_&Hne&_). pose proof Hk as [Et Hord ([y Ey] & [z Ez] & [w Ew])].
  change PAGE_SIZE with 4096 in *. change (PHYS_OFFSET + TEXT_OFFSET) with (262272 * 4096) in Et. rewrite Et, Ey, Ez, Ew in Hord. unfold APP_FIRST in Hord.
  unfold full_map, map_slot. rewrite !map_range_other by congruence.
  unfold device_map, linear_map, kernel_view. rewrite !map_range_same, !within_spec, Et, Ey, Ez, Ew.
  unfold PHYS_OFFSET, RAM_SIZE, PAGE_OFFSET, IO_OFFSET. change (256 * 2 ^ 18) with 67108864. change (2 ^ 15) with 32768.
  replace (z * 4096 - 0x40000000) with ((z - 262144) * 4096) by lia. change (262272 * 4096 - 0x40000000) with (128 * 4096).
  rewrite <- !Z.mul_sub_distr_r, !Z.div_mul by lia.
  case_decide; [|case_decide; [|case_decide; [|case_decide; [|case_decide; [|case_decide]]]]]; settle_views; [..|reflexivity].
  - apply (desc_grants (n + 0)); [lia|lia|lia|lia|reflexivity..].
  - apply (desc_grants (n + 0)); [lia|lia|lia|lia|reflexivity..].
  - apply (desc_grants (n + 0)); [lia|lia|lia|lia|reflexivity..].
  - apply (desc_grants (n - 67108864 + 262144)); [lia|lia|lia|lia|reflexivity..].
  - apply (desc_grants (n - 67108864 + 262144)); [lia|lia|lia|lia|reflexivity..].
  - apply (desc_grants (n - 67108864 + 262144)); [lia|lia|lia|lia|reflexivity..].
Qed.

Lemma user_translation n o : 0 <= n < 2 ^ 27 -> 0 <= o < 4096 ->
  at_offset o (full_map (user_pg_dir g) n) = user_view (n * 4096 + o).
Proof using Hk Hg.
  intros Hn Ho. destruct (static_facts k g Hk Hg) as (_&_&_&_&_&_&Hne&_).
  assert (E0 : device_map linear_map (user_pg_dir g) n = None).
  { unfold device_map, linear_map. by rewrite !map_range_other by congruence. }
  unfold full_map, map_slot. rewrite !map_range_same, E0. clear E0. unfold user_view. rewrite within_spec.
  unfold APP_FIRST, APP_SLOT_SIZE, APP_IMAGE_SIZE, APP_STACK_SIZE, APP_COUNT.
  pose proof (Z.div_mod (n * 4096 + o - 0x41000000) 0x20000 ltac:(lia)) as Eoff. pose proof (Z.mod_pos_bound (n * 4096 + o - 0x41000000) 0x20000 ltac:(lia)) as Hoff.
  set (off := (n * 4096 + o - 0x41000000) mod 0x20000) in *. set (slot := (n * 4096 + o - 0x41000000) / 0x20000) in *. clearbody off slot.
  repeat (rewrite (Z.mul_comm 0x20000 slot) in Eoff).
  change ((1090519040 + 2 * 131072 + 131072 - 16384) / 4096) with 0x4105c. change ((1090519040 + 1 * 131072 + 131072 - 16384) / 4096) with 0x4103c.
  change ((1090519040 + 0 * 131072 + 131072 - 16384) / 4096) with 0x4101c. change ((1090519040 + 2 * 131072) / 4096) with 0x41040.
  change ((1090519040 + 1 * 131072) / 4096) with 0x41020. change ((1090519040 + 0 * 131072) / 4096) with 0x41000.
  case_decide; [|case_decide; [|case_decide; [|case_decide; [|case_decide; [|case_decide]]]]]; settle_views;
    [rewrite (proj2 (Z.ltb_ge off 0x10000)), (proj2 (Z.leb_le (0x20000 - 0x4000) off)) by lia|rewrite (proj2 (Z.ltb_lt off 0x10000)) by lia
    |rewrite (proj2 (Z.ltb_ge off 0x10000)), (proj2 (Z.leb_le (0x20000 - 0x4000) off)) by lia|rewrite (proj2 (Z.ltb_lt off 0x10000)) by lia
    |rewrite (proj2 (Z.ltb_ge off 0x10000)), (proj2 (Z.leb_le (0x20000 - 0x4000) off)) by lia|rewrite (proj2 (Z.ltb_lt off 0x10000)) by lia|];
    [apply (desc_grants (n + 0)); [lia|lia|lia|lia|reflexivity..]..|].
  case_bool_decide; [|done]. rewrite (proj2 (Z.ltb_ge off 0x10000)) by lia. by rewrite (proj2 (Z.leb_gt (0x20000 - 0x4000) off)) by lia.
Qed.

End build.

(** ** Translation *)

Section translation.
Context (k : image) (g : statics).
Hypothesis (Hk : image_ok k) (Hg : statics_ok k g).

(** A walk from a root decides the translation in its half. *)
Lemma translate_with m root W va :
  Z.testbit (sctlr_el1 (sys m)) 0 = true -> tcr_ok (tcr_el1 (sys m)) = true -> mair_el1 (sys m) = mair_value ->
  is_u64 va -> (va < 2 ^ 39 /\ ttbr0_el1 (sys m) = root \/ IO_OFFSET <= va /\ ttbr1_el1 (sys m) = root) ->
  hw_walk (tables m) root va = Some W -> translate m va = Some (at_offset (va mod 4096) W).
Proof.
  intros Hm Ht Hmair Hva Hroot HW. unfold translate. rewrite Hm, Ht, Hmair. cbn [andb].
  assert ((if Z.shiftr va 39 =? 0 then Some (Some (ttbr0_el1 (sys m)))
           else if Z.shiftr va 39 =? 2 ^ 25 - 1 then Some (Some (ttbr1_el1 (sys m))) else Some None) = Some (Some root)) as ->.
  { rewrite Z.shiftr_div_pow2 by lia. unfold is_u64, IO_OFFSET in *. destruct Hroot as [[? <-]|[? <-]].
    - by rewrite Z.div_small by lia.
    - assert (va / 2 ^ 39 = 2 ^ 25 - 1) as -> by (change (2 ^ 39) with 549755813888; change (2 ^ 25) with 33554432; Z.div_mod_to_equations; lia).
      done. }
  cbn [mbind option_bind]. rewrite HW. cbn [mbind option_bind]. by destruct W.
Qed.

Lemma translate_hole m va :
  Z.testbit (sctlr_el1 (sys m)) 0 = true -> tcr_ok (tcr_el1 (sys m)) = true ->
  2 ^ 39 <= va < IO_OFFSET -> translate m va = Some None.
Proof.
  intros Hm Ht Hva. unfold translate. rewrite Hm, Ht. cbn [andb]. rewrite Z.shiftr_div_pow2 by lia. unfold IO_OFFSET in Hva.
  change (2 ^ 39) with 549755813888 in *. change (2 ^ 25 - 1) with 33554431.
  rewrite (proj2 (Z.eqb_neq (va / 549755813888) 0)) by (Z.div_mod_to_equations; lia).
  by rewrite (proj2 (Z.eqb_neq (va / 549755813888) 33554431)) by (Z.div_mod_to_equations; lia).
Qed.

(** The page number and the offset of an address give it back. *)
Lemma low_va va : 0 <= va < 2 ^ 39 -> va = vpn va * 4096 + va mod 4096.
Proof. unfold vpn. change (2 ^ 39) with 549755813888. change (2 ^ 27) with 134217728. intros. Z.div_mod_to_equations; lia. Qed.

Lemma high_va va : is_u64 va -> IO_OFFSET <= va -> va = IO_OFFSET + vpn va * 4096 + va mod 4096.
Proof.
  unfold is_u64, vpn, IO_OFFSET. change (2 ^ 64) with 18446744073709551616. change (2 ^ 27) with 134217728. intros. Z.div_mod_to_equations; lia.
Qed.

Lemma view_holes va : 2 ^ 39 <= va < IO_OFFSET -> kernel_view k va = None.
Proof.
  intros Hva. unfold kernel_view. rewrite !within_spec. unfold PAGE_OFFSET, RAM_SIZE, IO_OFFSET in *.
  rewrite bool_decide_false by lia. rewrite (bool_decide_false (_ <= _ < _ + 0x10000)) by lia.
  rewrite (bool_decide_false (_ <= _ < _ + 0x20000)) by lia. by rewrite (bool_decide_false (_ <= _ < _ + 0x1000)) by lia.
Qed.

(** The identity map shows the linear map at the physical addresses. *)
Lemma idmap_translation va : 0 <= va < 2 ^ 39 ->
  (if decide (i1 (vpn va) = 1) then at_offset (va mod 4096) (full_map k g (swapper_pg_dir g) (256 * 2 ^ 18 + vpn va mod 2 ^ 18)) else None)
    = idmap_view k va.
Proof using Hk Hg.
  intros Hva. pose proof (low_va va Hva) as Ev. pose proof (vpn_range va) as Hn. unfold i1. unfold idmap_view. rewrite within_spec. case_decide as E.
  - rewrite (kernel_translation k g Hk Hg) by (try apply Z.mod_pos_bound; change (2 ^ 27) with 134217728 in *; change (2 ^ 18) with 262144; Z.div_mod_to_equations; lia).
    assert (vpn va = 2 ^ 18 + vpn va mod 2 ^ 18) by (change (2 ^ 18) with 262144 in *; Z.div_mod_to_equations; lia).
    assert (IO_OFFSET + (256 * 2 ^ 18 + vpn va mod 2 ^ 18) * 4096 + va mod 4096 = va - PHYS_OFFSET + PAGE_OFFSET) as ->.
    { unfold IO_OFFSET, PAGE_OFFSET, PHYS_OFFSET. change (2 ^ 18) with 262144 in *. lia. }
    case_bool_decide as Hw; [done|]. unfold kernel_view. rewrite !within_spec. unfold PAGE_OFFSET, PHYS_OFFSET, RAM_SIZE, IO_OFFSET in *.
    change (2 ^ 18) with 262144 in *. pose proof (Z.mod_pos_bound va 4096 ltac:(lia)). change (2 ^ 27) with 134217728 in *.
    rewrite bool_decide_false by lia. rewrite (bool_decide_false (_ <= _ < _ + 0x10000)) by lia.
    rewrite (bool_decide_false (_ <= _ < _ + 0x20000)) by lia. by rewrite (bool_decide_false (_ <= _ < _ + 0x1000)) by lia.
  - rewrite bool_decide_false; [done|]. intros Hw. apply E. unfold PHYS_OFFSET, RAM_SIZE in Hw. pose proof (Z.mod_pos_bound va 4096 ltac:(lia)).
    change (2 ^ 18) with 262144 in *. Z.div_mod_to_equations; lia.
Qed.

(** ** Protection *)

(** Every way to reach the physical address [pa] respects its use. *)
Record protected (va pa : Z) (gr : grant) : Prop := {
  w_xor_x : p_w (el0 gr) || p_w (el1 gr) = true -> p_x (el0 gr) || p_x (el1 gr) = false;
  kernel_text_ro : _text k <= pa < _etext k \/ __start_rodata k <= pa < __end_rodata k ->
    p_w (el0 gr) = false /\ p_w (el1 gr) = false;
  kernel_exec : p_x (el1 gr) = true -> _text k <= pa < _etext k;
  user_reach : el0 gr <> none -> va = pa /\ APP_FIRST <= pa < APP_FIRST + APP_COUNT * APP_SLOT_SIZE;
}.

Lemma kernel_view_protected va pa gr : kernel_view k va = Some (pa, gr) -> protected va pa gr.
Proof using Hk.
  pose proof Hk as [Et Ho _]. unfold kernel_view. rewrite !within_spec. unfold PAGE_OFFSET, PHYS_OFFSET, RAM_SIZE, IO_OFFSET, APP_FIRST, TEXT_OFFSET in *.
  case_bool_decide as Hl.
  - intros [= <- <-]. case_bool_decide; [|case_bool_decide]; split; cbn; (done || naive_solver lia).
  - destruct (bool_decide _ || bool_decide _ || bool_decide _) eqn:E; [|done]. intros [= <- <-].
    rewrite !orb_true_iff, !bool_decide_eq_true in E. split; cbn; (done || (intros; exfalso; lia)).
Qed.

Lemma user_view_protected va pa gr : user_view va = Some (pa, gr) -> protected va pa gr.
Proof using Hk.
  pose proof Hk as [Et Ho _]. unfold user_view. rewrite within_spec. case_bool_decide as Hl; [|done].
  destruct (_ <? APP_IMAGE_SIZE); [|destruct (_ <=? _); [|done]]; intros [= <- <-]; split; cbn; (done || naive_solver lia).
Qed.

Lemma idmap_view_protected va pa gr : idmap_view k va = Some (pa, gr) -> protected va pa gr.
Proof using Hk.
  unfold idmap_view. rewrite within_spec. case_bool_decide as Hw; [|done]. intros Hv. pose proof (kernel_view_protected _ _ _ Hv) as [H1 H2 H3 H4].
  split; try done. intros H0. destruct (H4 H0) as [E Hpa]. exfalso. unfold PHYS_OFFSET, PAGE_OFFSET, RAM_SIZE, APP_FIRST, APP_COUNT, APP_SLOT_SIZE in *. lia.
Qed.

(** ** The number of tables *)

Lemma paths_NoDup : NoDup (paths g).
Proof using Hk Hg.
  destruct (static_facts k g Hk Hg) as (_&_&_&_&_&_&Hne&_). unfold paths. apply NoDup_app. split; [|split].
  - repeat (apply NoDup_cons; split; [set_unfold; naive_solver|]). constructor.
  - intros p Hp. rewrite list_elem_of_fmap. intros (j & -> & Hj). apply elem_of_seqZ in Hj. set_unfold. naive_solver.
  - apply NoDup_fmap_2; [by intros ?? [=]|apply NoDup_seqZ].
Qed.

(** Every table of [paths] is needed by some mapped page. *)
Lemma paths_used idm T m : tree g idm T m -> (forall r n, is_root g r -> 0 <= n < 2 ^ 27 -> walk_of T m r n = Some (full_map k g r n)) ->
  forall p, p ∈ paths g -> is_Some (T !! p).
Proof using Hk Hg.
  intros Ht HW. assert (Hleaf : forall r n, is_root g r -> 0 <= n < 2 ^ 27 -> full_map k g r n <> None -> is_Some (T !! [r; i1 n; i2 n])).
  { intros r n Hr Hn Hf. specialize (HW r n Hr Hn). unfold walk_of in HW. destruct (T !! _); [by eexists|]. by destruct (full_map k g r n). }
  assert (Hsw : forall n, 0 <= n < 2 ^ 27 -> kernel_view k (IO_OFFSET + n * 4096 + 0) <> None -> is_Some (T !! [swapper_pg_dir g; i1 n; i2 n])).
  { intros n Hn Hv. apply Hleaf; [by left|done|]. rewrite <- (kernel_translation k g Hk Hg) in Hv by lia. intros E. by rewrite E in Hv. }
  assert (Hlin : forall j, 0 <= j < 64 -> is_Some (T !! [swapper_pg_dir g; 256; j])).
  { intros j Hj. specialize (Hsw (256 * 2 ^ 18 + j * 512)).
    assert (i1 (256 * 2 ^ 18 + j * 512) = 256 /\ i2 (256 * 2 ^ 18 + j * 512) = j) as [E1 E2].
    { unfold i1, i2. change (2 ^ 18) with 262144. change (2 ^ 9) with 512. split; Z.div_mod_to_equations; lia. }
    rewrite E1, E2 in Hsw. apply Hsw; [lia|]. unfold kernel_view. rewrite within_spec, bool_decide_true; [done|].
    unfold PAGE_OFFSET, RAM_SIZE, IO_OFFSET. lia. }
  assert (Hpar : forall r i j, is_Some (T !! [r; i; j]) -> is_Some (T !! [r; i])).
  { intros r i j. apply (t_parent g idm T m Ht [r; i] j). done. }
  assert (Hdev1 : is_Some (T !! [swapper_pg_dir g; 0; 64])).
  { apply (Hsw 0x8000); [lia|]. unfold kernel_view. rewrite !within_spec. by vm_compute. }
  assert (Hdev2 : is_Some (T !! [swapper_pg_dir g; 0; 72])).
  { apply (Hsw 0x9000); [lia|]. unfold kernel_view. rewrite !within_spec. by vm_compute. }
  assert (Hus : is_Some (T !! [user_pg_dir g; 1; 8])).
  { apply (Hleaf _ 0x41000); [by right|lia|]. intros E. pose proof (user_translation k g Hk Hg 0x41000 0 ltac:(lia) ltac:(lia)) as Hu.
    rewrite E in Hu. by vm_compute in Hu. }
  destruct (t_roots g idm T m Ht) as [Hr1 Hr2].
  intros p. unfold paths. rewrite elem_of_app, list_elem_of_fmap. intros [Hp|(j & -> & Hj)].
  - set_unfold. destruct_or!; subst; try done; try (by eexists); try (by eapply Hpar). apply (Hpar _ _ 0), Hlin. lia.
  - apply Hlin. apply elem_of_seqZ in Hj. lia.
Qed.

Lemma tables_exact idm T m : tree g idm T m -> (forall r n, is_root g r -> 0 <= n < 2 ^ 27 -> walk_of T m r n = Some (full_map k g r n)) ->
  early_pgtables_used m = EARLY_PGTABLES.
Proof using Hk Hg.
  intros Ht HW. destruct (t_used g idm T m Ht) as [_ E]. pose proof (tree_size k g Hk Hg idm T m Ht) as Hle.
  assert (72 <= size T)%nat; [|change EARLY_PGTABLES with 70; lia].
  rewrite <- (paths_length g), <- size_dom, <- (size_list_to_set (C := gset (list Z)) _ paths_NoDup). apply subseteq_size.
  intros p Hp. apply elem_of_dom. apply elem_of_list_to_set in Hp. by eapply paths_used.
Qed.

(** Both stages of the boot: with the identity map, and after it is gone. *)
Lemma mmu_init_correct m : cleared g m ->
  exists m', mmu_init k g m = Some m' /\ early_pgtables_used m' = EARLY_PGTABLES /\ forall va, is_u64 va ->
    translate m' va = Some (if va <? 2 ^ 39 then idmap_view k va else kernel_view k va) /\
    translate (cpu_uninstall_idmap g m') va = Some (if va <? 2 ^ 39 then user_view va else kernel_view k va).
Proof using Hk Hg.
  intros Hc. destruct (build_tables_spec k g Hk Hg m Hc) as (m1 & T & a & E & Hs & Ht & Ha & HW).
  unfold mmu_init. rewrite E. cbn [mbind option_bind]. eexists. split; [done|]. split.
  { exact (tables_exact _ T m1 Ht HW). }
  intros va Hva. assert (Hon : Z.testbit (sctlr_el1 (enable_mmu g (sys m1))) 0 = true) by (cbn [sctlr_el1 enable_mmu]; rewrite Z.lor_spec; apply orb_true_r).
  assert (Hkw : hw_walk (tables m1) (swapper_pg_dir g) va = Some (full_map k g (swapper_pg_dir g) (vpn va))).
  { rewrite (walk_tree k g Hk Hg _ T m1) by (done || by left). apply HW; [by left|apply vpn_range]. }
  assert (Hpu : __pa (__va (user_pg_dir g)) = user_pg_dir g).
  { apply pa_va. destruct (static_facts k g Hk Hg) as (_&_&_&_&?&_). unfold is_u64. lia. }
  pose proof (Z.mod_pos_bound va 4096 ltac:(lia)) as Ho. destruct (Z.ltb_spec va (2 ^ 39)) as [Hlow|Hhigh].
  - assert (0 <= va < 2 ^ 39) as Hr by (unfold is_u64 in Hva; lia). split.
    + rewrite <- (idmap_translation va Hr). eapply eq_trans;
        [eapply (translate_with _ (idmap_pg_dir g) (if decide (i1 (vpn va) = 1) then full_map k g (swapper_pg_dir g) (256 * 2 ^ 18 + vpn va mod 2 ^ 18) else None));
          [exact Hon|reflexivity|reflexivity|done|by left|]|by case_decide].
      cbn [tables set_sys]. rewrite (walk_idmap k g Hk Hg _ T m1 1 256 a va Ht Ha) by (done || lia). case_decide; [|done]. apply HW; [by left|].
      change (2 ^ 18) with 262144. change (2 ^ 27) with 134217728. Z.div_mod_to_equations; lia.
    + rewrite (low_va va Hr) at 2. rewrite <- (user_translation k g Hk Hg) by (done || apply vpn_range).
      eapply (translate_with _ (user_pg_dir g)); [exact Hon|reflexivity|reflexivity|done|left; split; [done|exact Hpu]|].
      cbn [tables set_sys cpu_uninstall_idmap]. rewrite (walk_tree k g Hk Hg _ T m1) by (done || by right). apply HW; [by right|apply vpn_range].
  - destruct (decide (va < IO_OFFSET)) as [Hhole|Hk'].
    { rewrite view_holes by lia. split; apply translate_hole; (exact Hon || reflexivity || lia). }
    rewrite (high_va va Hva ltac:(lia)) at 2 4. rewrite <- (kernel_translation k g Hk Hg) by (done || apply vpn_range).
    split; (eapply (translate_with _ (swapper_pg_dir g)); [exact Hon|reflexivity|reflexivity|done|right; split; [lia|reflexivity]|exact Hkw]).
Qed.

(** The registers [mmu_init] leaves. *)
Lemma mmu_init_sys m m' : cleared g m -> mmu_init k g m = Some m' -> sys m' = enable_mmu g (sys m).
Proof using Hk Hg.
  intros Hc. destruct (build_tables_spec k g Hk Hg m Hc) as (m1 & T & a & E & Hs & _). unfold mmu_init. rewrite E. cbn [mbind option_bind].
  intros [= <-]. cbn [sys set_sys]. by rewrite Hs.
Qed.

End translation.

(** ** The properties *)

(** C10. [mmu_init] on cleared tables succeeds, and the hardware then
    translates every 64-bit address exactly as the tables of the comment
    in [mmu.c] say: during the switch, RAM also at its physical address; after
    [cpu_uninstall_idmap], the application slots, with their guard unmapped;
    in the upper half always the linear map and the devices.  Every other
    address faults. *)
Theorem address_map_as_documented k g m : image_ok k -> statics_ok k g -> cleared g m ->
  exists m', mmu_init k g m = Some m' /\ forall va, is_u64 va ->
    translate m' va = Some (if va <? 2 ^ 39 then idmap_view k va else kernel_view k va) /\
    translate (cpu_uninstall_idmap g m') va = Some (if va <? 2 ^ 39 then user_view va else kernel_view k va).
Proof. intros Hk Hg Hc. destruct (mmu_init_correct k g Hk Hg m Hc) as (m' & E & _ & H). by exists m'. Qed.

(** C7. Memory protection, in both stages of the boot and for every address
    that translates: no page is both writable and executable, kernel text and
    read-only data are writable through no mapping, EL1 executes kernel text
    only, and EL0 reaches nothing but the application slots, at their
    physical addresses. *)
Theorem memory_is_protected k g m m' s va pa gr : image_ok k -> statics_ok k g -> cleared g m -> mmu_init k g m = Some m' ->
  s = m' \/ s = cpu_uninstall_idmap g m' -> is_u64 va -> translate s va = Some (Some (pa, gr)) -> protected k va pa gr.
Proof.
  intros Hk Hg Hc E Hs Hva Ht. destruct (mmu_init_correct k g Hk Hg m Hc) as (m1 & E1 & _ & H). rewrite E in E1. injection E1 as <-.
  destruct (H va Hva) as [H1 H2]. destruct (Z.ltb_spec va (2 ^ 39)), Hs as [-> | ->]; simplify_eq;
    eauto using kernel_view_protected, user_view_protected, idmap_view_protected.
Qed.

(** C35. [EARLY_PGTABLES] is exactly the number of tables [mmu_init] takes:
    the array is never indexed past its end, and no table is left over. *)
Theorem early_pgtables_exact k g m : image_ok k -> statics_ok k g -> cleared g m ->
  exists m', mmu_init k g m = Some m' /\ early_pgtables_used m' = EARLY_PGTABLES.
Proof. intros Hk Hg Hc. destruct (mmu_init_correct k g Hk Hg m Hc) as (m' & E & Hu & _). by exists m'. Qed.

(** ** Instances *)

Definition sample_image : image := Image 0x40080000 0x40090000 0x40090000 0x40094000 0x400f0000.
Definition sample_statics : statics := Statics 0x40095000 0x40096000 0x40097000 0x40098000.

Definition sample_mmu : mmu :=
  Mmu (gset_to_gmap 0 (list_to_set ((fun n : Z => 0x40095000 + 8 * n) <$> seqZ 0 37376))) 0 (SysRegs 0 0 0 0 0).

Lemma sample_image_ok : image_ok sample_image.
Proof.
  split; [done|unfold APP_FIRST; cbn; lia|]. change PAGE_SIZE with 4096. cbn.
  split_and!; [by exists 0x40090|by exists 0x40090|by exists 0x40094].
Qed.

Lemma sample_statics_ok : statics_ok sample_image sample_statics.
Proof.
  split; cbn; change EARLY_PGTABLES with 70.
  - split_and!; [by exists 0x40095|by exists 0x40096|by exists 0x40097|by exists 0x40098].
  - split; [|lia]. repeat constructor; lia.
  - split_and!; try lia. repeat constructor; lia.
Qed.

Lemma sample_cleared : cleared sample_statics sample_mmu.
Proof.
  assert (H : forall n, 0 <= n < 37376 -> tables sample_mmu !! (0x40095000 + 8 * n) = Some 0).
  { intros n Hn. cbn [tables sample_mmu]. apply lookup_gset_to_gmap_Some. split; [|done]. apply elem_of_list_to_set, list_elem_of_fmap.
    exists n. split; [done|]. apply elem_of_seqZ. lia. }
  split; [done|]. split.
  - intros a i Ha Hi. assert (exists n, a + 8 * i = 0x40095000 + 8 * n /\ 0 <= n < 37376) as (n & -> & Hn); [|exact (H n Hn)].
    clear H. cbn [swapper_pg_dir idmap_pg_dir user_pg_dir sample_statics] in Ha. rewrite !elem_of_cons, elem_of_nil in Ha.
    destruct Ha as [-> |[-> |[-> |[]]]]; [exists i|exists (512 + i)|exists (1024 + i)]; lia.
  - intros n i Hn Hi. change EARLY_PGTABLES with 70 in Hn. cbn [early_pgtables sample_statics].
    replace (0x40098000 + n * 4096 + 8 * i) with (0x40095000 + 8 * (1536 + n * 512 + i)) by lia.
    apply (H (1536 + n * 512 + i)). lia.
Qed.

Lemma address_map_as_documented_witness :
  exists m', mmu_init sample_image sample_statics sample_mmu = Some m' /\
    translate (cpu_uninstall_idmap sample_statics m') 0xffffffc000081234 =
      Some (Some (0x40081234, Grant 0x40081000 none rx NC)) /\
    translate (cpu_uninstall_idmap sample_statics m') 0x41010000 = Some None.
Proof.
  destruct (address_map_as_documented sample_image sample_statics sample_mmu sample_image_ok sample_statics_ok sample_cleared) as (m' & E & H).
  exists m'. split; [exact E|clear E]. split.
  - rewrite (proj2 (H 0xffffffc000081234 ltac:(unfold is_u64; lia))). reflexivity.
  - rewrite (proj2 (H 0x41010000 ltac:(unfold is_u64; lia))). reflexivity.
Defined.

Lemma memory_is_protected_witness :
  exists m', mmu_init sample_image sample_statics sample_mmu = Some m' /\
    protected sample_image 0x41000010 0x41000010 (Grant 0x41000000 rx ro NC).
Proof.
  destruct (mmu_init_correct sample_image sample_statics sample_image_ok sample_statics_ok sample_mmu sample_cleared) as (m' & E & _ & H).
  exists m'. split; [exact E|].
  apply (memory_is_protected sample_image sample_statics sample_mmu m' (cpu_uninstall_idmap sample_statics m'));
    [exact sample_image_ok|exact sample_statics_ok|exact sample_cleared|exact E|by right|unfold is_u64; lia|clear E].
  rewrite (proj2 (H 0x41000010 ltac:(unfold is_u64; lia))). reflexivity.
Defined.

Lemma early_pgtables_exact_witness :
  exists m', mmu_init sample_image sample_statics sample_mmu = Some m' /\ early_pgtables_used m' = 70.
Proof. exact (early_pgtables_exact sample_image sample_statics sample_mmu sample_image_ok sample_statics_ok sample_cleared). Defined.
