(* ===== verification/MmuMem.v ===== *)
(** * The page tables in memory

    [Mmu.v] keeps the words of the page tables apart from the rest of memory.
    Here they are read from the bytes of memory and written back: what
    [mmu_init] does to the words is what it does to the bytes of its arrays. *)

From S2P Require Import Prelude MemoryH Mem Mmu MmuProof MmuSpec.

(** The addresses of the words of the four arrays. *)
Definition words_of (a n : Z) : list Z := (fun i => a + 8 * i) <$> seqZ 0 n.

Definition table_words (g : statics) : list Z :=
  words_of (swapper_pg_dir g) PTRS_PER_PGD ++ words_of (idmap_pg_dir g) PTRS_PER_PGD ++
  words_of (user_pg_dir g) PTRS_PER_PGD ++ words_of (early_pgtables g) (EARLY_PGTABLES * PTRS_PER_PTE).

Definition read_word (m : mem) (a : Z) (w : gmap Z Z) : gmap Z Z :=
  match load64 m a with Some v => <[a := v]> w | None => w end.

Definition read_tables (g : statics) (m : mem) : gmap Z Z := foldr (read_word m) ∅ (table_words g).

Definition write_word (w : gmap Z Z) (a : Z) (m : mem) : mem :=
  match w !! a with Some v => write a (Z_to_little_endian 8 8 v) m | None => m end.

Definition write_tables (g : statics) (w : gmap Z Z) (m : mem) : mem := foldr (write_word w) m (table_words g).

(** The bytes of the arrays. *)
Definition table_byte (g : statics) (x : Z) : Prop := exists a, a ∈ table_words g /\ a <= x < a + 8.

Lemma elem_of_words x a n : x ∈ words_of a n <-> exists i, x = a + 8 * i /\ 0 <= i < n.
Proof. unfold words_of. rewrite list_elem_of_fmap. setoid_rewrite elem_of_seqZ. split; intros (i & -> & ?); exists i; (split; [done|lia]). Qed.

(** ** Reading *)

Lemma read_words m l a : foldr (read_word m) ∅ l !! a = if decide (a ∈ l) then load64 m a else None.
Proof.
  induction l as [|b l IH]; [done|]. cbn [foldr]. unfold read_word at 1. destruct (decide (a = b)) as [->|Hne].
  - rewrite decide_True by set_solver. destruct (load64 m b) as [v|] eqn:E; [by rewrite lookup_insert_eq|]. rewrite IH. case_decide; [done|done].
  - transitivity (foldr (read_word m) ∅ l !! a); [destruct (load64 m b); [by rewrite lookup_insert_ne|done]|].
    rewrite IH. repeat case_decide; try done; set_solver.
Qed.

Lemma read_tables_lookup g m a : read_tables g m !! a = if decide (a ∈ table_words g) then load64 m a else None.
Proof. apply read_words. Qed.

Lemma read_tables_agree g m m' : (forall x, table_byte g x -> m' !! x = m !! x) -> read_tables g m' = read_tables g m.
Proof.
  intros H. apply map_eq. intros a. rewrite !read_tables_lookup. case_decide as Ha; [|done]. apply load64_agree. intros x Hx. apply H. by exists a.
Qed.

(** ** Writing *)

Lemma write_words_out w l m x : (forall a, a ∈ l -> ~ a <= x < a + 8) -> foldr (write_word w) m l !! x = m !! x.
Proof.
  intros H. induction l as [|b l IH]; [done|]. cbn [foldr]. unfold write_word at 1. destruct (w !! b) as [v|]; [|by apply IH; set_solver].
  rewrite lookup_write_out; [by apply IH; set_solver|]. rewrite le8_length. specialize (H b ltac:(set_solver)). lia.
Qed.

Lemma write_tables_out g w m x : ~ table_byte g x -> write_tables g w m !! x = m !! x.
Proof. intros H. apply write_words_out. intros a Ha Hx. apply H. by exists a. Qed.

Lemma write_words_mapped w l m a n : mapped m a n -> mapped (foldr (write_word w) m l) a n.
Proof. intros H. induction l as [|b l IH]; [done|]. cbn [foldr]. unfold write_word at 1. destruct (w !! b); [by apply mapped_write|done]. Qed.

Lemma write_words_bytes w l m : mem_ok m -> mem_ok (foldr (write_word w) m l).
Proof. intros H. induction l as [|b l IH]; [done|]. cbn [foldr]. unfold write_word at 1. destruct (w !! b); [apply mem_ok_write; [done|apply le8_bytes]|done]. Qed.

(** Words at multiples of 8 do not disturb each other. *)
Lemma write_words_load w l m a : Forall (fun b => (8 | b)) l -> a ∈ l -> (forall b, b ∈ l -> exists v, w !! b = Some v /\ is_u64 v) ->
  load64 (foldr (write_word w) m l) a = w !! a.
Proof.
  intros Hl Ha Hw. induction Hl as [|b l Hb Hl IH]; [set_solver|]. cbn [foldr]. unfold write_word at 1.
  destruct (Hw b ltac:(set_solver)) as (v & E & Hv). rewrite E. destruct (decide (a = b)) as [->|Hne].
  - rewrite load64_written, E. by rewrite u64_id.
  - assert (Ha' : a ∈ l) by set_solver. rewrite load64_write_out; [apply IH; [done|set_solver]|].
    intros x Hx. rewrite le8_length. rewrite Forall_forall in Hl. pose proof (Hl a Ha') as [q ->]. destruct Hb as [r ->]. lia.
Qed.

(** ** The words stay words, in the same places *)

Definition words_ok (m : mmu) : Prop := map_Forall (fun _ => is_u64) (tables m) /\ 0 <= early_pgtables_used m.

Definition same_words (m m' : mmu) : Prop := words_ok m -> words_ok m' /\ dom (tables m') = dom (tables m).

#[export] Instance same_words_preorder : PreOrder same_words.
Proof.
  split; [by intros m H|]. intros m1 m2 m3 H1 H2 H. destruct (H1 H) as [Hw E]. destruct (H2 Hw) as [Hw' E']. split; [done|congruence].
Qed.

Lemma is_u64_lor a b : is_u64 a -> is_u64 b -> is_u64 (Z.lor a b).
Proof.
  unfold is_u64. intros Ha Hb. split; [apply Z.lor_nonneg; lia|]. destruct (decide (Z.lor a b = 0)) as [->|Hne]; [lia|].
  apply Z.log2_lt_cancel. rewrite Z.log2_pow2, Z.log2_lor by lia.
  assert (H : forall z, 0 <= z < 2 ^ 64 -> Z.log2 z < 64) by (intros z Hz; destruct (decide (z = 0)) as [->|]; [by cbn|apply Z.log2_lt_pow2; lia]).
  pose proof (H a Ha). pose proof (H b Hb). lia.
Qed.

Lemma write_entry_words a v m m' : write_entry a v m = Some m' -> is_u64 v -> same_words m m'.
Proof.
  unfold write_entry. destruct (tables m !! a) as [w|] eqn:E; [|done]. intros [= <-] Hv [H Hu]. split; [split; [by apply map_Forall_insert_2|done]|].
  cbn [tables]. rewrite dom_insert_L. apply elem_of_dom_2 in E. set_solver.
Qed.

(** A loop keeps what its body keeps. *)
Lemma iter_words (body : Z * mmu -> option ((Z * mmu) + mmu)) n s m' :
  (forall s r, body s = Some r -> same_words s.2 match r with inl s' => s'.2 | inr m => m end) -> iter n body s = Some m' -> same_words s.2 m'.
Proof.
  intros H. revert s. induction n as [|n IH]; intros s; [done|]. cbn [iter]. destruct (body s) as [[s1|m]|] eqn:E; [|intros [= <-]|done].
  - intros Hi. transitivity s1.2; [exact (H s (inl s1) E)|by apply IH].
  - exact (H s (inr m) E).
Qed.

Section words.
Context (k : image) (g : statics).
Hypothesis (Hk : image_ok k) (Hg : statics_ok k g).

Lemma early_pgtable_alloc_words m t m' : early_pgtable_alloc g m = Some (t, m') -> words_ok m -> is_u64 t /\ words_ok m' /\ dom (tables m') = dom (tables m).
Proof using Hk Hg.
  unfold early_pgtable_alloc. destruct (Z.ltb_spec (early_pgtables_used m) EARLY_PGTABLES) as [Hlt|]; [|done]. intros [= <- <-] [Hw Hu]. split; [|split; [split; [done|by apply u32_range]|done]].
  destruct (tbl_facts k g Hk Hg (early_pgtables_used m)) as (_ & Hr & _); [lia|]. unfold tbl, PTRS_PER_PTE, is_u64 in *. lia.
Qed.

Lemma next_level_words p m t m' : next_level g p m = Some (t, m') -> same_words m m'.
Proof using Hk Hg.
  unfold next_level. destruct (read_entry p m) as [d|]; [|done]. cbn [mbind option_bind].
  assert (H : forall m1, (if d =? 0 then let* '(t, m) := early_pgtable_alloc g m in write_entry p (Z.lor t PMD_TYPE_TABLE) m else Some m) = Some m1 -> same_words m m1).
  { intros m1. destruct (d =? 0); [|by intros [= <-]]. destruct (early_pgtable_alloc g m) as [[t0 m2]|] eqn:E; [|done]. cbn [mbind option_bind]. intros Hwr Hok.
    destruct (early_pgtable_alloc_words m t0 m2 E Hok) as (Ht & Hok2 & Ed). rewrite <- Ed. apply (write_entry_words _ _ _ _ Hwr); [by apply is_u64_lor|done]. }
  destruct (if d =? 0 then _ else _) as [m1|]; [|done]. cbn [mbind option_bind]. destruct (read_entry p m1); [|done]. cbn [mbind option_bind]. intros [= _ <-]. by apply H.
Qed.

Lemma walk_to_pte_words pgdir va m t m' : walk_to_pte g pgdir va m = Some (t, m') -> same_words m m'.
Proof using Hk Hg.
  unfold walk_to_pte. destruct (next_level g (pgdir + _) m) as [[pmd m1]|] eqn:E1; [|done]. cbn [mbind option_bind].
  destruct (next_level g (pmd + _) m1) as [[pte m2]|] eqn:E2; [|done]. cbn [mbind option_bind]. intros [= _ <-].
  transitivity m1; [by apply (next_level_words _ _ _ _ E1)|by apply (next_level_words _ _ _ _ E2)].
Qed.

Lemma create_pgd_mapping_words pgdir phys virt size prot m m' : is_u64 prot -> create_pgd_mapping g pgdir phys virt size prot m = Some m' -> same_words m m'.
Proof using Hk Hg.
  intros Hp. apply (iter_words _ _ (0, m)). intros [offset m1] r. unfold map_round. destruct (offset <? size); [|by intros [= <-]].
  destruct (walk_to_pte g pgdir _ m1) as [[p m2]|] eqn:E2; [|done]. cbn [mbind option_bind].
  destruct (write_entry p _ m2) as [m3|] eqn:E3; [|done]. cbn [mbind option_bind]. intros [= <-]. cbn [snd].
  transitivity m2; [by apply (walk_to_pte_words _ _ _ _ _ E2)|]. apply (write_entry_words _ _ _ _ E3), is_u64_lor; [apply u64_range|done].
Qed.

Lemma slot_round_words s r : slot_round g s = Some r -> same_words s.2 match r with inl s' => s'.2 | inr m => m end.
Proof using Hk Hg.
  destruct s as [slot m]. unfold slot_round. destruct (slot <? _); [|by intros [= <-]]. cbn [snd].
  destruct (create_pgd_mapping _ _ slot _ _ _ m) as [m1|] eqn:E1; [|done]. cbn [mbind option_bind].
  destruct (create_pgd_mapping _ _ _ _ _ _ m1) as [m2|] eqn:E2; [|done]. cbn [mbind option_bind]. intros [= <-]. cbn [snd].
  apply create_pgd_mapping_words in E1, E2; [by transitivity m1|by vm_compute..].
Qed.

(** Takes one step of [build_tables] that is a mapping. *)
Ltac mapping_step := match goal with
  | |- context [mbind _ (create_pgd_mapping ?g ?a ?b ?c ?d ?e ?m)] => let m1 := fresh "m" in let E := fresh "E" in
      destruct (create_pgd_mapping g a b c d e m) as [m1|] eqn:E; [|done]; cbn [mbind option_bind];
      apply create_pgd_mapping_words in E; [|by vm_compute]
  end.

Lemma build_tables_words m m' : build_tables k g m = Some m' -> same_words m m'.
Proof using Hk Hg.
  unfold build_tables, map_kernel_segment. do 6 mapping_step. destruct (iter _ _ (APP_FIRST, _)) as [m8|] eqn:E8; [|done]. cbn [mbind option_bind].
  apply iter_words in E8; [|exact slot_round_words]. destruct (read_entry _ m8) as [d|] eqn:Ed; [|done]. cbn [mbind option_bind snd] in *. intros Ew.
  assert (H : same_words m m8) by (repeat (etransitivity; [eassumption|]); done).
  intros Hok. destruct (H Hok) as [Hok8 Ed8]. rewrite <- Ed8. apply (write_entry_words _ _ _ _ Ew); [|done]. destruct Hok8 as [Hw _]. by apply (Hw _ _ Ed).
Qed.

Lemma mmu_init_words m m' : mmu_init k g m = Some m' -> words_ok m -> words_ok m' /\ dom (tables m') = dom (tables m).
Proof using Hk Hg.
  unfold mmu_init. destruct (build_tables k g m) as [m1|] eqn:E; [|done]. cbn [mbind option_bind]. intros [= <-] Hok. by apply (build_tables_words m m1).
Qed.

End words.
