(* ===== verification/Uart.v ===== *)
(** * The serial port ([kernel/uart.c])

    The device is the values the flag register will read, one after another,
    and the bytes written to the data register.  Waiting for a device that
    never becomes ready is [None]. *)

From S2P Require Import Prelude Mem.

Record uart := Uart { flag_reads : list Z; sent : list Z }.

(** The transmit FIFO is full. *)
Definition busy (w : Z) : bool := negb (Z.land w (Z.shiftl 1 5) =? 0).

Definition wait_round (reads : list Z) : option (list Z + list Z) :=
  match reads with
  | [] => None
  | w :: reads => Some (if busy w then inl reads else inr reads)
  end.

Definition uart_putc (c : Z) (u : uart) : option uart :=
  let* reads := iter (Datatypes.S (length (flag_reads u))) wait_round (flag_reads u) in
  Some (Uart reads (sent u ++ [u8 c])).

(** The state is [text] and the device. *)
Definition puts_round (m : mem) (s : Z * uart) : option ((Z * uart) + uart) :=
  let '(text, u) := s in
  let* c := load8 m text in
  if c =? 0 then Some (inr u)
  else let* u := uart_putc c u in Some (inl (text + 1, u)).

Definition uart_puts (text : Z) (m : mem) (u : uart) : option uart :=
  iter (Datatypes.S (size m)) (puts_round m) (text, u).

(** ** What is sent *)

(** How many characters the device will accept. *)
Definition accepts (reads : list Z) : Z := length (filter (fun w => busy w = false) reads).

(** [u'] is [u] after it has accepted [n] bytes: each was written after a
    read that showed room. *)
Definition accepted (u u' : uart) (bs : list Z) : Prop :=
  sent u' = sent u ++ bs /\ (exists waits, flag_reads u = waits ++ flag_reads u' /\ accepts waits = length bs).

Lemma accepts_app a b : accepts (a ++ b) = accepts a + accepts b.
Proof. unfold accepts. rewrite filter_app, length_app. lia. Qed.

Lemma accepted_refl u : accepted u u [].
Proof. split; [by rewrite app_nil_r|]. by exists []. Qed.

Lemma accepted_trans u1 u2 u3 a b : accepted u1 u2 a -> accepted u2 u3 b -> accepted u1 u3 (a ++ b).
Proof.
  intros [Ha (x & Ex & Lx)] [Hb (y & Ey & Ly)]. split; [by rewrite Hb, Ha, app_assoc|].
  exists (x ++ y). rewrite Ex, Ey, app_assoc, accepts_app, length_app. split; [done|lia].
Qed.

Lemma accepted_room u u' bs : accepted u u' bs -> accepts (flag_reads u') = accepts (flag_reads u) - length bs.
Proof. intros [_ (w & -> & E)]. rewrite accepts_app. lia. Qed.

Lemma uart_putc_spec c u : 1 <= accepts (flag_reads u) -> exists u', uart_putc c u = Some u' /\ accepted u u' [u8 c].
Proof.
  intros Hr. unfold uart_putc. destruct u as [reads out]. cbn [flag_reads sent] in *.
  assert (exists rest waits, iter (Datatypes.S (length reads)) wait_round reads = Some rest /\ reads = waits ++ rest /\ accepts waits = 1)
    as (rest & waits & -> & Hw & Hn).
  { induction reads as [|w reads IH]; [unfold accepts in Hr; cbn in Hr; lia|]. destruct (busy w) eqn:Eb.
    - change (w :: reads) with ([w] ++ reads) in Hr. rewrite accepts_app in Hr. unfold accepts at 1 in Hr.
      rewrite filter_cons_False in Hr by congruence. cbn in Hr.
      destruct IH as (rest & waits & E & Ew & En); [lia|]. exists rest, (w :: waits). split; [|split].
      + cbn [length]. by rewrite (iter_inl _ wait_round _ reads) by (cbn; by rewrite Eb).
      + by rewrite Ew.
      + change (w :: waits) with ([w] ++ waits). rewrite accepts_app. unfold accepts at 1. rewrite filter_cons_False by congruence. cbn. lia.
    - exists reads, [w]. split; [|split; [done|]].
      + by apply iter_inr; cbn; rewrite Eb.
      + unfold accepts. by rewrite filter_cons_True. }
  cbn [mbind option_bind]. eexists. split; [done|]. split; cbn [sent flag_reads]; [done|by exists waits].
Qed.

(** The part of a string before its first NUL. *)
Fixpoint upto_nul (bs : list Z) : list Z :=
  match bs with
  | [] => []
  | b :: bs => if b =? 0 then [] else b :: upto_nul bs
  end.

Lemma upto_nul_length bs : (length (upto_nul bs) <= length bs)%nat.
Proof. induction bs as [|b bs IH]; cbn; [lia|]. destruct (b =? 0); cbn; lia. Qed.

(** [uart_puts] sends a string up to its NUL, each byte when there is room. *)
Lemma uart_puts_spec text m u bs : bytes_at m text (bs ++ [0]) ->
  length bs <= accepts (flag_reads u) ->
  exists u', uart_puts text m u = Some u' /\ accepted u u' (u8 <$> upto_nul bs).
Proof.
  intros Hb Hr. unfold uart_puts.
  assert (Hfuel : (length bs < Datatypes.S (size m))%nat).
  { pose proof (bytes_size _ _ _ Hb) as Hle. rewrite length_app in Hle. cbn [length] in Hle. lia. }
  revert Hfuel. generalize (Datatypes.S (size m)) as fuel. intros fuel Hfuel. revert text u fuel Hb Hr Hfuel.
  induction bs as [|b bs IH]; intros text u fuel Hb Hr Hfuel; destruct fuel as [|fuel]; try (cbn in Hfuel; lia).
  - exists u. split; [|apply accepted_refl]. apply iter_inr. unfold puts_round, load8.
    specialize (Hb 0%nat 0 eq_refl). rewrite Z.add_0_r in Hb. by rewrite Hb.
  - pose proof (Hb 0%nat b eq_refl) as Hb0. rewrite Z.add_0_r in Hb0. cbn [length upto_nul] in *.
    destruct (Z.eqb_spec b 0) as [->|Hnz].
    + exists u. split; [|apply accepted_refl]. apply iter_inr. unfold puts_round, load8. by rewrite Hb0.
    + destruct (uart_putc_spec b u ltac:(lia)) as (u1 & E1 & H1).
      destruct (IH (text + 1) u1 fuel) as (u2 & E2 & H2).
      * intros i c Hi. specialize (Hb (Datatypes.S i) c Hi). by replace (text + 1 + Z.of_nat i) with (text + Z.of_nat (Datatypes.S i)) by lia.
      * rewrite (accepted_room _ _ _ H1). cbn [length]. lia.
      * lia.
      * exists u2. split; [|exact (accepted_trans _ _ _ _ _ H1 H2)]. erewrite iter_inl; [exact E2|]. unfold puts_round, load8. rewrite Hb0. cbn [mbind option_bind].
        rewrite (proj2 (Z.eqb_neq b 0) Hnz), E1. done.
Qed.
