(* ===== verification/Layout.v ===== *)
(** * Where the linker puts the kernel ([kernel/linker.ld.S], [kernel/payloads.S], [apps/linker.ld.S])

    The scripts as functions of the input sections the compiler produced: the
    location counter, the symbols and the assertions, which are [None] when
    they fail.  Segments, discarded sections and debug sections take no part:
    the machine loads raw images. *)

From S2P Require Import Prelude MemoryH.

(** An input section, with the alignment and the size of its contents. *)
Record input_section := Input { in_align : Z; in_size : Z }.

(** What the objects bring, in the order the patterns of the script list it. *)
Record kernel_objects := Objects {
  o_text : list input_section;
  o_rodata : list input_section;
  o_data : list input_section;
  o_bss : list input_section;
}.

(** ** The location counter *)

(** [ALIGN(a)] *)
Definition ALIGN (dot a : Z) : Z := (dot + a - 1) / a * a.

(** Input sections one after the other, each at its alignment; the result is
    the address of each and the location counter behind them. *)
Fixpoint place (dot : Z) (ins : list input_section) : list Z * Z :=
  match ins with
  | [] => ([], dot)
  | i :: ins =>
      let a := ALIGN dot (in_align i) in
      let '(places, dot) := place (a + in_size i) ins in
      (a :: places, dot)
  end.

(** An output section starts at the largest alignment of its inputs. *)
Definition section_align (ins : list input_section) : Z := foldr (fun i => Z.max (in_align i)) 1 ins.

Definition output (dot : Z) (ins : list input_section) : list Z * Z := place (ALIGN dot (section_align ins)) ins.

(** ** The kernel *)

(** The symbols, at link-time (virtual) addresses, and the places of the
    input sections. *)
Record kernel_layout := Layout {
  v_text : Z;
  text_places : list Z;
  v_etext : Z;
  rodata_places : list Z;
  v_end_rodata : Z;
  data_places : list Z;
  v_bss_start : Z;
  bss_places : list Z;
  v_bss_stop : Z;
  v_stack_top : Z;
  v_end : Z;
}.

Definition STACK_SIZE : Z := 16384.

Definition link_kernel (o : kernel_objects) : option kernel_layout :=
  let dot := PAGE_OFFSET + TEXT_OFFSET in
  let text := dot in
  let '(text_places, dot) := output dot (o_text o) in
  let dot := ALIGN dot PAGE_SIZE in
  let etext := dot in
  let '(rodata_places, dot) := output dot (o_rodata o) in
  let dot := ALIGN dot PAGE_SIZE in
  let end_rodata := dot in
  let '(data_places, dot) := output dot (o_data o) in
  let dot := ALIGN dot (section_align (o_bss o)) in
  let dot := ALIGN dot 16 in
  let bss_start := dot in
  let '(bss_places, dot) := place dot (o_bss o) in
  let dot := ALIGN dot 16 in
  let bss_stop := dot in
  let dot := ALIGN dot 16 in
  let dot := dot + STACK_SIZE in
  let stack_top := dot in
  assert* dot - PAGE_OFFSET + PHYS_OFFSET <=? APP_FIRST in
  Some (Layout text text_places etext rodata_places end_rodata data_places bss_start bss_places bss_stop stack_top dot).

(** [AT(PHYS_OFFSET + TEXT_OFFSET)]: the load address of a linked one. *)
Definition physical (v : Z) : Z := v - PAGE_OFFSET + PHYS_OFFSET.

(** The symbols the C code takes PC-relatively with the MMU off. *)
Definition image_of (l : kernel_layout) : image :=
  Image (physical (v_text l)) (physical (v_etext l)) (physical (v_etext l)) (physical (v_end_rodata l)) (physical (v_end l)).

(** ** The payloads *)

(** [.rodata.apps]: the binaries one after the other, between their symbols. *)
Definition apps_input (bins : list (list Z)) : input_section := Input 1 (length (concat bins)).

Fixpoint payload_symbols (base : Z) (bins : list (list Z)) : list Z * list Z :=
  match bins with
  | [] => ([], [])
  | bs :: bins =>
      let '(starts, ends) := payload_symbols (base + length bs) bins in
      (base :: starts, base + length bs :: ends)
  end.

(** ** An application *)

(** The script of an application: the address of its first input and the size
    of its image. *)
Definition link_app (index : Z) (text rodata forbidden : list input_section) : option (Z * Z) :=
  let base := APP_FIRST + index * APP_SLOT_SIZE in
  let '(places, dot) := output base text in
  let '(_, dot) := output dot rodata in
  assert* dot - base <=? APP_IMAGE_SIZE in
  let '(_, stop) := place 0 forbidden in
  assert* stop =? 0 in
  let* start := head places in
  Some (start, dot - base).

(** ** Alignment *)

Lemma align_up dot a : 0 < a -> dot <= ALIGN dot a < dot + a /\ (a | ALIGN dot a).
Proof.
  intros Ha. unfold ALIGN. pose proof (Z.div_mod (dot + a - 1) a ltac:(lia)). pose proof (Z.mod_pos_bound (dot + a - 1) a Ha).
  split; [|apply Z.divide_factor_r]. rewrite Z.mul_comm. lia.
Qed.

Lemma align_id dot a : 0 < a -> (a | dot) -> ALIGN dot a = dot.
Proof. intros Ha [q ->]. unfold ALIGN. replace (q * a + a - 1) with (a - 1 + q * a) by lia. by rewrite Z.div_add, Z.div_small by lia. Qed.

(** Alignments are powers of two and at most a page. *)
Definition input_ok (i : input_section) : Prop := (exists k, 0 <= k <= 12 /\ in_align i = 2 ^ k) /\ 0 <= in_size i.

Lemma power_divides j k : 0 <= j <= k -> (2 ^ j | 2 ^ k).
Proof. intros H. exists (2 ^ (k - j)). rewrite <- Z.pow_add_r by lia. f_equal. lia. Qed.

Lemma section_align_power ins : Forall input_ok ins ->
  exists k, 0 <= k <= 12 /\ section_align ins = 2 ^ k /\ forall i, i ∈ ins -> (in_align i | section_align ins).
Proof.
  induction 1 as [|i ins [(j & Hj & Ej) _] _ (k & Hk & Ek & Hall)]; [exists 0; split_and!; (done || lia || set_solver)|].
  cbn [section_align foldr]. fold (section_align ins). rewrite Ek, Ej in *. exists (j `max` k).
  assert (Z.max (2 ^ j) (2 ^ k) = 2 ^ (j `max` k)) as ->.
  { destruct (Z.max_spec j k) as [[? ->]|[? ->]]; [apply Z.max_r|apply Z.max_l]; apply Z.pow_le_mono_r; lia. }
  split_and!; [lia|lia|done|]. intros i' [->|Hi]%elem_of_cons.
  - rewrite Ej. apply power_divides. lia.
  - eapply Z.divide_trans; [by apply Hall|apply power_divides; lia].
Qed.

(** ** Placing *)

(** [places] are the addresses of [ins] between [lo] and [hi], aligned, in
    order and without overlap. *)
Definition placed (ins : list input_section) (places : list Z) (lo hi : Z) : Prop :=
  length places = length ins /\
  (forall n i a, ins !! n = Some i -> places !! n = Some a -> (in_align i | a) /\ lo <= a /\ a + in_size i <= hi) /\
  forall n n' i a a', (n < n')%nat -> ins !! n = Some i -> places !! n = Some a -> places !! n' = Some a' -> a + in_size i <= a'.

Lemma place_placed ins dot : Forall input_ok ins -> let '(places, stop) := place dot ins in dot <= stop /\ placed ins places dot stop.
Proof.
  intros H. revert dot. induction H as [|i ins [(k & Hk & Ek) Hs] _ IH]; intros dot; cbn [place].
  { split; [lia|]. split; [done|]. split; [by intros []|by intros ? []]. }
  assert (Hp : 0 < in_align i) by (rewrite Ek; apply Z.pow_pos_nonneg; lia). destruct (align_up dot _ Hp) as [Hb Hd].
  set (a := ALIGN dot (in_align i)) in *. specialize (IH (a + in_size i)). destruct (place (a + in_size i) ins) as [places stop].
  destruct IH as (Hle & Hl & Hin & Hord). split; [lia|]. split; [cbn; lia|]. split.
  - intros [|n] i' a'; cbn; [intros [= <-] [= <-]; split; [done|lia]|]. intros Hi Ha. destruct (Hin n i' a' Hi Ha) as (? & ? & ?). split; [done|lia].
  - intros [|n] [|n'] i' a' a'' Hlt; cbn; try lia.
    + intros [= <-] [= <-] Ha. destruct (lookup_lt_is_Some_2 ins n') as [i'' Hi'']; [rewrite <- Hl; by apply lookup_lt_Some in Ha|].
      by destruct (Hin n' i'' a'' Hi'' Ha) as (_ & ? & _).
    + apply Hord. lia.
Qed.

Lemma placed_weaken ins places lo hi lo' hi' : lo' <= lo -> hi <= hi' -> placed ins places lo hi -> placed ins places lo' hi'.
Proof. intros ? ? (Hl & Hin & Hord). split; [done|]. split; [|done]. intros n i a Hi Ha. destruct (Hin n i a Hi Ha) as (? & ? & ?). split; [done|lia]. Qed.

Lemma output_placed ins dot : Forall input_ok ins -> let '(places, stop) := output dot ins in dot <= stop /\ placed ins places dot stop.
Proof.
  intros H. unfold output. destruct (section_align_power ins H) as (k & Hk & Ek & _).
  destruct (align_up dot (section_align ins)) as [Hb _]; [rewrite Ek; apply Z.pow_pos_nonneg; lia|].
  pose proof (place_placed ins (ALIGN dot (section_align ins)) H) as Hp. destruct (place _ ins) as [places stop]. destruct Hp as [Hle Hp].
  split; [lia|]. apply (placed_weaken _ _ (ALIGN dot (section_align ins)) stop); (lia || done).
Qed.

(** Different inputs do not overlap. *)
Lemma placed_apart ins places lo hi n n' i i' a a' : placed ins places lo hi -> n <> n' -> ins !! n = Some i -> ins !! n' = Some i' ->
  places !! n = Some a -> places !! n' = Some a' -> a + in_size i <= a' \/ a' + in_size i' <= a.
Proof.
  intros (_ & _ & Hord) Hne Hi Hi' Ha Ha'. destruct (decide (n < n')%nat); [left; by apply (Hord n n')|right; apply (Hord n' n i' a' a); (done || lia)].
Qed.

(** An aligned start takes the first input. *)
Lemma output_first dot i ins : Forall input_ok (i :: ins) -> (PAGE_SIZE | dot) -> fst (output dot (i :: ins)) !! 0%nat = Some dot.
Proof.
  intros H Hd. unfold output. destruct (section_align_power _ H) as (k & Hk & Ek & Hdiv). specialize (Hdiv i ltac:(set_solver)).
  assert (Hs : (section_align (i :: ins) | dot)).
  { rewrite Ek. eapply Z.divide_trans; [|exact Hd]. change PAGE_SIZE with (2 ^ 12). apply power_divides. lia. }
  rewrite (align_id dot) by (try done; rewrite Ek; apply Z.pow_pos_nonneg; lia). apply Forall_cons in H as [[(j & Hj & Ej) _] _].
  cbn [place]. rewrite (align_id dot) by (try (by eapply Z.divide_trans); rewrite Ej; apply Z.pow_pos_nonneg; lia).
  by destruct (place _ ins).
Qed.

(** ** What the script guarantees *)

Definition objects_ok (o : kernel_objects) : Prop :=
  Forall input_ok (o_text o) /\ Forall input_ok (o_rodata o) /\ Forall input_ok (o_data o) /\ Forall input_ok (o_bss o).

Record laid_out (o : kernel_objects) (l : kernel_layout) : Prop := {
  lo_image : image_ok (image_of l);
  lo_text : v_text l = PAGE_OFFSET + TEXT_OFFSET /\ placed (o_text o) (text_places l) (v_text l) (v_etext l);
  lo_entry : o_text o <> [] -> text_places l !! 0%nat = Some (v_text l);
  lo_rodata : placed (o_rodata o) (rodata_places l) (v_etext l) (v_end_rodata l);
  lo_data : placed (o_data o) (data_places l) (v_end_rodata l) (v_bss_start l);
  lo_bss : placed (o_bss o) (bss_places l) (v_bss_start l) (v_bss_stop l);
  lo_align : (16 | v_bss_start l) /\ (16 | v_bss_stop l) /\ (16 | v_stack_top l);
  lo_stack : v_stack_top l = v_bss_stop l + STACK_SIZE /\ v_end l = v_stack_top l;
  lo_bounds : v_text l <= v_etext l <= v_end_rodata l /\ v_end_rodata l <= v_bss_start l <= v_bss_stop l /\ physical (v_end l) <= APP_FIRST;
}.

(** Room that is always enough. *)
Definition room_for (ins : list input_section) : Z := foldr (fun i n => in_size i + PAGE_SIZE + n) 0 ins.

Definition room_needed (o : kernel_objects) : Z :=
  room_for (o_text o) + room_for (o_rodata o) + room_for (o_data o) + room_for (o_bss o) + 7 * PAGE_SIZE + STACK_SIZE.

Lemma power_page k : 0 <= k <= 12 -> 0 < 2 ^ k <= PAGE_SIZE.
Proof. intros Hk. split; [apply Z.pow_pos_nonneg; lia|]. change PAGE_SIZE with (2 ^ 12). apply Z.pow_le_mono_r; lia. Qed.

Lemma place_room ins dot : Forall input_ok ins -> (place dot ins).2 <= dot + room_for ins.
Proof.
  intros H. revert dot. induction H as [|i ins [(k & Hk & Ek) Hs] _ IH]; intros dot; cbn [place room_for foldr snd]; [lia|]. fold (room_for ins).
  pose proof (power_page k Hk) as Hp. rewrite <- Ek in Hp. destruct (align_up dot (in_align i)) as [Hb _]; [lia|].
  specialize (IH (ALIGN dot (in_align i) + in_size i)). destruct (place _ ins) as [places stop]. cbn [snd] in *. lia.
Qed.

Lemma section_align_page ins : Forall input_ok ins -> 0 < section_align ins <= PAGE_SIZE.
Proof. intros H. destruct (section_align_power ins H) as (k & Hk & -> & _). by apply power_page. Qed.

Lemma output_room ins dot : Forall input_ok ins -> (output dot ins).2 <= dot + room_for ins + PAGE_SIZE.
Proof.
  intros H. pose proof (section_align_page ins H) as Hp. destruct (align_up dot (section_align ins)) as [Hb _]; [lia|].
  pose proof (place_room ins (ALIGN dot (section_align ins)) H). unfold output. lia.
Qed.

Lemma page_16 x : (PAGE_SIZE | x) -> (16 | x).
Proof. intros H. eapply Z.divide_trans; [|exact H]. by exists 256. Qed.

Lemma page_physical x : (PAGE_SIZE | x) -> (PAGE_SIZE | physical x).
Proof. intros [q ->]. exists (q - 0xffffffc000000 + 0x40000). unfold physical. change PAGE_SIZE with 4096. unfold PAGE_OFFSET, PHYS_OFFSET. lia. Qed.

Lemma link_kernel_result o : objects_ok o ->
  match link_kernel o with
  | Some l => laid_out o l
  | None => APP_FIRST < PHYS_OFFSET + TEXT_OFFSET + room_needed o
  end.
Proof.
  intros (Ht & Hr & Hd & Hb). unfold link_kernel, room_needed. set (d0 := PAGE_OFFSET + TEXT_OFFSET).
  assert (H16 : 0 < 16) by lia. assert (Hpg : 0 < PAGE_SIZE) by done.
  pose proof (output_placed _ d0 Ht) as P1. pose proof (output_room _ d0 Ht) as R1. pose proof (fun i ins E => output_first d0 i ins E) as Hfirst.
  destruct (output d0 (o_text o)) as [p1 d1] eqn:E1. destruct P1 as [L1 P1]. cbn [snd] in R1. destruct (align_up d1 PAGE_SIZE Hpg) as [B2 D2]. set (d2 := ALIGN d1 PAGE_SIZE) in *.
  pose proof (output_placed _ d2 Hr) as P3. pose proof (output_room _ d2 Hr) as R3. destruct (output d2 (o_rodata o)) as [p3 d3]. destruct P3 as [L3 P3]. cbn [snd] in R3.
  destruct (align_up d3 PAGE_SIZE Hpg) as [B4 D4]. set (d4 := ALIGN d3 PAGE_SIZE) in *.
  pose proof (output_placed _ d4 Hd) as P5. pose proof (output_room _ d4 Hd) as R5. destruct (output d4 (o_data o)) as [p5 d5]. destruct P5 as [L5 P5]. cbn [snd] in R5.
  pose proof (section_align_page _ Hb) as Ha. destruct (align_up d5 (section_align (o_bss o))) as [B6 _]; [lia|]. set (d6 := ALIGN d5 _) in *.
  destruct (align_up d6 16 H16) as [B7 D7]. set (d7 := ALIGN d6 16) in *.
  pose proof (place_placed _ d7 Hb) as P8. pose proof (place_room _ d7 Hb) as R8. destruct (place d7 (o_bss o)) as [p8 d8]. destruct P8 as [L8 P8]. cbn [snd] in R8.
  destruct (align_up d8 16 H16) as [B9 D9]. set (d9 := ALIGN d8 16) in *. rewrite (align_id d9 16 H16 D9).
  change PAGE_SIZE with 4096 in *. clearbody d2 d4 d6 d7 d9. destruct (Z.leb_spec (d9 + STACK_SIZE - PAGE_OFFSET + PHYS_OFFSET) APP_FIRST) as [Hfit|Hno].
  2:{ unfold d0 in *. unfold PAGE_OFFSET, PHYS_OFFSET in *. lia. }
  assert (Hs : 0 < STACK_SIZE) by done.
  split; cbn [v_text text_places v_etext rodata_places v_end_rodata data_places v_bss_start bss_places v_bss_stop v_stack_top v_end].
  - split; cbn [image_of _text _etext __start_rodata __end_rodata _end v_text v_etext v_end_rodata v_end].
    + unfold physical, d0. lia.
    + unfold physical. lia.
    + split_and!; by apply page_physical.
  - split; [done|]. by apply (placed_weaken _ _ d0 d1); [lia|lia|].
  - intros Hne. destruct (o_text o) as [|i ins]; [done|]. specialize (Hfirst i ins Ht). rewrite E1 in Hfirst. apply Hfirst. unfold d0. by exists ((PAGE_OFFSET + TEXT_OFFSET) / 4096).
  - apply (placed_weaken _ _ d2 d3); [lia|lia|done].
  - apply (placed_weaken _ _ d4 d5); [lia|lia|done].
  - apply (placed_weaken _ _ d7 d8); [lia|lia|done].
  - split_and!; try done. apply Z.divide_add_r; [done|by exists 1024].
  - done.
  - unfold physical. split_and!; lia.
Qed.

(** ** The payloads *)

Lemma payload_symbols_length base bins : length (payload_symbols base bins).1 = length bins /\ length (payload_symbols base bins).2 = length bins.
Proof.
  revert base. induction bins as [|bs bins IH]; intros base; [done|]. cbn [payload_symbols]. specialize (IH (base + length bs)).
  destruct (payload_symbols _ bins) as [starts ends]. cbn in *. lia.
Qed.

(** Between the symbols of a payload is its binary. *)
Lemma payload_between base bins i s e bs : (payload_symbols base bins).1 !! i = Some s -> (payload_symbols base bins).2 !! i = Some e -> bins !! i = Some bs ->
  e = s + length bs /\ base <= s /\ e <= base + length (concat bins) /\ forall n b, bs !! n = Some b -> concat bins !! (Z.to_nat (s - base) + n)%nat = Some b.
Proof.
  revert base i. induction bins as [|b0 bins IH]; intros base i; [by destruct i|]. cbn [payload_symbols]. specialize (IH (base + length b0)).
  pose proof (payload_symbols_length (base + length b0) bins) as Hl. destruct (payload_symbols _ bins) as [starts ends]. cbn [fst snd concat] in *.
  rewrite length_app. destruct i as [|i]; cbn.
  - intros [= <-] [= <-] [= <-]. split_and!; [done|lia|lia|]. intros n b Hn. rewrite Z.sub_diag. cbn. rewrite lookup_app_l; [done|]. by apply lookup_lt_Some in Hn.
  - intros Hs He Hb. destruct (IH i Hs He Hb) as (-> & Hlo & Hhi & Hx). split_and!; [done|lia|lia|]. intros n b Hn.
    rewrite lookup_app_r by lia. rewrite <- (Hx n b Hn). f_equal. lia.
Qed.

(** ** The properties *)

(** C39. The linker script: for any input sections with the alignments an
    object file has, the link fails only when the kernel does not fit below
    the application slots.  Otherwise the symbols satisfy what the C code
    assumes of them: the text is at its load address and starts with the entry
    point, the segments are page aligned and in order, every input section is
    at its alignment inside its output section and overlaps no other, [.bss]
    can be cleared in words and the stack below [__stack_top] has its 16 KiB
    to itself, 16-byte aligned. *)
Theorem kernel_layout_is_sound o : objects_ok o ->
  match link_kernel o with
  | Some l => laid_out o l
  | None => APP_FIRST < PHYS_OFFSET + TEXT_OFFSET + room_needed o
  end.
Proof. exact (link_kernel_result o). Qed.

(** C40. The script of an application: an image that links is loaded where it
    was linked to run, which is where [start_app] enters it: its first
    instruction is at the start of its slot, and it fits below the guard; and
    an application with static data does not link. *)
Theorem application_links_at_its_slot index text rodata forbidden start size :
  0 <= index < APP_COUNT -> text <> [] -> Forall input_ok text -> Forall input_ok rodata -> Forall input_ok forbidden ->
  link_app index text rodata forbidden = Some (start, size) ->
  start = APP_FIRST + index * APP_SLOT_SIZE /\ 0 <= size <= APP_IMAGE_SIZE /\ Forall (fun i => in_size i = 0) forbidden.
Proof.
  intros Hi Hne Ht Hr Hf. unfold link_app. set (base := APP_FIRST + index * APP_SLOT_SIZE).
  pose proof (output_placed _ base Ht) as P1. assert (Hbase : (PAGE_SIZE | base)) by (exists (APP_FIRST / PAGE_SIZE + index * (APP_SLOT_SIZE / PAGE_SIZE)); unfold base, APP_FIRST, APP_SLOT_SIZE; change PAGE_SIZE with 4096; change (0x20000 / 4096) with 32; change (0x41000000 / 4096) with 0x41000; lia).
  assert (Hh : fst (output base text) !! 0%nat = Some base) by (destruct text; [done|]; by apply output_first).
  destruct (output base text) as [p1 d1]. destruct P1 as [L1 _]. cbn [fst] in Hh. pose proof (output_placed _ d1 Hr) as P2. destruct (output d1 rodata) as [p2 d2]. destruct P2 as [L2 _].
  destruct (Z.leb_spec (d2 - base) APP_IMAGE_SIZE); [|done]. pose proof (place_placed _ 0 Hf) as P3. destruct (place 0 forbidden) as [p3 d3] eqn:E3. destruct P3 as [_ (Hl & Hin & _)].
  destruct (Z.eqb_spec d3 0) as [->|]; [|done]. destruct p1 as [|a p1]; [done|]. cbn in Hh |- *. injection Hh as ->. intros [= <- <-]. split; [done|]. split; [lia|].
  apply Forall_lookup. intros n i Hn. destruct (lookup_lt_is_Some_2 p3 n) as [a Ha]; [rewrite Hl; by apply lookup_lt_Some in Hn|].
  destruct (Hin n i a Hn Ha) as (_ & ? & ?). rewrite Forall_lookup in Hf. destruct (Hf n i Hn) as [_ ?]. lia.
Qed.

(** ** Instances *)

(** A small kernel: [boot.S] and the rest of the code, its message, constants
    and payloads, some data, and the [.bss] of [main.c], [mmu.c] and [task.c]. *)
Definition sample_objects : kernel_objects :=
  Objects [Input 4 0x100; Input 2048 0x4000] [Input 1 28; Input 8 0x1000; apps_input [[1; 2]; [3]; [4; 5; 6]]] [Input 8 0x100]
    [Input 8 24; Input 4096 0x49004; Input 8 968].

Definition sample_layout : kernel_layout :=
  Layout 0xffffffc000080000 [0xffffffc000080000; 0xffffffc000080800] 0xffffffc000085000
    [0xffffffc000085000; 0xffffffc000085020; 0xffffffc000086020] 0xffffffc000087000 [0xffffffc000087000]
    0xffffffc000088000 [0xffffffc000088000; 0xffffffc000089000; 0xffffffc0000d2008] 0xffffffc0000d23d0 0xffffffc0000d63d0 0xffffffc0000d63d0.

Lemma sample_link : link_kernel sample_objects = Some sample_layout.
Proof. vm_compute. reflexivity. Qed.

Lemma sample_input k n : 0 <= k <= 12 -> 0 <= n -> input_ok (Input (2 ^ k) n).
Proof. intros Hk Hn. split; [by exists k|done]. Qed.

Lemma sample_objects_ok : objects_ok sample_objects.
Proof.
  assert (H1 := sample_input 0). assert (H4 := sample_input 2). assert (H8 := sample_input 3). assert (Hv := sample_input 11). assert (Hp := sample_input 12).
  unfold objects_ok, sample_objects, apps_input. cbn [o_text o_rodata o_data o_bss]. rewrite !Forall_cons.
  split_and!; try (by apply Forall_nil); first [apply H1; lia|apply H4; lia|apply H8; lia|apply Hv; lia|apply Hp; lia].
Qed.

Lemma kernel_layout_is_sound_witness : laid_out sample_objects sample_layout.
Proof. pose proof (kernel_layout_is_sound sample_objects sample_objects_ok) as H. rewrite sample_link in H. exact H. Defined.

Lemma application_links_at_its_slot_witness : exists size, link_app 1 [Input 4 0x40; Input 4 0x700] [Input 8 0x123] [Input 8 0] = Some (0x41020000, size) /\ size <= APP_IMAGE_SIZE.
Proof.
  exists 0x863. split; [vm_compute; reflexivity|].
  destruct (application_links_at_its_slot 1 [Input 4 0x40; Input 4 0x700] [Input 8 0x123] [Input 8 0] 0x41020000 0x863) as (_ & [_ H] & _).
  - unfold APP_COUNT. lia.
  - discriminate.
  - repeat (apply Forall_cons; split; [apply (sample_input 2); lia|]). by apply Forall_nil.
  - apply Forall_cons. split; [apply (sample_input 3); lia|by apply Forall_nil].
  - apply Forall_cons. split; [apply (sample_input 3); lia|by apply Forall_nil].
  - vm_compute. reflexivity.
  - exact H.
Defined.
