(* ===== verification/Head.v ===== *)
(** * The first instructions ([kernel/boot.S])

    What runs before [mmu_init], at physical addresses: the check of the
    exception level with its message, the system control register, the
    clearing of [.bss] and the saved device tree pointer.  The linker symbols
    are parameters with what [kernel/linker.ld.S] says of them; [Reset.v] takes
    them from [Layout.v]. *)

From Stdlib Require Import Ascii String.
From S2P Require Import Prelude MemoryH Mem StringC Vsprintf Uart.

(** The physical addresses the code takes with [adr_l]. *)
Record symbols := Symbols { bss_start : Z; bss_stop : Z; fdt_pointer : Z; unsupported_message : Z }.

(** [clear_bss] *)
Definition clear_round (stop : Z) (s : Z * mem) : option ((Z * mem) + mem) :=
  let '(x0, m) := s in
  if stop <=? x0 then Some (inr m)
  else let* m := store64 x0 0 m in Some (inl (u64 (x0 + 8), m)).

Definition clear_bss (x : symbols) (m : mem) : option mem :=
  iter (rounds (bss_stop x - bss_start x)) (clear_round (bss_stop x)) (bss_start x, m).

(** [unsupported_wait] tests the same bit of the same register as
    [uart_putc]. *)
Definition unsupported_round (m : mem) (s : Z * uart) : option ((Z * uart) + uart) :=
  let '(x0, u) := s in
  let* w2 := load8 m x0 in
  if w2 =? 0 then Some (inr u)
  else
    let* reads := iter (Datatypes.S (length (flag_reads u))) wait_round (flag_reads u) in
    Some (inl (x0 + 1, Uart reads (sent u ++ [w2]))).

Definition unsupported_el (x : symbols) (m : mem) (u : uart) : option uart :=
  iter (Datatypes.S (size m)) (unsupported_round m) (unsupported_message x, u).

(** Up to [bl mmu_init], with [SCTLR_EL1] and memory; or halted, with what the
    serial port has sent.  Masking interrupts, choosing and setting the stack
    pointer and the barriers change nothing in this state. *)
Definition start_code (x : symbols) (x0 currentel sctlr : Z) (m : mem) (u : uart) : option ((Z * mem) + uart) :=
  if negb (currentel =? 4) then
    let* u := unsupported_el x m u in Some (inr u)
  else
    let sctlr := Z.ldiff sctlr 0x1005 in
    let* m := clear_bss x m in
    let* m := store64 (fdt_pointer x) x0 m in
    Some (inl (sctlr, m)).

Definition unsupported_text : list Z := bytes_of "PANIC unsupported entry EL
".

(** ** What the linker script promises *)

Record linked (x : symbols) (m : mem) : Prop := {
  l_range : 0 <= bss_start x <= bss_stop x /\ bss_stop x < 2 ^ 64;
  l_align : (16 | bss_start x) /\ (16 | bss_stop x);
  l_mapped : mapped m (bss_start x) (bss_stop x - bss_start x);
  l_fdt : bss_start x <= fdt_pointer x /\ fdt_pointer x + 8 <= bss_stop x;
  l_message : bytes_at m (unsupported_message x) (unsupported_text ++ [0]);
}.

(** Zero bytes from [a] to [b]. *)
Definition zeroed (a b : Z) (m m' : mem) : Prop := forall y, m' !! y = if decide (a <= y < b) then Some 0 else m !! y.

Lemma zero_word a m y : write a (Z_to_little_endian 8 8 0) m !! y = if decide (a <= y < a + 8) then Some 0 else m !! y.
Proof.
  rewrite lookup_write, le8_length. change (Z.of_nat 8) with 8. case_decide; [|done]. change (Z_to_little_endian 8 8 0) with (replicate 8 0). apply lookup_replicate_2. lia.
Qed.

Lemma clear_bss_exec x m : linked x m -> exists m', clear_bss x m = Some m' /\ zeroed (bss_start x) (bss_stop x) m m'.
Proof.
  intros [Hr [[a Ha] [b Hb]] Hm _ _]. unfold clear_bss.
  destruct (iter_rule (fun s => exists i m1, s = (bss_start x + 8 * i, m1) /\ 0 <= i /\ bss_start x + 8 * i <= bss_stop x /\ zeroed (bss_start x) (bss_start x + 8 * i) m m1)
    (fun m' => zeroed (bss_start x) (bss_stop x) m m') (fun s => Z.to_nat (bss_stop x - s.1)) (clear_round (bss_stop x)))
    with (fuel := rounds (bss_stop x - bss_start x)) (s := (bss_start x, m)) as (m' & E & H); [| | |by exists m'].
  - intros s (i & m1 & -> & Hi & Hle & Hz). unfold clear_round. destruct (Z.leb_spec (bss_stop x) (bss_start x + 8 * i)) as [Hge|Hlt].
    + right. exists m1. split; [done|]. by replace (bss_stop x) with (bss_start x + 8 * i) by lia.
    + left. assert (Hw : bss_start x + 8 * i + 8 <= bss_stop x) by lia. rewrite store64_write.
      * cbn [mbind option_bind]. eexists. split; [done|]. cbn [fst snd]. rewrite u64_id by (unfold is_u64; lia). split; [|lia].
        exists (i + 1). eexists. split; [f_equal; lia|]. split; [lia|]. split; [lia|]. intros y. rewrite zero_word, (Hz y). repeat case_decide; try done; lia.
      * intros y Hy. rewrite (Hz y). case_decide; [by eexists|]. apply Hm. lia.
  - exists 0, m. split; [f_equal; lia|]. split; [lia|]. split; [lia|]. intros y. by rewrite decide_False by lia.
  - cbn [fst]. unfold rounds. lia.
Qed.

(** The assembly loop sends what [uart_puts] would. *)
Lemma unsupported_round_puts m s : (forall a v, m !! a = Some v -> is_byte v) -> unsupported_round m s = puts_round m s.
Proof.
  intros Hm. destruct s as [a u]. unfold unsupported_round, puts_round, uart_putc, load8. destruct (m !! a) as [v|] eqn:E; [|done]. cbn [mbind option_bind].
  destruct (v =? 0); [done|]. destruct (iter _ _ _) as [reads|]; [|done]. cbn [mbind option_bind]. unfold u8. rewrite Z.mod_small; [done|]. by apply (Hm a).
Qed.

Lemma iter_ext {A R} (f g : A -> option (A + R)) n s : (forall s, f s = g s) -> iter n f s = iter n g s.
Proof. intros H. revert s. induction n as [|n IH]; intros s; [done|]. cbn [iter]. rewrite H. destruct (g s) as [[s'|r]|]; [apply IH|done|done]. Qed.

(** At EL1: what is stored, and nothing else. *)
Lemma start_code_el1 (x : symbols) (x0 sctlr : Z) (m : mem) (u : uart) : linked x m ->
  exists mz, zeroed (bss_start x) (bss_stop x) m mz /\
    start_code x x0 4 sctlr m u = Some (inl (Z.ldiff sctlr 0x1005, write (fdt_pointer x) (Z_to_little_endian 8 8 x0) mz)).
Proof.
  intros Hx. destruct (clear_bss_exec x m Hx) as (mz & E & Hz). exists mz. split; [done|]. unfold start_code. cbn [negb Z.eqb Pos.eqb]. rewrite E.
  cbn [mbind option_bind]. destruct Hx as [Hr Hal Hmap Hf _]. rewrite store64_write; [done|]. intros y Hy. rewrite (Hz y), decide_True by lia. by eexists.
Qed.

(** The MMU and the two caches. *)
Lemma sctlr_bits sctlr i : 0 <= i -> Z.testbit (Z.ldiff sctlr 0x1005) i = Z.testbit sctlr i && negb (bool_decide (i = 0 \/ i = 2 \/ i = 12)).
Proof.
  intros Hi. rewrite Z.ldiff_spec. f_equal. f_equal. destruct (decide (i < 13)) as [Hlt|Hge].
  - assert (i ∈ seqZ 0 13) as Hin by (apply elem_of_seqZ; lia). revert i Hi Hlt Hin.
    assert (Forall (fun i => Z.testbit 0x1005 i = bool_decide (i = 0 \/ i = 2 \/ i = 12)) (seqZ 0 13)) as Hall by (vm_compute; repeat constructor).
    intros i _ _ Hin. by apply (proj1 (Forall_forall _ _) Hall).
  - rewrite Z.bits_above_log2 by (try done; change (Z.log2 0x1005) with 12; lia). by rewrite bool_decide_false by lia.
Qed.

(** At any other level: the message. *)
Lemma start_code_other x x0 currentel sctlr m u : linked x m -> mem_ok m -> length unsupported_text <= accepts (flag_reads u) -> currentel <> 4 ->
  exists u', start_code x x0 currentel sctlr m u = Some (inr u') /\ accepted u u' unsupported_text.
Proof.
  intros Hx Hm Hu Hne. unfold start_code. rewrite (proj2 (Z.eqb_neq _ _) Hne). cbn [negb].
  destruct (uart_puts_spec (unsupported_message x) m u unsupported_text) as (u' & E & Ha); [by apply Hx|done|].
  exists u'. unfold unsupported_el. rewrite (iter_ext _ (puts_round m)) by (intros s; by apply unsupported_round_puts). unfold uart_puts in E. rewrite E.
  split; [done|]. by replace (u8 <$> upto_nul unsupported_text) with unsupported_text in Ha by reflexivity.
Qed.

(** ** The properties *)

(** From the reset to [mmu_init]: at EL1 the code clears exactly [.bss],
    then stores the device tree pointer from [x0], which therefore survives
    the clearing although it is in [.bss], changes no other byte, and turns
    off exactly the MMU and the two caches in [SCTLR_EL1]; at any other
    exception level it sends exactly the panic message, each byte when the
    serial port has room, and changes no memory. *)
Theorem start_code_prepares x x0 currentel sctlr m u : linked x m -> mem_ok m -> is_u64 x0 -> length unsupported_text <= accepts (flag_reads u) ->
  if currentel =? 4 then
    exists sctlr' m', start_code x x0 currentel sctlr m u = Some (inl (sctlr', m')) /\
      load64 m' (fdt_pointer x) = Some x0 /\
      (forall y, bss_start x <= y < bss_stop x -> ~ fdt_pointer x <= y < fdt_pointer x + 8 -> m' !! y = Some 0) /\
      (forall y, ~ bss_start x <= y < bss_stop x -> m' !! y = m !! y) /\
      (forall i, 0 <= i -> Z.testbit sctlr' i = Z.testbit sctlr i && negb (bool_decide (i = 0 \/ i = 2 \/ i = 12)))
  else
    exists u', start_code x x0 currentel sctlr m u = Some (inr u') /\ accepted u u' unsupported_text.
Proof.
  intros Hx Hm H0 Hu. destruct (Z.eqb_spec currentel 4) as [->|Hne]; [|by apply start_code_other].
  destruct (start_code_el1 x x0 sctlr m u Hx) as (m1 & Hz & E1). destruct Hx as [Hr Hal Hmap Hf _].
  eexists _, _. split; [exact E1|]. split; [rewrite load64_written; by rewrite u64_id|]. split; [|split].
  - intros y Hy Hn. rewrite lookup_write_out by (rewrite le8_length; lia). by rewrite (Hz y), decide_True.
  - intros y Hy. rewrite lookup_write_out by (rewrite le8_length; lia). by rewrite (Hz y), decide_False.
  - by apply sctlr_bits.
Qed.

(** ** Instance *)

Definition sample_symbols : symbols := Symbols 0x1000 0x1020 0x1008 0x2000.

Definition sample_boot_ram : mem := write 0x2000 (unsupported_text ++ [0]) (write 0x1000 (replicate 32 0xaa) ∅).

Lemma sample_linked : linked sample_symbols sample_boot_ram.
Proof.
  split; cbn [bss_start bss_stop fdt_pointer unsupported_message sample_symbols]; try lia.
  - split; [by exists 0x100|by exists 0x102].
  - apply mapped_write. intros y Hy. rewrite lookup_write, decide_True by (rewrite length_replicate; lia). eexists. apply lookup_replicate_2. lia.
  - apply bytes_at_written.
Qed.

Lemma sample_boot_bytes : mem_ok sample_boot_ram.
Proof.
  apply mem_ok_write; [apply mem_ok_write; [apply map_Forall_empty|]|].
  - apply Forall_replicate. unfold is_byte. lia.
  - apply Forall_forall. intros b Hb. apply list_elem_of_In in Hb. revert b Hb. apply List.Forall_forall. vm_compute. repeat constructor; done.
Qed.

Lemma start_code_prepares_witness :
  (exists sctlr' m', start_code sample_symbols 0x44000000 4 0xc5183d sample_boot_ram (Uart (replicate 27 0) []) = Some (inl (sctlr', m')) /\ load64 m' 0x1008 = Some 0x44000000) /\
  exists u', start_code sample_symbols 0x44000000 8 0 sample_boot_ram (Uart (replicate 27 0) []) = Some (inr u') /\ sent u' = unsupported_text.
Proof.
  split.
  - destruct (start_code_prepares sample_symbols 0x44000000 4 0xc5183d sample_boot_ram (Uart (replicate 27 0) []) sample_linked sample_boot_bytes)
      as (sctlr' & m' & E & Hf & _); [unfold is_u64; lia|vm_compute; discriminate|]. exists sctlr', m'. split; [exact E|exact Hf].
  - destruct (start_code_prepares sample_symbols 0x44000000 8 0 sample_boot_ram (Uart (replicate 27 0) []) sample_linked sample_boot_bytes)
      as (u' & E & Hs & _); [unfold is_u64; lia|vm_compute; discriminate|]. exists u'. split; [exact E|exact Hs].
Defined.
