(* ===== verification/Printk.v ===== *)
(** * Kernel messages ([lib/printk.c])

    [printk] formats a time stamp and the message into a buffer of 256 bytes
    on the stack and sends the buffer to the serial port.  The buffer's
    address and the addresses of the string literals are parameters; the
    counter and its frequency are read from system registers. *)

From Stdlib Require Import Ascii String.
From S2P Require Import Prelude Mem Uart Vsprintf VsprintfProof VsprintfNumber VsprintfSpec.

Definition PRINTK_BUFFER : Z := 256.

(** The format of the time stamp. *)
Definition stamp_format : String.string := "[%5lu.%06lu] ".

(** [stamp] and [null] are the addresses of the literals; [length += ...] is
    an addition of [int]s. *)
Definition printk (stamp null buf fmt : Z) (args : list arg) (ticks frequency : Z) (m : mem) (u : uart)
    : option (Z * mem * uart) :=
  assert* negb (frequency =? 0) in
  let seconds := ticks / frequency in
  let micros := u64 (ticks mod frequency * 1000000) / frequency in
  let* '(n, m) := snprintf null buf PRINTK_BUFFER stamp [Arg64 seconds; Arg64 micros] m in
  let* '(n', m) := vsnprintf null (buf + n) (u64 (PRINTK_BUFFER - u64 n)) fmt args m in
  assert* is_int (n + n') in
  let* u := uart_puts buf m u in
  Some (n + n', m, u).

(** ** The time stamp *)

(** The digits of a number in base 10, without leading zeros. *)
Definition shows (n : Z) (txt : list Z) : Prop :=
  exists ds tmp, digit_chars small_digits ds tmp /\ is_digits 10 ds n /\ (0 < n -> last ds <> Some 0) /\
    1 <= length tmp <= 64 /\ txt = reverse tmp.

(** [[seconds.micros] ], the seconds in at least five characters and the
    microseconds in at least six digits. *)
Definition time_stamp (seconds micros : Z) (txt : list Z) : Prop :=
  exists a b, shows seconds a /\ shows micros b /\
    txt = bytes_of "["%string ++ layout [] [] a 5 0 ++ bytes_of "."%string ++ layout [] [] b 6 ZEROPAD ++ bytes_of "] "%string.

Lemma time_stamp_length seconds micros txt : time_stamp seconds micros txt -> 15 <= length txt <= 132.
Proof.
  intros (a & b & (da & ta & _ & _ & _ & La & ->) & (db & tb & _ & _ & _ & Lb & ->) & ->).
  rewrite !length_app. pose proof (layout_length [] [] (reverse ta) 5 0) as E1. pose proof (layout_length [] [] (reverse tb) 6 ZEROPAD) as E2.
  rewrite !app_nil_l, length_reverse in E1, E2. change (length (bytes_of "["%string)) with 1%nat. change (length (bytes_of "."%string)) with 1%nat.
  change (length (bytes_of "] "%string)) with 2%nat. lia.
Qed.

(** An unsigned decimal of a 64-bit number. *)
Lemma number_decimal ro out n width type :
  is_u64 n -> has SIGN type = false -> has SPECIAL type = false -> has LARGE type = false -> -1 <= width <= 100 -> fits_in out (2 ^ 30 + 100) ->
  exists a, shows n a /\ number (Text out ro) (swrap 64 (u64 n)) 10 width (-1) type = Some (inl (Text (out ++ layout [] [] a width type) ro)).
Proof.
  intros Hn Hsg Hsp Hlg Hw Hf. unfold is_u64 in Hn. assert (Hsw : - 2 ^ 63 <= swrap 64 (u64 n) < 2 ^ 63).
  { unfold swrap. change (2 ^ (64 - 1)) with (2 ^ 63). pose proof (Z.mod_pos_bound (u64 n + 2 ^ 63) (2 ^ 64)). lia. }
  destruct (number_text ro out (swrap 64 (u64 n)) 10 width (-1) type) as (ds & tmp & Hch & Hds & [_ Hlead] & Hl & E);
    [lia|by rewrite Hsg|lia|lia|lia|done|].
  assert (Emag : magnitude (swrap 64 (u64 n)) type = n).
  { unfold magnitude. rewrite Hsg. cbn [andb]. rewrite (u64_id n) by (unfold is_u64; lia). unfold swrap, u64. change (2 ^ (64 - 1)) with (2 ^ 63).
    rewrite Zminus_mod_idemp_l. replace (n + 2 ^ 63 - 2 ^ 63) with n by lia. by apply Z.mod_small. }
  rewrite Emag in *. exists (reverse tmp). split; [|rewrite E; do 4 f_equal].
  - unfold digit_table in Hch. rewrite Hlg in Hch. by exists ds, tmp.
  - unfold sign_text, prefix_text. rewrite Hsg, Hsp. replace (Z.to_nat (-1 - length tmp)) with 0%nat by lia. done.
Qed.

(** One literal character or the start of a directive; one round of the
    flags; one digit of the width; the rest of an [l] directive. *)
Ltac literal Hb k :=
  rewrite iter_S by (unfold reach; lia); unfold format_round at 1; cbn [memory_of text_sink t_mem]; read_at Hb k; tests; cbn [negb].

Ltac flag_round Hb k := rewrite iter_S by (unfold reach; lia); unfold flags_round at 1; read_at Hb k; tests.

Ltac digit Hb k := rewrite iter_S by (unfold reach; lia); unfold atoi_round at 1; read_at Hb k; tests.

Ltac long_unsigned Hb k k' :=
  cbn [mbind option_bind]; unfold parse_precision; read_at Hb k; tests; cbn [mbind option_bind];
  unfold parse_qualifier; read_at Hb k; tests; cbn [mbind option_bind];
  unfold convert; cbn [memory_of text_sink t_mem]; read_at Hb k'; tests; unfold conv_number, fetch_number, va_arg64; tests; cbn [mbind option_bind].

(** The time stamp's format prints it. *)
Lemma format_stamp null stamp ro s us :
  bytes_at ro stamp (bytes_of stamp_format ++ [0]) -> is_u64 s -> is_u64 us ->
  exists txt, time_stamp s us txt /\ format null stamp [Arg64 s; Arg64 us] (Text [] ro) = Some (Text txt ro).
Proof.
  intros Hb Hs Hus. pose proof (bytes_size _ _ _ Hb) as Hsz. change (length _) with 14%nat in Hsz.
  destruct (number_decimal ro [chr "["] s 5 0) as (a & Ha & Ea); [done|done|done|done|lia|unfold fits_in, INT_MAX; cbn [length]; lia|].
  assert (La : length ([chr "["] ++ layout [] [] a 5 0) <= 130).
  { destruct Ha as (da & ta & _ & _ & _ & L & ->). rewrite length_app. pose proof (layout_length [] [] (reverse ta) 5 0) as E1.
    rewrite !app_nil_l, length_reverse in E1. cbn [length]. lia. }
  destruct (number_decimal ro (([chr "["] ++ layout [] [] a 5 0) ++ [chr "."]) us 6 ZEROPAD) as (b & Hbb & Eb);
    [done|done|done|done|lia|unfold fits_in, INT_MAX; rewrite length_app; cbn [length] in *; lia|].
  assert (Lb : length ((([chr "["] ++ layout [] [] a 5 0) ++ [chr "."]) ++ layout [] [] b 6 ZEROPAD) <= 200).
  { destruct Hbb as (db & tb & _ & _ & _ & L & ->). rewrite length_app, (length_app _ [chr "."]). pose proof (layout_length [] [] (reverse tb) 6 ZEROPAD) as E1.
    rewrite !app_nil_l, length_reverse in E1. cbn [length]. cbn [length] in La. lia. }
  eexists. split; [exists a, b; split; [done|split; [done|reflexivity]]|].
  set (out := (([chr "["] ++ layout [] [] a 5 0) ++ [chr "."]) ++ layout [] [] b 6 ZEROPAD) in *.
  unfold format. literal Hb 0%nat. rewrite put_text by (unfold fits_in, INT_MAX; cbn [length]; lia). cbn [mbind option_bind app].
  change (u8 91) with (chr "["). literal Hb 1%nat. flag_round Hb 2%nat. cbn [mbind option_bind].
  unfold parse_width. read_at Hb 2%nat. tests. unfold skip_atoi. digit Hb 2%nat. digit Hb 3%nat. long_unsigned Hb 3%nat 4%nat.
  change (0 * 10 + 53 - chr "0") with 5. rewrite Ea. cbn [mbind option_bind].
  literal Hb 5%nat. rewrite put_text by (unfold fits_in, INT_MAX; lia). cbn [mbind option_bind]. change (u8 46) with (chr ".").
  literal Hb 6%nat. flag_round Hb 7%nat. flag_round Hb 8%nat. cbn [mbind option_bind].
  unfold parse_width. read_at Hb 8%nat. tests. unfold skip_atoi. digit Hb 8%nat. digit Hb 9%nat. long_unsigned Hb 9%nat 10%nat.
  change (0 * 10 + 54 - chr "0") with 6. change (Z.lor 0 ZEROPAD) with ZEROPAD. rewrite Eb. cbn [mbind option_bind]. fold out.
  literal Hb 11%nat. rewrite put_text by (unfold fits_in, INT_MAX; lia). cbn [mbind option_bind]. change (u8 93) with (chr "]").
  literal Hb 12%nat. rewrite put_text by (unfold fits_in, INT_MAX; rewrite length_app; cbn [length]; lia). cbn [mbind option_bind]. change (u8 32) with (chr " ").
  literal Hb 13%nat. do 2 f_equal. unfold out. by rewrite <- !app_assoc.
Qed.

(** ** Printing *)

(** What [printk] sends for a message: as much of the stamp and the message
    as the buffer holds, up to the first NUL. *)
Definition shown (txt : list Z) : list Z := u8 <$> upto_nul (take (Z.to_nat (PRINTK_BUFFER - 1)) txt).

Lemma printk_correct stamp null buf fmt args ticks frequency (ro m : mem) u out :
  is_u64 ticks -> 0 < frequency < 2 ^ 32 ->
  bytes_at ro stamp (bytes_of stamp_format ++ [0]) -> ro ⊆ m ->
  0 < buf -> buf + PRINTK_BUFFER + INT_MAX < 2 ^ 64 -> mapped m buf PRINTK_BUFFER ->
  (forall x, buf <= x < buf + PRINTK_BUFFER -> ro !! x = None) ->
  format null fmt args (Text [] ro) = Some (Text out ro) -> length out + PRINTK_BUFFER <= INT_MAX ->
  PRINTK_BUFFER <= accepts (flag_reads u) ->
  exists txt m' u', time_stamp (ticks / frequency) (ticks mod frequency * 1000000 / frequency) txt /\
    printk stamp null buf fmt args ticks frequency m u = Some (Z.of_nat (length (txt ++ out)), m', u') /\
    accepted u u' (shown (txt ++ out)) /\ ro ⊆ m' /\
    forall x, ~ buf <= x < buf + PRINTK_BUFFER -> ro !! x = None -> m' !! x = m !! x.
Proof.
  unfold PRINTK_BUFFER. intros Ht Hf Hst Hsub Hbuf Hroom Hm Hap Hfmt Hlen Hu.
  assert (Hmod : 0 <= ticks mod frequency < frequency) by (apply Z.mod_pos_bound; lia).
  assert (Hmul : is_u64 (ticks mod frequency * 1000000)) by (unfold is_u64; nia).
  assert (Hs : is_u64 (ticks / frequency)).
  { unfold is_u64 in *. split; [apply Z.div_pos; lia|]. apply Z.div_lt_upper_bound; nia. }
  assert (Hus : is_u64 (ticks mod frequency * 1000000 / frequency)).
  { unfold is_u64 in *. split; [apply Z.div_pos; lia|]. apply Z.div_lt_upper_bound; nia. }
  destruct (format_stamp null stamp ro _ _ Hst Hs Hus) as (txt & Htxt & E1). pose proof (time_stamp_length _ _ _ Htxt) as Hn.
  destruct (vsnprintf_correct null buf 256 stamp _ ro m _ Hbuf ltac:(lia) ltac:(lia) ltac:(unfold INT_MAX in *; lia) Hm Hsub Hap E1)
    as (_ & m1 & Ev1 & [Hout1 Hrest1] & Hro1 & Hfr1). cbn [t_out t_mem] in *. specialize (Hout1 ltac:(lia)). rewrite firstn_all2 in Hout1 by lia.
  assert (Hm1 : mapped m1 (buf + length txt) (256 - length txt)).
  { intros x Hx. destruct (decide (x = buf + length txt)) as [-> |].
    - exists 0. rewrite (Hout1 (length txt) 0); [done|]. by rewrite list_lookup_middle.
    - rewrite Hrest1 by lia. apply Hm. lia. }
  destruct (vsnprintf_correct null (buf + length txt) (256 - length txt) fmt args ro m1 (Text out ro) ltac:(lia) ltac:(lia) ltac:(lia)
    ltac:(unfold INT_MAX in *; lia) Hm1 Hro1 ltac:(intros x Hx; apply Hap; lia) Hfmt) as (_ & m2 & Ev2 & [Hout2 Hrest2] & Hro2 & Hfr2). cbn [t_out t_mem] in *.
  specialize (Hout2 ltac:(lia)).
  assert (Hall : bytes_at m2 buf (take 255 (txt ++ out) ++ [0])).
  { rewrite take_app, (firstn_all2 txt), <- app_assoc by lia. replace (255 - length txt)%nat with (Z.to_nat (256 - length txt - 1)) by lia. intros i b Hi.
    apply lookup_app_Some in Hi as [Hi|[Hge Hi]].
    - pose proof (lookup_lt_Some _ _ _ Hi). rewrite Hfr2; [|lia|apply Hap; lia]. apply Hout1. by apply lookup_app_l_Some.
    - replace (buf + Z.of_nat i) with (buf + length txt + Z.of_nat (i - length txt)) by lia. by apply Hout2. }
  destruct (uart_puts_spec buf m2 u _ Hall) as (u' & Eu & Hu'); [rewrite length_take; lia|].
  exists txt, m2, u'. split; [done|]. split; [|split; [exact Hu'|split; [done|]]].
  - unfold printk. rewrite (proj2 (Z.eqb_neq frequency 0)) by lia. cbn [negb]. rewrite u64_id by done. unfold snprintf, PRINTK_BUFFER. rewrite Ev1. cbn [mbind option_bind].
    rewrite (u64_id (length txt)), u64_id by (unfold is_u64; lia). rewrite Ev2. cbn [mbind option_bind].
    rewrite is_int_true by (unfold INT_MAX in *; lia). rewrite Eu. cbn [mbind option_bind]. by rewrite length_app, Nat2Z.inj_add.
  - intros x Hx Hn'. rewrite Hfr2 by (done || lia). apply Hfr1; [lia|done].
Qed.

(** ** The property *)

(** C36. [printk] of a message whose text is defined sends the time stamp and
    the message, cut to the 255 characters the buffer holds, each byte when
    the port has room; it returns the length of the whole text and writes
    nothing outside its buffer. *)
Theorem printk_prints stamp null buf fmt args ticks frequency (ro m : mem) u out :
  is_u64 ticks -> 0 < frequency < 2 ^ 32 ->
  bytes_at ro stamp (bytes_of stamp_format ++ [0]) -> ro ⊆ m ->
  0 < buf -> buf + PRINTK_BUFFER + INT_MAX < 2 ^ 64 -> mapped m buf PRINTK_BUFFER ->
  (forall x, buf <= x < buf + PRINTK_BUFFER -> ro !! x = None) ->
  format null fmt args (Text [] ro) = Some (Text out ro) -> length out + PRINTK_BUFFER <= INT_MAX ->
  PRINTK_BUFFER <= accepts (flag_reads u) ->
  exists txt m' u', time_stamp (ticks / frequency) (ticks mod frequency * 1000000 / frequency) txt /\
    printk stamp null buf fmt args ticks frequency m u = Some (Z.of_nat (length (txt ++ out)), m', u') /\
    sent u' = sent u ++ shown (txt ++ out) /\
    forall x, ~ buf <= x < buf + PRINTK_BUFFER -> ro !! x = None -> m' !! x = m !! x.
Proof.
  intros Ht Hf Hst Hsub Hbuf Hroom Hm Hap Hfmt Hlen Hu.
  destruct (printk_correct stamp null buf fmt args ticks frequency ro m u out Ht Hf Hst Hsub Hbuf Hroom Hm Hap Hfmt Hlen Hu)
    as (txt & m' & u' & Htxt & E & [Hs _] & _ & Hfr). by exists txt, m', u'.
Qed.

(** ** Instances *)

Definition message : mem := write 0x2000 (bytes_of "app %u"%string ++ [0]) (write 0x5000 (bytes_of stamp_format ++ [0]) ∅).

Definition with_buffer : mem := write 0x1000 (replicate 256 0xaa) message.

Lemma message_apart x : 0x1000 <= x < 0x1000 + PRINTK_BUFFER -> message !! x = None.
Proof. unfold message, PRINTK_BUFFER. intros. rewrite !lookup_write_out by (cbn; lia). apply lookup_empty. Qed.

Lemma printk_prints_witness :
  exists txt m' u', time_stamp 1 500000 txt /\
    printk 0x5000 0x3000 0x1000 0x2000 [Arg32 2] 93750000 62500000 with_buffer (Uart (replicate 300 0x20 ++ replicate 300 0) []) =
      Some (Z.of_nat (length (txt ++ bytes_of "app 2"%string)), m', u') /\
    sent u' = shown (txt ++ bytes_of "app 2"%string).
Proof.
  destruct (printk_prints 0x5000 0x3000 0x1000 0x2000 [Arg32 2] 93750000 62500000 message with_buffer
    (Uart (replicate 300 0x20 ++ replicate 300 0) []) (bytes_of "app 2"%string)) as (txt & m' & u' & Htxt & E & Hs & _).
  - unfold is_u64. lia.
  - lia.
  - intros i b Hi. unfold message. rewrite lookup_write_out; [by apply bytes_at_written|]. right. cbn [length]. cbn. lia.
  - apply map_subseteq_spec. intros x v Hx. unfold with_buffer. rewrite lookup_write_out; [done|]. rewrite length_replicate.
    destruct (decide (0x1000 <= x < 0x1000 + PRINTK_BUFFER)) as [Hin|Hout]; [by rewrite message_apart in Hx|unfold PRINTK_BUFFER in Hout; lia].
  - lia.
  - reflexivity.
  - intros x Hx. unfold with_buffer, PRINTK_BUFFER in *. rewrite lookup_write, length_replicate, decide_True by lia.
    exists 0xaa. apply lookup_replicate. split; [reflexivity|lia].
  - apply message_apart.
  - vm_compute. reflexivity.
  - vm_compute. discriminate.
  - vm_compute. discriminate.
  - exists txt, m', u'. split; [exact Htxt|split; [exact E|exact Hs]].
Defined.

(** The characters of a message, byte for byte. *)
Example printk_sample :
  (fun r => (r.1.1, sent r.2)) <$> printk 0x5000 0x3000 0x1000 0x2000 [Arg32 2] 93750000 62500000 with_buffer (Uart (replicate 300 0) [])
    = Some (20, bytes_of "[    1.500000] app 2"%string).
Proof. vm_compute. reflexivity. Qed.
