(* ===== verification/Kernel.v ===== *)
(** * The kernel core: state, effects and panic ([kernel/kernel.h], [kernel/main.c])

    The trap path and the boot path run on one state: the task table, the
    timer, the memory and the trace of what the code does to the outside
    world.  A function that may stop the kernel returns in the monad [M]:
    [None] is undefined behaviour, [inr] a kernel that has stopped for good.

    Registers that the code only reads are in the record [cpu]; what reads of
    device registers return is the list [mmio_reads].  Messages go to the
    trace as the call of [printk] with its format and arguments ([Printk.v] has
    the text) and a raw character as the call of [uart_putc] ([Uart.v]). *)

From Stdlib Require Import String.
From S2P Require Import Prelude MemoryH Mem Vsprintf.

(** ** Registers *)

(** [struct pt_regs] *)
Record pt_regs := PtRegs { gprs : list Z; sp : Z; pc : Z; pstate : Z }.

(** [struct task_struct] *)
Record task_struct := Task {
  regs : pt_regs;
  image_base : Z;
  image_size : Z;
  stack_bottom : Z;
  stack_top : Z;
  runnable : bool;
  observed : bool;
  exit_code : Z;
}.

(** The system registers that are read during one activation of the kernel. *)
Record cpu := Cpu {
  daif : Z;
  CurrentEL : Z;
  esr_el1 : Z;
  far_el1 : Z;
  elr_el1 : Z;
  icc_iar1_el1 : Z;
  icc_sre_el1 : Z;
  cntfrq_el0 : Z;
}.

(** The system registers that are written. *)
Inductive sysreg := cntp_tval_el0 | cntp_ctl_el0 | icc_sre | icc_pmr_el1 | icc_bpr1_el1 | icc_ctlr_el1 | icc_igrpen1_el1 | icc_eoir1_el1.

(** ** Effects *)

Inductive event :=
  | Putc (c : Z)
  | Print (fmt : string) (args : list arg)
  | Msr (r : sysreg) (v : Z)
  | Write32 (a v : Z)
  | Write8 (a v : Z).

(** [timer_ctl] is the control register of the timer, whose enable bit reads
    back as it was written. *)
Record kernel := Kernel {
  tasks : list task_struct;
  current : Z;
  quantum : Z;
  timer_ctl : Z;
  mmio_reads : list Z;
  ram : mem;
  trace : list event;
}.

(** The two ways the kernel stops: a panic, and the idle loop after the last
    application. *)
Inductive halt := Panicked | Idle.

(** Computations over a state [K]; the trap path's state is [kernel]. *)
Definition St (K A : Type) : Type := K -> option ((A + halt) * K).

Definition M (A : Type) : Type := St kernel A.

Definition ret {K A} (x : A) : St K A := fun k => Some (inl x, k).

Definition bind {K A B} (m : St K A) (f : A -> St K B) : St K B := fun k =>
  match m k with
  | Some (inl x, k) => f x k
  | Some (inr h, k) => Some (inr h, k)
  | None => None
  end.

Definition stop {K A} (h : halt) : St K A := fun k => Some (inr h, k).

Definition lift {K A} (o : option A) : St K A := fun k => match o with Some x => Some (inl x, k) | None => None end.

Definition gets {K A} (f : K -> A) : St K A := fun k => Some (inl (f k), k).

Definition modify {K} (f : K -> K) : St K unit := fun k => Some (inl tt, f k).

Notation "'let!' x := m 'in' k" := (bind m (fun x => k))
  (at level 10, x name, m at level 200, k at level 200, only parsing) : miaow_scope.
Notation "'let!' ' p := m 'in' k" := (bind m (fun p => k))
  (at level 10, p strict pattern, m at level 200, k at level 200, only parsing) : miaow_scope.
Notation "'do!' m 'in' k" := (bind m (fun _ => k))
  (at level 10, m at level 200, k at level 200, only parsing) : miaow_scope.

(** ** State updates *)

Definition set_tasks ts k := Kernel ts (current k) (quantum k) (timer_ctl k) (mmio_reads k) (ram k) (trace k).
Definition set_current c k := Kernel (tasks k) c (quantum k) (timer_ctl k) (mmio_reads k) (ram k) (trace k).
Definition set_quantum q k := Kernel (tasks k) (current k) q (timer_ctl k) (mmio_reads k) (ram k) (trace k).
Definition set_timer_ctl c k := Kernel (tasks k) (current k) (quantum k) c (mmio_reads k) (ram k) (trace k).
Definition set_mmio_reads l k := Kernel (tasks k) (current k) (quantum k) (timer_ctl k) l (ram k) (trace k).
Definition set_ram m k := Kernel (tasks k) (current k) (quantum k) (timer_ctl k) (mmio_reads k) m (trace k).
Definition emit_to es k := Kernel (tasks k) (current k) (quantum k) (timer_ctl k) (mmio_reads k) (ram k) (trace k ++ es).

Definition emit (e : event) : M unit := modify (emit_to [e]).

(** [printk(fmt, ...)], the call. *)
Definition print (fmt : string) (args : list arg) : M unit := emit (Print fmt args).

(** [write_sysreg(v, r)] *)
Definition write_sysreg (v : Z) (r : sysreg) : M unit :=
  do! emit (Msr r (u64 v)) in
  match r with
  | cntp_ctl_el0 => modify (set_timer_ctl (u64 v))
  | _ => ret tt
  end.

(** A read of a device register. *)
Definition read_mmio : M Z := fun k =>
  match mmio_reads k with
  | [] => None
  | v :: l => Some (inl v, set_mmio_reads l k)
  end.

Definition write_mmio (a v : Z) : M unit := emit (Write32 a (u32 v)).

(** [tasks[i]] *)
Definition task_at (i : Z) (k : kernel) : option task_struct := assert* 0 <=? i in tasks k !! Z.to_nat i.

Definition get_task (i : Z) : M task_struct := fun k => match task_at i k with Some t => Some (inl t, k) | None => None end.

Definition put_task (i : Z) (t : task_struct) : M unit := modify (fun k => set_tasks (<[Z.to_nat i := t]> (tasks k)) k).

(** ** Panic *)

Definition kernel_panic {A} (c : cpu) : M A :=
  do! print "PANIC EL1 ESR=%016lx FAR=%016lx ELR=%016lx
" [Arg64 (esr_el1 c); Arg64 (far_el1 c); Arg64 (elr_el1 c)] in
  stop Panicked.

(** Running a sequence of operations. *)
Lemma bind_ok {K A B} (m : St K A) (f : A -> St K B) k x k1 : m k = Some (inl x, k1) -> bind m f k = f x k1.
Proof. unfold bind. by intros ->. Qed.

Lemma bind_stop {K A B} (m : St K A) (f : A -> St K B) k h k1 : m k = Some (inr h, k1) -> bind m f k = Some (inr h, k1).
Proof. unfold bind. by intros ->. Qed.
