(* ===== verification/Timer.v ===== *)
(** * The timer and the interrupt controller ([kernel/timer.c]) *)

From Stdlib Require Import String.
From S2P Require Import Prelude MemoryH Mem Vsprintf Kernel.

Definition GICD : Z := IO_ADDRESS 0x08000000.
Definition GICR : Z := IO_ADDRESS 0x080a0000.
Definition GICR_SGI : Z := IO_ADDRESS 0x080b0000.
Definition TIMER_IRQ : Z := 30.

Definition timer_rearm : M unit :=
  let! q := gets quantum in
  do! write_sysreg q cntp_tval_el0 in
  write_sysreg 1 cntp_ctl_el0.

Definition timer_stop : M unit := write_sysreg 0 cntp_ctl_el0.

(** [while (reg & bit) {}], over the values the reads return. *)
Fixpoint wait_clear (bit : Z) (reads : list Z) : option (list Z) :=
  match reads with
  | [] => None
  | v :: reads => if Z.land v bit =? 0 then Some reads else wait_clear bit reads
  end.

Definition wait_while (bit : Z) : M unit := fun k =>
  match wait_clear bit (mmio_reads k) with
  | Some l => Some (inl tt, set_mmio_reads l k)
  | None => None
  end.

(** [u32] complement *)
Definition lnot32 (z : Z) : Z := u32 (Z.lnot z).

Definition timer_init (c : cpu) : M unit :=
  do! write_mmio GICD (Z.shiftl 1 4) in
  do! wait_while (Z.shiftl 1 31) in
  let! waker := read_mmio in
  do! write_mmio (GICR + 0x14) (Z.land waker (lnot32 (Z.shiftl 1 1))) in
  do! wait_while (Z.shiftl 1 2) in
  do! write_mmio (GICR_SGI + 0x80) (Z.shiftl 1 TIMER_IRQ) in
  let! cfg := read_mmio in
  do! write_mmio (GICR_SGI + 0xc04) (Z.land cfg (lnot32 (Z.shiftl 2 ((TIMER_IRQ - 16) * 2)))) in
  do! emit (Write8 (GICR_SGI + 0x400 + TIMER_IRQ) 0x80) in
  do! write_mmio (GICR_SGI + 0x100) (Z.shiftl 1 TIMER_IRQ) in
  do! wait_while (Z.shiftl 1 3) in
  let! ctlr := read_mmio in
  do! write_mmio GICD (Z.lor ctlr 2) in
  do! wait_while (Z.shiftl 1 31) in
  do! write_sysreg (Z.lor (icc_sre_el1 c) 1) icc_sre in
  do! write_sysreg 0xff icc_pmr_el1 in
  do! write_sysreg 0 icc_bpr1_el1 in
  do! write_sysreg 0 icc_ctlr_el1 in
  do! write_sysreg 1 icc_igrpen1_el1 in
  let q := cntfrq_el0 c / 100 in
  do! modify (set_quantum q) in
  if (q =? 0) || (0x7fffffff <? q) then kernel_panic c
  else
    do! print "TIMER frequency=%016lx quantum=%016lx
" [Arg64 (cntfrq_el0 c); Arg64 q] in
    timer_rearm.

(** Whether a timer interrupt was handled. *)
Definition timer_interrupt (c : cpu) : M bool :=
  let interrupt := icc_iar1_el1 c in
  if (1020 <=? interrupt) && (interrupt <=? 1023) then ret false
  else if negb (interrupt =? TIMER_IRQ) then kernel_panic c
  else
    do! timer_rearm in
    do! write_sysreg interrupt icc_eoir1_el1 in
    ret true.
