(* ===== verification/Task.v ===== *)
(** * Tasks: scheduling, system calls, traps ([kernel/task.c], [kernel/task.h])

    A pointer into the task table is the index of the task; [trap] returns the
    index of the task whose registers the assembly code restores.  The
    payloads are in kernel memory between [starts[i]] and [ends[i]].  An
    address of an application slot is the physical address of the slot, so the
    kernel reads it where its linear map has it. *)

From Stdlib Require Import Ascii String.
From S2P Require Import Prelude MemoryH Mem StringC Vsprintf Kernel Timer.

(** The loop; the state is [offset]. *)
Definition next_round (ts : list task_struct) (current offset : Z) : option (Z + Z) :=
  if offset <=? APP_COUNT then
    let next := u32 (current + offset) mod APP_COUNT in
    let* t := ts !! Z.to_nat next in
    if runnable t then Some (inr next) else Some (inl (u32 (offset + 1)))
  else Some (inr (-1)).

Definition next_runnable (ts : list task_struct) (current : Z) : option Z :=
  iter (Datatypes.S (Z.to_nat APP_COUNT)) (next_round ts current) 1.

(** [uart_puts] of a string. *)
Definition puts (cs : list Z) : M unit := modify (emit_to (Putc <$> cs)).

Definition task_prefix : M unit :=
  let! c := gets current in
  puts (<[5%nat := u8 (u32 (chr "0" + c))]> (bytes_of "[app 0] "%string)).

Definition schedule (c : cpu) : M Z :=
  let! ts := gets tasks in
  let! cur := gets current in
  let! next := lift (next_runnable ts cur) in
  if 0 <=? next then
    do! modify (set_current next) in
    do! timer_rearm in
    ret next
  else
    do! timer_stop in
    let! ctl := gets timer_ctl in
    if negb (Z.land ctl 1 =? 0) then kernel_panic c
    else
      do! print "ALL APPS DONE
" [] in
      stop Idle.

Definition contains (start size pointer length : Z) : bool :=
  (start <=? pointer) && (u64 (pointer - start) <=? size) && (length <=? u64 (size - u64 (pointer - start))).

(** Bytes at a user address. *)
Definition load_user (m : mem) (pointer : Z) (n : nat) : option (list Z) := load m (__va pointer) n.

Definition sys_log (task : task_struct) (pointer length : Z) : M Z :=
  if LOG_LIMIT <? length then ret (- EINVAL)
  else if length =? 0 then ret 0
  else if negb (contains (image_base task) (image_size task) pointer length) &&
          negb (contains (stack_bottom task) APP_STACK_SIZE pointer length) then ret (- EFAULT)
  else
    do! task_prefix in
    let! m := gets ram in
    let! text := lift (load_user m pointer (Z.to_nat length)) in
    do! puts text in
    ret length.

Definition set_regs r t := Task r (image_base t) (image_size t) (stack_bottom t) (stack_top t) (runnable t) (observed t) (exit_code t).
Definition set_observed t := Task (regs t) (image_base t) (image_size t) (stack_bottom t) (stack_top t) (runnable t) true (exit_code t).
Definition set_not_runnable t := Task (regs t) (image_base t) (image_size t) (stack_bottom t) (stack_top t) false (observed t) (exit_code t).
Definition set_exit_code e t := Task (regs t) (image_base t) (image_size t) (stack_bottom t) (stack_top t) (runnable t) (observed t) e.

(** [regs->regs[n]] *)
Definition gpr (n : nat) (r : pt_regs) : option Z := gprs r !! n.

Definition set_x0 (v : Z) (r : pt_regs) : pt_regs := PtRegs (<[0%nat := v]> (gprs r)) (sp r) (pc r) (pstate r).

(** The registers an entry from EL0 must have: EL0t, IRQ masked by the entry,
    a stack pointer in the task's stack. *)
Definition bad_entry (c : cpu) (t : task_struct) (r : pt_regs) : bool :=
  negb (Z.land (pstate r) 0x1f =? 0) || (Z.land (daif c) 0x80 =? 0) || (sp r <? stack_bottom t) ||
  (stack_top t <? sp r) || negb (Z.land (sp r) 15 =? 0).

(** The system call of task [i], which trapped with registers [r]. *)
Definition trap_syscall (c : cpu) (i : Z) (r : pt_regs) : M Z :=
  let! n := lift (gpr 8 r) in
  let! x0 := lift (gpr 0 r) in
  if n =? __NR_log then
    let! x1 := lift (gpr 1 r) in
    let! t := get_task i in
    let! v := sys_log t x0 x1 in
    let! t := get_task i in
    do! put_task i (set_regs (set_x0 (u64 v) (regs t)) t) in
    ret i
  else if n =? __NR_exit then
    let! t := get_task i in
    do! put_task i (set_exit_code (swrap 64 x0) t) in
    do! print "[app %u] EXIT status=%ld
" [Arg32 i; Arg64 x0] in
    let! t := get_task i in
    do! put_task i (set_not_runnable t) in
    schedule c
  else
    let! t := get_task i in
    do! put_task i (set_regs (set_x0 (u64 (- ENOSYS)) (regs t)) t) in
    ret i.

(** An exception that is no system call. *)
Definition trap_fault (c : cpu) (i : Z) (r : pt_regs) : M Z :=
  do! print "[app %u] FAULT ESR=%016lx FAR=%016lx ELR=%016lx
" [Arg32 i; Arg64 (esr_el1 c); Arg64 (far_el1 c); Arg64 (pc r)] in
  let! t := get_task i in
  do! put_task i (set_not_runnable t) in
  schedule c.

(** The cause of the exception. *)
Definition trap_dispatch (c : cpu) (i : Z) (r : pt_regs) (irq : Z) : M Z :=
  if negb (irq =? 0) then
    let! handled := timer_interrupt c in
    if negb handled then ret i else schedule c
  else
    let syndrome := esr_el1 c in
    if negb (Z.shiftr syndrome 26 =? 0x15) || negb (Z.land syndrome 0xffff =? 0)
    then trap_fault c i r else trap_syscall c i r.

Definition trap (c : cpu) (r : pt_regs) (irq : Z) : M Z :=
  let! i := gets current in
  let! t := get_task i in
  do! (if bad_entry c t r then kernel_panic c else ret tt) in
  do! put_task i (set_regs r t) in
  do! (if negb (observed t) then
         do! print "[app %u] TRAP origin=%016lx handler=%016lx
" [Arg32 i; Arg64 (Z.land (pstate r) 0x1f); Arg64 (Z.shiftr (CurrentEL c) 2)] in
         put_task i (set_observed (set_regs r t))
       else ret tt) in
  trap_dispatch c i r irq.

(** ** Starting the applications *)

(** [destination[offset] = starts[i][offset]], and the comparison. *)
Definition copy_byte (dst src size : Z) (s : Z * mem) : option ((Z * mem) + mem) :=
  let '(offset, m) := s in
  if offset <? size then
    let* b := load8 m (src + offset) in
    let* m := store8 (dst + offset) b m in
    Some (inl (offset + 1, m))
  else Some (inr m).

Definition compare_byte (m : mem) (dst src size : Z) (offset : Z) : option (Z + bool) :=
  if offset <? size then
    let* a := load8 m (dst + offset) in
    let* b := load8 m (src + offset) in
    if a =? b then Some (inl (offset + 1)) else Some (inr false)
  else Some (inr true).

(** One round of the loop over the applications. *)
Definition start_app (c : cpu) (starts ends : list Z) (i : Z) : M unit :=
  let! s := lift (starts !! Z.to_nat i) in
  let! e := lift (ends !! Z.to_nat i) in
  let! t := get_task i in
  let base := u64 (APP_FIRST + u32 (i * APP_SLOT_SIZE)) in
  let size := u64 (e - s) in
  let top := u64 (base + APP_SLOT_SIZE) in
  let bottom := u64 (top - APP_STACK_SIZE) in
  let t := Task (regs t) base size bottom top (runnable t) (observed t) (exit_code t) in
  do! put_task i t in
  do! (if (size =? 0) || (APP_IMAGE_SIZE <? size) || (bottom <? u64 (base + size)) then kernel_panic c else ret tt) in
  let destination := __va base in
  let! m := gets ram in
  let! m := lift (iter (rounds size) (copy_byte destination s size) (0, m)) in
  let! same := lift (iter (rounds size) (compare_byte m destination s size) 0) in
  do! modify (set_ram m) in
  do! (if negb same then kernel_panic c else ret tt) in
  let! '(_, m) := lift (memset (__va bottom) 0 APP_STACK_SIZE m) in
  do! modify (set_ram m) in
  do! put_task i (Task (PtRegs (gprs (regs t)) top base 0x340) base size bottom top true (observed t) (exit_code t)) in
  print "LOADED app=%u image=%016lx stack=%016lx copy=OK
" [Arg32 i; Arg64 base; Arg64 top].

(** [enter_app(&tasks[0].regs)] restores task 0. *)
Fixpoint start_each (c : cpu) (starts ends : list Z) (n : nat) (i : Z) : M unit :=
  match n with
  | O => ret tt
  | Datatypes.S n =>
      do! start_app c starts ends i in
      start_each c starts ends n (i + 1)
  end.

Definition start_apps (c : cpu) (starts ends : list Z) : M Z :=
  do! start_each c starts ends (Z.to_nat APP_COUNT) 0 in
  do! timer_init c in
  ret 0.
