(* ===== verification/TaskProof.v ===== *)
(** * Tasks: the invariant and the effect of a trap

    [turn] is the round-robin choice; [kernel_ok] is what holds whenever an
    application runs.  Each branch of [trap] is given by an equation for the
    kernel state it leaves. *)

From Stdlib Require Import Ascii String.
From S2P Require Import Prelude MemoryH Mem StringC Vsprintf Kernel Timer Task.

(** ** The scheduler's choice *)

Definition is_runnable (ts : list task_struct) (j : Z) : Prop :=
  0 <= j < APP_COUNT /\ exists t, ts !! Z.to_nat j = Some t /\ runnable t = true.

#[global] Instance is_runnable_dec ts j : Decision (is_runnable ts j).
Proof.
  unfold is_runnable. apply and_dec; [apply _|]. destruct (ts !! Z.to_nat j) as [t|]; [|right; naive_solver].
  destruct (runnable t) eqn:E; [left; by exists t|right]. intros (t' & [= <-] & E'). congruence.
Defined.

(** The tasks in the order they are asked, the current one last. *)
Definition rotation (current : Z) : list Z := (fun d => (current + d) mod APP_COUNT) <$> [1; 2; 3].

Definition turn (ts : list task_struct) (current : Z) : option Z := head (filter (is_runnable ts) (rotation current)).

Lemma three_tasks (ts : list task_struct) : length ts = 3%nat -> exists a b c, ts = [a; b; c].
Proof. destruct ts as [|a [|b [|c [|]]]]; try done. by exists a, b, c. Qed.

Lemma app_index i : 0 <= i < APP_COUNT -> i = 0 \/ i = 1 \/ i = 2.
Proof. unfold APP_COUNT. lia. Qed.

Lemma next_runnable_turn ts current : length ts = 3%nat -> 0 <= current < APP_COUNT ->
  next_runnable ts current = Some (default (-1) (turn ts current)).
Proof.
  intros (a & b & c & ->)%three_tasks Hc.
  destruct a as [? ? ? ? ? [] ? ?], b as [? ? ? ? ? [] ? ?], c as [? ? ? ? ? [] ? ?];
    apply app_index in Hc as [-> |[-> | ->]]; vm_compute; reflexivity.
Qed.

Lemma turn_first ts current j : turn ts current = Some j ->
  is_runnable ts j /\ exists d, 1 <= d <= 3 /\ j = (current + d) mod APP_COUNT /\
    forall d', 1 <= d' < d -> ~ is_runnable ts ((current + d') mod APP_COUNT).
Proof.
  unfold turn, rotation. cbn [fmap list_fmap]. rewrite !filter_cons, filter_nil. intros H.
  destruct (decide (is_runnable ts ((current + 1) mod APP_COUNT))) as [H1|H1].
  { injection H as <-. split; [done|]. exists 1. split_and!; (done || lia). }
  destruct (decide (is_runnable ts ((current + 2) mod APP_COUNT))) as [H2|H2].
  { injection H as <-. split; [done|]. exists 2. split_and!; try (done || lia). intros d' Hd. by replace d' with 1 by lia. }
  destruct (decide (is_runnable ts ((current + 3) mod APP_COUNT))) as [H3|H3]; [|done].
  injection H as <-. split; [done|]. exists 3. split_and!; try (done || lia).
  intros d' Hd. assert (d' = 1 \/ d' = 2) as [-> | ->] by lia; done.
Qed.

(** How far the turn of [j] is when [current] runs. *)
Definition distance (current j : Z) : Z := (j - current - 1) mod APP_COUNT + 1.

Lemma distance_range current j : 1 <= distance current j <= 3.
Proof. unfold distance, APP_COUNT. pose proof (Z.mod_pos_bound (j - current - 1) 3). lia. Qed.

Lemma distance_reach current j : 0 <= j < APP_COUNT -> (current + distance current j) mod APP_COUNT = j.
Proof. unfold distance, APP_COUNT. intros. Z.div_mod_to_equations; lia. Qed.

Lemma distance_step current d j : 0 <= j < APP_COUNT -> 1 <= d < distance current j ->
  distance ((current + d) mod APP_COUNT) j = distance current j - d.
Proof. unfold distance, APP_COUNT. intros. Z.div_mod_to_equations; lia. Qed.

Lemma turn_none ts current j : turn ts current = None -> ~ is_runnable ts j.
Proof.
  intros H Hj. assert (Hin : j ∈ rotation current).
  { destruct Hj as [Hj _]. pose proof (distance_range current j) as Hd. pose proof (distance_reach current j Hj) as E. apply list_elem_of_fmap.
    exists (distance current j). split; [done|]. assert (distance current j = 1 \/ distance current j = 2 \/ distance current j = 3) as [-> |[-> | ->]] by lia; set_solver. }
  assert (Hf : j ∈ filter (is_runnable ts) (rotation current)) by (by apply list_elem_of_filter).
  unfold turn in H. destruct (filter _ _); [by apply not_elem_of_nil in Hf|done].
Qed.

(** The choice depends on which tasks are runnable only. *)
Lemma turn_runnable ts ts' cur : runnable <$> ts = runnable <$> ts' -> turn ts cur = turn ts' cur.
Proof.
  intros E. unfold turn. f_equal. apply list_filter_iff. intros j. unfold is_runnable.
  assert (H : forall us : list task_struct, (exists t, us !! Z.to_nat j = Some t /\ runnable t = true) <-> (runnable <$> us) !! Z.to_nat j = Some true).
  { intros us. rewrite list_lookup_fmap, fmap_Some. naive_solver. }
  by rewrite !H, E.
Qed.

(** A runnable task is next, or some task nearer to its turn is. *)
Lemma turn_progress ts current j : is_runnable ts j ->
  exists n, turn ts current = Some n /\ is_runnable ts n /\ (n = j \/ distance n j < distance current j).
Proof.
  intros Hj. destruct (turn ts current) as [n|] eqn:E; [|by apply (turn_none _ _ j) in E].
  exists n. split; [done|]. destruct (turn_first _ _ _ E) as (Hn & d & Hd & -> & Hfirst). split; [done|].
  pose proof (distance_range current j) as Hr. destruct Hj as [Hjr Hjt]. pose proof (distance_reach current j Hjr) as Er.
  destruct (decide (distance current j < d)) as [Hlt|].
  { exfalso. apply (Hfirst (distance current j)); [lia|]. by rewrite Er. }
  destruct (decide (d = distance current j)) as [-> |]; [left; exact Er|]. right. rewrite distance_step by (done || lia). lia.
Qed.

(** ** Buffers of a task *)

Lemma contains_range start size pointer length :
  is_u64 start -> is_u64 size -> is_u64 pointer -> is_u64 length ->
  contains start size pointer length = bool_decide (start <= pointer /\ pointer + length <= start + size).
Proof.
  unfold is_u64, contains. intros Hs Hz Hp Hl. apply eq_true_iff_eq. rewrite bool_decide_eq_true, !andb_true_iff, !Z.leb_le.
  destruct (decide (start <= pointer)); [|lia]. rewrite (u64_id (pointer - start)) by (unfold is_u64; lia).
  destruct (decide (pointer - start <= size)); [|lia]. rewrite (u64_id (size - (pointer - start))) by (unfold is_u64; lia). lia.
Qed.

(** ** The invariant *)

Definition slot (i : Z) : Z := APP_FIRST + i * APP_SLOT_SIZE.

Record regs_ok (r : pt_regs) : Prop := {
  r_gprs : length (gprs r) = 31%nat;
  r_words : Forall is_u64 (gprs r);
  r_special : is_u64 (sp r) /\ is_u64 (pc r) /\ is_u64 (pstate r);
}.

(** Saved registers that [ERET] may restore: EL0t and the task's own stack. *)
Definition user_regs (t : task_struct) (r : pt_regs) : Prop :=
  Z.land (pstate r) 0x1f = 0 /\ stack_bottom t <= sp r <= stack_top t /\ Z.land (sp r) 15 = 0.

Record task_ok (i : Z) (t : task_struct) : Prop := {
  t_base : image_base t = slot i;
  t_size : 0 < image_size t <= APP_IMAGE_SIZE;
  t_top : stack_top t = slot i + APP_SLOT_SIZE;
  t_bottom : stack_bottom t = slot i + APP_SLOT_SIZE - APP_STACK_SIZE;
  t_regs : regs_ok (regs t);
  t_user : user_regs t (regs t);
}.

(** The kernel with its applications loaded, and while one of them runs. *)
Record kernel_wf (k : kernel) : Prop := {
  k_tasks : length (tasks k) = 3%nat;
  k_current : 0 <= current k < APP_COUNT;
  k_each i t : 0 <= i < APP_COUNT -> tasks k !! Z.to_nat i = Some t -> task_ok i t;
  k_slots i : 0 <= i < APP_COUNT -> mapped (ram k) (__va (slot i)) APP_SLOT_SIZE;
}.

Record kernel_ok (k : kernel) : Prop := {
  k_wf : kernel_wf k;
  k_running : is_runnable (tasks k) (current k);
}.

Lemma va_slot i off : 0 <= i < APP_COUNT -> 0 <= off < APP_SLOT_SIZE -> __va (slot i + off) = __va (slot i) + off.
Proof. unfold APP_COUNT, APP_SLOT_SIZE, slot, APP_FIRST, APP_SLOT_SIZE. intros. rewrite !va_of_ram by (unfold PHYS_OFFSET, RAM_SIZE; lia). lia. Qed.

Lemma load_mapped_list m a n : mapped m a (Z.of_nat n) -> exists bs, load m a n = Some bs /\ length bs = n /\ bytes_at m a bs.
Proof.
  revert a. induction n as [|n IH]; intros a Hm; [by exists []; split_and!; [| |intros i b Hi]|].
  destruct (Hm a ltac:(lia)) as [b Hb]. destruct (IH (a + 1)) as (bs & E & Hl & Hbs); [intros x Hx; apply Hm; lia|].
  exists (b :: bs). cbn [load]. unfold load8. rewrite Hb. cbn [mbind option_bind]. rewrite E. cbn [mbind option_bind]. split; [done|]. split; [cbn; lia|].
  intros [|i] c Hi; [cbn in Hi; injection Hi as <-; by rewrite Z.add_0_r|].
  replace (a + Z.of_nat (Datatypes.S i)) with (a + 1 + Z.of_nat i) by lia. by apply Hbs.
Qed.

(** The buffers an application may log. *)
Definition own_buffer (t : task_struct) (pointer length : Z) : Prop :=
  image_base t <= pointer /\ pointer + length <= image_base t + image_size t \/
  stack_bottom t <= pointer /\ pointer + length <= stack_top t.

Lemma own_buffer_mapped i t m p n : 0 <= i < APP_COUNT -> task_ok i t -> mapped m (__va (slot i)) APP_SLOT_SIZE ->
  own_buffer t p n -> 0 < n -> mapped m (__va p) n.
Proof.
  intros Hi [Eb Hs Et Ebot _ _] Hm Hown Hn. unfold own_buffer in Hown. rewrite Eb, Et, Ebot in Hown.
  assert (Hp : slot i <= p /\ p + n <= slot i + APP_SLOT_SIZE) by (unfold APP_IMAGE_SIZE, APP_SLOT_SIZE, APP_STACK_SIZE in *; lia).
  replace p with (slot i + (p - slot i)) by lia. rewrite va_slot by (done || lia).
  intros x Hx. apply Hm. lia.
Qed.

Definition prefix_of (i : Z) : list Z := <[5%nat := u8 (u32 (chr "0" + i))]> (bytes_of "[app 0] "%string).

(** The result of [log] and what it prints. *)
Inductive logged (t : task_struct) (k : kernel) (p n : Z) : Z -> list event -> Prop :=
  | log_too_long : LOG_LIMIT < n -> logged t k p n (- EINVAL) []
  | log_empty : n = 0 -> logged t k p n 0 []
  | log_foreign : 0 < n <= LOG_LIMIT -> ~ own_buffer t p n -> logged t k p n (- EFAULT) []
  | log_text text : 0 < n <= LOG_LIMIT -> own_buffer t p n -> length text = Z.to_nat n -> bytes_at (ram k) (__va p) text ->
      logged t k p n n (Putc <$> prefix_of (current k) ++ text).

Lemma emit_nil k : emit_to [] k = k.
Proof. destruct k. unfold emit_to. cbn. by rewrite app_nil_r. Qed.

Lemma emit_app a b k : emit_to b (emit_to a k) = emit_to (a ++ b) k.
Proof. unfold emit_to. cbn. by rewrite app_assoc. Qed.

Lemma sys_log_result i t k p n : 0 <= i < APP_COUNT -> task_ok i t -> mapped (ram k) (__va (slot i)) APP_SLOT_SIZE ->
  is_u64 p -> is_u64 n -> exists v es, logged t k p n v es /\ sys_log t p n k = Some (inl v, emit_to es k).
Proof.
  intros Hi Ht Hm Hp Hn. unfold sys_log. destruct (Z.ltb_spec LOG_LIMIT n) as [Hlim|Hlim].
  { exists (- EINVAL), []. rewrite emit_nil. split; [by constructor|done]. }
  destruct (Z.eqb_spec n 0) as [->|Hnz]. { exists 0, []. rewrite emit_nil. split; [by constructor|done]. }
  assert (Hn0 : 0 < n <= LOG_LIMIT) by (unfold is_u64 in Hn; lia).
  assert (Hown : (negb (contains (image_base t) (image_size t) p n) && negb (contains (stack_bottom t) APP_STACK_SIZE p n))
    = negb (bool_decide (own_buffer t p n))).
  { pose proof Ht as [Eb Hs Et Ebot _ _]. assert (Hsl : 0 <= slot i < 2 ^ 32) by (unfold slot, APP_FIRST, APP_SLOT_SIZE, APP_COUNT in *; lia).
    rewrite !contains_range by (rewrite ?Eb, ?Ebot; unfold is_u64, APP_IMAGE_SIZE, APP_SLOT_SIZE, APP_STACK_SIZE in *; lia).
    rewrite <- negb_orb, <- bool_decide_or. f_equal. apply bool_decide_ext. unfold own_buffer. rewrite Et, Ebot. unfold APP_STACK_SIZE. lia. }
  rewrite Hown. case_bool_decide as Hb; cbn [negb].
  - destruct (load_mapped_list (ram k) (__va p) (Z.to_nat n)) as (text & E & Hl & Htx).
    { rewrite Z2Nat.id by lia. apply (own_buffer_mapped i t); (done || lia). }
    exists n, (Putc <$> prefix_of (current k) ++ text). split; [by apply log_text|].
    rewrite fmap_app, <- emit_app. unfold task_prefix, puts, bind, gets, modify, lift, load_user, ret. cbn [ram emit_to]. by rewrite E.
  - exists (- EFAULT), []. rewrite emit_nil. split; [by apply log_foreign|done].
Qed.

(** ** Branches of [trap] *)

Definition panic_events (c : cpu) : list event :=
  [Print "PANIC EL1 ESR=%016lx FAR=%016lx ELR=%016lx
" [Arg64 (esr_el1 c); Arg64 (far_el1 c); Arg64 (elr_el1 c)]].

Definition trap_events (c : cpu) (i : Z) (r : pt_regs) : list event :=
  [Print "[app %u] TRAP origin=%016lx handler=%016lx
" [Arg32 i; Arg64 (Z.land (pstate r) 0x1f); Arg64 (Z.shiftr (CurrentEL c) 2)]].

Definition fault_events (c : cpu) (i : Z) (r : pt_regs) : list event :=
  [Print "[app %u] FAULT ESR=%016lx FAR=%016lx ELR=%016lx
" [Arg32 i; Arg64 (esr_el1 c); Arg64 (far_el1 c); Arg64 (pc r)]].

Definition exit_events (i x0 : Z) : list event :=
  [Print "[app %u] EXIT status=%ld
" [Arg32 i; Arg64 x0]].

Definition rearm_events (k : kernel) : list event := [Msr cntp_tval_el0 (u64 (quantum k)); Msr cntp_ctl_el0 1].

Definition done_events : list event := [Msr cntp_ctl_el0 0; Print "ALL APPS DONE
" []].

Definition set_task (i : Z) (t : task_struct) (k : kernel) : kernel := set_tasks (<[Z.to_nat i := t]> (tasks k)) k.

(** The state after the registers are saved. *)
Definition saved (c : cpu) (i : Z) (t : task_struct) (r : pt_regs) (k : kernel) : kernel :=
  emit_to (if observed t then [] else trap_events c i r) (set_task i (set_observed (set_regs r t)) k).

(** What [schedule] does. *)
Definition scheduled (k : kernel) : (Z + halt) * kernel :=
  match turn (tasks k) (current k) with
  | Some n => (inl n, set_timer_ctl 1 (emit_to (rearm_events k) (set_current n k)))
  | None => (inr Idle, set_timer_ctl 0 (emit_to done_events k))
  end.

Lemma schedule_result c k : length (tasks k) = 3%nat -> 0 <= current k < APP_COUNT -> schedule c k = Some (scheduled k).
Proof.
  intros Hl Hc. unfold schedule, bind, gets, lift, scheduled. rewrite next_runnable_turn by done.
  destruct (turn (tasks k) (current k)) as [n|] eqn:E.
  - change (default (-1) (Some n)) with n. destruct (turn_first _ _ _ E) as [[Hn _] _]. rewrite (proj2 (Z.leb_le 0 n)) by lia.
    destruct k. cbn. unfold rearm_events, emit_to, set_timer_ctl. cbn. by rewrite <- app_assoc.
  - change (0 <=? default (-1) None) with false. cbn iota. destruct k. cbn. unfold emit_to, set_timer_ctl, done_events. cbn. change (u64 0) with 0. change (negb (Z.land 0 1 =? 0)) with false. cbn. by rewrite <- app_assoc.
Qed.

Definition ticked (c : cpu) (k : kernel) : kernel :=
  set_timer_ctl 1 (emit_to (rearm_events k ++ [Msr icc_eoir1_el1 30]) k).

Definition spurious (c : cpu) : Prop := 1020 <= icc_iar1_el1 c <= 1023.

Lemma timer_interrupt_result c k :
  timer_interrupt c k = Some (
    if bool_decide (spurious c) then (inl false, k)
    else if bool_decide (icc_iar1_el1 c = 30) then (inl true, ticked c k)
    else (inr Panicked, emit_to (panic_events c) k)).
Proof.
  unfold timer_interrupt, TIMER_IRQ.
  assert (((1020 <=? icc_iar1_el1 c) && (icc_iar1_el1 c <=? 1023)) = bool_decide (spurious c)) as ->.
  { apply eq_true_iff_eq. unfold spurious. rewrite bool_decide_eq_true, andb_true_iff, !Z.leb_le. done. }
  case_bool_decide; [done|]. case_bool_decide as E.
  - rewrite E. change (negb (30 =? 30)) with false. destruct k. unfold ticked, emit_to, set_timer_ctl, rearm_events. cbn. change (u64 30) with 30. change (u64 1) with 1. unfold ret, emit_to, set_timer_ctl. cbn. by rewrite <- !app_assoc.
  - by rewrite (proj2 (Z.eqb_neq _ _) E).
Qed.

Lemma trap_bad_entry c r irq k t : task_at (current k) k = Some t -> bad_entry c t r = true ->
  trap c r irq k = Some (inr Panicked, emit_to (panic_events c) k).
Proof. intros Ht Hb. unfold trap, bind, gets, get_task. rewrite Ht, Hb. reflexivity. Qed.

Lemma set_task_twice i t t' k : set_task i t' (set_task i t k) = set_task i t' k.
Proof. destruct k. unfold set_task, set_tasks. cbn. by rewrite list_insert_insert_eq. Qed.

Lemma trap_enters c r irq k t : task_at (current k) k = Some t -> bad_entry c t r = false ->
  trap c r irq k = trap_dispatch c (current k) r irq (saved c (current k) t r k).
Proof.
  intros Ht Hb. unfold trap, bind, gets, get_task. rewrite Ht, Hb. unfold ret, put_task, modify. fold (set_task (current k) (set_regs r t) k).
  unfold saved. destruct (observed t) eqn:Eo; cbn [negb].
  - rewrite emit_nil. do 2 f_equal. unfold set_observed, set_regs. cbn. by rewrite Eo.
  - unfold print, emit, bind, modify. f_equal. destruct k. unfold set_task, set_tasks, emit_to. cbn. by rewrite list_insert_insert_eq.
Qed.

Lemma task_at_set i t k : 0 <= i -> (Z.to_nat i < length (tasks k))%nat -> task_at i (set_task i t k) = Some t.
Proof. intros Hi Hl. unfold task_at. rewrite (proj2 (Z.leb_le 0 i)) by lia. cbn. by apply list_lookup_insert_eq. Qed.

Lemma task_at_saved c i t r k : 0 <= i -> (Z.to_nat i < length (tasks k))%nat -> task_at i (saved c i t r k) = Some (set_observed (set_regs r t)).
Proof. intros Hi Hl. unfold saved. by apply (task_at_set i (set_observed (set_regs r t)) k). Qed.

(** An exception that is [SVC #0]. *)
Definition is_svc (c : cpu) : Prop := Z.shiftr (esr_el1 c) 26 = 0x15 /\ Z.land (esr_el1 c) 0xffff = 0.

#[global] Instance is_svc_dec c : Decision (is_svc c).
Proof. unfold is_svc. apply _. Defined.

(** Every branch of a trap of the current task [t] with registers [r]: how it
    ends and the state it leaves. *)
Inductive trap_effect (c : cpu) (r : pt_regs) (irq : Z) (k : kernel) (t : task_struct) : Z + halt -> kernel -> Prop :=
  | effect_bad_entry :
      bad_entry c t r = true ->
      trap_effect c r irq k t (inr Panicked) (emit_to (panic_events c) k)
  | effect_spurious :
      bad_entry c t r = false -> irq <> 0 -> spurious c ->
      trap_effect c r irq k t (inl (current k)) (saved c (current k) t r k)
  | effect_bad_irq :
      bad_entry c t r = false -> irq <> 0 -> ~ spurious c -> icc_iar1_el1 c <> 30 ->
      trap_effect c r irq k t (inr Panicked) (emit_to (panic_events c) (saved c (current k) t r k))
  | effect_tick o k' :
      bad_entry c t r = false -> irq <> 0 -> icc_iar1_el1 c = 30 ->
      scheduled (ticked c (saved c (current k) t r k)) = (o, k') ->
      trap_effect c r irq k t o k'
  | effect_fault o k' :
      bad_entry c t r = false -> irq = 0 -> ~ is_svc c ->
      scheduled (set_task (current k) (set_not_runnable (set_observed (set_regs r t)))
        (emit_to (fault_events c (current k) r) (saved c (current k) t r k))) = (o, k') ->
      trap_effect c r irq k t o k'
  | effect_exit x0 o k' :
      bad_entry c t r = false -> irq = 0 -> is_svc c -> gpr 8 r = Some __NR_exit -> gpr 0 r = Some x0 ->
      scheduled (set_task (current k) (set_not_runnable (set_exit_code (swrap 64 x0) (set_observed (set_regs r t))))
        (emit_to (exit_events (current k) x0) (saved c (current k) t r k))) = (o, k') ->
      trap_effect c r irq k t o k'
  | effect_log x0 x1 v es :
      bad_entry c t r = false -> irq = 0 -> is_svc c -> gpr 8 r = Some __NR_log -> gpr 0 r = Some x0 -> gpr 1 r = Some x1 ->
      logged t k x0 x1 v es ->
      trap_effect c r irq k t (inl (current k))
        (set_task (current k) (set_regs (set_x0 (u64 v) r) (set_observed t)) (emit_to es (saved c (current k) t r k)))
  | effect_unknown n :
      bad_entry c t r = false -> irq = 0 -> is_svc c -> gpr 8 r = Some n -> n <> __NR_log -> n <> __NR_exit ->
      trap_effect c r irq k t (inl (current k))
        (set_task (current k) (set_regs (set_x0 (u64 (- ENOSYS)) r) (set_observed t)) (saved c (current k) t r k)).

Lemma saved_fields c i t r k : tasks (saved c i t r k) = <[Z.to_nat i := set_observed (set_regs r t)]> (tasks k) /\
  current (saved c i t r k) = current k /\ ram (saved c i t r k) = ram k /\ quantum (saved c i t r k) = quantum k.
Proof. done. Qed.

Lemma bad_entry_user c t r : bad_entry c t r = false -> user_regs t r.
Proof. unfold bad_entry, user_regs. intros H. bool_prop. done. Qed.

Lemma gpr_some r n : regs_ok r -> (n < 31)%nat -> exists v, gpr n r = Some v /\ is_u64 v.
Proof.
  intros [Hl Hw _] Hn. destruct (lookup_lt_is_Some_2 (gprs r) n) as [v Hv]; [lia|]. exists v. split; [done|]. by eapply Forall_lookup_1.
Qed.

Lemma logged_saved c i t r k p n v es : logged (set_observed (set_regs r t)) (saved c i t r k) p n v es -> logged t k p n v es.
Proof. destruct 1 as [| | |text ? ? ? ?]; [by apply log_too_long|by apply log_empty|by apply log_foreign|by apply (log_text t k p n text)]. Qed.

Lemma syscall_result c i t r k : 0 <= i < APP_COUNT -> length (tasks k) = 3%nat -> current k = i -> task_ok i t ->
  mapped (ram k) (__va (slot i)) APP_SLOT_SIZE -> regs_ok r -> bad_entry c t r = false -> is_svc c ->
  exists o k', trap_syscall c i r (saved c i t r k) = Some (o, k') /\ trap_effect c r 0 k t o k'.
Proof.
  intros Hi Hl Hc Ht Hm Hr Hb Hsvc. set (s := saved c i t r k). pose proof Hi as Hi'. unfold APP_COUNT in Hi'.
  assert (Hat : forall k', tasks k' = tasks s -> task_at i k' = Some (set_observed (set_regs r t))).
  { intros k' E. unfold task_at. rewrite E. by apply task_at_saved; lia. }
  destruct (gpr_some r 8 Hr) as (n & En & _); [lia|]. destruct (gpr_some r 0 Hr) as (x0 & E0 & H0); [lia|]. destruct (gpr_some r 1 Hr) as (x1 & E1 & H1); [lia|].
  unfold trap_syscall, bind, lift, get_task, ret, put_task, modify. rewrite En, E0.
  destruct (Z.eqb_spec n __NR_log) as [->|Hlog]; [|destruct (Z.eqb_spec n __NR_exit) as [->|Hexit]].
  - rewrite E1, (Hat s eq_refl).
    destruct (sys_log_result i (set_observed (set_regs r t)) s x0 x1 Hi) as (v & es & Hlogd & Elog).
    { destruct Ht as [? ? ? ? _ _]. split; try done. by apply (bad_entry_user c). } { done. } { done. } { done. }
    rewrite Elog, (Hat (emit_to es s) eq_refl). eexists _, _. split; [reflexivity|].
    subst i. apply (effect_log c r 0 k t x0 x1 v es); try done. by apply (logged_saved c (current k) t r).
  - rewrite (Hat s eq_refl). set (te := set_exit_code (swrap 64 x0) (set_observed (set_regs r t))).
    unfold print, emit, modify. fold (exit_events i x0). change (set_tasks (<[Z.to_nat i:=te]> (tasks s)) s) with (set_task i te s).
    assert (E : forall es, task_at i (emit_to es (set_task i te s)) = Some te).
    { intros es. apply (task_at_set i te s); [lia|]. unfold s, saved. cbn. rewrite length_insert. lia. }
    rewrite E. assert (Eset : set_tasks (<[Z.to_nat i:=set_not_runnable te]> (tasks (emit_to (exit_events i x0) (set_task i te s)))) (emit_to (exit_events i x0) (set_task i te s))
      = set_task i (set_not_runnable te) (emit_to (exit_events i x0) s)).
    { unfold set_task, set_tasks, emit_to. cbn. by rewrite list_insert_insert_eq. }
    rewrite Eset, schedule_result; [|unfold s, saved, set_task; cbn; rewrite !length_insert; lia|cbn; lia].
    destruct (scheduled _) as [o k'] eqn:Es. eexists o, k'. split; [done|]. subst i. by apply (effect_exit c r 0 k t x0).
  - rewrite (Hat s eq_refl). eexists _, _. split; [reflexivity|]. subst i. by apply (effect_unknown c r 0 k t n).
Qed.

(** A trap ends as one of its branches says. *)
Lemma trap_result c r irq k : kernel_ok k -> regs_ok r ->
  exists t o k', task_at (current k) k = Some t /\ task_ok (current k) t /\ trap c r irq k = Some (o, k') /\ trap_effect c r irq k t o k'.
Proof.
  intros [[Hl Hc Heach Hslots] Hrun] Hr. destruct (lookup_lt_is_Some_2 (tasks k) (Z.to_nat (current k))) as [t Ht]; [unfold APP_COUNT in Hc; lia|].
  assert (Hat : task_at (current k) k = Some t) by (unfold task_at; by rewrite (proj2 (Z.leb_le 0 _)) by lia).
  assert (Hok : task_ok (current k) t) by (by apply Heach). exists t.
  assert (Hn : (Z.to_nat (current k) < length (tasks k))%nat) by (unfold APP_COUNT in Hc; lia).
  destruct (bad_entry c t r) eqn:Hb.
  { eexists _, _. split; [done|]. split; [done|]. split; [by apply (trap_bad_entry c r irq k t)|by apply effect_bad_entry]. }
  rewrite (trap_enters c r irq k t Hat Hb). unfold trap_dispatch. destruct (Z.eqb_spec irq 0) as [->|Hirq]; cbn [negb].
  - assert (negb (Z.shiftr (esr_el1 c) 26 =? 0x15) || negb (Z.land (esr_el1 c) 0xffff =? 0) = negb (bool_decide (is_svc c))) as ->.
    { rewrite <- negb_andb. f_equal. apply eq_true_iff_eq. unfold is_svc. by rewrite bool_decide_eq_true, andb_true_iff, !Z.eqb_eq. }
    case_bool_decide as Hsvc; cbn [negb].
    + destruct (syscall_result c (current k) t r k) as (o & k' & E & He); try done; [by apply Hslots|]. by exists o, k'.
    + unfold trap_fault, bind, print, emit, modify, get_task, ret, put_task. fold (fault_events c (current k) r).
      assert (task_at (current k) (emit_to (fault_events c (current k) r) (saved c (current k) t r k)) = Some (set_observed (set_regs r t))) as ->.
      { apply (task_at_saved c (current k) t r k); [lia|done]. }
      unfold modify. cbv beta iota. match goal with |- context [schedule c ?s] => change s with (set_task (current k) (set_not_runnable (set_observed (set_regs r t)))
        (emit_to (fault_events c (current k) r) (saved c (current k) t r k))) end.
      rewrite schedule_result; [|unfold saved, set_task; cbn; rewrite !length_insert; lia|cbn; lia].
      destruct (scheduled _) as [o k'] eqn:Es. exists o, k'. split_and!; try done. by apply effect_fault.
  - unfold bind. rewrite timer_interrupt_result. case_bool_decide as Hsp; [|case_bool_decide as Hi].
    + eexists _, _. split_and!; try done. by apply effect_spurious.
    + cbn [negb]. rewrite schedule_result; [|unfold saved, set_task; cbn; rewrite !length_insert; lia|cbn; lia].
      destruct (scheduled _) as [o k'] eqn:Es. exists o, k'. split_and!; try done. by apply effect_tick.
    + eexists _, _. split_and!; try done. by apply effect_bad_irq.
Qed.
