(* ===== verification/TaskSpec.v ===== *)
(** * Tasks: properties

    What a trap may do to the kernel and to the applications, the round-robin
    order over any run of traps, and the state in which the applications
    start. *)

From Stdlib Require Import Ascii String.
From S2P Require Import Prelude MemoryH Mem StringC Vsprintf Kernel Timer Task TaskProof.

(** ** The invariant over a trap *)

Lemma task_at_lookup k i t : task_at i k = Some t -> tasks k !! Z.to_nat i = Some t.
Proof. unfold task_at. by destruct (0 <=? i). Qed.

Lemma wf_emit es k : kernel_wf k -> kernel_wf (emit_to es k).
Proof. intros [? ? ? ?]. by split. Qed.

Lemma wf_set_task i t k : 0 <= i < APP_COUNT -> task_ok i t -> kernel_wf k -> kernel_wf (set_task i t k).
Proof.
  intros Hi Ht [Hl Hc Heach Hs]. split; try done; cbn; [by rewrite length_insert|]. intros j tj Hj. unfold APP_COUNT in *.
  destruct (decide (j = i)) as [-> |].
  - rewrite list_lookup_insert_eq by lia. by intros [= <-].
  - rewrite list_lookup_insert_ne by lia. by apply Heach.
Qed.

Lemma task_ok_change i t t' : image_base t' = image_base t -> image_size t' = image_size t -> stack_bottom t' = stack_bottom t ->
  stack_top t' = stack_top t -> regs_ok (regs t') -> user_regs t (regs t') -> task_ok i t -> task_ok i t'.
Proof. intros Eb Es Ebot Et Hr [Hp Hu] [? ? ? ? _ _]. split; rewrite ?Eb, ?Es, ?Ebot, ?Et; try done. split; [done|]. by rewrite Ebot, Et. Qed.

Lemma wf_saved c t r k : kernel_wf k -> task_ok (current k) t -> regs_ok r -> user_regs t r -> kernel_wf (saved c (current k) t r k).
Proof.
  intros Hw Ht Hr Hu. apply wf_emit, wf_set_task; [by destruct Hw|by apply (task_ok_change _ t)|done].
Qed.

Lemma is_runnable_bounds ts j : is_runnable ts j -> 0 <= j < APP_COUNT.
Proof. by intros []. Qed.

Lemma scheduled_ok k o k' : kernel_wf k -> scheduled k = (o, k') -> tasks k' = tasks k /\ ram k' = ram k /\
  match o with
  | inl j => kernel_ok k' /\ current k' = j /\ turn (tasks k) (current k) = Some j
  | inr h => h = Idle /\ kernel_wf k' /\ timer_ctl k' = 0 /\ forall j, ~ is_runnable (tasks k') j
  end.
Proof.
  intros [Hl Hc Heach Hs]. unfold scheduled. destruct (turn (tasks k) (current k)) as [n|] eqn:E; intros [= <- <-]; (split; [done|split; [done|]]).
  - destruct (turn_first _ _ _ E) as [Hn _]. split; [|done]. split; [split; try done; by apply (is_runnable_bounds (tasks k))|done].
  - split_and!; try done. intros j. by apply (turn_none _ (current k)).
Qed.

(** The table after the trap: only the entry of the task that trapped has
    changed, its memory bounds have not, and it has not become runnable. *)
Record only_current (k k' : kernel) (t : task_struct) (r : pt_regs) (t' : task_struct) : Prop := {
  o_tasks : tasks k' = <[Z.to_nat (current k) := t']> (tasks k);
  o_bounds : image_base t' = image_base t /\ image_size t' = image_size t /\ stack_bottom t' = stack_bottom t /\ stack_top t' = stack_top t;
  o_runnable : runnable t' = true -> runnable t = true;
  o_ram : ram k' = ram k;
}.

Lemma regs_ok_set_x0 r v : regs_ok r -> is_u64 v -> regs_ok (set_x0 v r).
Proof.
  intros [Hl Hw Hs] Hv. split; cbn; [by rewrite length_insert| |done]. apply Forall_insert; done.
Qed.

(** The interrupt of the timer. *)
Definition is_tick (c : cpu) (irq : Z) : Prop := irq <> 0 /\ icc_iar1_el1 c = 30.

#[global] Instance is_tick_dec c irq : Decision (is_tick c irq).
Proof. unfold is_tick. apply _. Defined.

(** How a trap leaves the kernel: an application is resumed, or a wrong entry
    or interrupt was a panic, or no application is left. *)
Definition trap_outcome (c : cpu) (r : pt_regs) (irq : Z) (k : kernel) (t : task_struct) (o : Z + halt) (k' : kernel) : Prop :=
  match o with
  | inl j => exists t', only_current k k' t r t' /\ kernel_ok k' /\ current k' = j /\
      (~ is_tick c irq /\ j = current k \/ turn (tasks k') (current k) = Some j) /\
      (regs t' = r \/ irq = 0 /\ is_svc c /\ exists v, is_u64 v /\ regs t' = set_x0 v r)
  | inr Panicked => bad_entry c t r = true /\ tasks k' = tasks k \/ irq <> 0 /\ ~ spurious c /\ icc_iar1_el1 c <> 30
  | inr Idle => exists t', only_current k k' t r t' /\ timer_ctl k' = 0 /\ forall j, ~ is_runnable (tasks k') j
  end.

Definition same_bounds (t t' : task_struct) : Prop :=
  image_base t' = image_base t /\ image_size t' = image_size t /\ stack_bottom t' = stack_bottom t /\ stack_top t' = stack_top t.

(** The branches that choose the next task. *)
Lemma outcome_scheduled c r irq k t k1 t1 o k' : kernel_wf k1 -> tasks k1 = <[Z.to_nat (current k) := t1]> (tasks k) ->
  current k1 = current k -> ram k1 = ram k -> same_bounds t t1 -> (runnable t1 = true -> runnable t = true) -> regs t1 = r ->
  scheduled k1 = (o, k') -> trap_outcome c r irq k t o k'.
Proof.
  intros Hw Et Ec Er Hb Hrun Hregs Hs. destruct (scheduled_ok k1 o k' Hw Hs) as (Et' & Er' & Ho).
  assert (Honly : only_current k k' t r t1) by (split; [congruence|done|done|congruence]).
  unfold trap_outcome. destruct o as [j|h].
  - destruct Ho as (Hok & Hj & Hturn). exists t1. split_and!; try done; [|by left]. right. by rewrite Et', <- Ec.
  - destruct Ho as (-> & _ & Hctl & Hnone). by exists t1.
Qed.

(** The branches that resume the task that trapped. *)
Lemma outcome_resumed c r irq k t k' t' : kernel_wf k' -> 0 <= current k < APP_COUNT -> length (tasks k) = 3%nat ->
  tasks k' = <[Z.to_nat (current k) := t']> (tasks k) -> current k' = current k -> ram k' = ram k -> same_bounds t t' ->
  runnable t = true -> runnable t' = true -> ~ is_tick c irq -> (regs t' = r \/ irq = 0 /\ is_svc c /\ exists v, is_u64 v /\ regs t' = set_x0 v r) ->
  trap_outcome c r irq k t (inl (current k)) k'.
Proof.
  intros Hw Hc Hl Et Ec Er Hb Hrt Hrt' Hnt Hregs. exists t'. split_and!; try done; [|by left]. split; [done|].
  rewrite Ec, Et. split; [done|]. exists t'. split; [|done]. apply list_lookup_insert_eq. unfold APP_COUNT in Hc. lia.
Qed.

Lemma trap_effect_ok c r irq k t o k' : kernel_ok k -> regs_ok r -> task_at (current k) k = Some t -> task_ok (current k) t ->
  trap_effect c r irq k t o k' -> trap_outcome c r irq k t o k'.
Proof.
  intros [Hw Hrun] Hr Hat Ht He. pose proof (k_current k Hw) as Hc. pose proof (k_tasks k Hw) as Hl.
  assert (Hrt : runnable t = true).
  { destruct Hrun as [_ (t0 & Ht0 & Hr0)]. unfold task_at in Hat. rewrite (proj2 (Z.leb_le 0 _)) in Hat by lia. congruence. }
  assert (Hsv : bad_entry c t r = false -> kernel_wf (saved c (current k) t r k)) by (intros Hb; apply wf_saved; try done; by apply (bad_entry_user c)).
  assert (Hset : forall t1 es, bad_entry c t r = false -> same_bounds t t1 -> regs_ok (regs t1) -> user_regs t (regs t1) ->
    kernel_wf (set_task (current k) t1 (emit_to es (saved c (current k) t r k)))).
  { intros t1 es Hb (?&?&?&?) Hr1 Hu1. apply wf_set_task; [done|by apply (task_ok_change _ t)|by apply wf_emit, Hsv]. }
  assert (Htw : forall t2 es, tasks (set_task (current k) t2 (emit_to es (saved c (current k) t r k))) = <[Z.to_nat (current k) := t2]> (tasks k)).
  { intros. cbn. apply list_insert_insert_eq. }
  destruct He as [Hb|Hb Hi Hsp|Hb Hi Hsp Hiar|o k' Hb Hi Hiar Hs|o k' Hb Hi Hsvc Hs|x0 o k' Hb Hi Hsvc H8 H0 Hs|x0 x1 v es Hb Hi Hsvc H8 H0 H1 Hlog|n Hb Hi Hsvc H8 Hn0 Hn1].
  - by left.
  - apply (outcome_resumed _ _ _ _ _ _ (set_observed (set_regs r t))); try done; [by apply Hsv| |by left].
    intros [_ E]. unfold spurious in Hsp. lia.
  - by right.
  - apply (outcome_scheduled _ _ _ _ _ (ticked c (saved c (current k) t r k)) (set_observed (set_regs r t))); try done.
    destruct (Hsv Hb) as [? ? ? ?]. by split.
  - eapply outcome_scheduled; [|apply Htw|..|exact Hs]; try done. apply Hset; [done|done|done|by apply (bad_entry_user c)].
  - eapply outcome_scheduled; [|apply Htw|..|exact Hs]; try done. apply Hset; [done|done|done|by apply (bad_entry_user c)].
  - assert (Hx : is_u64 (u64 v)) by apply u64_range. eapply outcome_resumed; [|done|done|apply Htw|..]; try done.
    + apply Hset; [done|done|by apply regs_ok_set_x0|by apply (bad_entry_user c)].
    + by intros [].
    + right. split_and!; try done. by eexists.
  - assert (Hx : is_u64 (u64 (- ENOSYS))) by apply u64_range.
    rewrite <- (emit_nil (saved c (current k) t r k)). eapply outcome_resumed; [|done|done|apply Htw|..]; try done.
    + apply Hset; [done|done|by apply regs_ok_set_x0|by apply (bad_entry_user c)].
    + by intros [].
    + right. split_and!; try done. by eexists.
Qed.

Lemma trap_total c r irq k : kernel_ok k -> regs_ok r ->
  exists t o k', task_at (current k) k = Some t /\ trap c r irq k = Some (o, k') /\ trap_outcome c r irq k t o k'.
Proof.
  intros Hok Hr. destruct (trap_result c r irq k Hok Hr) as (t & o & k' & Hat & Ht & E & He).
  exists t, o, k'. split_and!; try done. by apply trap_effect_ok.
Qed.

(** ** Runs *)

(** Between two traps the running application changes memory as its mappings
    allow; a step is the next trap that resumes an application, labelled with
    whether it was a timer interrupt and with the application resumed. *)
Inductive step (k : kernel) : bool * Z -> kernel -> Prop :=
  | step_trap m c r irq j k' :
      (forall i, 0 <= i < APP_COUNT -> mapped m (__va (slot i)) APP_SLOT_SIZE) -> regs_ok r ->
      trap c r irq (set_ram m k) = Some (inl j, k') ->
      step k (bool_decide (is_tick c irq), j) k'.

Inductive run : kernel -> list (bool * Z) -> kernel -> Prop :=
  | run_nil k : run k [] k
  | run_cons k l k1 ls k2 : step k l k1 -> run k1 ls k2 -> run k (l :: ls) k2.

Definition ticks (ls : list (bool * Z)) : nat := length (filter (fun l => l.1 = true) ls).

Lemma lookup_table (ts : list task_struct) (i j : Z) (t : task_struct) : 0 <= i -> 0 <= j -> i <> j -> <[Z.to_nat i := t]> ts !! Z.to_nat j = ts !! Z.to_nat j.
Proof. intros. apply list_lookup_insert_ne. lia. Qed.

Lemma step_ok k l k' : kernel_ok k -> step k l k' ->
  kernel_ok k' /\ current k' = l.2 /\
  (forall j, 0 <= j < APP_COUNT -> j <> current k -> tasks k' !! Z.to_nat j = tasks k !! Z.to_nat j) /\
  (forall j, is_runnable (tasks k') j -> is_runnable (tasks k) j) /\
  (l.1 = false /\ l.2 = current k \/ turn (tasks k') (current k) = Some l.2).
Proof.
  intros Hok Hstep. destruct Hstep as [m c r irq j k' Hm Hr E].
  assert (Hok' : kernel_ok (set_ram m k)) by (destruct Hok as [[? ? ? ?] ?]; by split).
  destruct (trap_total c r irq _ Hok' Hr) as (t & o & k2 & Hat & E2 & Ho). rewrite E in E2. injection E2 as <- <-.
  destruct Ho as (t' & [Et _ Hrun _] & Hk & Hc & Hnext & _). cbn [tasks current set_ram] in *. cbn [fst snd].
  pose proof (k_current _ (k_wf _ Hok)) as Hcur. pose proof (k_tasks _ (k_wf _ Hok)) as Hl.
  assert (Hother : forall i, 0 <= i < APP_COUNT -> i <> current k -> tasks k' !! Z.to_nat i = tasks k !! Z.to_nat i).
  { intros i Hi Hne. rewrite Et. apply lookup_table; lia. }
  split_and!; try done.
  - intros i [Hi (ti & Hti & Hri)]. split; [done|]. destruct (decide (i = current k)) as [-> |Hne].
    + exists t. split; [by apply (task_at_lookup k)|]. apply Hrun. rewrite Et, list_lookup_insert_eq in Hti by (unfold APP_COUNT in Hcur; lia). congruence.
    + rewrite Hother in Hti by done. by exists ti.
  - destruct Hnext as [[Hnt ->]|Ht]; [|by right]. left. split; [by apply bool_decide_eq_false|done].
Qed.

Lemma run_ok k ls k' : kernel_ok k -> run k ls k' -> kernel_ok k' /\ forall j, is_runnable (tasks k') j -> is_runnable (tasks k) j.
Proof.
  intros Hok Hrun. induction Hrun as [k|k l k1 ls k2 Hs Hr IH]; [done|]. destruct (step_ok k l k1 Hok Hs) as (Hok1 & _ & _ & Hdec & _).
  destruct (IH Hok1) as [? Hdec2]. split; [done|]. auto.
Qed.

(** Every timer interrupt, and every other change of the running application,
    brings a runnable task nearer to its turn. *)
Lemma run_reaches k ls k' j : kernel_ok k -> run k ls k' -> is_runnable (tasks k') j -> distance (current k) j <= ticks ls ->
  exists b, (b, j) ∈ ls.
Proof.
  intros Hok Hrun Hj. induction Hrun as [k|k l k1 ls k2 Hs Hr IH]; intros Hd.
  { pose proof (distance_range (current k) j). unfold ticks in Hd. cbn in Hd. lia. }
  destruct (step_ok k l k1 Hok Hs) as (Hok1 & Hc1 & _ & _ & Hnext). destruct l as [b n]. cbn [fst snd] in *.
  destruct (decide (n = j)) as [->|Hne]; [exists b; by left|].
  assert (Hj1 : is_runnable (tasks k1) j) by (by apply (proj2 (run_ok k1 ls k2 Hok1 Hr))).
  assert (Hstep : distance (current k1) j <= ticks ls).
  { unfold ticks in *. rewrite filter_cons in Hd. rewrite Hc1. destruct Hnext as [[-> ->]|Ht].
    - rewrite decide_False in Hd by done. done.
    - destruct (turn_progress (tasks k1) (current k) j Hj1) as (n' & E & _ & Hn). rewrite Ht in E. injection E as <-.
      destruct Hn as [|Hn]; [done|]. case_decide; cbn [length] in Hd; lia. }
  destruct (IH Hok1 Hj Hstep) as [b' Hb]. exists b'. by right.
Qed.

Lemma run_dead k ls k' j : kernel_ok k -> run k ls k' -> 0 <= j < APP_COUNT -> ~ is_runnable (tasks k) j ->
  tasks k' !! Z.to_nat j = tasks k !! Z.to_nat j /\ forall b, (b, j) ∉ ls.
Proof.
  intros Hok Hrun Hj. induction Hrun as [k|k l k1 ls k2 Hs Hr IH]; intros Hd; [split; [done|set_solver]|].
  destruct (step_ok k l k1 Hok Hs) as (Hok1 & Hc1 & Hother & Hdec & _). assert (Hne : j <> current k) by (intros ->; by apply Hd, Hok).
  destruct (IH Hok1 (fun H => Hd (Hdec j H))) as [E Hnot]. split; [by rewrite E, Hother|].
  intros b Hin. apply elem_of_cons in Hin as [El|Hin]; [|by apply (Hnot b)]. apply Hd, Hdec. rewrite <- El in Hc1. cbn in Hc1. rewrite <- Hc1. apply Hok1.
Qed.

(** ** The properties *)

(** [next_runnable] returns the first runnable task after the current
    one in round-robin order, the current task last, and -1 exactly when no
    task is runnable. *)
Theorem next_runnable_round_robin ts cur : length ts = 3%nat -> 0 <= cur < APP_COUNT ->
  exists r, next_runnable ts cur = Some r /\
    (r = -1 /\ (forall j, ~ is_runnable ts j) \/
     is_runnable ts r /\ exists d, 1 <= d <= 3 /\ r = (cur + d) mod APP_COUNT /\
       forall d', 1 <= d' < d -> ~ is_runnable ts ((cur + d') mod APP_COUNT)).
Proof.
  intros Hl Hc. exists (default (-1) (turn ts cur)). split; [by apply next_runnable_turn|].
  destruct (turn ts cur) as [j|] eqn:E; [right; by apply turn_first|left]. split; [done|]. intros j. by apply (turn_none _ cur).
Qed.

(** C23. The [log] system call on every argument: too long is [-EINVAL], empty
    is 0, a buffer that is not inside the caller's image or stack is
    [-EFAULT], all without output; otherwise exactly the bytes of the buffer
    follow the task's prefix and the length is returned.  Nothing else
    changes. *)
Theorem sys_log_checks_buffer i t k pointer length : 0 <= i < APP_COUNT -> task_ok i t ->
  mapped (ram k) (__va (slot i)) APP_SLOT_SIZE -> is_u64 pointer -> is_u64 length ->
  exists v es, sys_log t pointer length k = Some (inl v, emit_to es k) /\ logged t k pointer length v es.
Proof.
  intros Hi Ht Hm Hp Hl. destruct (sys_log_result i t k pointer length Hi Ht Hm Hp Hl) as (v & es & Hlog & E). by exists v, es.
Qed.

(** C11. A trap from a running application always has an outcome: it resumes a
    runnable task with the invariant kept (so with EL0 registers and a stack
    pointer of that task's stack), or it panics because the entry was not
    from EL0 with a good stack or the interrupt was unknown, or it idles with
    the timer off because no task is runnable. *)
Theorem trap_is_safe c r irq k : kernel_ok k -> regs_ok r ->
  exists o k', trap c r irq k = Some (o, k') /\
    match o with
    | inl j => kernel_ok k' /\ current k' = j
    | inr Panicked => (exists t, task_at (current k) k = Some t /\ bad_entry c t r = true) \/
        irq <> 0 /\ ~ spurious c /\ icc_iar1_el1 c <> 30
    | inr Idle => timer_ctl k' = 0 /\ forall j, ~ is_runnable (tasks k') j
    end.
Proof.
  intros Hok Hr. destruct (trap_total c r irq k Hok Hr) as (t & o & k' & Hat & E & Ho). exists o, k'. split; [done|].
  destruct o as [j|[|]].
  - destruct Ho as (t' & _ & ? & ? & _). done.
  - destruct Ho as [[Hb _]|Ho]; [left; by exists t|by right].
  - destruct Ho as (t' & _ & ? & ?). done.
Qed.

(** A trap preserves every register of every application: the saved
    registers of the application that trapped are exactly those it had,
    except that a system call that returns sets [x0]; no other task and no
    memory changes. *)
Theorem trap_preserves_contexts c r irq k j k' : kernel_ok k -> regs_ok r -> trap c r irq k = Some (inl j, k') ->
  ram k' = ram k /\
  (forall i, 0 <= i < APP_COUNT -> i <> current k -> tasks k' !! Z.to_nat i = tasks k !! Z.to_nat i) /\
  exists t t', task_at (current k) k = Some t /\ task_at (current k) k' = Some t' /\ same_bounds t t' /\
    (regs t' = r \/ irq = 0 /\ is_svc c /\ exists v, is_u64 v /\ regs t' = set_x0 v r).
Proof.
  intros Hok Hr E. destruct (trap_total c r irq k Hok Hr) as (t & o & k2 & Hat & E2 & Ho). rewrite E in E2. injection E2 as <- <-.
  destruct Ho as (t' & [Et Hb _ Hram] & _ & _ & _ & Hregs). split; [done|].
  pose proof (k_current _ (k_wf _ Hok)) as Hc. pose proof (k_tasks _ (k_wf _ Hok)) as Hl. split.
  - intros i Hi Hne. rewrite Et. apply lookup_table; lia.
  - exists t, t'. split_and!; try done. unfold task_at. rewrite (proj2 (Z.leb_le 0 _)), Et by lia. apply list_lookup_insert_eq. unfold APP_COUNT in Hc. lia.
Qed.

(** C21. The timer interrupt: the registers are saved, the interrupt is
    completed exactly once, the timer is rearmed, and the application whose
    turn it is is resumed; a spurious interrupt resumes the same application
    and completes nothing. *)
Theorem timer_preempts c r irq k t : kernel_ok k -> regs_ok r -> task_at (current k) k = Some t -> bad_entry c t r = false -> irq <> 0 ->
  let first := if observed t then [] else trap_events c (current k) r in
  (icc_iar1_el1 c = 30 -> exists j k', trap c r irq k = Some (inl j, k') /\
    tasks k' = <[Z.to_nat (current k) := set_observed (set_regs r t)]> (tasks k) /\
    turn (tasks k') (current k) = Some j /\ current k' = j /\ timer_ctl k' = 1 /\
    trace k' = trace k ++ first ++ rearm_events k ++ [Msr icc_eoir1_el1 30] ++ rearm_events k) /\
  (spurious c -> exists k', trap c r irq k = Some (inl (current k), k') /\
    tasks k' = <[Z.to_nat (current k) := set_observed (set_regs r t)]> (tasks k) /\ trace k' = trace k ++ first).
Proof.
  intros Hok Hr Hat Hb Hirq first. destruct (trap_result c r irq k Hok Hr) as (t0 & o & k' & Hat0 & _ & E & He).
  rewrite Hat in Hat0. injection Hat0 as <-. split; intros Hiar.
  - destruct He as [| | |o k' _ _ _ Hs| | | |]; try (done || congruence); try (unfold spurious in *; lia).
    set (k1 := ticked c (saved c (current k) t r k)) in *.
    assert (Hrun : is_runnable (tasks k1) (current k1)).
    { destruct (k_running _ Hok) as [Hc (t1 & Ht1 & Hr1)]. split; [done|]. exists (set_observed (set_regs r t)). split.
      - apply list_lookup_insert_eq. pose proof (k_tasks _ (k_wf _ Hok)). cbn in Hc. unfold APP_COUNT in Hc. lia.
      - apply task_at_lookup in Hat. cbn. congruence. }
    destruct (turn_progress (tasks k1) (current k1) (current k1) Hrun) as (j & Ej & _). unfold scheduled in Hs. rewrite Ej in Hs. injection Hs as <- <-.
    eexists j, _. split; [exact E|]. split_and!; try done. unfold k1, saved, ticked, emit_to. cbn. unfold rearm_events. cbn. by rewrite <- !app_assoc.
  - destruct He as [|_ _ _| | | | | |]; try (done || congruence); try (unfold spurious in *; lia). by exists (saved c (current k) t r k).
Qed.

(** C22. [exit] and every exception that is not [SVC #0] stop the application:
    it is reported, an exit status is recorded, the task is no longer
    runnable, and the next one in turn is resumed, or the kernel idles with
    the timer off when there is none. *)
Theorem exit_and_fault_stop c r k t : kernel_ok k -> regs_ok r -> task_at (current k) k = Some t -> bad_entry c t r = false ->
  (~ is_svc c \/ gpr 8 r = Some __NR_exit) ->
  exists o k' t' es, trap c r 0 k = Some (o, k') /\ tasks k' = <[Z.to_nat (current k) := t']> (tasks k) /\
    runnable t' = false /\ regs t' = r /\
    (is_svc c -> exists x0, gpr 0 r = Some x0 /\ exit_code t' = swrap 64 x0 /\ es = exit_events (current k) x0) /\
    (~ is_svc c -> exit_code t' = exit_code t /\ es = fault_events c (current k) r) /\
    match o with
    | inl j => turn (tasks k') (current k) = Some j /\
        trace k' = trace k ++ (if observed t then [] else trap_events c (current k) r) ++ es ++ rearm_events k
    | inr h => h = Idle /\ turn (tasks k') (current k) = None /\ timer_ctl k' = 0 /\
        trace k' = trace k ++ (if observed t then [] else trap_events c (current k) r) ++ es ++ done_events
    end.
Proof.
  intros Hok Hr Hat Hb Hwhy. destruct (trap_result c r 0 k Hok Hr) as (t0 & o & k' & Hat0 & _ & E & He).
  rewrite Hat in Hat0. injection Hat0 as <-.
  assert (Hend : forall k1 t1 es, trace k1 = trace k ++ (if observed t then [] else trap_events c (current k) r) ++ es -> current k1 = current k ->
    quantum k1 = quantum k -> tasks k1 = <[Z.to_nat (current k) := t1]> (tasks k) -> scheduled k1 = (o, k') ->
    tasks k' = <[Z.to_nat (current k) := t1]> (tasks k) /\ match o with
    | inl j => turn (tasks k') (current k) = Some j /\
        trace k' = trace k ++ (if observed t then [] else trap_events c (current k) r) ++ es ++ rearm_events k
    | inr h => h = Idle /\ turn (tasks k') (current k) = None /\ timer_ctl k' = 0 /\
        trace k' = trace k ++ (if observed t then [] else trap_events c (current k) r) ++ es ++ done_events end).
  { intros k1 t1 es Etr Ec Eq Et Hs. unfold scheduled in Hs. rewrite Ec in Hs. destruct (turn (tasks k1) (current k)) as [j|] eqn:Ej; injection Hs as <- <-;
      (split; [done|]); split_and!; try done; cbn; rewrite Etr; unfold rearm_events; rewrite ?Eq; by rewrite <- !app_assoc. }
  destruct He as [| | | |o k' _ _ Hsvc Hs|x0 o k' _ _ Hsvc H8 H0 Hs|x0 x1 v es _ _ Hsvc H8|n _ _ Hsvc H8 _ Hn]; try (done || congruence).
  - eapply Hend in Hs as [Et Ho]; [|unfold saved, emit_to; cbn; by rewrite app_assoc|done|done|cbn; apply list_insert_insert_eq].
    eexists o, k', _, _. split; [exact E|]. split; [exact Et|]. split_and!; try done.
  - eapply Hend in Hs as [Et Ho]; [|unfold saved, emit_to; cbn; by rewrite app_assoc|done|done|cbn; apply list_insert_insert_eq].
    eexists o, k', _, _. split; [exact E|]. split; [exact Et|]. split_and!; try done. intros _. by exists x0.
  - destruct Hwhy as [?|Hwhy]; [done|]. rewrite H8 in Hwhy. discriminate.
  - destruct Hwhy as [?|Hwhy]; [done|]. rewrite H8 in Hwhy. injection Hwhy as ->. done.
Qed.

(** C19. Fairness: in every run with three timer interrupts, whatever the
    applications do in between, every application that is still runnable at
    the end has been resumed. *)
Theorem every_task_gets_its_turn k ls k' j : kernel_ok k -> run k ls k' -> (3 <= ticks ls)%nat -> is_runnable (tasks k') j ->
  exists b, (b, j) ∈ ls.
Proof. intros Hok Hrun Ht Hj. apply (run_reaches k ls k' j Hok Hrun Hj). pose proof (distance_range (current k) j). lia. Qed.

(** C24. An application that has exited or faulted stays so in every run: it
    is never resumed, and its exit status and saved registers are kept. *)
Theorem stopped_tasks_stay_stopped k ls k' j : kernel_ok k -> run k ls k' -> 0 <= j < APP_COUNT -> ~ is_runnable (tasks k) j ->
  tasks k' !! Z.to_nat j = tasks k !! Z.to_nat j /\ ~ is_runnable (tasks k') j /\ forall b, (b, j) ∉ ls.
Proof.
  intros Hok Hrun Hj Hd. destruct (run_dead k ls k' j Hok Hrun Hj Hd) as [E Hn]. split_and!; try done.
  intros H. by apply Hd, (proj2 (run_ok k ls k' Hok Hrun)).
Qed.

(** ** Instances *)

Definition sample_regs (i : Z) (x8 x0 x1 : Z) : pt_regs :=
  PtRegs (<[8%nat := x8]> (<[0%nat := x0]> (<[1%nat := x1]> (replicate 31 0)))) (slot i + APP_SLOT_SIZE) (slot i) 0x340.

Definition sample_task (i : Z) (r : bool) : task_struct :=
  Task (sample_regs i 0 0 0) (slot i) 0x1000 (slot i + APP_SLOT_SIZE - APP_STACK_SIZE) (slot i + APP_SLOT_SIZE) r true 0.

(** Task 2 has exited. *)
Definition sample_tasks : list task_struct := [sample_task 0 true; sample_task 1 true; sample_task 2 false].

Definition slots_ram : mem := gset_to_gmap 0 (list_to_set (seqZ (__va APP_FIRST) (APP_COUNT * APP_SLOT_SIZE))).

Definition sample_kernel : kernel := Kernel sample_tasks 0 625000 1 [] slots_ram [].

(** An interrupt, or [SVC #0]. *)
Definition sample_cpu : cpu := Cpu 0x80 4 0x56000000 0 0 30 0 62500000.

Lemma sample_regs_ok i x8 x0 x1 : 0 <= i < APP_COUNT -> is_u64 x8 -> is_u64 x0 -> is_u64 x1 -> regs_ok (sample_regs i x8 x0 x1).
Proof.
  intros Hi H8 H0 H1. split; cbn [gprs sp pc pstate sample_regs].
  - by rewrite !length_insert, length_replicate.
  - repeat (apply Forall_insert; [|done]). apply Forall_replicate. done.
  - unfold slot, APP_FIRST, APP_SLOT_SIZE, APP_COUNT, is_u64 in *. lia.
Qed.

Lemma sample_task_ok i r : 0 <= i < APP_COUNT -> task_ok i (sample_task i r).
Proof.
  intros Hi. split; cbn [image_base image_size stack_top stack_bottom regs sample_task]; try done.
  - apply sample_regs_ok; done.
  - unfold user_regs. cbn [pstate sp stack_bottom stack_top sample_regs sample_task]. split; [done|].
    unfold APP_STACK_SIZE. split; [lia|]. change 15 with (Z.ones 4). rewrite Z.land_ones by lia.
    unfold slot, APP_FIRST, APP_SLOT_SIZE. replace (0x41000000 + i * 0x20000 + 0x20000) with ((0x4100000 + i * 0x2000 + 0x2000) * 2 ^ 4) by lia.
    apply Z.mod_mul. lia.
Qed.

Lemma slots_mapped i : 0 <= i < APP_COUNT -> mapped slots_ram (__va (slot i)) APP_SLOT_SIZE.
Proof.
  intros Hi x Hx. exists 0. unfold slots_ram. apply lookup_gset_to_gmap_Some. split; [|done]. apply elem_of_list_to_set, elem_of_seqZ.
  assert (E : __va (slot i) = __va APP_FIRST + i * APP_SLOT_SIZE).
  { unfold slot, APP_COUNT, APP_FIRST, APP_SLOT_SIZE in *. rewrite !va_of_ram by (unfold PHYS_OFFSET, RAM_SIZE; lia). lia. }
  rewrite E in Hx. unfold APP_COUNT, APP_SLOT_SIZE in *. lia.
Qed.

Lemma sample_kernel_ok : kernel_ok sample_kernel.
Proof.
  split; [split|]; cbn [tasks current ram sample_kernel].
  - done.
  - done.
  - intros i t Hi Ht. apply app_index in Hi as [-> |[-> | ->]]; cbn in Ht; injection Ht as <-; by apply sample_task_ok.
  - apply slots_mapped.
  - split; [done|]. by exists (sample_task 0 true).
Qed.

Lemma sample_frame x8 x0 x1 : is_u64 x8 -> is_u64 x0 -> is_u64 x1 -> regs_ok (sample_regs 0 x8 x0 x1).
Proof. by apply sample_regs_ok. Qed.

(** The first trap of the sample is a timer interrupt; it makes task 1 run. *)
Lemma sample_tick : exists k', trap sample_cpu (sample_regs 0 0 0 0) 1 sample_kernel = Some (inl 1, k').
Proof.
  destruct (trap_result sample_cpu (sample_regs 0 0 0 0) 1 sample_kernel sample_kernel_ok) as (t & o & k' & Hat & _ & E & He); [by apply sample_frame|].
  cbn in Hat. injection Hat as <-. exists k'. rewrite E.
  destruct He as [Hb|_ _ Hsp|_ _ _ Hi|o k' _ _ _ Hs|o k' _ Hi|x0 o k' _ Hi|x0 x1 v es _ Hi|n _ Hi]; try done.
  clear E. unfold scheduled in Hs. change (turn _ _) with (Some 1) in Hs. injection Hs as <- <-. reflexivity.
Qed.

Lemma next_runnable_round_robin_witness : exists r, next_runnable sample_tasks 1 = Some r /\ r = 0.
Proof.
  destruct (next_runnable_round_robin sample_tasks 1) as (r & E & _); [reflexivity|unfold APP_COUNT; lia|].
  exists r. split; [exact E|]. vm_compute in E. by injection E as <-.
Defined.

Lemma sys_log_checks_buffer_witness :
  exists v es, sys_log (sample_task 0 true) (slot 0) 5 sample_kernel = Some (inl v, emit_to es sample_kernel) /\
    logged (sample_task 0 true) sample_kernel (slot 0) 5 v es.
Proof.
  apply (sys_log_checks_buffer 0);
    [unfold APP_COUNT; lia|by apply sample_task_ok|by apply slots_mapped|unfold is_u64, slot, APP_FIRST, APP_SLOT_SIZE; lia|unfold is_u64; lia].
Defined.

Lemma trap_is_safe_witness :
  exists o k', trap sample_cpu (sample_regs 0 1 7 0) 0 sample_kernel = Some (o, k').
Proof.
  destruct (trap_is_safe sample_cpu (sample_regs 0 1 7 0) 0 sample_kernel sample_kernel_ok) as (o & k' & E & _);
    [apply sample_frame; unfold is_u64; lia|]. exists o, k'. exact E.
Defined.

Lemma trap_preserves_contexts_witness :
  exists k' t', trap sample_cpu (sample_regs 0 0 0 0) 1 sample_kernel = Some (inl 1, k') /\ task_at 0 k' = Some t' /\
    (regs t' = sample_regs 0 0 0 0 \/ exists v, regs t' = set_x0 v (sample_regs 0 0 0 0)).
Proof.
  destruct sample_tick as [k' E]. destruct (trap_preserves_contexts sample_cpu (sample_regs 0 0 0 0) 1 sample_kernel 1 k' sample_kernel_ok)
    as (_ & _ & t & t' & _ & Ht & _ & Hr); [apply sample_frame; unfold is_u64; lia|exact E|].
  exists k', t'. split; [exact E|]. split; [exact Ht|]. destruct Hr as [Hr|(_ & _ & v & _ & Hr)]; [left; exact Hr|right; exists v; exact Hr].
Defined.

Lemma timer_preempts_witness :
  exists k', trap sample_cpu (sample_regs 0 0 0 0) 1 sample_kernel = Some (inl 1, k') /\
    trace k' = [Msr cntp_tval_el0 625000; Msr cntp_ctl_el0 1; Msr icc_eoir1_el1 30; Msr cntp_tval_el0 625000; Msr cntp_ctl_el0 1].
Proof.
  destruct (timer_preempts sample_cpu (sample_regs 0 0 0 0) 1 sample_kernel (sample_task 0 true) sample_kernel_ok) as [H _];
    [apply sample_frame; unfold is_u64; lia|reflexivity|reflexivity|discriminate|].
  destruct (H eq_refl) as (j & k' & E & Et & Hj & _ & _ & Htr). exists k'. rewrite Et in Hj. change (turn _ _) with (Some 1) in Hj.
  injection Hj as <-. split; [exact E|exact Htr].
Defined.

Lemma exit_and_fault_stop_witness :
  exists o k' t', trap sample_cpu (sample_regs 0 1 7 0) 0 sample_kernel = Some (o, k') /\ tasks k' = <[0%nat := t']> sample_tasks /\
    runnable t' = false /\ exit_code t' = 7.
Proof.
  destruct (exit_and_fault_stop sample_cpu (sample_regs 0 1 7 0) sample_kernel (sample_task 0 true) sample_kernel_ok)
    as (o & k' & t' & es & E & Et & Hr & _ & Hx & _);
    [apply sample_frame; unfold is_u64; lia|reflexivity|reflexivity|right; reflexivity|].
  destruct (Hx (conj eq_refl eq_refl)) as (x0 & E0 & Ex & _). injection E0 as <-.
  exists o, k', t'. split; [exact E|]. split; [exact Et|]. split; [exact Hr|exact Ex].
Defined.

(** Three interrupts of the sample: tasks 1, 0 and 1 run. *)
Lemma sample_run : exists ls k', run sample_kernel ls k' /\ ticks ls = 3%nat /\ is_runnable (tasks k') 0.
Proof.
  assert (Hstep : forall k i, kernel_ok k -> current k = i -> runnable <$> tasks k = [true; true; false] ->
    exists k' j, step k (true, j) k' /\ kernel_ok k' /\ runnable <$> tasks k' = [true; true; false]).
  { intros k i Hok Hc Hrun. destruct (lookup_lt_is_Some_2 (tasks k) (Z.to_nat (current k))) as [t Ht].
    { pose proof (k_tasks _ (k_wf _ Hok)). pose proof (k_current _ (k_wf _ Hok)). unfold APP_COUNT in *. lia. }
    assert (Hci : 0 <= current k < APP_COUNT) by apply Hok.
    assert (Hat : task_at (current k) k = Some t) by (unfold task_at; by rewrite (proj2 (Z.leb_le 0 _)) by lia).
    pose proof (k_each _ (k_wf _ Hok) _ t Hci Ht) as Hto. destruct (t_user _ _ Hto) as (Hp & Hsp & Hal).
    assert (Hb : bad_entry sample_cpu t (regs t) = false).
    { unfold bad_entry. rewrite Hp, Hal. change (daif sample_cpu) with 0x80. rewrite (proj2 (Z.ltb_ge _ _)) by lia.
      by rewrite (proj2 (Z.ltb_ge (stack_top t) _)) by lia. }
    destruct (trap_total sample_cpu (regs t) 1 k Hok (t_regs _ _ Hto)) as (t1 & o & k' & Hat1 & E & Ho). rewrite Hat in Hat1. injection Hat1 as <-.
    assert (Hruns : forall t', only_current k k' t (regs t) t' -> runnable t' = runnable t -> runnable <$> tasks k' = [true; true; false]).
    { intros t' [Et _ _ _] Er. rewrite Et, list_fmap_insert, Er, <- Hrun. apply list_insert_id. by rewrite list_lookup_fmap, Ht. }
    destruct (trap_result sample_cpu (regs t) 1 k Hok (t_regs _ _ Hto)) as (t2 & o2 & k2 & Hat2 & _ & E2 & He). rewrite Hat in Hat2. injection Hat2 as <-.
    rewrite E in E2. injection E2 as <- <-.
    destruct He as [Hbad|_ _ Hspur|_ _ _ Hi|o k' _ _ _ Hs|o k' _ Hi|x0 o k' _ Hi|x0 x1 v es _ Hi|n _ Hi]; try done.
    { congruence. } { unfold spurious in Hspur. cbn in Hspur. lia. }
    assert (Et' : tasks k' = <[Z.to_nat (current k) := set_observed (set_regs (regs t) t)]> (tasks k)).
    { unfold scheduled in Hs. destruct (turn _ _); by injection Hs as <- <-. }
    assert (Hr' : runnable <$> tasks k' = [true; true; false]).
    { rewrite Et', list_fmap_insert, <- Hrun. apply list_insert_id. by rewrite list_lookup_fmap, Ht. }
    destruct o as [j|h].
    - exists k', j. split; [|split; [by destruct Ho as (? & _ & ? & _)|done]].
      apply (step_trap k (ram k) sample_cpu (regs t) 1 j k'); [apply Hok|apply Hto|]. by destruct k.
    - exfalso. unfold scheduled in Hs. destruct (turn _ _) eqn:Eturn; [done|]. apply (turn_none _ _ (current k)) in Eturn. apply Eturn.
      split; [done|]. exists (set_observed (set_regs (regs t) t)). split; [apply list_lookup_insert_eq; by eapply lookup_lt_Some|].
      destruct (k_running _ Hok) as [_ (t3 & Ht3 & Hr3)]. cbn. congruence. }
  destruct (Hstep sample_kernel 0 sample_kernel_ok eq_refl eq_refl) as (k1 & j1 & S1 & O1 & R1).
  destruct (Hstep k1 _ O1 eq_refl R1) as (k2 & j2 & S2 & O2 & R2). destruct (Hstep k2 _ O2 eq_refl R2) as (k3 & j3 & S3 & O3 & R3).
  exists [(true, j1); (true, j2); (true, j3)], k3. split; [|split; [done|]].
  - eapply run_cons; [exact S1|]. eapply run_cons; [exact S2|]. eapply run_cons; [exact S3|]. apply run_nil.
  - split; [done|]. destruct (tasks k3) as [|t ts]; [done|]. exists t. split; [done|]. by injection R3.
Qed.

Lemma every_task_gets_its_turn_witness : exists ls k' b, run sample_kernel ls k' /\ (b, 0) ∈ ls.
Proof.
  destruct sample_run as (ls & k' & Hrun & Ht & H0).
  destruct (every_task_gets_its_turn sample_kernel ls k' 0 sample_kernel_ok Hrun ltac:(lia) H0) as [b Hb].
  exists ls, k', b. split; [exact Hrun|exact Hb].
Defined.

Lemma stopped_tasks_stay_stopped_witness : exists ls k', run sample_kernel ls k' /\ tasks k' !! 2%nat = Some (sample_task 2 false).
Proof.
  destruct sample_run as (ls & k' & Hrun & _ & _).
  destruct (stopped_tasks_stay_stopped sample_kernel ls k' 2 sample_kernel_ok Hrun) as (E & _);
    [unfold APP_COUNT; lia|intros [_ (t & [= <-] & Hr)]; discriminate|].
  exists ls, k'. split; [exact Hrun|exact E].
Defined.
