(* ===== verification/TaskStart.v ===== *)
(** * Starting the timer and the applications: properties *)

From Stdlib Require Import Ascii String.
From S2P Require Import Prelude MemoryH Mem StringC Vsprintf Kernel Timer Task TaskProof TaskSpec.

(** ** The timer *)

(** A wait: reads with the bit set, then one with it clear. *)
Definition wait_reads (bit : Z) (reads : list Z) : Prop :=
  exists busy last, reads = busy ++ [last] /\ Forall (fun v => Z.land v bit <> 0) busy /\ Z.land last bit = 0.

Lemma wait_clear_ends bit reads rest : wait_reads bit reads -> wait_clear bit (reads ++ rest) = Some rest.
Proof.
  intros (busy & last & -> & Hb & Hl). rewrite <- app_assoc. induction Hb as [|v busy Hv Hb IH]; cbn.
  - by rewrite Hl.
  - by rewrite (proj2 (Z.eqb_neq _ _) Hv).
Qed.

(** What the reads of [timer_init] return when every wait ends: the values
    read from the waker, the interrupt configuration and the distributor's
    control register, in between the waits. *)
Record timer_reads (waker cfg ctlr : Z) (reads rest : list Z) : Prop := {
  waits_end : exists r1 r2 r3 r4, reads = r1 ++ waker :: r2 ++ cfg :: r3 ++ ctlr :: r4 ++ rest /\
    wait_reads (2 ^ 31) r1 /\ wait_reads 4 r2 /\ wait_reads 8 r3 /\ wait_reads (2 ^ 31) r4;
}.

(** The writes that program the interrupt controller, in order. *)
Definition program_events (c : cpu) (waker cfg ctlr : Z) : list event :=
  [Write32 GICD 0x10;
   Write32 (GICR + 0x14) (u32 (Z.land waker 0xfffffffd));
   Write32 (GICR_SGI + 0x80) 0x40000000;
   Write32 (GICR_SGI + 0xc04) (u32 (Z.land cfg 0xdfffffff));
   Write8 (GICR_SGI + 0x41e) 0x80;
   Write32 (GICR_SGI + 0x100) 0x40000000;
   Write32 GICD (u32 (Z.lor ctlr 2));
   Msr icc_sre (u64 (Z.lor (icc_sre_el1 c) 1));
   Msr icc_pmr_el1 0xff; Msr icc_bpr1_el1 0; Msr icc_ctlr_el1 0; Msr icc_igrpen1_el1 1].

Definition timer_message (c : cpu) : list event :=
  [Print "TIMER frequency=%016lx quantum=%016lx
" [Arg64 (cntfrq_el0 c); Arg64 (cntfrq_el0 c / 100)]].

(** The state after the events [es], with the reads [l] to come. *)
Definition after (l : list Z) (es : list event) (k : kernel) : kernel := set_mmio_reads l (emit_to es k).

Lemma after_start k : k = after (mmio_reads k) [] k.
Proof. unfold after. rewrite emit_nil. by destruct k. Qed.

Lemma emit_after e l es k : emit e (after l es k) = Some (inl tt, after l (es ++ [e]) k).
Proof. unfold after. rewrite <- emit_app. reflexivity. Qed.

Lemma msr_after v r l es k : r <> cntp_ctl_el0 -> write_sysreg v r (after l es k) = Some (inl tt, after l (es ++ [Msr r (u64 v)]) k).
Proof. intros Hr. unfold write_sysreg. erewrite bind_ok by apply emit_after. by destruct r. Qed.

Lemma read_after v l es k : read_mmio (after (v :: l) es k) = Some (inl v, after l es k).
Proof. reflexivity. Qed.

Lemma wait_after bit r l es k : wait_reads bit r -> wait_while bit (after (r ++ l) es k) = Some (inl tt, after l es k).
Proof. intros Hw. unfold wait_while. cbn [mmio_reads after set_mmio_reads]. by rewrite wait_clear_ends. Qed.

Ltac run_one := first
  [ erewrite bind_ok by apply emit_after
  | erewrite bind_ok by apply read_after
  | erewrite bind_ok by (apply msr_after; discriminate)
  | erewrite bind_ok by (apply wait_after; eassumption) ]; cbn [app].

Lemma timer_init_result c k waker cfg ctlr rest : timer_reads waker cfg ctlr (mmio_reads k) rest ->
  let q := cntfrq_el0 c / 100 in
  let k1 := set_quantum q (set_mmio_reads rest (emit_to (program_events c waker cfg ctlr) k)) in
  timer_init c k = Some (
    if (q =? 0) || (0x7fffffff <? q) then (inr Panicked, emit_to (panic_events c) k1)
    else (inl tt, set_timer_ctl 1 (emit_to (timer_message c ++ rearm_events k1) k1))).
Proof.
  intros [(r1 & r2 & r3 & r4 & Er & W1 & W2 & W3 & W4)] q k1. rewrite (after_start k) at 1. rewrite Er.
  change 4 with (Z.shiftl 1 2) in W2. change 8 with (Z.shiftl 1 3) in W3. change (2 ^ 31) with (Z.shiftl 1 31) in W1, W4.
  unfold timer_init, write_mmio. do 19 run_one. cbv zeta. fold q.
  change (lnot32 (Z.shiftl 1 1)) with 0xfffffffd. change (lnot32 (Z.shiftl 2 ((TIMER_IRQ - 16) * 2))) with 0xdfffffff.
  change (u32 (Z.shiftl 1 4)) with 0x10. change (u32 (Z.shiftl 1 TIMER_IRQ)) with 0x40000000. change (u64 0xff) with 0xff.
  change (u64 0) with 0. change (u64 1) with 1. replace (GICR_SGI + 0x400 + TIMER_IRQ) with (GICR_SGI + 0x41e) by (unfold TIMER_IRQ; lia).
  fold (program_events c waker cfg ctlr). erewrite bind_ok by reflexivity. fold (after rest (program_events c waker cfg ctlr) k).
  change (set_quantum q (after rest (program_events c waker cfg ctlr) k)) with k1. clearbody k1. destruct ((q =? 0) || (0x7fffffff <? q)); [reflexivity|].
  unfold print. erewrite bind_ok by reflexivity. fold (timer_message c). unfold timer_rearm. erewrite bind_ok by reflexivity.
  unfold write_sysreg, emit, modify, bind, ret. change (u64 1) with 1. destruct k1. unfold rearm_events, emit_to, set_timer_ctl, timer_message. cbn.
  by rewrite <- !app_assoc.
Qed.

(** ** Loading one application *)

Section copy.
Context (dst src : Z) (bs : list Z) (m : mem).
Let n : Z := Z.of_nat (length bs).
Hypothesis (Hsrc : bytes_at m src bs) (Hby : Forall is_byte bs) (Hdst : mapped m dst n) (Hapart : src + n <= dst).

Lemma copy_loop : iter (rounds n) (copy_byte dst src n) (0, m) = Some (write dst bs m).
Proof using Hsrc Hby Hdst Hapart.
  destruct (iter_rule (fun s => exists i : nat, (i <= length bs)%nat /\ s = (Z.of_nat i, write dst (take i bs) m))
    (fun r => r = write dst bs m) (fun s => Z.to_nat (n - s.1)) (copy_byte dst src n)) with (fuel := rounds n) (s := (0, m)) as (r & E & ->).
  - intros s (i & Hi & ->). unfold copy_byte. destruct (Z.ltb_spec i n) as [Hlt|Hge].
    + left. destruct (lookup_lt_is_Some_2 bs i) as [b Hb]; [lia|]. unfold load8.
      rewrite lookup_write_out by (rewrite length_take; lia). rewrite (Hsrc i b Hb). cbn [mbind option_bind]. unfold store8.
      destruct (mapped_write dst n dst (take i bs) m Hdst (dst + i)) as [old ->]; [lia|]. cbn [mbind option_bind].
      eexists. split; [done|]. split; [|cbn [fst]; lia]. exists (Datatypes.S i). split; [lia|]. f_equal; [lia|].
      rewrite (take_S_r _ _ _ Hb), write_app, length_take. replace (Z.of_nat (i `min` length bs)) with (Z.of_nat i) by lia. cbn [write].
      f_equal. unfold u8. apply Z.mod_small. eapply Forall_lookup_1 in Hby; [|exact Hb]. exact Hby.
    + right. eexists. split; [done|]. by rewrite firstn_all2 by lia.
  - exists 0%nat. split; [lia|done].
  - cbn [fst]. unfold rounds. lia.
  - exact E.
Qed.

Lemma compare_loop : iter (rounds n) (compare_byte (write dst bs m) dst src n) 0 = Some true.
Proof using Hsrc Hapart.
  destruct (iter_rule (fun s => 0 <= s <= n) (fun r => r = true) (fun s => Z.to_nat (n - s)) (compare_byte (write dst bs m) dst src n))
    with (fuel := rounds n) (s := 0) as (r & E & ->).
  - intros s Hs. unfold compare_byte. destruct (Z.ltb_spec s n) as [Hlt|Hge]; [left|right; by exists true].
    destruct (lookup_lt_is_Some_2 bs (Z.to_nat s)) as [b Hb]; [lia|]. unfold load8.
    rewrite (lookup_write dst bs m (dst + s)), decide_True by lia. replace (dst + s - dst) with s by lia. rewrite Hb. cbn [mbind option_bind].
    rewrite lookup_write_out by lia. pose proof (Hsrc _ _ Hb) as Hs'. rewrite Z2Nat.id in Hs' by lia. rewrite Hs'. cbn [mbind option_bind].
    rewrite Z.eqb_refl. eexists. split; [done|]. lia.
  - lia.
  - unfold rounds. lia.
  - exact E.
Qed.

End copy.

(** The image of an application in kernel memory, below the slots. *)
Record payload_at (m : mem) (s e : Z) (bs : list Z) : Prop := {
  p_bytes : bytes_at m s bs;
  p_byte : Forall is_byte bs;
  p_size : 0 < length bs <= APP_IMAGE_SIZE;
  p_end : e = s + length bs;
  p_below : 0 <= s /\ e <= __va APP_FIRST;
}.

Definition loaded_task (i size : Z) (t : task_struct) : task_struct :=
  Task (PtRegs (gprs (regs t)) (slot i + APP_SLOT_SIZE) (slot i) 0x340) (slot i) size
    (slot i + APP_SLOT_SIZE - APP_STACK_SIZE) (slot i + APP_SLOT_SIZE) true (observed t) (exit_code t).

Definition loaded_events (i : Z) : list event :=
  [Print "LOADED app=%u image=%016lx stack=%016lx copy=OK
" [Arg32 i; Arg64 (slot i); Arg64 (slot i + APP_SLOT_SIZE)]].

Definition loaded_ram (i : Z) (bs : list Z) (m : mem) : mem :=
  write (__va (slot i + APP_SLOT_SIZE - APP_STACK_SIZE)) (replicate (Z.to_nat APP_STACK_SIZE) 0) (write (__va (slot i)) bs m).

Lemma va_slot_range i : 0 <= i < APP_COUNT -> __va (slot i) = __va APP_FIRST + i * APP_SLOT_SIZE /\ 0 < __va APP_FIRST < 2 ^ 64 - 2 ^ 32.
Proof.
  unfold slot, APP_COUNT, APP_FIRST, APP_SLOT_SIZE. intros. rewrite !va_of_ram by (unfold PHYS_OFFSET, RAM_SIZE; lia).
  unfold PHYS_OFFSET, PAGE_OFFSET. lia.
Qed.

Lemma start_app_result c starts ends i k t s e bs : 0 <= i < APP_COUNT -> starts !! Z.to_nat i = Some s -> ends !! Z.to_nat i = Some e ->
  task_at i k = Some t -> payload_at (ram k) s e bs -> mapped (ram k) (__va (slot i)) APP_SLOT_SIZE ->
  start_app c starts ends i k = Some (inl tt,
    emit_to (loaded_events i) (set_task i (loaded_task i (length bs) t) (set_ram (loaded_ram i bs (ram k)) k))).
Proof.
  intros Hi Es Ee Ht [Hb Hby Hsz Hend Hlow] Hm. destruct (va_slot_range i Hi) as [Eva Hva].
  assert (Ebase : u64 (APP_FIRST + u32 (i * APP_SLOT_SIZE)) = slot i).
  { unfold slot, APP_FIRST, APP_SLOT_SIZE, APP_COUNT in *. rewrite u32_id, u64_id by (unfold is_u32, is_u64; lia). lia. }
  assert (Hsl : 0 <= slot i < 2 ^ 32 - 2 ^ 20) by (unfold slot, APP_FIRST, APP_SLOT_SIZE, APP_COUNT in *; lia).
  assert (Esize : u64 (e - s) = length bs) by (unfold APP_IMAGE_SIZE in Hsz; rewrite u64_id by (unfold is_u64; lia); lia).
  assert (Etop : u64 (slot i + APP_SLOT_SIZE) = slot i + APP_SLOT_SIZE) by (apply u64_id; unfold is_u64, APP_SLOT_SIZE; lia).
  assert (Ebot : u64 (slot i + APP_SLOT_SIZE - APP_STACK_SIZE) = slot i + APP_SLOT_SIZE - APP_STACK_SIZE).
  { apply u64_id; unfold is_u64, APP_SLOT_SIZE, APP_STACK_SIZE; lia. }
  assert (Etest : ((length bs =? 0) || (APP_IMAGE_SIZE <? length bs) || (slot i + APP_SLOT_SIZE - APP_STACK_SIZE <? u64 (slot i + length bs))) = false).
  { unfold APP_IMAGE_SIZE, APP_SLOT_SIZE, APP_STACK_SIZE in *. rewrite u64_id by (unfold is_u64; lia). by eval_cmp. }
  assert (Hdst : mapped (ram k) (__va (slot i)) (length bs)).
  { apply (mapped_sub _ _ _ _ _ Hm); unfold APP_IMAGE_SIZE, APP_SLOT_SIZE in *; lia. }
  assert (Ev : __va (slot i + APP_SLOT_SIZE - APP_STACK_SIZE) = __va (slot i) + (APP_SLOT_SIZE - APP_STACK_SIZE)).
  { rewrite <- va_slot by (unfold APP_SLOT_SIZE, APP_STACK_SIZE; lia). f_equal. lia. }
  assert (Hap : s + length bs <= __va (slot i)) by (unfold APP_SLOT_SIZE in Eva; lia).
  unfold start_app, bind, lift, get_task, gets, put_task, modify, ret. rewrite Es, Ee, Ht. cbv zeta. rewrite Ebase, Esize, Etop, Ebot, Etest.
  cbn [ram set_tasks]. rewrite (copy_loop (__va (slot i)) s bs (ram k) Hb Hby Hdst Hap), (compare_loop (__va (slot i)) s bs (ram k) Hb Hap). cbn [negb]. rewrite Ev.
  rewrite memset_correct; [|unfold is_u64, APP_STACK_SIZE; lia|apply mapped_write, (mapped_sub _ _ _ _ _ Hm); unfold APP_SLOT_SIZE, APP_STACK_SIZE; lia].
  unfold print, emit, modify, set_task, loaded_task, loaded_ram, emit_to, set_tasks, set_ram.
  cbn [tasks current quantum timer_ctl mmio_reads ram trace regs gprs observed exit_code]. rewrite Ev, list_insert_insert_eq. reflexivity.
Qed.

(** ** Loading all of them *)

Lemma stack_in_slot i : 0 <= i < APP_COUNT ->
  __va (slot i + APP_SLOT_SIZE - APP_STACK_SIZE) = __va (slot i) + (APP_SLOT_SIZE - APP_STACK_SIZE).
Proof. intros Hi. rewrite <- va_slot by (unfold APP_SLOT_SIZE, APP_STACK_SIZE; lia). f_equal. lia. Qed.

Definition zero_stack : list Z := replicate (Z.to_nat APP_STACK_SIZE) 0.

Lemma zero_stack_length : Z.of_nat (length zero_stack) = APP_STACK_SIZE.
Proof. unfold zero_stack. rewrite length_replicate. unfold APP_STACK_SIZE. lia. Qed.

#[global] Opaque zero_stack.

Lemma loaded_ram_unfold i bs m :
  loaded_ram i bs m = write (__va (slot i + APP_SLOT_SIZE - APP_STACK_SIZE)) zero_stack (write (__va (slot i)) bs m).
Proof. reflexivity. Qed.

Section loaded.
Context (i : Z) (bs : list Z) (m : mem).
Hypothesis (Hi : 0 <= i < APP_COUNT) (Hbs : 0 < length bs <= APP_IMAGE_SIZE).

Lemma loaded_ram_out x : x < __va (slot i) \/ __va (slot i) + APP_SLOT_SIZE <= x -> loaded_ram i bs m !! x = m !! x.
Proof using Hi Hbs.
  intros Hx. rewrite loaded_ram_unfold, stack_in_slot by done. pose proof zero_stack_length as Hz.
  unfold APP_IMAGE_SIZE, APP_SLOT_SIZE, APP_STACK_SIZE in *. rewrite !lookup_write_out by lia. done.
Qed.

Lemma loaded_ram_image : bytes_at (loaded_ram i bs m) (__va (slot i)) bs.
Proof using Hi Hbs.
  rewrite loaded_ram_unfold, stack_in_slot by done. apply bytes_at_write; [|apply bytes_at_written].
  unfold APP_IMAGE_SIZE, APP_SLOT_SIZE, APP_STACK_SIZE in *. lia.
Qed.

Lemma loaded_ram_stack : bytes_at (loaded_ram i bs m) (__va (slot i + APP_SLOT_SIZE - APP_STACK_SIZE)) zero_stack.
Proof. rewrite loaded_ram_unfold. apply bytes_at_written. Qed.

End loaded.

(** An entry of the task table before it is filled in. *)
Definition zero_task : task_struct := Task (PtRegs (replicate 31 0) 0 0 0) 0 0 0 0 false false 0.

(** An application in its slot: its image, byte by byte, and a cleared stack. *)
Definition in_slot (m : mem) (i : Z) (bs : list Z) : Prop :=
  bytes_at m (__va (slot i)) bs /\ bytes_at m (__va (slot i + APP_SLOT_SIZE - APP_STACK_SIZE)) zero_stack.

Lemma in_slot_apart m i j bs cs : 0 <= i < APP_COUNT -> 0 <= j < APP_COUNT -> i <> j -> 0 < length bs <= APP_IMAGE_SIZE ->
  0 < length cs <= APP_IMAGE_SIZE -> in_slot m i bs -> in_slot (loaded_ram j cs m) i bs.
Proof.
  intros Hi Hj Hne Hbs Hcs [Himg Hst]. pose proof (va_slot_range i Hi) as [Ei _]. pose proof (va_slot_range j Hj) as [Ej _].
  pose proof zero_stack_length as Hz. assert (Hout : forall x, __va (slot i) <= x < __va (slot i) + APP_SLOT_SIZE -> loaded_ram j cs m !! x = m !! x).
  { intros x Hx. apply loaded_ram_out; [done|done|]. unfold APP_SLOT_SIZE in *. lia. }
  split; intros o b Hb; rewrite Hout; try (by apply Himg); try (by apply Hst); apply lookup_lt_Some in Hb;
    rewrite ?stack_in_slot by done; unfold APP_IMAGE_SIZE, APP_SLOT_SIZE, APP_STACK_SIZE in *; lia.
Qed.

Section start.
Context (c : cpu) (starts ends : list Z) (bss : list (list Z)) (k0 : kernel).

(** The payloads lie below the slots and the slots are mapped. *)
Record start_ready : Prop := {
  sr_tasks : tasks k0 = replicate 3 zero_task;
  sr_lengths : length starts = 3%nat /\ length ends = 3%nat /\ length bss = 3%nat;
  sr_payload i s e bs : starts !! i = Some s -> ends !! i = Some e -> bss !! i = Some bs -> payload_at (ram k0) s e bs;
  sr_slots i : 0 <= i < APP_COUNT -> mapped (ram k0) (__va (slot i)) APP_SLOT_SIZE;
}.

(** The state with the first [n] applications loaded. *)
Record loaded_upto (n : Z) (k : kernel) : Prop := {
  lu_tasks : length (tasks k) = 3%nat;
  lu_done j bs : 0 <= j < n -> bss !! Z.to_nat j = Some bs ->
    tasks k !! Z.to_nat j = Some (loaded_task j (length bs) zero_task) /\ in_slot (ram k) j bs;
  lu_todo j : n <= j < APP_COUNT -> tasks k !! Z.to_nat j = Some zero_task;
  lu_below x : x < __va APP_FIRST -> ram k !! x = ram k0 !! x;
  lu_mapped a n : mapped (ram k0) a n -> mapped (ram k) a n;
  lu_rest : current k = current k0 /\ mmio_reads k = mmio_reads k0 /\ trace k = trace k0 ++ concat (loaded_events <$> seqZ 0 n);
}.

Hypothesis (Hr : start_ready).

Lemma payload_of i : 0 <= i < APP_COUNT -> exists s e bs, starts !! Z.to_nat i = Some s /\ ends !! Z.to_nat i = Some e /\
  bss !! Z.to_nat i = Some bs /\ payload_at (ram k0) s e bs.
Proof using Hr.
  intros Hi. unfold APP_COUNT in Hi. destruct (sr_lengths Hr) as (Hs & He & Hb).
  destruct (lookup_lt_is_Some_2 starts (Z.to_nat i)) as [s Es]; [lia|]. destruct (lookup_lt_is_Some_2 ends (Z.to_nat i)) as [e Ee]; [lia|].
  destruct (lookup_lt_is_Some_2 bss (Z.to_nat i)) as [bs Eb]; [lia|]. exists s, e, bs. split_and!; try done. by apply (sr_payload Hr (Z.to_nat i)).
Qed.

Lemma payload_kept k s e bs : (forall x, x < __va APP_FIRST -> ram k !! x = ram k0 !! x) -> payload_at (ram k0) s e bs -> payload_at (ram k) s e bs.
Proof.
  intros Hb [Hbs Hby Hsz He Hlow]. split; try done. intros o b Ho. rewrite Hb; [by apply Hbs|]. apply lookup_lt_Some in Ho. lia.
Qed.

Lemma start_app_step i k : 0 <= i < APP_COUNT -> loaded_upto i k ->
  exists k', start_app c starts ends i k = Some (inl tt, k') /\ loaded_upto (i + 1) k'.
Proof using Hr.
  intros Hi [Hl Hdone Htodo Hbelow Hmap (Hcur & Hreads & Htr)].
  destruct (payload_of i Hi) as (s & e & bs & Es & Ee & Eb & Hp). pose proof (payload_kept k s e bs Hbelow Hp) as Hp'.
  eexists. split; [apply (start_app_result c starts ends i k zero_task s e bs); try done; [|by apply Hmap, Hr]|].
  { unfold task_at. rewrite (proj2 (Z.leb_le 0 i)) by lia. cbn. apply Htodo. lia. }
  pose proof (p_size _ _ _ _ Hp) as Hsz. destruct (va_slot_range i Hi) as [Ei Hva].
  assert (Hn : (Z.to_nat i < length (tasks k))%nat) by (unfold APP_COUNT in Hi; lia).
  split; cbn [tasks ram set_task set_tasks set_ram emit_to current mmio_reads trace].
  - by rewrite length_insert.
  - intros j cs Hj Hcs. destruct (decide (j = i)) as [-> |Hne].
    + rewrite Eb in Hcs. injection Hcs as <-. rewrite list_lookup_insert_eq by done. split; [done|].
      split; [by apply loaded_ram_image|by apply loaded_ram_stack].
    + rewrite list_lookup_insert_ne by lia. destruct (Hdone j cs) as [Ej Hin]; [lia|done|]. split; [done|].
      destruct (payload_of j) as (s' & e' & bs' & _ & _ & Eb' & Hpj); [lia|]. rewrite Hcs in Eb'. injection Eb' as <-.
      apply in_slot_apart; try (done || lia). apply (p_size _ _ _ _ Hpj).
  - intros j Hj. rewrite list_lookup_insert_ne by lia. apply Htodo. lia.
  - intros x Hx. rewrite loaded_ram_out; [by apply Hbelow|done|done|]. unfold APP_SLOT_SIZE in *. lia.
  - intros a n Ha. rewrite loaded_ram_unfold. by apply mapped_write, mapped_write, Hmap.
  - split_and!; [done|done|]. rewrite Htr. rewrite seqZ_app with (m := 0) (n1 := i) (n2 := 1) by lia.
    rewrite fmap_app, concat_app, <- app_assoc. done.
Qed.

Lemma start_each_result n i k : i + Z.of_nat n = APP_COUNT -> 0 <= i -> loaded_upto i k ->
  exists k', start_each c starts ends n i k = Some (inl tt, k') /\ loaded_upto APP_COUNT k'.
Proof using Hr.
  revert i k. induction n as [|n IH]; intros i k Hn Hi Hk; cbn [start_each].
  - exists k. split; [done|]. by replace APP_COUNT with i by lia.
  - destruct (start_app_step i k) as (k1 & E1 & Hk1); [lia|done|]. destruct (IH (i + 1) k1) as (k2 & E2 & Hk2); [lia|lia|done|].
    exists k2. split; [|done]. erewrite bind_ok by exact E1. exact E2.
Qed.

Lemma loaded_none : loaded_upto 0 k0.
Proof using Hr.
  destruct Hr as [Et ? ? Hs]. split; try done; [by rewrite Et|lia| |].
  - intros j Hj. rewrite Et. apply lookup_replicate_2. unfold APP_COUNT in Hj. lia.
  - split_and!; try done. by rewrite app_nil_r.
Qed.

Lemma loaded_task_ok i size : 0 <= i < APP_COUNT -> 0 < size <= APP_IMAGE_SIZE -> task_ok i (loaded_task i size zero_task).
Proof.
  intros Hi Hs. split; cbn [image_base image_size stack_top stack_bottom regs loaded_task]; try done.
  - split; cbn [gprs sp pc pstate zero_task regs]; [done|by apply Forall_replicate|].
    unfold slot, APP_FIRST, APP_SLOT_SIZE, APP_COUNT, is_u64 in *. lia.
  - unfold user_regs. cbn [pstate sp stack_bottom stack_top loaded_task]. split; [done|]. unfold APP_STACK_SIZE. split; [lia|].
    change 15 with (Z.ones 4). rewrite Z.land_ones by lia. unfold slot, APP_FIRST, APP_SLOT_SIZE.
    replace (0x41000000 + i * 0x20000 + 0x20000) with ((0x4100000 + i * 0x2000 + 0x2000) * 2 ^ 4) by lia. apply Z.mod_mul. lia.
Qed.

Lemma loaded_kernel_wf k : current k0 = 0 -> loaded_upto APP_COUNT k -> kernel_ok k.
Proof using Hr.
  intros Hc0 [Hl Hdone _ _ Hmap (Hcur & _ & _)]. split; [split; try done|].
  - rewrite Hcur, Hc0. done.
  - intros i t Hi Ht. destruct (payload_of i Hi) as (s & e & bs & _ & _ & Eb & Hp). destruct (Hdone i bs Hi Eb) as [E _].
    rewrite E in Ht. injection Ht as <-. apply loaded_task_ok; [done|]. apply (p_size _ _ _ _ Hp).
  - intros i Hi. by apply Hmap, Hr.
  - rewrite Hcur, Hc0. split; [done|]. destruct (payload_of 0) as (s & e & bs & _ & _ & Eb & Hp); [done|].
    destruct (Hdone 0 bs ltac:(done) Eb) as [E _]. by exists (loaded_task 0 (length bs) zero_task).
Qed.

End start.

(** The applications as [start_apps] leaves them. *)
Record apps_up (c : cpu) (bss : list (list Z)) (k : kernel) (waker cfg ctlr : Z) (k' : kernel) : Prop := {
  au_ok : kernel_ok k';
  au_timer : timer_ctl k' = 1 /\ quantum k' = cntfrq_el0 c / 100;
  au_images (i : nat) bs : bss !! i = Some bs -> tasks k' !! i = Some (loaded_task i (length bs) zero_task) /\ in_slot (ram k') i bs;
  au_below x : x < __va APP_FIRST -> ram k' !! x = ram k !! x;
  au_mapped a n : mapped (ram k) a n -> mapped (ram k') a n;
  au_trace : trace k' = trace k ++ loaded_events 0 ++ loaded_events 1 ++ loaded_events 2 ++ program_events c waker cfg ctlr ++ timer_message c ++
    [Msr cntp_tval_el0 (cntfrq_el0 c / 100); Msr cntp_ctl_el0 1];
}.

Lemma start_apps_result c starts ends bss k waker cfg ctlr rest :
  start_ready starts ends bss k -> current k = 0 -> timer_reads waker cfg ctlr (mmio_reads k) rest -> 100 <= cntfrq_el0 c < 2 ^ 31 * 100 ->
  exists k', start_apps c starts ends k = Some (inl 0, k') /\ apps_up c bss k waker cfg ctlr k'.
Proof.
  intros Hr Hc Ht Hf. destruct (start_each_result c starts ends bss k Hr 3 0 k) as (k1 & E1 & H1); [done|done|by apply (loaded_none starts ends bss)|].
  pose proof (loaded_kernel_wf starts ends bss k Hr k1 Hc H1) as Hok. destruct H1 as [_ Hdone _ Hbelow Hmap (_ & Hreads & Htr)].
  rewrite <- Hreads in Ht. pose proof (timer_init_result c k1 waker cfg ctlr rest Ht) as E2. cbv zeta in E2. set (q := cntfrq_el0 c / 100) in *.
  assert (Hq : 0 < q <= 0x7fffffff) by (unfold q; split; [apply Z.div_str_pos|]; Z.div_mod_to_equations; lia).
  assert (Eq : cntfrq_el0 c / 100 = q) by reflexivity. clearbody q. replace ((q =? 0) || (0x7fffffff <? q)) with false in E2 by (by eval_cmp).
  eexists. split; [unfold start_apps; rewrite (bind_ok _ _ _ _ _ E1), (bind_ok _ _ _ _ _ E2); reflexivity|]. split.
  - destruct Hok as [[Hl Hcur Heach Hs] Hrun]. by split.
  - by rewrite Eq.
  - intros i bs Hbs. destruct (Hdone i bs) as [Et Hin]; [|by rewrite Nat2Z.id|by rewrite Nat2Z.id in Et].
    apply lookup_lt_Some in Hbs. destruct (sr_lengths _ _ _ _ Hr) as (_ & _ & Hb3). unfold APP_COUNT. lia.
  - exact Hbelow.
  - exact Hmap.
  - cbn [trace set_timer_ctl emit_to set_quantum set_mmio_reads]. unfold rearm_events. cbn [quantum set_quantum]. rewrite Htr, Eq, (u64_id q) by (unfold is_u64; lia). unfold APP_COUNT. by rewrite <- !app_assoc.
Qed.

(** ** Properties *)

(** The boot path of the timer: whenever each of its four waits reads the
    awaited bit clear at some point, [timer_init] programs the interrupt
    controller with exactly the writes of [program_events], in that order,
    consumes exactly the reads of its waits and its three read-modify-write
    registers, and then either panics, when a hundredth of the timer's frequency
    is zero or does not fit the timer's 31-bit down-counter, or leaves the
    timer enabled with that quantum. *)
Theorem timer_init_programs_interrupts c k waker cfg ctlr rest : timer_reads waker cfg ctlr (mmio_reads k) rest -> 0 <= cntfrq_el0 c ->
  let q := cntfrq_el0 c / 100 in
  exists o k', timer_init c k = Some (o, k') /\ mmio_reads k' = rest /\ tasks k' = tasks k /\ ram k' = ram k /\ quantum k' = q /\
    match o with
    | inl _ => 0 < q <= 0x7fffffff /\ timer_ctl k' = 1 /\
        trace k' = trace k ++ program_events c waker cfg ctlr ++ timer_message c ++ [Msr cntp_tval_el0 q; Msr cntp_ctl_el0 1]
    | inr h => h = Panicked /\ ~ 0 < q <= 0x7fffffff /\ timer_ctl k' = timer_ctl k /\
        trace k' = trace k ++ program_events c waker cfg ctlr ++ panic_events c
    end.
Proof.
  intros Hr Hf q. pose proof (timer_init_result c k waker cfg ctlr rest Hr) as E. cbv zeta in E. fold q in E.
  destruct ((q =? 0) || (0x7fffffff <? q)) eqn:Eq.
  - eexists _, _. split; [exact E|]. split_and!; try done; [bool_prop; lia|]. cbn. by rewrite <- app_assoc.
  - eexists _, _. split; [exact E|]. bool_prop.
    assert (0 <= q) by (unfold q; apply Z.div_pos; lia). clearbody q. split_and!; try (done || lia). cbn [trace set_timer_ctl emit_to set_quantum set_mmio_reads]. unfold rearm_events. cbn [quantum set_quantum].
    rewrite (u64_id q) by (unfold is_u64; lia). by rewrite <- !app_assoc.
Qed.

(** Booting the applications: from a zeroed task table, with the three
    payloads below the slots and not larger than an image may be,
    [start_apps] panics at no check, copies every image byte by byte to the
    start of its slot, clears every stack, enters each task in the table with
    its registers at the entry point and the top of its stack, programs the
    timer, and enters application 0 in a state that satisfies the invariant of
    the trap path.  Nothing below the slots changes. *)
Theorem start_apps_loads_applications c starts ends bss k waker cfg ctlr rest :
  start_ready starts ends bss k -> current k = 0 -> timer_reads waker cfg ctlr (mmio_reads k) rest -> 100 <= cntfrq_el0 c < 2 ^ 31 * 100 ->
  exists k', start_apps c starts ends k = Some (inl 0, k') /\ kernel_ok k' /\ timer_ctl k' = 1 /\ quantum k' = cntfrq_el0 c / 100 /\
    (forall (i : nat) bs, bss !! i = Some bs ->
      tasks k' !! i = Some (loaded_task i (length bs) zero_task) /\ in_slot (ram k') i bs) /\
    (forall x, x < __va APP_FIRST -> ram k' !! x = ram k !! x) /\
    trace k' = trace k ++ loaded_events 0 ++ loaded_events 1 ++ loaded_events 2 ++ program_events c waker cfg ctlr ++ timer_message c ++
      [Msr cntp_tval_el0 (cntfrq_el0 c / 100); Msr cntp_ctl_el0 1].
Proof.
  intros Hr Hc Ht Hf. destruct (start_apps_result c starts ends bss k waker cfg ctlr rest Hr Hc Ht Hf) as (k' & E & [Hok [Htm Hq] Himg Hbelow _ Htr]).
  exists k'. split_and!; assumption.
Qed.

(** ** Instances *)

Definition boot_reads : list Z := [0; 6; 0; 0x20000000; 0; 0x10; 2 ^ 31; 0].

Lemma boot_reads_ok : timer_reads 6 0x20000000 0x10 boot_reads [].
Proof.
  assert (H0 : forall bit, wait_reads bit [0]) by (intros bit; exists [], 0; split_and!; [done|by constructor|done]).
  split. exists [0], [0], [0], [2 ^ 31; 0]. split_and!; try apply H0; [reflexivity|].
  exists [2 ^ 31], 0. split_and!; [done|by repeat constructor|done].
Qed.

Definition payload_ram : mem := write (__va APP_FIRST - 6) [1; 2; 3; 4; 5; 6] slots_ram.

Definition payload_bytes : list (list Z) := [[1; 2]; [3]; [4; 5; 6]].
Definition payload_starts : list Z := [__va APP_FIRST - 6; __va APP_FIRST - 4; __va APP_FIRST - 3].
Definition payload_ends : list Z := [__va APP_FIRST - 4; __va APP_FIRST - 3; __va APP_FIRST].

Definition boot_kernel : kernel := Kernel (replicate 3 zero_task) 0 0 0 boot_reads payload_ram [].

Lemma sample_payload m (o n : nat) bs : bytes_at m (__va APP_FIRST - 6) [1; 2; 3; 4; 5; 6] -> (o + n <= 6)%nat ->
  bs = take n (drop o [1; 2; 3; 4; 5; 6]) -> (0 < n)%nat ->
  payload_at m (__va APP_FIRST - 6 + Z.of_nat o) (__va APP_FIRST - 6 + Z.of_nat o + Z.of_nat n) bs.
Proof.
  intros Hm Hon -> Hn. assert (Hl : length (take n (drop o [1; 2; 3; 4; 5; 6])) = n) by (rewrite length_take, length_drop; cbn [length]; lia).
  split; rewrite ?Hl; try (unfold APP_IMAGE_SIZE; lia).
  - by apply bytes_at_sub.
  - apply Forall_take, Forall_drop. by repeat constructor.
  - assert (0x1000000 <= __va APP_FIRST) by (by vm_compute). lia.
Qed.

(** Any kernel with these six bytes below the slots is ready. *)
Lemma sample_ready k : tasks k = replicate 3 zero_task -> bytes_at (ram k) (__va APP_FIRST - 6) [1; 2; 3; 4; 5; 6] ->
  (forall i, 0 <= i < APP_COUNT -> mapped (ram k) (__va (slot i)) APP_SLOT_SIZE) ->
  start_ready payload_starts payload_ends payload_bytes k.
Proof.
  intros Ht Hm Hs. split; [exact Ht|split_and!; reflexivity| |exact Hs].
  intros [|[|[|i]]] s e bs Es Ee Eb; cbn in Es, Ee, Eb; try discriminate; injection Es as <-; injection Ee as <-; injection Eb as <-.
  - apply (sample_payload _ 0 2); [exact Hm|lia|reflexivity|lia].
  - apply (sample_payload _ 2 1); [exact Hm|lia|reflexivity|lia].
  - apply (sample_payload _ 3 3); [exact Hm|lia|reflexivity|lia].
Qed.

Lemma boot_ready : start_ready payload_starts payload_ends payload_bytes boot_kernel.
Proof.
  apply sample_ready; [reflexivity|apply bytes_at_written|]. intros i Hi. cbn [ram boot_kernel]. apply mapped_write, slots_mapped, Hi.
Qed.

Definition boot_cpu : cpu := Cpu 0 4 0 0 0 0 6 62500000.

Lemma timer_init_programs_interrupts_witness :
  exists o k', timer_init boot_cpu boot_kernel = Some (o, k') /\ mmio_reads k' = [] /\ quantum k' = 625000.
Proof.
  destruct (timer_init_programs_interrupts boot_cpu boot_kernel 6 0x20000000 0x10 [] boot_reads_ok) as (o & k' & E & Er & _ & _ & Eq & _);
    [cbn; lia|]. exists o, k'. split; [exact E|]. split; [exact Er|exact Eq].
Defined.

Lemma start_apps_loads_applications_witness :
  exists k', start_apps boot_cpu payload_starts payload_ends boot_kernel = Some (inl 0, k') /\ kernel_ok k' /\ bytes_at (ram k') (__va (slot 2)) [4; 5; 6].
Proof.
  destruct (start_apps_loads_applications boot_cpu payload_starts payload_ends payload_bytes boot_kernel 6 0x20000000 0x10 [] boot_ready)
    as (k' & E & Hok & _ & _ & Himg & _); [reflexivity|exact boot_reads_ok|cbn; lia|].
  exists k'. split; [exact E|]. split; [exact Hok|]. destruct (Himg 2%nat [4; 5; 6] eq_refl) as [_ [H _]]. exact H.
Defined.
