(* ===== verification/Vectors.v ===== *)
(** * Exception entry and return ([kernel/vectors.S], [kernel/context.h])

    The assembly code around [trap] as lists of instructions on a machine with
    the registers, the stack pointer of EL1, the three special registers of an
    exception and memory.  [trap] itself is C: it reads the frame at its
    argument and leaves the saved registers of every task in the task table,
    where the code that restores them finds them. *)

From S2P Require Import Prelude MemoryH Mem Vsprintf Kernel Timer Task.

Definition S_SP : Z := 248.
Definition S_PC : Z := 256.
Definition S_PSTATE : Z := 264.
Definition S_FRAME_SIZE : Z := 272.

(** [sizeof(struct task_struct)]; its [regs] come first. *)
Definition sizeof_task_struct : Z := 320.

(** ** The machine *)

(** [x30] is the last of [xs]; [stack] is SP at EL1. *)
Record machine := Machine {
  xs : list Z;
  stack : Z;
  sp_el0 : Z;
  elr : Z;
  spsr : Z;
  memory : mem;
}.

Inductive special := SP_EL0 | ELR_EL1 | SPSR_EL1.

Inductive base := SP | X (n : nat).

Inductive instr :=
  | SUB_SP (n : Z)
  | ADD_SP (n : Z)
  | STP (t1 t2 : nat) (b : base) (offset : Z)
  | STR (t : nat) (b : base) (offset : Z)
  | LDP (t1 t2 : nat) (b : base) (offset : Z)
  | LDR (t : nat) (b : base) (offset : Z)
  | MRS (t : nat) (r : special)
  | MSR (r : special) (t : nat)
  | MOV_IMM (t : nat) (v : Z)
  | MOV_SP (t : nat)
  | MOV (t s : nat).

Definition set_xs l s := Machine l (stack s) (sp_el0 s) (elr s) (spsr s) (memory s).
Definition set_stack a s := Machine (xs s) a (sp_el0 s) (elr s) (spsr s) (memory s).
Definition set_memory m s := Machine (xs s) (stack s) (sp_el0 s) (elr s) (spsr s) m.

Definition read_special (r : special) (s : machine) : Z :=
  match r with SP_EL0 => sp_el0 s | ELR_EL1 => elr s | SPSR_EL1 => spsr s end.

Definition write_special (r : special) (v : Z) (s : machine) : machine :=
  match r with
  | SP_EL0 => Machine (xs s) (stack s) v (elr s) (spsr s) (memory s)
  | ELR_EL1 => Machine (xs s) (stack s) (sp_el0 s) v (spsr s) (memory s)
  | SPSR_EL1 => Machine (xs s) (stack s) (sp_el0 s) (elr s) v (memory s)
  end.

(** A write to a register that exists. *)
Definition set_x (t : nat) (v : Z) (s : machine) : option machine := let* _ := xs s !! t in Some (set_xs (<[t := v]> (xs s)) s).

(** An address; a stack pointer that is not a multiple of 16 faults. *)
Definition address (b : base) (offset : Z) (s : machine) : option Z :=
  match b with
  | SP => assert* Z.land (stack s) 15 =? 0 in Some (u64 (stack s + offset))
  | X n => let* a := xs s !! n in Some (u64 (a + offset))
  end.

Definition store_x (t : nat) (a : Z) (s : machine) : option machine :=
  let* v := xs s !! t in let* m := store64 a v (memory s) in Some (set_memory m s).

Definition load_x (t : nat) (a : Z) (s : machine) : option machine := let* v := load64 (memory s) a in set_x t v s.

Definition instruction (i : instr) (s : machine) : option machine :=
  match i with
  | SUB_SP n => Some (set_stack (u64 (stack s - n)) s)
  | ADD_SP n => Some (set_stack (u64 (stack s + n)) s)
  | STP t1 t2 b offset =>
      let* a := address b offset s in
      let* s := store_x t1 a s in
      store_x t2 (u64 (a + 8)) s
  | STR t b offset => let* a := address b offset s in store_x t a s
  | LDP t1 t2 b offset =>
      let* a := address b offset s in
      let* s := load_x t1 a s in
      load_x t2 (u64 (a + 8)) s
  | LDR t b offset => let* a := address b offset s in load_x t a s
  | MRS t r => set_x t (read_special r s) s
  | MSR r t => let* v := xs s !! t in Some (write_special r v s)
  | MOV_IMM t v => set_x t v s
  | MOV_SP t => set_x t (stack s) s
  | MOV t t' => let* v := xs s !! t' in set_x t v s
  end.

Fixpoint exec (l : list instr) (s : machine) : option machine :=
  match l with
  | [] => Some s
  | i :: l => let* s := instruction i s in exec l s
  end.

(** ** The code *)

Definition kernel_entry : list instr := [
  SUB_SP S_FRAME_SIZE;
  STP 0 1 SP 0;
  STP 2 3 SP 16;
  STP 4 5 SP 32;
  STP 6 7 SP 48;
  STP 8 9 SP 64;
  STP 10 11 SP 80;
  STP 12 13 SP 96;
  STP 14 15 SP 112;
  STP 16 17 SP 128;
  STP 18 19 SP 144;
  STP 20 21 SP 160;
  STP 22 23 SP 176;
  STP 24 25 SP 192;
  STP 26 27 SP 208;
  STP 28 29 SP 224;
  STR 30 SP 240;
  MRS 9 SP_EL0;
  STR 9 SP S_SP;
  MRS 9 ELR_EL1;
  STR 9 SP S_PC;
  MRS 9 SPSR_EL1;
  STR 9 SP S_PSTATE].

(** Up to [ERET]. *)
Definition enter_app : list instr := [
  MOV 30 0;
  LDR 9 (X 30) S_SP;
  MSR SP_EL0 9;
  LDR 9 (X 30) S_PC;
  MSR ELR_EL1 9;
  LDR 9 (X 30) S_PSTATE;
  MSR SPSR_EL1 9;
  LDP 0 1 (X 30) 0;
  LDP 2 3 (X 30) 16;
  LDP 4 5 (X 30) 32;
  LDP 6 7 (X 30) 48;
  LDP 8 9 (X 30) 64;
  LDP 10 11 (X 30) 80;
  LDP 12 13 (X 30) 96;
  LDP 14 15 (X 30) 112;
  LDP 16 17 (X 30) 128;
  LDP 18 19 (X 30) 144;
  LDP 20 21 (X 30) 160;
  LDP 22 23 (X 30) 176;
  LDP 24 25 (X 30) 192;
  LDP 26 27 (X 30) 208;
  LDP 28 29 (X 30) 224;
  LDR 30 (X 30) 240].

(** The machine when an application with registers [u] takes an exception,
    and the registers [ERET] returns with. *)
Definition take_exception (u : pt_regs) (ksp : Z) (m : mem) : machine := Machine (gprs u) ksp (sp u) (pc u) (pstate u) m.

Definition eret (s : machine) : pt_regs := PtRegs (xs s) (sp_el0 s) (elr s) (spsr s).

(** ** [struct pt_regs] in memory *)

Definition frame_words (r : pt_regs) : list Z := gprs r ++ [sp r; pc r; pstate r].

Definition word_bytes (ws : list Z) : list Z := concat (Z_to_little_endian 8 8 <$> ws).

Fixpoint load_words (m : mem) (a : Z) (n : nat) : option (list Z) :=
  match n with
  | O => Some []
  | Datatypes.S n => let* w := load64 m a in let* ws := load_words m (a + 8) n in Some (w :: ws)
  end.

Definition load_frame (m : mem) (a : Z) : option pt_regs :=
  let* g := load_words m a 31 in
  let* s := load64 m (a + S_SP) in
  let* p := load64 m (a + S_PC) in
  let* ps := load64 m (a + S_PSTATE) in
  Some (PtRegs g s p ps).

Section vectors.

(** [tasks] *)
Context (table : Z).

Definition task_regs (i : Z) : Z := table + i * sizeof_task_struct.

(** The saved registers of the tasks from number [i] on. *)
Fixpoint store_table (i : Z) (ts : list task_struct) (m : mem) : mem :=
  match ts with
  | [] => m
  | t :: ts => store_table (i + 1) ts (write (task_regs i) (word_bytes (frame_words (regs t))) m)
  end.

(** [bl trap]; a call leaves the registers it need not keep, and the special
    registers, as in [junk]. *)
Definition bl_trap (c : cpu) (junk s : machine) (k : kernel) : option ((machine + halt) * kernel) :=
  let* x0 := xs s !! 0%nat in
  let* x1 := xs s !! 1%nat in
  let* r := load_frame (memory s) x0 in
  let* '(o, k) := trap c r x1 (set_ram (memory s) k) in
  match o with
  | inr h => Some (inr h, k)
  | inl j =>
      let m := store_table 0 (tasks k) (ram k) in
      let* _ := xs junk !! 0%nat in
      Some (inl (Machine (<[0%nat := task_regs j]> (xs junk)) (stack s) (sp_el0 junk) (elr junk) (spsr junk) m), set_ram m k)
  end.

Definition dispatch (c : cpu) (junk s : machine) (k : kernel) : option ((machine + halt) * kernel) :=
  let* s := exec [MOV_SP 0] s in
  let* '(o, k) := bl_trap c junk s k in
  match o with
  | inr h => Some (inr h, k)
  | inl s =>
      let* s := exec (ADD_SP S_FRAME_SIZE :: enter_app) s in
      Some (inl s, k)
  end.

(** ** The vector table *)

Inductive handler := unexpected_exception | el0_sync | el0_irq.

Definition vectors : list handler := replicate 8 unexpected_exception ++ [el0_sync; el0_irq] ++ replicate 6 unexpected_exception.

(** The architecture's index: by where the exception comes from (EL1 with
    SP_EL0, EL1, EL0 in AArch64, EL0 in AArch32) and its kind (synchronous,
    IRQ, FIQ, SError). *)
Definition vector_index (origin kind : nat) : nat := 4 * origin + kind.

Definition exception (c : cpu) (origin kind : nat) (junk s : machine) (k : kernel) : option ((machine + halt) * kernel) :=
  let* h := vectors !! vector_index origin kind in
  match h with
  | unexpected_exception => kernel_panic c (set_ram (memory s) k)
  | el0_sync => let* s := exec (kernel_entry ++ [MOV_IMM 1 0]) s in dispatch c junk s k
  | el0_irq => let* s := exec (kernel_entry ++ [MOV_IMM 1 1]) s in dispatch c junk s k
  end.

End vectors.
