(* ===== verification/VectorsSpec.v ===== *)
(** * Exception entry and return: properties

    The entry saves exactly the interrupted registers, the return restores
    exactly the saved ones, and an application cannot tell that others ran
    between two of its instructions. *)

From S2P Require Import Prelude MemoryH Mem Vsprintf Kernel Timer Task TaskProof TaskSpec Vectors.

(** ** Words in memory *)

Definition words_at (m : mem) (a : Z) (ws : list Z) : Prop :=
  forall (i : nat) w, ws !! i = Some w -> load64 m (a + 8 * i) = Some w.

Lemma word_bytes_length ws : Z.of_nat (length (word_bytes ws)) = 8 * Z.of_nat (length ws).
Proof. induction ws as [|w ws IH]; [done|]. unfold word_bytes in *. cbn [fmap list_fmap concat]. rewrite length_app, le8_length. cbn [length]. lia. Qed.

Lemma word_bytes_snoc ws w : word_bytes (ws ++ [w]) = word_bytes ws ++ Z_to_little_endian 8 8 w.
Proof. unfold word_bytes. rewrite fmap_app, concat_app. cbn [fmap list_fmap concat]. by rewrite app_nil_r. Qed.

Lemma words_written m a ws : Forall is_u64 ws -> words_at (write a (word_bytes ws) m) a ws.
Proof.
  intros Hws. revert a m. induction Hws as [|w ws Hw Hws IH]; intros a m i v Hi; [done|].
  change (word_bytes (w :: ws)) with (Z_to_little_endian 8 8 w ++ word_bytes ws). destruct i as [|i]; cbn in Hi.
  - injection Hi as <-. rewrite write_app_rev. replace (a + 8 * Z.of_nat 0) with a by lia. rewrite load64_written. by rewrite u64_id.
  - rewrite write_app, le8_length. replace (a + 8 * Z.of_nat (Datatypes.S i)) with (a + 8 + 8 * i) by lia. by apply IH.
Qed.

Lemma words_at_write_out m a ws b bs : a + 8 * Z.of_nat (length ws) <= b \/ b + length bs <= a -> words_at m a ws -> words_at (write b bs m) a ws.
Proof. intros Hd Hw i w Hi. pose proof (lookup_lt_Some _ _ _ Hi). rewrite load64_write_out; [by apply Hw|]. intros x Hx. lia. Qed.

Lemma load_words_at m a ws : words_at m a ws -> load_words m a (length ws) = Some ws.
Proof.
  revert a. induction ws as [|w ws IH]; intros a Hw; [done|]. cbn [load_words length]. pose proof (Hw 0%nat w eq_refl) as H0.
  replace (a + 8 * Z.of_nat 0) with a in H0 by lia. rewrite H0. cbn [mbind option_bind].
  rewrite IH; [done|]. intros i v Hi. replace (a + 8 + 8 * i) with (a + 8 * Z.of_nat (Datatypes.S i)) by lia. by apply Hw.
Qed.

Lemma words_at_app m a ws vs : words_at m a (ws ++ vs) -> words_at m a ws /\ words_at m (a + 8 * Z.of_nat (length ws)) vs.
Proof.
  intros H. split; intros i w Hi.
  - apply H. by apply lookup_app_l_Some.
  - replace (a + 8 * Z.of_nat (length ws) + 8 * i) with (a + 8 * Z.of_nat (length ws + i)) by lia. apply H. by rewrite lookup_app_r, Nat.add_comm, Nat.add_sub by lia.
Qed.

Lemma frame_words_ok r : regs_ok r -> Forall is_u64 (frame_words r) /\ length (frame_words r) = 34%nat.
Proof. intros [Hl Hw (? & ? & ?)]. unfold frame_words. split; [|rewrite length_app, Hl; done].
  apply Forall_app. split; [done|]. repeat (apply Forall_cons; split; [done|]). by apply Forall_nil.
Qed.


Lemma load_frame_words m a r : length (gprs r) = 31%nat -> words_at m a (frame_words r) -> load_frame m a = Some r.
Proof.
  intros Hl [Hg Hs]%words_at_app. unfold load_frame. rewrite <- Hl, (load_words_at _ _ _ Hg). rewrite Hl in Hs. cbn [mbind option_bind].
  pose proof (Hs 0%nat _ eq_refl) as H0. pose proof (Hs 1%nat _ eq_refl) as H1. pose proof (Hs 2%nat _ eq_refl) as H2.
  replace (a + 8 * Z.of_nat 31 + 8 * Z.of_nat 0) with (a + S_SP) in H0 by (unfold S_SP; lia).
  replace (a + 8 * Z.of_nat 31 + 8 * Z.of_nat 1) with (a + S_PC) in H1 by (unfold S_PC; lia).
  replace (a + 8 * Z.of_nat 31 + 8 * Z.of_nat 2) with (a + S_PSTATE) in H2 by (unfold S_PSTATE; lia).
  rewrite H0. cbn [mbind option_bind]. rewrite H1. cbn [mbind option_bind]. rewrite H2. cbn [mbind option_bind]. by destruct r.
Qed.

(** ** Running instructions *)

Lemma exec_app l l' s : exec (l ++ l') s = let* s := exec l s in exec l' s.
Proof. revert s. induction l as [|i l IH]; intros s; [done|]. cbn [exec app]. destruct (instruction i s); [apply IH|done]. Qed.

Lemma exec_step i l s s' : instruction i s = Some s' -> exec (i :: l) s = exec l s'.
Proof. intros E. cbn [exec]. by rewrite E. Qed.

Section save.
Context (m : mem) (a : Z).
Hypothesis (Ha : 0 <= a /\ a + S_FRAME_SIZE < 2 ^ 64) (Hal : Z.land a 15 = 0) (Hm : mapped m a S_FRAME_SIZE).

(** Memory with the first words of a frame stored. *)
Definition partly (ws : list Z) : mem := write a (word_bytes ws) m.

Lemma store_word ws w s : memory s = partly ws -> (length ws < 34)%nat -> forall t, xs s !! t = Some w ->
  store_x t (a + 8 * Z.of_nat (length ws)) s = Some (set_memory (partly (ws ++ [w])) s).
Proof using Hm.
  intros Es Hl t Ht. unfold store_x. rewrite Ht. cbn [mbind option_bind]. rewrite Es. rewrite store64_write.
  - cbn [mbind option_bind]. unfold partly. rewrite word_bytes_snoc, write_app, word_bytes_length. done.
  - unfold partly. apply mapped_write. apply (mapped_sub _ _ _ _ _ Hm); unfold S_FRAME_SIZE; lia.
Qed.

Lemma address_sp o s : stack s = a -> 0 <= o < S_FRAME_SIZE -> address SP o s = Some (a + o).
Proof using Ha Hal.
  intros Es Ho. unfold address. rewrite Es, Hal. change (0 =? 0) with true. cbn [mbind option_bind]. f_equal. apply u64_id. unfold is_u64, S_FRAME_SIZE in *. lia.
Qed.

Lemma str_word ws w s t : stack s = a -> memory s = partly ws -> (length ws < 34)%nat -> xs s !! t = Some w ->
  instruction (STR t SP (8 * Z.of_nat (length ws))) s = Some (set_memory (partly (ws ++ [w])) s).
Proof using Ha Hal Hm.
  intros Es Em Hl Ht. cbn [instruction]. rewrite address_sp by (done || unfold S_FRAME_SIZE; lia). cbn [mbind option_bind]. by apply store_word.
Qed.

Lemma stp_words ws w1 w2 s t1 t2 : stack s = a -> memory s = partly ws -> (length ws < 33)%nat -> xs s !! t1 = Some w1 -> xs s !! t2 = Some w2 ->
  instruction (STP t1 t2 SP (8 * Z.of_nat (length ws))) s = Some (set_memory (partly (ws ++ [w1; w2])) s).
Proof using Ha Hal Hm.
  intros Es Em Hl Ht1 Ht2. cbn [instruction]. rewrite address_sp by (done || unfold S_FRAME_SIZE; lia). cbn [mbind option_bind].
  rewrite (store_word ws w1) by (done || lia). cbn [mbind option_bind].
  replace (u64 (a + 8 * Z.of_nat (length ws) + 8)) with (a + 8 * Z.of_nat (length (ws ++ [w1]))).
  - rewrite (store_word (ws ++ [w1]) w2); [|done|rewrite length_app; cbn; lia|done]. by rewrite <- app_assoc.
  - rewrite length_app. cbn [length]. rewrite u64_id by (unfold is_u64, S_FRAME_SIZE in *; lia). lia.
Qed.

(** The pairs of the frame. *)
Definition store_pairs (n : nat) : list instr := (fun i => STP (2 * i) (2 * i + 1) SP (16 * Z.of_nat i)) <$> seq 0 n.

Lemma store_pairs_exec n s : stack s = a -> memory s = m -> length (xs s) = 31%nat -> (n <= 15)%nat ->
  exec (store_pairs n) s = Some (set_memory (partly (take (2 * n) (xs s))) s).
Proof using Ha Hal Hm.
  intros Es Em Hl. induction n as [|n IH]; intros Hn; [cbn; destruct s; cbn in *; by subst|].
  unfold store_pairs in *. rewrite seq_S, fmap_app, exec_app, IH by lia. cbn [mbind option_bind fmap list_fmap Nat.add].
  destruct (lookup_lt_is_Some_2 (xs s) (2 * n)) as [w1 H1]; [lia|]. destruct (lookup_lt_is_Some_2 (xs s) (2 * n + 1)) as [w2 H2]; [lia|].
  assert (El : length (take (2 * n) (xs s)) = (2 * n)%nat) by (rewrite length_take; lia).
  rewrite (exec_step _ _ _ (set_memory (partly (take (2 * n) (xs s) ++ [w1; w2])) s)).
  - cbn [exec]. do 3 f_equal. replace (2 * Datatypes.S n)%nat with (Datatypes.S (Datatypes.S (2 * n))) by lia.
    rewrite (take_S_r _ _ w2) by (by replace (Datatypes.S (2 * n)) with (2 * n + 1)%nat by lia). rewrite (take_S_r _ _ w1) by done. by rewrite <- app_assoc.
  - replace (16 * Z.of_nat n) with (8 * Z.of_nat (length (take (2 * n) (xs s)))) by lia. by apply (stp_words _ w1 w2 (set_memory _ s)); [| |lia| |].
Qed.

End save.

Lemma take_31 {A} (l : list A) (x : A) : length l = 31%nat -> l !! 30%nat = Some x -> take (2 * 15) l ++ [x] = l.
Proof. intros Hl Hx. change (2 * 15)%nat with 30%nat. rewrite <- (take_S_r l 30 x Hx). apply firstn_all2. lia. Qed.

(** The entry stores the frame and changes nothing but the stack pointer and
    [x9]. *)
Lemma kernel_entry_exec u ksp m : regs_ok u -> Z.land ksp 15 = 0 -> S_FRAME_SIZE <= ksp < 2 ^ 64 -> mapped m (ksp - S_FRAME_SIZE) S_FRAME_SIZE ->
  exec kernel_entry (take_exception u ksp m) =
    Some (Machine (<[9%nat := pstate u]> (gprs u)) (ksp - S_FRAME_SIZE) (sp u) (pc u) (pstate u) (write (ksp - S_FRAME_SIZE) (word_bytes (frame_words u)) m)).
Proof.
  intros Hu Hal Hk Hm. destruct Hu as [Hl Hw _]. set (a := ksp - S_FRAME_SIZE) in *.
  assert (Ha : 0 <= a /\ a + S_FRAME_SIZE < 2 ^ 64) by (unfold a; lia).
  assert (Haa : Z.land a 15 = 0).
  { change 15 with (Z.ones 4) in *. rewrite Z.land_ones in * by lia. unfold a, S_FRAME_SIZE. rewrite Zminus_mod, Hal. reflexivity. }
  change kernel_entry with (SUB_SP S_FRAME_SIZE :: store_pairs 15 ++ [STR 30 SP 240; MRS 9 SP_EL0; STR 9 SP S_SP; MRS 9 ELR_EL1; STR 9 SP S_PC; MRS 9 SPSR_EL1; STR 9 SP S_PSTATE]).
  rewrite (exec_step _ _ _ (Machine (gprs u) a (sp u) (pc u) (pstate u) m)).
  2:{ cbn [instruction stack take_exception]. rewrite u64_id by (unfold is_u64, a, S_FRAME_SIZE in *; lia). done. }
  rewrite exec_app, (store_pairs_exec m a Ha Haa Hm) by (done || lia). cbn [mbind option_bind xs set_memory stack sp_el0 elr spsr].
  destruct (lookup_lt_is_Some_2 (gprs u) 30) as [x30 H30]; [lia|]. set (ws := take (2 * 15) (gprs u)).
  assert (Hws : length ws = 30%nat) by (unfold ws; rewrite length_take; lia).
  assert (Egprs : ws ++ [x30] = gprs u) by (by apply take_31).
  assert (H9 : forall (v : Z) l, length l = 31%nat -> (<[9%nat := v]> l : list Z) !! 9%nat = Some v) by (intros v l Hlen; apply list_lookup_insert_eq; lia).
  rewrite (exec_step _ _ _ (Machine (gprs u) a (sp u) (pc u) (pstate u) (partly m a (gprs u)))).
  2:{ replace 240 with (8 * Z.of_nat (length ws)) by (by rewrite Hws). rewrite (str_word m a Ha Haa Hm ws x30) by (done || lia). by rewrite Egprs. }
  assert (Hmrs : forall l r v s, length (xs s) = 31%nat -> read_special r s = v -> exec (MRS 9 r :: l) s = exec l (set_xs (<[9%nat := v]> (xs s)) s)).
  { intros l r v s Hxs <-. apply exec_step. cbn [instruction]. unfold set_x. destruct (lookup_lt_is_Some_2 (xs s) 9) as [x9 ->]; [lia|]. done. }
  assert (Hstr : forall l ws' o v s, stack s = a -> memory s = partly m a ws' -> (length ws' < 34)%nat -> o = 8 * Z.of_nat (length ws') -> xs s !! 9%nat = Some v ->
    exec (STR 9 SP o :: l) s = exec l (set_memory (partly m a (ws' ++ [v])) s)).
  { intros l ws' o v s Es Em Hlt -> Hx. apply exec_step. by apply (str_word m a Ha Haa Hm ws' v). }
  rewrite (Hmrs _ _ (sp u)) by done. rewrite (Hstr _ (gprs u) _ (sp u)); [|done|done|lia|rewrite Hl; reflexivity|by apply H9].
  rewrite (Hmrs _ _ (pc u)); [|cbn [xs set_xs set_memory]; by rewrite length_insert|done].
  rewrite (Hstr _ (gprs u ++ [sp u]) _ (pc u)); [|done|done|rewrite length_app, Hl; cbn; lia|rewrite length_app, Hl; reflexivity|apply H9; cbn [xs set_xs set_memory]; by rewrite length_insert].
  rewrite (Hmrs _ _ (pstate u)); [|cbn [xs set_xs set_memory]; by rewrite !length_insert|done].
  rewrite (Hstr _ ((gprs u ++ [sp u]) ++ [pc u]) _ (pstate u)); [|done|done|rewrite !length_app, Hl; cbn; lia|rewrite !length_app, Hl; reflexivity|apply H9; cbn [xs set_xs set_memory]; by rewrite !length_insert].
  cbn [exec set_memory set_xs xs stack sp_el0 elr spsr]. rewrite !list_insert_insert_eq. unfold partly, frame_words. by rewrite <- !app_assoc.
Qed.

Section restore.
Context (m : mem) (a : Z) (ws : list Z).
Hypothesis (Ha : 0 <= a /\ a + S_FRAME_SIZE < 2 ^ 64) (Hw : words_at m a ws) (Hlen : length ws = 34%nat).

Lemma load_word s t (i : nat) w : memory s = m -> length (xs s) = 31%nat -> (t < 31)%nat -> ws !! i = Some w ->
  load_x t (a + 8 * i) s = Some (set_xs (<[t := w]> (xs s)) s).
Proof using Hw Hlen.
  intros Em Hl Ht Hi. unfold load_x. rewrite Em, (Hw i w Hi). cbn [mbind option_bind]. unfold set_x.
  destruct (lookup_lt_is_Some_2 (xs s) t) as [x ->]; [lia|]. done.
Qed.

Lemma address_x30 s (i : nat) : xs s !! 30%nat = Some a -> (i < 34)%nat -> address (X 30) (8 * i) s = Some (a + 8 * i).
Proof using Ha Hlen.
  intros Hx Hi. unfold address. rewrite Hx. cbn [mbind option_bind]. f_equal. apply u64_id. unfold is_u64, S_FRAME_SIZE in *. lia.
Qed.

Lemma ldr_word s t (i : nat) w : memory s = m -> length (xs s) = 31%nat -> xs s !! 30%nat = Some a -> (t < 31)%nat -> ws !! i = Some w ->
  instruction (LDR t (X 30) (8 * i)) s = Some (set_xs (<[t := w]> (xs s)) s).
Proof using Ha Hw Hlen.
  intros Em Hl Hx Ht Hi. cbn [instruction]. pose proof (lookup_lt_Some _ _ _ Hi). rewrite address_x30 by (done || lia). cbn [mbind option_bind]. by apply load_word.
Qed.

Lemma ldp_words s t1 t2 (i : nat) w1 w2 : memory s = m -> length (xs s) = 31%nat -> xs s !! 30%nat = Some a -> (t1 < 31)%nat -> (t2 < 31)%nat ->
  ws !! i = Some w1 -> ws !! (i + 1)%nat = Some w2 ->
  instruction (LDP t1 t2 (X 30) (8 * i)) s = Some (set_xs (<[t2 := w2]> (<[t1 := w1]> (xs s))) s).
Proof using Ha Hw Hlen.
  intros Em Hl Hx Ht1 Ht2 Hi1 Hi2. cbn [instruction]. pose proof (lookup_lt_Some _ _ _ Hi2). rewrite address_x30 by (done || lia). cbn [mbind option_bind].
  rewrite (load_word s t1 i w1) by done. cbn [mbind option_bind]. replace (u64 (a + 8 * i + 8)) with (a + 8 * (i + 1)%nat).
  - rewrite (load_word (set_xs _ s) t2 (i + 1) w2); [done|done|cbn [xs set_xs]; by rewrite length_insert|done|done].
  - rewrite u64_id by (unfold is_u64, S_FRAME_SIZE in *; lia). lia.
Qed.

Definition load_pairs (n : nat) : list instr := (fun i => LDP (2 * i) (2 * i + 1) (X 30) (16 * Z.of_nat i)) <$> seq 0 n.

Lemma load_pairs_exec n s : memory s = m -> length (xs s) = 31%nat -> xs s !! 30%nat = Some a -> (n <= 15)%nat ->
  exec (load_pairs n) s = Some (set_xs (take (2 * n) ws ++ drop (2 * n) (xs s)) s).
Proof using Ha Hw Hlen.
  intros Em Hl Hx. induction n as [|n IH]; intros Hn; [cbn; by destruct s|].
  unfold load_pairs in *. rewrite seq_S, fmap_app, exec_app, IH by lia. cbn [mbind option_bind fmap list_fmap Nat.add].
  destruct (lookup_lt_is_Some_2 ws (2 * n)) as [w1 H1]; [lia|]. destruct (lookup_lt_is_Some_2 ws (2 * n + 1)) as [w2 H2]; [lia|].
  assert (El : length (take (2 * n) ws) = (2 * n)%nat) by (rewrite length_take; lia).
  set (s1 := set_xs (take (2 * n) ws ++ drop (2 * n) (xs s)) s).
  assert (Hl1 : length (xs s1) = 31%nat) by (cbn [xs s1 set_xs]; rewrite length_app, length_drop, El; lia).
  assert (Hx1 : xs s1 !! 30%nat = Some a) by (cbn [xs s1 set_xs]; rewrite lookup_app_r, El, lookup_drop by lia; replace (2 * n + (30 - 2 * n))%nat with 30%nat by lia; done).
  rewrite (exec_step _ _ _ (set_xs (<[(2 * n + 1)%nat := w2]> (<[(2 * n)%nat := w1]> (xs s1))) s1)).
  - cbn [exec]. f_equal. unfold s1, set_xs. cbn [xs stack sp_el0 elr spsr memory]. f_equal.
    replace (2 * Datatypes.S n)%nat with (Datatypes.S (Datatypes.S (2 * n))) by lia.
    rewrite (take_S_r ws (Datatypes.S (2 * n)) w2) by (by replace (Datatypes.S (2 * n)) with (2 * n + 1)%nat by lia). rewrite (take_S_r ws (2 * n) w1) by done.
    destruct (lookup_lt_is_Some_2 (xs s) (2 * n)) as [y1 Hy1]; [lia|]. destruct (lookup_lt_is_Some_2 (xs s) (Datatypes.S (2 * n))) as [y2 Hy2]; [lia|].
    rewrite (drop_S (xs s) y1 (2 * n) Hy1), (drop_S (xs s) y2 (Datatypes.S (2 * n)) Hy2).
    rewrite <- !app_assoc. rewrite insert_app_r_alt, El, Nat.sub_diag by lia. rewrite insert_app_r_alt, El by lia. by replace (2 * n + 1 - 2 * n)%nat with 1%nat by lia.
  - replace (16 * Z.of_nat n) with (8 * Z.of_nat (2 * n)) by lia. apply (ldp_words s1); (done || lia).
Qed.

End restore.

(** The return restores the whole frame at [x0] and nothing else. *)
Lemma enter_app_exec a r s : length (gprs r) = 31%nat -> length (xs s) = 31%nat -> xs s !! 0%nat = Some a -> 0 <= a /\ a + S_FRAME_SIZE < 2 ^ 64 ->
  words_at (memory s) a (frame_words r) -> exec enter_app s = Some (Machine (gprs r) (stack s) (sp r) (pc r) (pstate r) (memory s)).
Proof.
  intros Hr Hl H0 Ha Hw. assert (Hlen : length (frame_words r) = 34%nat) by (unfold frame_words; rewrite length_app, Hr; done).
  assert (Hs : forall i, (31 <= i)%nat -> frame_words r !! i = [sp r; pc r; pstate r] !! (i - 31)%nat) by (intros i Hi; unfold frame_words; by rewrite lookup_app_r, Hr by lia).
  change enter_app with (MOV 30 0 :: LDR 9 (X 30) (8 * 31%nat) :: MSR SP_EL0 9 :: LDR 9 (X 30) (8 * 32%nat) :: MSR ELR_EL1 9 :: LDR 9 (X 30) (8 * 33%nat) :: MSR SPSR_EL1 9 ::
    load_pairs 15 ++ [LDR 30 (X 30) (8 * 30%nat)]).
  destruct (lookup_lt_is_Some_2 (xs s) 30) as [y30 H30]; [lia|].
  rewrite (exec_step _ _ _ (set_xs (<[30%nat := a]> (xs s)) s)) by (cbn [instruction]; rewrite H0; cbn [mbind option_bind]; unfold set_x; by rewrite H30).
  assert (Hspecial : forall l i sr w s1, memory s1 = memory s -> length (xs s1) = 31%nat -> xs s1 !! 30%nat = Some a -> frame_words r !! i = Some w ->
    exec (LDR 9 (X 30) (8 * Z.of_nat i) :: MSR sr 9 :: l) s1 = exec l (write_special sr w (set_xs (<[9%nat := w]> (xs s1)) s1))).
  { intros l i sr w s1 Em Hl1 Hx1 Hi. rewrite (exec_step _ _ _ (set_xs (<[9%nat := w]> (xs s1)) s1)) by (apply (ldr_word (memory s) a (frame_words r)); (done || lia)).
    apply exec_step. cbn [instruction xs set_xs]. by rewrite list_lookup_insert_eq by lia. }
  set (l1 := <[30%nat := a]> (xs s)). assert (Hl1 : length l1 = 31%nat) by (unfold l1; by rewrite length_insert).
  assert (Hx1 : l1 !! 30%nat = Some a) by (unfold l1; apply list_lookup_insert_eq; lia).
  assert (Hk : forall (w : Z) l, l !! 30%nat = Some a -> (<[9%nat := w]> l : list Z) !! 30%nat = Some a) by (intros w l Hll; by rewrite list_lookup_insert_ne by lia).
  rewrite (Hspecial _ 31%nat SP_EL0 (sp r)); [|done|done|done|by rewrite Hs by lia].
  rewrite (Hspecial _ 32%nat ELR_EL1 (pc r)); [|done|cbn [xs set_xs write_special]; by rewrite length_insert|by apply Hk|by rewrite Hs by lia].
  rewrite (Hspecial _ 33%nat SPSR_EL1 (pstate r)); [|done|cbn [xs set_xs write_special]; by rewrite !length_insert|by apply Hk, Hk|by rewrite Hs by lia].
  set (l2 := <[9%nat := pstate r]> (<[9%nat := pc r]> (<[9%nat := sp r]> l1))).
  assert (Hl2 : length l2 = 31%nat) by (unfold l2; by rewrite !length_insert). assert (Hx2 : l2 !! 30%nat = Some a) by (by apply Hk, Hk, Hk).
  match goal with |- exec _ ?s0 = _ => change s0 with (Machine l2 (stack s) (sp r) (pc r) (pstate r) (memory s)) end.
  rewrite exec_app, (load_pairs_exec (memory s) a (frame_words r) Ha Hw Hlen) by (done || lia). cbn [mbind option_bind].
  assert (Et : take (2 * 15) (frame_words r) = take 30 (gprs r)) by (unfold frame_words; by rewrite take_app_le by lia).
  destruct (lookup_lt_is_Some_2 (gprs r) 30) as [x30 Hx30]; [lia|]. cbn [xs]. rewrite Et. change (2 * 15)%nat with 30%nat.
  assert (Ed : drop 30 l2 = [a]) by (rewrite (drop_S _ _ _ Hx2), drop_ge by lia; done). rewrite Ed. unfold set_xs. cbn [stack sp_el0 elr spsr memory].
  assert (El : length (take 30 (gprs r)) = 30%nat) by (rewrite length_take; lia).
  rewrite (exec_step _ _ _ (Machine (gprs r) (stack s) (sp r) (pc r) (pstate r) (memory s))); [done|].
  rewrite (ldr_word (memory s) a (frame_words r) Ha Hw Hlen _ 30 30 x30); [|done|cbn; rewrite length_app, El; done|cbn; by rewrite lookup_app_r, El by lia|lia|unfold frame_words; by apply lookup_app_l_Some].
  unfold set_xs. cbn [xs stack sp_el0 elr spsr memory]. rewrite insert_app_r_alt, El by lia. change (insert (30 - 30)%nat x30 [a]) with [x30]. f_equal. f_equal. exact (take_31 (gprs r) x30 Hr Hx30).
Qed.

(** ** The task table in memory *)

Section table.
Context (table : Z).

Lemma frame_bytes_length r : length (gprs r) = 31%nat -> Z.of_nat (length (word_bytes (frame_words r))) = S_FRAME_SIZE.
Proof. intros Hl. rewrite word_bytes_length. unfold frame_words. rewrite length_app, Hl. done. Qed.

Lemma store_table_below i ts m a ws : Forall (fun t => regs_ok (regs t)) ts -> a + 8 * Z.of_nat (length ws) <= task_regs table i -> words_at m a ws ->
  words_at (store_table table i ts m) a ws.
Proof.
  intros Hts. revert i m. induction Hts as [|t ts Ht Hts IH]; intros i m Ha Hw; [done|]. cbn [store_table]. apply IH.
  - unfold task_regs, sizeof_task_struct in *. lia.
  - apply words_at_write_out; [by left|done].
Qed.

Lemma store_table_at i ts m (j : nat) t : Forall (fun t => regs_ok (regs t)) ts -> ts !! j = Some t ->
  words_at (store_table table i ts m) (task_regs table (i + j)) (frame_words (regs t)).
Proof.
  intros Hts. revert i j m. induction Hts as [|t0 ts Ht Hts IH]; intros i j m Hj; [done|]. cbn [store_table]. destruct j as [|j]; cbn in Hj.
  - injection Hj as ->. replace (i + 0%nat) with i by lia. destruct (frame_words_ok _ Ht) as [Hw Hl]. apply store_table_below; [done| |by apply words_written].
    rewrite Hl. unfold task_regs, sizeof_task_struct. lia.
  - replace (i + Datatypes.S j) with (i + 1 + j) by lia. by apply IH.
Qed.

(** Nothing but the table is written. *)
Lemma store_table_out i ts m x : Forall (fun t => regs_ok (regs t)) ts -> x < task_regs table i \/ task_regs table (i + length ts) <= x -> store_table table i ts m !! x = m !! x.
Proof.
  intros Hts. revert i m. induction Hts as [|t ts Ht Hts IH]; intros i m Hx; [done|]. cbn [store_table length] in *. unfold task_regs, sizeof_task_struct in *.
  rewrite IH by lia. apply lookup_write_out. rewrite frame_bytes_length by apply Ht. unfold S_FRAME_SIZE. lia.
Qed.

Lemma store_table_mapped i ts m a n : mapped m a n -> mapped (store_table table i ts m) a n.
Proof. revert i m. induction ts as [|t ts IH]; intros i m Hm; [done|]. cbn [store_table]. by apply IH, mapped_write. Qed.

(** ** An exception, end to end *)

(** The stack of EL1 when an application runs, and the place of the table. *)
Record stack_ok (ksp : Z) (m : mem) : Prop := {
  so_align : Z.land ksp 15 = 0;
  so_range : S_FRAME_SIZE <= ksp < 2 ^ 64;
  so_mapped : mapped m (ksp - S_FRAME_SIZE) S_FRAME_SIZE;
}.

Hypothesis (Htable : 0 <= table /\ table + 3 * sizeof_task_struct < 2 ^ 64).

(** Memory with the frame of [u] below the stack pointer. *)
Definition framed (u : pt_regs) (ksp : Z) (m : mem) : mem := write (ksp - S_FRAME_SIZE) (word_bytes (frame_words u)) m.

Lemma framed_frame u ksp m : regs_ok u -> load_frame (framed u ksp m) (ksp - S_FRAME_SIZE) = Some u.
Proof. intros Hu. apply load_frame_words; [apply Hu|]. apply words_written, frame_words_ok, Hu. Qed.

Lemma kernel_ok_regs k : kernel_wf k -> Forall (fun t => regs_ok (regs t)) (tasks k).
Proof.
  intros [Hl _ Heach _]. apply Forall_lookup_2. intros i t Hi. pose proof (lookup_lt_Some _ _ _ Hi). apply (t_regs (Z.of_nat i)).
  apply Heach; [unfold APP_COUNT; lia|]. by rewrite Nat2Z.id.
Qed.

(** What the entry code hands to [dispatch]. *)
Definition entered (u : pt_regs) (ksp : Z) (m : mem) (irq : Z) : machine :=
  Machine (<[1%nat := irq]> (<[9%nat := pstate u]> (gprs u))) (ksp - S_FRAME_SIZE) (sp u) (pc u) (pstate u) (framed u ksp m).

Lemma entry_exec u ksp m irq : regs_ok u -> stack_ok ksp m ->
  exec (kernel_entry ++ [MOV_IMM 1 irq]) (take_exception u ksp m) = Some (entered u ksp m irq).
Proof using.
  intros Hu [Hal Hr Hm]. rewrite exec_app, kernel_entry_exec by done. cbn [mbind option_bind exec instruction]. unfold set_x. cbn [xs].
  destruct (lookup_lt_is_Some_2 (<[9%nat := pstate u]> (gprs u)) 1) as [x1 ->]; [rewrite length_insert, (r_gprs _ Hu); lia|]. done.
Qed.

Lemma bl_trap_exec c junk s k a irq u o k' : xs s !! 0%nat = Some a -> xs s !! 1%nat = Some irq -> load_frame (memory s) a = Some u ->
  length (xs junk) = 31%nat -> trap c u irq (set_ram (memory s) k) = Some (o, k') ->
  bl_trap table c junk s k =
    match o with
    | inr h => Some (inr h, k')
    | inl j => Some (inl (Machine (<[0%nat := task_regs table j]> (xs junk)) (stack s) (sp_el0 junk) (elr junk) (spsr junk) (store_table table 0 (tasks k') (ram k'))),
        set_ram (store_table table 0 (tasks k') (ram k')) k')
    end.
Proof using.
  intros H0 H1 Hf Hj E. unfold bl_trap. rewrite H0. cbn [mbind option_bind]. rewrite H1. cbn [mbind option_bind]. rewrite Hf. cbn [mbind option_bind].
  rewrite E. cbn [mbind option_bind]. destruct o as [j|h]; [|done]. destruct (lookup_lt_is_Some_2 (xs junk) 0) as [x0 ->]; [lia|]. done.
Qed.

Lemma dispatch_exec c junk u ksp k irq : kernel_ok k -> regs_ok u -> stack_ok ksp (ram k) -> length (xs junk) = 31%nat ->
  exists o k', trap c u irq (set_ram (framed u ksp (ram k)) k) = Some (o, k') /\
    match o with
    | inr h => dispatch table c junk (entered u ksp (ram k) irq) k = Some (inr h, k')
    | inl j => exists t s, task_at j k' = Some t /\ current k' = j /\ kernel_ok k' /\ eret s = regs t /\ stack s = ksp /\ memory s = store_table table 0 (tasks k') (ram k') /\
        dispatch table c junk (entered u ksp (ram k) irq) k = Some (inl s, set_ram (memory s) k')
    end.
Proof using Htable.
  intros Hk Hu [Hal Hr Hm] Hj. set (m1 := framed u ksp (ram k)).
  assert (Hk1 : kernel_ok (set_ram m1 k)).
  { destruct Hk as [[? ? ? Hs] ?]. split; [split; try done|done]. intros i Hi. by apply mapped_write, Hs. }
  destruct (trap_total c u irq _ Hk1 Hu) as (t0 & o & k' & _ & E & Ho). exists o, k'. split; [done|].
  assert (Hd : dispatch table c junk (entered u ksp (ram k) irq) k =
    let* '(o, k) := bl_trap table c junk (Machine (<[0%nat := ksp - S_FRAME_SIZE]> (<[1%nat := irq]> (<[9%nat := pstate u]> (gprs u)))) (ksp - S_FRAME_SIZE) (sp u) (pc u) (pstate u) m1) k in
    match o with inr h => Some (inr h, k) | inl s => let* s := exec (ADD_SP S_FRAME_SIZE :: enter_app) s in Some (inl s, k) end).
  { unfold dispatch. cbn [exec instruction]. unfold set_x. cbn [xs entered]. destruct (lookup_lt_is_Some_2 (<[1%nat := irq]> (<[9%nat := pstate u]> (gprs u))) 0) as [x0 ->]; [|done].
    rewrite !length_insert, (r_gprs _ Hu). lia. }
  assert (Hb := bl_trap_exec c junk (Machine (<[0%nat := ksp - S_FRAME_SIZE]> (<[1%nat := irq]> (<[9%nat := pstate u]> (gprs u)))) (ksp - S_FRAME_SIZE) (sp u) (pc u) (pstate u) m1)
    k (ksp - S_FRAME_SIZE) irq u o k').
  rewrite Hd, Hb; clear Hd Hb; [|cbn [xs memory]..|done|done].
  2:{ apply list_lookup_insert_eq. rewrite !length_insert, (r_gprs _ Hu). lia. }
  2:{ rewrite list_lookup_insert_ne by lia. apply list_lookup_insert_eq. rewrite length_insert, (r_gprs _ Hu). lia. }
  2:{ by apply framed_frame. }
  cbn [stack].
 destruct o as [j|h]; [|done]. destruct Ho as (t' & _ & Hok' & Hc & _). cbn [mbind option_bind].
  pose proof (k_current _ (k_wf _ Hok')) as Hcur. rewrite Hc in Hcur. pose proof (k_tasks _ (k_wf _ Hok')) as Hlen.
  destruct (lookup_lt_is_Some_2 (tasks k') (Z.to_nat j)) as [t Ht]; [unfold APP_COUNT in Hcur; lia|].
  pose proof (kernel_ok_regs k' (k_wf _ Hok')) as Hregs. assert (Hrt : regs_ok (regs t)) by (eapply Forall_lookup_1 in Hregs; [exact Hregs|exact Ht]).
  rewrite (exec_step _ _ _ (Machine (<[0%nat := task_regs table j]> (xs junk)) ksp (sp_el0 junk) (elr junk) (spsr junk) (store_table table 0 (tasks k') (ram k')))).
  2:{ cbn [instruction stack]. unfold set_stack. cbn [xs stack sp_el0 elr spsr memory]. do 2 f_equal. replace (ksp - S_FRAME_SIZE + S_FRAME_SIZE) with ksp by lia.
      apply u64_id. unfold is_u64, S_FRAME_SIZE in *. lia. }
  rewrite (enter_app_exec (task_regs table j) (regs t)).
  - cbn [mbind option_bind stack memory]. exists t, (Machine (gprs (regs t)) ksp (sp (regs t)) (pc (regs t)) (pstate (regs t)) (store_table table 0 (tasks k') (ram k'))). split; [unfold task_at; by rewrite (proj2 (Z.leb_le 0 j)) by lia|].
    split_and!; [done|done|by destruct (regs t)|reflexivity|reflexivity|reflexivity].
  - apply Hrt.
  - cbn [xs]. by rewrite length_insert.
  - apply list_lookup_insert_eq. lia.
  - unfold task_regs, sizeof_task_struct, S_FRAME_SIZE, APP_COUNT in *. lia.
  - cbn [memory]. pose proof (store_table_at 0 (tasks k') (ram k') (Z.to_nat j) t Hregs Ht) as Hat. by rewrite Z2Nat.id, Z.add_0_l in Hat by lia.
Qed.

Lemma stack_kept ksp m m' : (forall a n, mapped m a n -> mapped m' a n) -> stack_ok ksp m -> stack_ok ksp m'.
Proof. intros H [? ? Hm]. split; [done|done|by apply H]. Qed.

Lemma kernel_ok_memory k m : kernel_ok k -> (forall a n, mapped (ram k) a n -> mapped m a n) -> kernel_ok (set_ram m k).
Proof. intros [[? ? ? Hs] ?] H. split; [split; try done|done]. intros i Hi. by apply H, Hs. Qed.

(** An exception from EL0. *)
Lemma exception_exec c kind junk u ksp k : kernel_ok k -> regs_ok u -> stack_ok ksp (ram k) -> length (xs junk) = 31%nat -> (kind <= 1)%nat ->
  exists o k', trap c u kind (set_ram (framed u ksp (ram k)) k) = Some (o, k') /\
    match o with
    | inr h => exception table c 2 kind junk (take_exception u ksp (ram k)) k = Some (inr h, k')
    | inl j => exists t s, exception table c 2 kind junk (take_exception u ksp (ram k)) k = Some (inl s, set_ram (memory s) k') /\
        task_at j k' = Some t /\ current k' = j /\ eret s = regs t /\ stack s = ksp /\ stack_ok ksp (memory s) /\ kernel_ok (set_ram (memory s) k') /\
        kernel_wf k' /\ memory s = store_table table 0 (tasks k') (ram k')
    end.
Proof using Htable.
  intros Hk Hu Hs Hj Hkind. destruct (dispatch_exec c junk u ksp k kind Hk Hu Hs Hj) as (o & k' & E & Ho). exists o, k'. split; [done|].
  assert (Hx : exception table c 2 kind junk (take_exception u ksp (ram k)) k = dispatch table c junk (entered u ksp (ram k) kind) k).
  { assert (kind = 0%nat \/ kind = 1%nat) as [-> | ->] by lia; unfold exception; cbn [vectors vector_index mbind option_bind lookup list_lookup replicate app Nat.add Nat.mul].
    - by rewrite (entry_exec u ksp (ram k) 0 Hu Hs).
    - by rewrite (entry_exec u ksp (ram k) 1 Hu Hs). }
  rewrite Hx. destruct o as [j|h]; [|done]. destruct Ho as (t & s & Ht & Hc & Hk' & He & Hst & Em & Hd). exists t, s. split_and!; try done.
  - apply (stack_kept ksp (ram k)); [|done]. intros a n Hm. rewrite Em. apply store_table_mapped.
    destruct (trap_total c u kind (set_ram (framed u ksp (ram k)) k)) as (t0 & o & k2 & _ & E2 & Ho); [|done|].
    { apply kernel_ok_memory; [done|]. intros. by apply mapped_write. }
    rewrite E in E2. injection E2 as <- <-. destruct Ho as (t' & [_ _ _ Hram] & _). rewrite Hram. by apply mapped_write.
  - apply kernel_ok_memory; [done|]. intros a n Hm. rewrite Em. by apply store_table_mapped.
  - apply Hk'.
Qed.

(** ** Runs *)

(** A visit to the kernel: the application that came with its registers, and
    the one that was returned to. *)
Record visit := Visit { v_app : Z; v_kind : nat; v_saved : pt_regs; v_next : Z; v_restored : pt_regs }.

(** Between two exceptions memory changes as the applications' mappings
    allow. *)
Inductive el0_step (ksp : Z) (k : kernel) : visit -> kernel -> Prop :=
  | el0_visit m c kind junk u s k' :
      (forall i, 0 <= i < APP_COUNT -> mapped m (__va (slot i)) APP_SLOT_SIZE) -> stack_ok ksp m -> regs_ok u -> (kind <= 1)%nat -> length (xs junk) = 31%nat ->
      exception table c 2 kind junk (take_exception u ksp m) (set_ram m k) = Some (inl s, k') ->
      el0_step ksp k (Visit (current k) kind u (current k') (eret s)) k'.

Inductive el0_run (ksp : Z) (k : kernel) : list visit -> kernel -> Prop :=
  | el0_nil : el0_run ksp k [] k
  | el0_cons l k1 ls k2 : el0_step ksp k l k1 -> el0_run ksp k1 ls k2 -> el0_run ksp k (l :: ls) k2.

(** The registers with which a call may return. *)
Definition returned (l : visit) (r : pt_regs) : Prop := r = v_saved l \/ v_kind l = 0%nat /\ exists v, is_u64 v /\ r = set_x0 v (v_saved l).

Lemma el0_step_ok ksp k l k' : kernel_ok k -> el0_step ksp k l k' ->
  kernel_ok k' /\ v_app l = current k /\ v_next l = current k' /\
  (forall i, 0 <= i < APP_COUNT -> i <> current k -> tasks k' !! Z.to_nat i = tasks k !! Z.to_nat i) /\
  (exists t, tasks k' !! Z.to_nat (current k) = Some t /\ returned l (regs t)) /\
  exists t, tasks k' !! Z.to_nat (current k') = Some t /\ v_restored l = regs t.
Proof using Htable.
  intros Hk Hstep. destruct Hstep as [m c kind junk u s k' Hm Hs Hu Hkind Hj E].
  assert (Hk1 : kernel_ok (set_ram m k)) by (destruct Hk as [[? ? ? ?] ?]; by split).
  destruct (exception_exec c kind junk u ksp (set_ram m k) Hk1 Hu Hs Hj Hkind) as (o & k2 & Et & Ho).
  change (set_ram (framed u ksp (ram (set_ram m k))) (set_ram m k)) with (set_ram (framed u ksp m) k) in Et.
  assert (Hk2 : kernel_ok (set_ram (framed u ksp m) k)) by (apply (kernel_ok_memory (set_ram m k) (framed u ksp m) Hk1); intros; by apply mapped_write).
  destruct (trap_total c u kind _ Hk2 Hu) as (t0 & o2 & k3 & _ & Et2 & Hout). rewrite Et in Et2. injection Et2 as <- <-.
  change (ram (set_ram m k)) with m in Ho. destruct o as [j|h]; [|rewrite Ho in E; discriminate]. destruct Ho as (t & s2 & E2 & Ht & Hc & He & _ & _ & Hok & _).
  rewrite E in E2. injection E2 as <- ->.
  destruct Hout as (t' & [Etasks _ _ _] & _ & _ & _ & Hregs). cbn [tasks current set_ram v_app v_next v_saved v_restored] in *.
  pose proof (k_current _ (k_wf _ Hk)) as Hcur. pose proof (k_tasks _ (k_wf _ Hk)) as Hl. split_and!; try done.
  - intros i Hi Hne. rewrite Etasks. apply lookup_table; lia.
  - exists t'. split; [rewrite Etasks; apply list_lookup_insert_eq; unfold APP_COUNT in Hcur; lia|].
    destruct Hregs as [->|(Hi & _ & v & Hv & ->)]; [by left|right]. split; [cbn; lia|by exists v].
  - exists t. split; [|done]. rewrite Hc. by apply task_at_lookup.
Qed.

(** While application [i] is not returned to, its saved registers stay. *)
Lemma el0_waiting ksp i t ls1 l ls2 k k' : kernel_ok k -> 0 <= i < APP_COUNT -> current k <> i -> tasks k !! Z.to_nat i = Some t ->
  el0_run ksp k (ls1 ++ l :: ls2) k' -> v_next l = i -> (forall x, x ∈ ls1 -> v_next x <> i) -> v_restored l = regs t.
Proof using Htable.
  revert k. induction ls1 as [|x ls1 IH]; intros k Hk Hi Hc Ht Hrun Hl Hx; cbn [app] in Hrun; inversion Hrun as [|l0 k1 ls k2 Hstep Hrest]; subst;
    destruct (el0_step_ok ksp k _ k1 Hk Hstep) as (Hk1 & _ & Hn & Hother & _ & tn & Htn & Hr).
  - rewrite Hr. rewrite <- Hn, (Hother (v_next l)) in Htn by done. congruence.
  - apply (IH k1); try done.
    + rewrite <- Hn. apply Hx. by left.
    + by rewrite Hother.
    + intros y Hy. apply Hx. by right.
Qed.

(** ** The properties *)

(** C12. Exception entry and return around [trap], instruction by instruction:
    an interrupt or a synchronous exception of an application with registers
    [u] stores exactly [u] as the frame that [trap] reads, and when [trap]
    resumes task [j] the registers with which [ERET] enters EL0 are exactly
    the saved registers of [j] (31 general registers, stack pointer, program
    counter and status), whatever the C code left in the registers, with the
    kernel's stack pointer where it was; every other exception panics. *)
Theorem exceptions_save_and_restore c junk ksp k : kernel_ok k -> stack_ok ksp (ram k) -> length (xs junk) = 31%nat ->
  (forall kind u, (kind <= 1)%nat -> regs_ok u -> exists o k', trap c u kind (set_ram (framed u ksp (ram k)) k) = Some (o, k') /\
    load_frame (framed u ksp (ram k)) (ksp - S_FRAME_SIZE) = Some u /\
    match o with
    | inr h => exception table c 2 kind junk (take_exception u ksp (ram k)) k = Some (inr h, k')
    | inl j => exists t s, exception table c 2 kind junk (take_exception u ksp (ram k)) k = Some (inl s, set_ram (memory s) k') /\
        task_at j k' = Some t /\ eret s = regs t /\ stack s = ksp /\ stack_ok ksp (memory s) /\ kernel_ok (set_ram (memory s) k')
    end) /\
  forall origin kind s, (origin < 4)%nat -> (kind < 4)%nat -> ~ (origin = 2%nat /\ (kind <= 1)%nat) ->
    exception table c origin kind junk s k = Some (inr Panicked, emit_to (panic_events c) (set_ram (memory s) k)).
Proof using Htable.
  intros Hk Hs Hj. split.
  - intros kind u Hkind Hu. destruct (exception_exec c kind junk u ksp k Hk Hu Hs Hj Hkind) as (o & k' & E & Ho). exists o, k'.
    split; [done|]. split; [by apply framed_frame|]. destruct o as [j|h]; [|done]. destruct Ho as (t & s & ? & ? & _ & ? & ? & ? & ? & _). by exists t, s.
  - intros origin kind s Ho Hkind Hne. assert (E : vectors !! vector_index origin kind = Some unexpected_exception).
    { destruct origin as [|[|[|[|?]]]]; try lia; destruct kind as [|[|[|[|?]]]]; try lia; reflexivity. }
    unfold exception. rewrite E. reflexivity.
Qed.

(** C8. Preemption is invisible: in every run of exceptions, whatever other
    applications run in between, when an application that was interrupted is
    returned to, it continues with exactly the registers it was interrupted
    with; after a system call only [x0] may differ. *)
Theorem preemption_is_invisible ksp k l ls k' ls1 l' ls2 : kernel_ok k -> el0_run ksp k (l :: ls) k' ->
  l :: ls = ls1 ++ l' :: ls2 -> v_next l' = v_app l -> (forall x, x ∈ ls1 -> v_next x <> v_app l) ->
  v_restored l' = v_saved l \/ v_kind l = 0%nat /\ exists v, is_u64 v /\ v_restored l' = set_x0 v (v_saved l).
Proof using Htable.
  intros Hk Hrun E Hl' Hx. inversion Hrun as [|l0 k1 ls0 k2 Hstep Hrest]; subst.
  destruct (el0_step_ok ksp k l k1 Hk Hstep) as (Hk1 & Ha & Hn & _ & (t & Ht & Hret) & tn & Htn & Hr).
  destruct ls1 as [|x ls1]; cbn [app] in E; injection E as -> ->.
  - rewrite Hr. rewrite <- Hn, Hl', Ha, Ht in Htn. injection Htn as <-. exact Hret.
  - assert (Hne : current k1 <> current k) by (rewrite <- Hn, <- Ha; apply Hx; by left).
    rewrite (el0_waiting ksp (current k) t ls1 l' ls2 k1 k'); [exact Hret|done|apply Hk|done|done|done|by rewrite <- Ha|].
    intros y Hy. rewrite <- Ha. apply Hx. by right.
Qed.

(** ** Instances *)

(** A timer interrupt of the running application. *)
Lemma el0_tick ksp k : kernel_ok k -> stack_ok ksp (ram k) ->
  exists l k', el0_step ksp k l k' /\ v_kind l = 1%nat /\ kernel_ok k' /\ stack_ok ksp (ram k') /\
    turn (tasks k') (current k) = Some (current k') /\ runnable <$> tasks k' = runnable <$> tasks k.
Proof using Htable.
  intros Hk Hs. destruct (k_running _ Hk) as [Hc (t & Ht & Hrt)].
  pose proof (k_each _ (k_wf _ Hk) _ t Hc Ht) as Hto. destruct (t_user _ _ Hto) as (Hp & Hsp & Hal).
  assert (Hat : task_at (current k) k = Some t) by (unfold task_at; by rewrite (proj2 (Z.leb_le 0 _)) by lia).
  set (junk := Machine (replicate 31 0) 0 0 0 0 ∅). set (m1 := framed (regs t) ksp (ram k)).
  destruct (exception_exec sample_cpu 1 junk (regs t) ksp k Hk (t_regs _ _ Hto) Hs eq_refl ltac:(lia)) as (o & k' & E & Ho).
  assert (Hk1 : kernel_ok (set_ram m1 k)) by (apply kernel_ok_memory; [done|]; intros; by apply mapped_write).
  destruct (trap_result sample_cpu (regs t) 1%nat (set_ram m1 k) Hk1 (t_regs _ _ Hto)) as (t2 & o2 & k2 & Hat2 & _ & E2 & He).
  assert (t2 = t) as -> by (unfold task_at in *; cbn [tasks current set_ram] in Hat2; congruence). unfold m1 in E2. rewrite E in E2. injection E2 as <- <-.
  assert (Hb : bad_entry sample_cpu t (regs t) = false).
  { unfold bad_entry. rewrite Hp, Hal. change (daif sample_cpu) with 0x80. rewrite (proj2 (Z.ltb_ge _ _)) by lia. by rewrite (proj2 (Z.ltb_ge (stack_top t) _)) by lia. }
  destruct He as [Hbad|_ _ Hspur|_ _ _ Hi|o k' _ _ _ Hsch|o k' _ Hi|x0 o k' _ Hi|x0 x1 v es _ Hi|n _ Hi]; try done; [congruence| |].
  { unfold spurious in Hspur. cbn in Hspur. lia. }
  set (kt := ticked sample_cpu _) in Hsch.
  assert (Hrun : is_runnable (tasks kt) (current kt)).
  { split; [done|]. exists (set_observed (set_regs (regs t) t)). split; [|done]. cbn. apply list_lookup_insert_eq. by eapply lookup_lt_Some. }
  destruct (turn_progress (tasks kt) (current kt) (current kt) Hrun) as (j & Ej & _). unfold scheduled in Hsch. rewrite Ej in Hsch. injection Hsch as <- <-.
  destruct Ho as (tj & s & Ex & _ & _ & _ & _ & Hs' & Hok' & _). eexists _, _. split; [|split; [|split; [exact Hok'|split; [exact Hs'|split; [exact Ej|]]]]].
  - apply (el0_visit ksp k (ram k) sample_cpu 1 junk (regs t) s); [apply Hk|done|apply Hto|lia|done|]. destruct k. exact Ex.
  - done.
  - cbn. rewrite list_fmap_insert. apply list_insert_id. by rewrite list_lookup_fmap, Ht.
Qed.

End table.

Definition sample_table : Z := 0xffffffc000090000.
Definition sample_ksp : Z := 0xffffffc000098000.

Lemma stack_written m a : mapped (write a (replicate 272 0) m) a S_FRAME_SIZE.
Proof. intros x Hx. apply (bytes_at_mapped _ _ _ (bytes_at_written m a (replicate 272 0))). rewrite length_replicate. unfold S_FRAME_SIZE in Hx. lia. Qed.

(** A kernel with a stack. *)
Definition stacked (ksp : Z) (k : kernel) : kernel := set_ram (write (ksp - S_FRAME_SIZE) (replicate 272 0) (ram k)) k.

Lemma stacked_ok ksp k : kernel_ok k -> kernel_ok (stacked ksp k).
Proof. intros Hk. apply kernel_ok_memory; [done|]. intros a n Hm. by apply mapped_write. Qed.

Lemma stacked_stack ksp k : Z.land ksp 15 = 0 -> S_FRAME_SIZE <= ksp < 2 ^ 64 -> stack_ok ksp (ram (stacked ksp k)).
Proof. intros Ha Hr. split; [done|done|]. unfold stacked. cbn [ram set_ram]. apply stack_written. Qed.

Definition stacked_kernel : kernel := stacked sample_ksp sample_kernel.

Lemma stacked_kernel_ok : kernel_ok stacked_kernel.
Proof. exact (stacked_ok sample_ksp sample_kernel sample_kernel_ok). Qed.

Lemma stacked_stack_ok : stack_ok sample_ksp (ram stacked_kernel).
Proof. apply (stacked_stack sample_ksp sample_kernel); [reflexivity|unfold S_FRAME_SIZE, sample_ksp; lia]. Qed.

Lemma exceptions_save_and_restore_witness :
  exists o k', trap sample_cpu (sample_regs 0 0 0 0) 1 (set_ram (framed (sample_regs 0 0 0 0) sample_ksp (ram stacked_kernel)) stacked_kernel) = Some (o, k').
Proof.
  destruct (exceptions_save_and_restore sample_table ltac:(unfold sample_table, sizeof_task_struct; lia) sample_cpu (Machine (replicate 31 7) 0 0 0 0 ∅) sample_ksp
    stacked_kernel stacked_kernel_ok stacked_stack_ok eq_refl) as [H _].
  destruct (H 1%nat (sample_regs 0 0 0 0)) as (o & k' & E & _); [lia|apply sample_frame; unfold is_u64; lia|]. exists o, k'. exact E.
Defined.

(** Two interrupts: application 1 runs, then application 0 again. *)
Lemma preemption_is_invisible_witness :
  exists l l' k', el0_run sample_table sample_ksp stacked_kernel [l; l'] k' /\ v_app l = 0 /\ v_next l = 1 /\ v_next l' = 0 /\ v_restored l' = v_saved l.
Proof.
  assert (Ht : 0 <= sample_table /\ sample_table + 3 * sizeof_task_struct < 2 ^ 64) by (unfold sample_table, sizeof_task_struct; lia).
  destruct (el0_tick sample_table Ht sample_ksp stacked_kernel stacked_kernel_ok stacked_stack_ok) as (l & k1 & S1 & K1 & O1 & M1 & T1 & R1).
  destruct (el0_tick sample_table Ht sample_ksp k1 O1 M1) as (l' & k2 & S2 & K2 & O2 & M2 & T2 & R2).
  destruct (el0_step_ok sample_table Ht sample_ksp stacked_kernel l k1 stacked_kernel_ok S1) as (_ & A1 & N1 & _).
  destruct (el0_step_ok sample_table Ht sample_ksp k1 l' k2 O1 S2) as (_ & A2 & N2 & _).
  rewrite (turn_runnable _ sample_tasks _ R1) in T1. change (turn sample_tasks (current stacked_kernel)) with (Some 1) in T1. injection T1 as T1.
  rewrite (turn_runnable _ sample_tasks _ (eq_trans R2 R1)), <- T1 in T2. change (turn sample_tasks 1) with (Some 0) in T2. injection T2 as T2.
  assert (Hrun : el0_run sample_table sample_ksp stacked_kernel [l; l'] k2) by (eapply el0_cons; [exact S1|]; eapply el0_cons; [exact S2|apply el0_nil]).
  exists l, l', k2. split; [exact Hrun|]. split; [exact A1|]. split; [congruence|]. split; [congruence|].
  destruct (preemption_is_invisible sample_table Ht sample_ksp stacked_kernel l [l'] k2 [l] l' [] stacked_kernel_ok Hrun eq_refl) as [E|[E _]].
  - rewrite N2, <- T2, A1. reflexivity.
  - intros x [-> |Hx%not_elem_of_nil]%elem_of_cons; [|destruct Hx]. rewrite N1, <- T1, A1. discriminate.
  - exact E.
  - rewrite K1 in E. discriminate.
Defined.
