(* ===== verification/MemInit.v ===== *)
(** * Bringing up memory ([mm/init.c]) and the kernel entry ([kernel/main.c])

    The composition of the early memory map, the page allocator, the kernel
    heap and the applications.  The state is the early map, the allocator's
    and the heap's static variables, and the kernel core with the memory and
    the trace. *)

From Stdlib Require Import String.
From S2P Require Import Prelude MemoryH ListH Mem Memblock PageAlloc Slab Vsprintf Kernel Task.

Record boot (S : Type) := Boot {
  b_memblock : memblock;
  b_zone : zone S;
  b_caches : gmap Z kmem_cache;
  b_kernel : kernel;
}.

Arguments Boot {S} _ _ _ _.
Arguments b_memblock {S} _.
Arguments b_zone {S} _.
Arguments b_caches {S} _.
Arguments b_kernel {S} _.

Definition FDT_MAGIC : Z := 0xd00dfeed.
Definition alignof_page : Z := 8.

(** A 32-bit access and [__builtin_bswap32]. *)
Definition load32 (m : mem) (a : Z) : option Z :=
  let* bs := load m a 4 in Some (little_endian_to_Z 8 bs).

Definition bswap32 (v : Z) : Z := little_endian_to_Z 8 (reverse (Z_to_little_endian 4 8 v)).

Section operations.
Context {S : Type} `{!ListStore node S}.
Implicit Type b : boot S.

Definition set_memblock mb b : boot S := Boot mb (b_zone b) (b_caches b) (b_kernel b).
Definition set_zone z b : boot S := Boot (b_memblock b) z (b_caches b) (b_kernel b).

(** The heap's variables and the memory they describe. *)
Definition b_heap b : heap S := Heap (b_zone b) (b_caches b) (Kernel.ram (b_kernel b)).
Definition set_heap (h : heap S) b : boot S :=
  Boot (b_memblock b) (hzone h) (kmalloc_caches h) (Kernel.set_ram (Slab.ram h) (b_kernel b)).

(** A computation of one component. *)
Definition on_kernel {A} (m : M A) : St (boot S) A := fun b =>
  match m (b_kernel b) with
  | Some (r, k) => Some (r, Boot (b_memblock b) (b_zone b) (b_caches b) k)
  | None => None
  end.

Definition on_memblock (f : memblock -> option (Z * memblock)) : St (boot S) Z := fun b =>
  match f (b_memblock b) with
  | Some (r, mb) => Some (inl r, set_memblock mb b)
  | None => None
  end.

Definition on_zone (f : zone S -> option (zone S)) : St (boot S) unit := fun b =>
  match f (b_zone b) with
  | Some z => Some (inl tt, set_zone z b)
  | None => None
  end.

Definition on_heap (f : heap S -> option (heap S)) : St (boot S) unit := fun b =>
  match f (b_heap b) with
  | Some h => Some (inl tt, set_heap h b)
  | None => None
  end.

Definition fdt_read (address : Z) : St (boot S) Z :=
  let! m := gets (fun b => Kernel.ram (b_kernel b)) in
  let! v := lift (load32 m (__va address)) in
  ret (bswap32 v).

Definition early_init_fdt_reserve_self (c : cpu) (fdt : Z) : St (boot S) unit :=
  if (fdt <? PHYS_OFFSET) || (PHYS_OFFSET + RAM_SIZE <=? fdt) || negb (fdt mod 8 =? 0) then ret tt
  else
    let! magic := fdt_read fdt in
    if negb (magic =? FDT_MAGIC) then ret tt
    else
      let! size := fdt_read (u64 (fdt + 4)) in
      let! code := on_memblock (memblock_reserve fdt size) in
      if negb (code =? 0) then on_kernel (kernel_panic c) else ret tt.

(** One round of the loop that hands the free memory to the page allocator. *)
Definition hand_round (mb : memblock) (s : memblock_cursor * zone S) : option ((memblock_cursor * zone S) + zone S) :=
  let '(cursor, z) := s in
  let* '(cursor, found) := memblock_next_free mb cursor in
  match found with
  | Some (start, end_) =>
      let* z := __free_memory_core start end_ z in
      Some (inl (cursor, z))
  | None => Some (inr z)
  end.

Definition hand_over (mb : memblock) (z : zone S) : option (zone S) :=
  iter region_fuel (hand_round mb) (Cursor 0 0, z).

(** The loop over the reserved regions, for its messages. *)
Definition report_round (t : memblock_type) (s : Z * list event) : option ((Z * list event) + list event) :=
  let '(i, es) := s in
  if i <? cnt t then
    let* region := get_region t i in
    Some (inl (u32 (i + 1), es ++ [Print "resv: %016lx-%016lx
" [Arg64 (rbase region); Arg64 (u64 (rbase region + rsize region))]]))
  else Some (inr es).

Definition report_reserved (t : memblock_type) : option (list event) := iter region_fuel (report_round t) (0, []).

(** The statements of [mem_init] up to the allocation of the map. *)
Definition reserve_early (c : cpu) (img : image) (fdt : Z) : St (boot S) unit :=
  let! code := on_memblock (memblock_add PHYS_OFFSET RAM_SIZE) in
  let! failed := (if negb (code =? 0) then ret true else
    let! code := on_memblock (memblock_reserve PHYS_OFFSET (u64 (__pa (__va (_end img)) - PHYS_OFFSET))) in
    if negb (code =? 0) then ret true else
    let! code := on_memblock (memblock_reserve APP_FIRST (u64 (APP_COUNT * APP_SLOT_SIZE))) in
    ret (negb (code =? 0))) in
  do! (if (failed : bool) then on_kernel (kernel_panic c) else ret tt) in
  early_init_fdt_reserve_self c fdt.

Definition mem_init (c : cpu) (img : image) (fdt : Z) : St (boot S) unit :=
  do! reserve_early c img fdt in
  let pages := Z.shiftr RAM_SIZE PAGE_SHIFT in
  let! map := on_memblock (memblock_phys_alloc (u64 (pages * sizeof_page)) alignof_page) in
  do! (if map =? 0 then on_kernel (kernel_panic c) else ret tt) in
  do! on_zone (free_area_init PHYS_OFFSET pages) in
  let! mb := gets b_memblock in
  do! on_zone (hand_over mb) in
  let! z := gets b_zone in
  let pages := nr_free_pages z in
  do! on_heap kmem_cache_init in
  do! on_kernel (print "phy: %016lx-%016lx map: %016lx dtb: %016lx
" [Arg64 PHYS_OFFSET; Arg64 (PHYS_OFFSET + RAM_SIZE); Arg64 map; Arg64 fdt]) in
  let! es := lift (report_reserved (reserved mb)) in
  do! on_kernel (modify (emit_to es)) in
  let! z := gets b_zone in
  on_kernel (print "tot: %lu pg = %lu KiB, free: %lu pg = %lu KiB
" [Arg64 pages; Arg64 (u64 (Z.shiftl pages (PAGE_SHIFT - 10))); Arg64 (nr_free_pages z);
     Arg64 (u64 (Z.shiftl (nr_free_pages z) (PAGE_SHIFT - 10)))]).

(** [start_kernel], with the registers and the stack pointer it prints; it
    returns the task whose registers are restored first. *)
Definition start_kernel (c : cpu) (img : image) (fdt sctlr vbar stack : Z) (starts ends : list Z) : St (boot S) Z :=
  do! on_kernel (print "BOOT EL=%u SCTLR=%016lx VBAR=%016lx SP=%016lx DTB=%016lx
" [Arg32 (u32 (Z.shiftr (CurrentEL c) 2)); Arg64 sctlr; Arg64 vbar; Arg64 stack; Arg64 (__va fdt)]) in
  do! on_kernel (print "BOOT OK
" []) in
  do! mem_init c img fdt in
  on_kernel (start_apps c starts ends).

End operations.
