(* ===== verification/MemInitProof.v ===== *)
(** * Bringing up memory: the steps of [mem_init]

    Each step of [mem_init] as an equation: reserving ranges never fills the
    region array, the loop over the free ranges makes exactly the whole frames
    in them free, and the flattened device tree is read as big-endian words. *)

From Stdlib Require Import String Sorting.Sorted.
From S2P Require Import Prelude MemoryH ListH Mem Memblock MemblockRemove MemblockWalk PageAlloc PageAllocProof PageAllocSpec.
From S2P Require Import Slab SlabProof SlabSpec Vsprintf Kernel Task TaskProof MemInit.

Lemma sorted_pair {A} (R : A -> A -> Prop) l x y : StronglySorted R l -> x ∈ l -> y ∈ l -> x = y \/ R x y \/ R y x.
Proof.
  induction 1 as [|a l Hl IH Ha]; [set_solver|]. rewrite Forall_forall in Ha. intros [->|Hx]%elem_of_cons [->|Hy]%elem_of_cons; auto.
Qed.

(** ** How many regions a range adds *)

Lemma region_start l r : Forall region_ok l -> StronglySorted strictly_apart l -> r ∈ l -> covers l (rbase r) /\ ~ covers l (rbase r - 1).
Proof.
  intros Hok Hs Hr. pose proof Hok as Hok'. rewrite Forall_forall in Hok'. pose proof (Hok' _ Hr) as Hokr. unfold region_ok, rend in Hokr. split.
  - exists r. split; [done|]. unfold rend. lia.
  - intros (s & Hin & Hx). destruct (sorted_pair _ _ _ _ Hs Hin Hr) as [->|[H|H]]; unfold strictly_apart, rend in *; lia.
Qed.

Lemma starts_nodup l : Forall region_ok l -> StronglySorted strictly_apart l -> NoDup (rbase <$> l).
Proof.
  intros Hok Hs. induction Hs as [|r l Hs IH Hr]; [constructor|]. apply Forall_cons in Hok as [Hokr Hok]. cbn. apply NoDup_cons. split; [|by apply IH].
  intros (s & E & Hin)%list_elem_of_fmap. rewrite Forall_forall in Hr. specialize (Hr _ Hin). unfold strictly_apart, region_ok, rend in *. lia.
Qed.

Lemma regions_grow l l' b e : Forall region_ok l -> StronglySorted strictly_apart l -> Forall region_ok l' -> StronglySorted strictly_apart l' ->
  (forall x, covers l' x <-> covers l x \/ b <= x < e) -> (length l' <= length l + 1)%nat.
Proof.
  intros Hok Hs Hok' Hs' Hc. rewrite <- (length_fmap rbase l'), <- (length_fmap rbase l).
  replace (length (rbase <$> l) + 1)%nat with (length (b :: (rbase <$> l))) by (cbn; lia).
  apply submseteq_length, NoDup_submseteq; [by apply starts_nodup|]. intros a (r & -> & Hr)%list_elem_of_fmap.
  destruct (region_start l' r Hok' Hs' Hr) as [Hin Hout]. rewrite Hc in Hin, Hout. apply elem_of_cons.
  destruct Hin as [(s & Hins & Hx)|Hb]; [right|left].
  - apply list_elem_of_fmap. exists s. split; [|done]. destruct (decide (rbase r = rbase s)); [done|].
    exfalso. apply Hout. left. exists s. split; [done|]. lia.
  - destruct (decide (rbase r = b)); [done|]. exfalso. apply Hout. right. lia.
Qed.

Lemma add_fits t base size : wf t -> is_u64 base -> is_u64 size -> base + size <= UINTPTR_MAX -> 2 * cnt t + 1 <= INIT_MEMBLOCK_REGIONS ->
  exists t', memblock_add_range base size t = Some (0, t') /\ wf t' /\ 0 <= cnt t' <= cnt t + 1 /\
    forall x, covered t' x <-> covered t x \/ base <= x < base + size.
Proof.
  intros Hwf Hb Hs Hcap Hn. destruct (cap_size_range base size Hb Hs) as (_ & _ & Hc). specialize (Hc Hcap).
  pose proof (holds_cnt _ _ (wf_holds _ _ Hwf)) as El.
  destruct (add_range_correct t (Memblock.live t) base size Hwf Hb Hs) as [(t' & l' & E & Hwf' & Hcov)|[_ Hf]]; [done| |].
  - rewrite Hc in Hcov. exists t'. split; [done|]. pose proof (holds_cnt _ _ (wf_holds _ _ Hwf')) as El'.
    assert (length l' <= length (Memblock.live t) + 1)%nat by (apply (regions_grow _ _ base (base + size)); (done || apply Hwf || apply Hwf')).
    apply wf_of in Hwf' as [Hwf' Hl']. split; [done|]. split; [lia|]. unfold covered. by rewrite Hl'.
  - pose proof (fill_length base (base + cap_size base size) (Memblock.live t)). lia.
Qed.

(** ** Handing the free ranges to the page allocator *)

(** The frames whose bytes are all in the range. *)
Definition whole (r : Z * Z) (x : Z) : Prop := r.1 <= x * PAGE_SIZE /\ (x + 1) * PAGE_SIZE <= r.2.

(** A run of bytes inside a walk is inside one of its ranges. *)
Lemma run_in_range l a b : walk_ok l -> a < b -> (forall x, a <= x < b -> in_ranges l x) -> exists r, r ∈ l /\ r.1 <= a /\ b <= r.2.
Proof.
  intros [Hok Hs] Hab Hin. rewrite Forall_forall in Hok. destruct (Hin a) as (r & Hr & Ha); [lia|]. exists r. split; [done|]. split; [lia|].
  destruct (decide (b <= r.2)) as [|Hlt]; [done|]. destruct (Hin r.2) as (s & Hins & Hx); [lia|].
  destruct (sorted_pair _ _ _ _ Hs Hr Hins) as [<-|[H|H]]; lia.
Qed.

Lemma run_whole l x : walk_ok l -> (exists r, r ∈ l /\ whole r x) <-> (forall y, x * PAGE_SIZE <= y < (x + 1) * PAGE_SIZE -> in_ranges l y).
Proof.
  intros Hw. change PAGE_SIZE with 4096. split.
  - intros (r & Hr & [Hlo Hhi]) y Hy. exists r. unfold whole in *. change PAGE_SIZE with 4096 in *. split; [done|lia].
  - intros Hin. destruct (run_in_range l (x * 4096) ((x + 1) * 4096)) as (r & Hr & ? & ?); [done|lia|done|]. exists r. split; [done|]. by split.
Qed.

Section hand.
Context {S : Type} `{!ListStore node S, !ListStoreLaws node S}.
Implicit Types (z : zone S) (F : gset Z) (L : gmap node (list node)).

Definition free_range (z : option (zone S)) (r : Z * Z) : option (zone S) :=
  let* z := z in __free_memory_core r.1 r.2 z.

Lemma free_range_none l : foldl free_range None l = None.
Proof. by induction l. Qed.

(** The loop makes the calls in the order of the walk. *)
Lemma hand_round_collect mb n c acc l : iter n (collect_step mb) (c, acc) = Some l ->
  exists l', l = acc ++ l' /\ forall z, iter n (hand_round mb) (c, z) = foldl free_range (Some z) l'.
Proof.
  revert c acc. induction n as [|n IH]; intros c acc; cbn [iter]; [done|]. unfold collect_step at 1.
  destruct (memblock_next_free mb c) as [[c' [[lo hi]|]]|] eqn:E; cbn [mbind option_bind]; [| |done].
  - intros (l' & -> & Hl)%IH. exists ((lo, hi) :: l'). split; [by rewrite <- app_assoc|]. intros z. unfold hand_round at 1. rewrite E. cbn [mbind option_bind].
    cbn [foldl free_range fst snd mbind option_bind]. destruct (__free_memory_core lo hi z) as [z'|]; cbn [mbind option_bind]; [by apply Hl|by rewrite free_range_none].
  - intros [= ->]. exists []. split; [by rewrite app_nil_r|]. intros z. unfold hand_round. by rewrite E.
Qed.

Lemma hand_over_ranges mb l z : free_ranges mb = Some l -> hand_over mb z = foldl free_range (Some z) l.
Proof. intros (l' & -> & Hl)%hand_round_collect. apply Hl. Qed.

Lemma core_frames z r x : 0 <= r.1 -> r.2 < 2 ^ 64 -> mem_map_base_pfn z <= x < mem_map_base_pfn z + max_mapnr z ->
  x ∈ rng (core_first z r.1) (core_limit z r.2) <-> whole r x.
Proof.
  intros Hlo Hhi Hx. rewrite elem_of_rng. unfold core_first, core_limit, whole. change PAGE_SIZE with 4096.
  pose proof (Z.div_mod (r.1 + 4096 - 1) 4096). pose proof (Z.mod_pos_bound (r.1 + 4096 - 1) 4096).
  pose proof (Z.div_mod r.2 4096). pose proof (Z.mod_pos_bound r.2 4096). lia.
Qed.

Lemma core_frames_range z r x : x ∈ rng (core_first z r.1) (core_limit z r.2) -> mem_map_base_pfn z <= x < mem_map_base_pfn z + max_mapnr z.
Proof. rewrite elem_of_rng. unfold core_first, core_limit. lia. Qed.

Lemma frees_all l z F L : walk_ok l -> zone_free z F L -> (forall r, r ∈ l -> r.2 < 2 ^ 63) ->
  (forall r x, r ∈ l -> x ∈ F -> ~ whole r x) -> (forall i, ~ on_partial L i) ->
  exists z' F' L', foldl free_range (Some z) l = Some z' /\ zone_free z' F' L' /\ same_partials L L' /\ frame z z' (fun _ => True) /\
    forall x, x ∈ F' <-> x ∈ F \/ mem_map_base_pfn z <= x < mem_map_base_pfn z + max_mapnr z /\ exists r, r ∈ l /\ whole r x.
Proof.
  revert z F L. induction l as [|r l IH]; intros z F L [Hok Hs] HF Hhi Hd Hp.
  { exists z, F, L. split_and!; try done; [by apply (frame_weaken _ _ (fun _ => False)); [apply frame_refl|]|]. intros x. set_solver. }
  pose proof Hok as Hok'. rewrite Forall_forall in Hok'. pose proof (Hok' r ltac:(set_solver)) as Hr. unfold UINTPTR_MAX in Hr.
  pose proof (Hhi r ltac:(set_solver)) as Hr2. cbn [foldl free_range mbind option_bind].
  destruct (free_memory_core_correct z F L r.1 r.2 HF) as (z1 & L1 & -> & HF1 & Hs1 & Hfr1); [lia|change PAGE_SIZE with 4096; lia|lia| |intros; apply Hp|].
  { intros x Hx HxF. apply (Hd r x); [set_solver|done|]. apply (core_frames z r x); [lia|lia|by apply core_frames_range in Hx|done]. }
  apply Forall_cons in Hok as [_ Hokl]. inversion Hs as [|? ? Hsl Hrl]; subst. rewrite Forall_forall in Hrl.
  destruct (IH z1 _ L1 (conj Hokl Hsl) HF1) as (z' & F' & L' & E & HF' & Hs' & Hfr' & Hx').
  - intros s Hins. apply Hhi. set_solver.
  - intros s x Hins [HxF|HxR]%elem_of_union Hw; [by apply (Hd s x); [set_solver| |]|].
    apply (core_frames z r x) in HxR as HxR'; [|lia|lia|by apply core_frames_range in HxR]. specialize (Hrl s Hins). unfold whole in *. change PAGE_SIZE with 4096 in *. lia.
  - intros i. rewrite (same_partials_on _ _ _ Hs1). apply Hp.
  - exists z', F', L'. split; [done|]. split; [done|]. split; [by eapply same_partials_trans|].
    split; [eapply frame_weaken; [by eapply frame_trans|]; naive_solver|]. intros x. rewrite Hx', elem_of_union, (fr_base _ _ _ Hfr1), (fr_max _ _ _ Hfr1). split.
    + intros [[?|HxR]|(Hb & s & Hins & Hw)]; [by left|right|right; split; [done|]; exists s; set_solver].
      pose proof (core_frames_range _ _ _ HxR) as Hb. split; [done|]. exists r. split; [set_solver|]. apply (core_frames z r x) in HxR; (done || lia).
    + intros [?|(Hb & s & [->|Hins]%elem_of_cons & Hw)]; [by left; left| |right; split; [done|]; by exists s].
      left. right. apply (core_frames z r x); (done || lia).
Qed.

End hand.

(** ** The messages about reserved regions *)

Definition resv_event (r : memblock_region) : event := Print "resv: %016lx-%016lx
" [Arg64 (rbase r); Arg64 (rend r)].

Lemma report_reserved_all t : wf t -> report_reserved t = Some (resv_event <$> Memblock.live t).
Proof.
  intros Hwf. unfold wf in Hwf. set (l := Memblock.live t) in *. pose proof (holds_length _ _ (wf_holds _ _ Hwf)) as Hlen. pose proof (holds_cnt _ _ (wf_holds _ _ Hwf)) as Hcnt.
  destruct (iter_rule (fun s => exists i : nat, (i <= length l)%nat /\ s = (Z.of_nat i, resv_event <$> take i l)) (fun r => r = resv_event <$> l)
    (fun s => Z.to_nat (length l - s.1)) (report_round t)) with (fuel := region_fuel) (s := (0, @nil event)) as (r & E & ->).
  - intros s (i & Hi & ->). unfold report_round. rewrite Hcnt. destruct (Z.ltb_spec i (length l)) as [Hlt|Hge].
    + left. destruct (lookup_lt_is_Some_2 l i) as [a Ha]; [lia|]. pose proof Ha as Ha'. apply list_elem_of_split_length in Ha' as (l1 & l2 & El & Hl1).
      rewrite (holds_get t l1 a l2 i) by (rewrite <- ?El; first [apply Hwf|lia]). cbn [mbind option_bind].
      pose proof (wf_ok _ _ Hwf) as Hok. rewrite Forall_forall in Hok. specialize (Hok a ltac:(by eapply list_elem_of_lookup_2)).
      unfold region_ok, rend, UINTPTR_MAX in Hok. eexists. split; [done|]. split; [|cbn [fst]; rewrite u32_id by (unfold is_u32; lia); lia].
      exists (Datatypes.S i). split; [lia|]. rewrite u32_id by (unfold is_u32; lia). f_equal; [lia|]. rewrite (take_S_r _ _ _ Ha), fmap_app. cbn [fmap list_fmap].
      rewrite u64_id by (unfold is_u64; lia). done.
    + right. eexists. split; [done|]. by rewrite firstn_all2 by lia.
  - exists 0%nat. split; [lia|done].
  - cbn [fst]. unfold region_fuel. lia.
  - exact E.
Qed.

(** ** The flattened device tree *)

(** Big-endian bytes. *)
Definition be (bs : list Z) : Z := foldl (fun n b => n * 256 + b) 0 bs.

Lemma le_cons b bs : is_byte b -> little_endian_to_Z 8 (b :: bs) = b + 256 * little_endian_to_Z 8 bs.
Proof.
  intros Hb. cbn [little_endian_to_Z]. rewrite <- Z.lxor_lor, <- Z.add_nocarry_lxor; [rewrite Z.shiftl_mul_pow2 by lia; change (2 ^ 8) with 256; lia| |];
    apply Z.bits_inj'; intros i Hi; rewrite Z.land_spec, Z.shiftl_spec, Z.bits_0 by done;
    (destruct (decide (i < 8)); [rewrite (Z.testbit_neg_r _ (i - 8)) by lia; apply andb_false_r|]);
    (unfold is_byte in Hb; rewrite (Z.bits_above_log2 b i); [done|lia|]; destruct (decide (b = 0)) as [->|]; [cbn; lia|]; apply Z.log2_lt_pow2; [lia|];
      apply (Z.lt_le_trans _ (2 ^ 8)); [lia|apply Z.pow_le_mono_r; lia]).
Qed.

Lemma be_reverse bs : Forall is_byte bs -> little_endian_to_Z 8 (reverse bs) = be bs.
Proof.
  unfold be. induction bs as [|b bs IH] using rev_ind; [done|]. intros [Hbs Hb]%Forall_app. apply Forall_cons in Hb as [Hb _].
  rewrite reverse_snoc, le_cons, IH, foldl_app by done. cbn [foldl]. lia.
Qed.

Lemma bswap32_be bs : length bs = 4%nat -> Forall is_byte bs -> bswap32 (little_endian_to_Z 8 bs) = be bs.
Proof.
  intros Hl Hb. unfold bswap32. rewrite Z_to_little_endian_to_Z; [by apply be_reverse|by rewrite Hl|lia|done].
Qed.

Lemma be_range bs : length bs = 4%nat -> Forall is_byte bs -> 0 <= be bs < 2 ^ 32.
Proof.
  destruct bs as [|a [|b [|c [|d [|]]]]]; try done.
  intros _ H. repeat (apply Forall_cons in H as [? H]). unfold be, is_byte in *. cbn [foldl]. lia.
Qed.

(** The size the blob at [fdt] claims, 0 when there is no blob. *)
Definition dtb_word (m : mem) (a : Z) : Z := be (default [] (load m (__va a) 4)).

Definition dtb_here (m : mem) (fdt : Z) : bool :=
  bool_decide (PHYS_OFFSET <= fdt < PHYS_OFFSET + RAM_SIZE /\ fdt mod 8 = 0) && (dtb_word m fdt =? FDT_MAGIC).

Definition dtb_size (m : mem) (fdt : Z) : Z := if dtb_here m fdt then dtb_word m (fdt + 4) else 0.

(** All of RAM is in the linear map. *)
Definition ram_mapped (m : mem) : Prop := mapped m (__va PHYS_OFFSET) RAM_SIZE.

Lemma ram_mapped_at m a n : ram_mapped m -> PHYS_OFFSET <= a -> 0 < n -> a + n <= PHYS_OFFSET + RAM_SIZE -> mapped m (__va a) n.
Proof.
  intros Hm Ha Hn Hhi. apply (mapped_sub _ _ _ _ _ Hm); rewrite !va_of_ram by (unfold RAM_SIZE in *; lia); lia.
Qed.

Section steps.
Context {S : Type} `{!ListStore node S, !ListStoreLaws node S}.
Implicit Types (b : boot S).

Lemma fdt_read_word b a : mem_ok (Kernel.ram (b_kernel b)) -> ram_mapped (Kernel.ram (b_kernel b)) -> PHYS_OFFSET <= a -> a + 4 <= PHYS_OFFSET + RAM_SIZE ->
  fdt_read a b = Some (inl (dtb_word (Kernel.ram (b_kernel b)) a), b) /\ 0 <= dtb_word (Kernel.ram (b_kernel b)) a < 2 ^ 32.
Proof.
  intros Hok Hm Ha Hhi. set (m := Kernel.ram (b_kernel b)) in *. destruct (mapped_bytes m (__va a) 4 Hok) as (bs & Hl & Hb & Hbs); [by apply ram_mapped_at; (done || lia)|].
  change (Z.to_nat 4) with 4%nat in Hl. assert (E : load m (__va a) 4 = Some bs) by (rewrite <- Hl; by apply load_bytes).
  unfold dtb_word. rewrite E. cbn [default from_option id]. split; [|by apply be_range].
  unfold fdt_read, gets, lift, bind, ret, load32. fold m. rewrite E. cbn [mbind option_bind]. by rewrite bswap32_be.
Qed.

Lemma reserve_ok base size b : wf (reserved (b_memblock b)) -> is_u64 base -> is_u64 size -> base + size <= UINTPTR_MAX ->
  2 * cnt (reserved (b_memblock b)) + 1 <= INIT_MEMBLOCK_REGIONS ->
  exists t', on_memblock (memblock_reserve base size) b = Some (inl 0, set_memblock (Memblock (memory (b_memblock b)) t') b) /\ wf t' /\
    0 <= cnt t' <= cnt (reserved (b_memblock b)) + 1 /\ forall x, covered t' x <-> covered (reserved (b_memblock b)) x \/ base <= x < base + size.
Proof.
  intros Hwf Hb Hs Hcap Hn. destruct (add_fits (reserved (b_memblock b)) base size) as (t' & E & H); try done.
  exists t'. split; [|done]. unfold on_memblock, memblock_reserve. rewrite E. done.
Qed.

Lemma reserve_fdt c fdt b : mem_ok (Kernel.ram (b_kernel b)) -> ram_mapped (Kernel.ram (b_kernel b)) -> wf (reserved (b_memblock b)) ->
  2 * cnt (reserved (b_memblock b)) + 1 <= INIT_MEMBLOCK_REGIONS ->
  exists t', early_init_fdt_reserve_self c fdt b = Some (inl tt, set_memblock (Memblock (memory (b_memblock b)) t') b) /\ wf t' /\
    0 <= cnt t' <= cnt (reserved (b_memblock b)) + 1 /\
    forall x, covered t' x <-> covered (reserved (b_memblock b)) x \/ fdt <= x < fdt + dtb_size (Kernel.ram (b_kernel b)) fdt.
Proof.
  intros Hok Hm Hwf Hn. set (m := Kernel.ram (b_kernel b)) in *. pose proof (holds_cnt _ _ (wf_holds _ _ Hwf)) as Hc.
  assert (Hskip : dtb_size m fdt = 0 -> exists t', Some (inl tt, b) = Some (@inl unit halt tt, set_memblock (Memblock (memory (b_memblock b)) t') b) /\ wf t' /\
    0 <= cnt t' <= cnt (reserved (b_memblock b)) + 1 /\ forall x, covered t' x <-> covered (reserved (b_memblock b)) x \/ fdt <= x < fdt + dtb_size m fdt).
  { intros E0. exists (reserved (b_memblock b)). rewrite E0. split; [by destruct b as [[] ? ? ?]|]. split; [done|]. split; [lia|]. intros x. split; [by left|intros [?|?]; [done|lia]]. }
  unfold early_init_fdt_reserve_self. unfold dtb_size, dtb_here in *.
  destruct ((fdt <? PHYS_OFFSET) || (PHYS_OFFSET + RAM_SIZE <=? fdt) || negb (fdt mod 8 =? 0)) eqn:Eg.
  { apply Hskip. rewrite bool_decide_false; [done|]. intros [H1 H2]. bool_prop; lia. }
  assert (Hin : PHYS_OFFSET <= fdt < PHYS_OFFSET + RAM_SIZE /\ fdt mod 8 = 0) by (bool_prop; lia). rewrite bool_decide_true in * by done. cbn [andb] in *.
  assert (Hend : fdt + 8 <= PHYS_OFFSET + RAM_SIZE) by (unfold PHYS_OFFSET, RAM_SIZE in *; Z.div_mod_to_equations; lia).
  destruct (fdt_read_word b fdt Hok Hm) as [E1 _]; [lia|lia|]. rewrite (bind_ok _ _ _ _ _ E1). fold m in E1 |- *.
  destruct (dtb_word m fdt =? FDT_MAGIC); cbn [negb]; [|by apply Hskip].
  destruct (fdt_read_word b (fdt + 4) Hok Hm) as [E2 Hsz]; [lia|lia|]. fold m in E2, Hsz.
  rewrite u64_id by (unfold is_u64, PHYS_OFFSET, RAM_SIZE in *; lia). rewrite (bind_ok _ _ _ _ _ E2).
  destruct (reserve_ok fdt (dtb_word m (fdt + 4)) b Hwf) as (t' & E3 & H); try (unfold is_u64, UINTPTR_MAX, PHYS_OFFSET, RAM_SIZE in *; lia).
  rewrite (bind_ok _ _ _ _ _ E3). by exists t'.
Qed.

End steps.
