(* ===== verification/MemInitSpec.v ===== *)
(** * Bringing up memory: properties

    What [mem_init] leaves: the page frames the page allocator owns are
    exactly the frames of RAM that hold nothing else, the heap is ready, and
    every reserved range is reported; and the boot from the kernel entry to
    the first application. *)

From Stdlib Require Import Ascii String Sorting.Sorted.
From S2P Require Import Prelude MemoryH ListH Mem Memblock MemblockRemove MemblockWalk PageAlloc PageAllocProof PageAllocSpec.
From S2P Require Import Slab SlabProof SlabSpec Vsprintf Kernel Timer Task TaskProof TaskSpec TaskStart MemInit MemInitProof.

(** ** What is where *)

Definition in_ram (x : Z) : Prop := PHYS_OFFSET <= x < PHYS_OFFSET + RAM_SIZE.

(** The bytes that hold the kernel image, the application slots or the
    flattened device tree. *)
Definition busy (img : image) (m : mem) (fdt x : Z) : Prop :=
  PHYS_OFFSET <= x < _end img \/ APP_FIRST <= x < APP_FIRST + APP_COUNT * APP_SLOT_SIZE \/ fdt <= x < fdt + dtb_size m fdt.

Definition ram_frames : Z := RAM_SIZE / PAGE_SIZE.
Definition map_size : Z := ram_frames * sizeof_page.

(** [q] has room for the page descriptors. *)
Definition room (img : image) (m : mem) (fdt q : Z) : Prop :=
  (8 | q) /\ forall x, q <= x < q + map_size -> in_ram x /\ ~ busy img m fdt x.

Definition tot_event (n : Z) : event := Print "tot: %lu pg = %lu KiB, free: %lu pg = %lu KiB
" [Arg64 n; Arg64 (n * 4); Arg64 n; Arg64 (n * 4)].

Definition phy_event (map fdt : Z) : event := Print "phy: %016lx-%016lx map: %016lx dtb: %016lx
" [Arg64 PHYS_OFFSET; Arg64 (PHYS_OFFSET + RAM_SIZE); Arg64 map; Arg64 fdt].

Section mem_init.
Context {S : Type} `{!ListStore node S, !ListStoreLaws node S}.
Implicit Types (b : boot S).

(** The state at reset: zeroed statics, RAM in the linear map. *)
Record at_reset b : Prop := {
  ar_memblock : b_memblock b = empty_memblock;
  ar_lists : ls_rep (lists (b_zone b)) ∅;
  ar_areas o : 0 <= o < MAX_ORDER -> ls_valid (lists (b_zone b)) (FreeList o);
  ar_partials c : 0 <= c < KMALLOC_CACHES -> ls_valid (lists (b_zone b)) (Partial c);
  ar_bytes : mem_ok (Kernel.ram (b_kernel b));
  ar_ram : ram_mapped (Kernel.ram (b_kernel b));
}.

(** Memory as [mem_init] leaves it, with the descriptors at [map] and the
    frames [F] free. *)
Record memory_up (img : image) (fdt : Z) b (map : Z) b' (F : gset Z) : Prop := {
  up_room : room img (Kernel.ram (b_kernel b)) fdt map /\ forall q, room img (Kernel.ram (b_kernel b)) fdt q -> map <= q;
  up_frames p : p ∈ F <-> forall x, p * PAGE_SIZE <= x < (p + 1) * PAGE_SIZE ->
    in_ram x /\ ~ busy img (Kernel.ram (b_kernel b)) fdt x /\ ~ map <= x < map + map_size;
  up_heap : exists L, heap_inv F (b_heap b') F L ∅ ∅;
  up_zone : mem_map_base_pfn (b_zone b') = PHYS_OFFSET / PAGE_SIZE /\ max_mapnr (b_zone b') = ram_frames;
  up_kernel : exists l, StronglySorted strictly_apart l /\
    (forall x, covers l x <-> busy img (Kernel.ram (b_kernel b)) fdt x \/ map <= x < map + map_size) /\
    b_kernel b' = emit_to (phy_event map fdt :: (resv_event <$> l) ++ [tot_event (Z.of_nat (size F))]) (b_kernel b);
}.

(** The early map before the descriptors are placed. *)
Record reserved_all (img : image) (m : mem) (fdt : Z) (mb : memblock) : Prop := {
  ra_wf : mb_wf mb;
  ra_memory x : covered (memory mb) x <-> in_ram x;
  ra_reserved x : covered (reserved mb) x <-> busy img m fdt x;
  ra_count : cnt (reserved mb) <= 3;
}.

Lemma reserved_fits img m fdt mb q : reserved_all img m fdt mb -> fits mb (2 ^ 3) map_size q <-> room img m fdt q.
Proof.
  intros [_ Hm Hr _]. unfold fits, room, free_addr. change (2 ^ 3) with 8. split; intros [Hd Hx]; (split; [done|]); intros x Hin;
    specialize (Hx x Hin); rewrite ?Hm, ?Hr in *; done.
Qed.

Lemma no_memory x : covered empty_type x <-> False.
Proof. split; [|done]. intros (r & Hr & _). by apply not_elem_of_nil in Hr. Qed.

Lemma reserve_early_result c img fdt b : image_ok img -> at_reset b ->
  exists mb, reserve_early c img fdt b = Some (inl tt, set_memblock mb b) /\ reserved_all img (Kernel.ram (b_kernel b)) fdt mb.
Proof.
  intros [Ht Ho _] [Eb _ _ _ Hok Hm]. assert (Hend : PHYS_OFFSET <= _end img <= APP_FIRST).
  { rewrite Ht in Ho. unfold PHYS_OFFSET, TEXT_OFFSET in *. lia. }
  unfold APP_FIRST, PHYS_OFFSET in Hend. unfold reserve_early.
  destruct (add_fits empty_type PHYS_OFFSET RAM_SIZE empty_type_wf) as (t0 & E0 & W0 & C0 & V0);
    [unfold is_u64, PHYS_OFFSET; lia|unfold is_u64, RAM_SIZE; lia|unfold PHYS_OFFSET, RAM_SIZE, UINTPTR_MAX; lia|done|].
  assert (E1 : on_memblock (memblock_add PHYS_OFFSET RAM_SIZE) b = Some (inl 0, set_memblock (Memblock t0 empty_type) b)).
  { unfold on_memblock, memblock_add. rewrite Eb. cbn [memory empty_memblock reserved]. by rewrite E0. }
  rewrite (bind_ok _ _ _ _ _ E1). change (negb (0 =? 0)) with false. cbv iota.
  rewrite pa_va by (unfold is_u64; lia). rewrite u64_id by (unfold is_u64, PHYS_OFFSET; lia).
  destruct (reserve_ok PHYS_OFFSET (_end img - PHYS_OFFSET) (set_memblock (Memblock t0 empty_type) b) empty_type_wf) as (t1 & E2 & W1 & C1 & V1);
    [unfold is_u64, PHYS_OFFSET; lia|unfold is_u64, PHYS_OFFSET; lia|unfold PHYS_OFFSET, UINTPTR_MAX; lia|done|].
  change (u64 (APP_COUNT * APP_SLOT_SIZE)) with (APP_COUNT * APP_SLOT_SIZE).
  cbn [b_memblock set_memblock reserved] in E2, C1, V1. change (cnt empty_type) with 0 in C1.
  destruct (reserve_ok APP_FIRST (APP_COUNT * APP_SLOT_SIZE) (set_memblock (Memblock t0 t1) b) W1) as (t2 & E3 & W2 & C2 & V2);
    [unfold is_u64, APP_FIRST; lia|unfold is_u64, APP_COUNT, APP_SLOT_SIZE; lia|unfold APP_FIRST, APP_COUNT, APP_SLOT_SIZE, UINTPTR_MAX; lia|
     cbn [b_memblock set_memblock reserved]; unfold INIT_MEMBLOCK_REGIONS; lia|].
  cbn [b_memblock set_memblock reserved] in E3, C2, V2.
  erewrite bind_ok; [|rewrite (bind_ok _ _ _ _ _ E2); change (negb (0 =? 0)) with false; cbv iota; rewrite (bind_ok _ _ _ _ _ E3); reflexivity].
  change (negb (0 =? 0)) with false. cbv iota. erewrite bind_ok by reflexivity.
  destruct (reserve_fdt c fdt (set_memblock (Memblock t0 t2) b)) as (t3 & E4 & W3 & C3 & V3); [done|done|done|
    cbn [b_memblock set_memblock reserved]; unfold INIT_MEMBLOCK_REGIONS; lia|].
  cbn [b_memblock set_memblock reserved memory b_kernel] in *. exists (Memblock t0 t3). split; [exact E4|]. split; cbn [memory reserved].
  - by split.
  - intros x. rewrite V0, no_memory. unfold in_ram. naive_solver.
  - intros x. rewrite V3, V2, V1, no_memory. unfold busy. replace (PHYS_OFFSET + (_end img - PHYS_OFFSET)) with (_end img) by lia. naive_solver.
  - lia.
Qed.

(** The loop over the free ranges, from the reserved map to the frames. *)
Lemma hand_over_frames img m fdt mb map z L : reserved_all img m fdt mb -> room img m fdt map ->
  zone_free z ∅ L -> (forall i, ~ on_partial L i) -> mem_map_base_pfn z = PHYS_OFFSET / PAGE_SIZE -> max_mapnr z = ram_frames ->
  forall mb', mb_wf mb' -> memory mb' = memory mb -> (forall x, covered (reserved mb') x <-> covered (reserved mb) x \/ map <= x < map + map_size) ->
  exists z' F L', hand_over mb' z = Some z' /\ zone_free z' F L' /\ same_partials L L' /\ frame z z' (fun _ => True) /\
    forall p, p ∈ F <-> forall x, p * PAGE_SIZE <= x < (p + 1) * PAGE_SIZE -> in_ram x /\ ~ busy img m fdt x /\ ~ map <= x < map + map_size.
Proof.
  intros [_ Hm Hr _] Hroom HF Hp Eb Ex mb' Hwf Em Hcov. destruct (free_ranges_correct mb' Hwf) as (l & El & Hw & Hl).
  assert (Hfree : forall x, in_ranges l x <-> in_ram x /\ ~ busy img m fdt x /\ ~ map <= x < map + map_size).
  { intros x. rewrite Hl. unfold free_addr. rewrite Em, Hcov, Hm, Hr. tauto. }
  rewrite (hand_over_ranges _ _ _ El). destruct (frees_all l z ∅ L Hw HF) as (z' & F & L' & E & HF' & Hs & Hfr & Hx); [|set_solver|done|].
  - intros r Hin. destruct Hw as [Hok _]. rewrite Forall_forall in Hok. specialize (Hok r Hin).
    destruct (Hfree (r.2 - 1)) as [Hf _]. destruct Hf as [Hram _]; [exists r; split; [done|lia]|]. unfold in_ram, PHYS_OFFSET, RAM_SIZE in Hram. lia.
  - exists z', F, L'. split_and!; try done. intros p. rewrite Hx. setoid_rewrite <- Hfree. rewrite <- run_whole by done. rewrite Eb, Ex. split; [set_solver|].
    intros (r & Hin & Hwh). right. split; [|by exists r]. destruct (Hfree (p * PAGE_SIZE)) as [Hf _].
    unfold whole in Hwh. change PAGE_SIZE with 4096 in *. destruct Hf as [Hram _]; [exists r; split; [done|lia]|].
    unfold in_ram, ram_frames, PHYS_OFFSET, RAM_SIZE in *. change PAGE_SIZE with 4096. change (0x40000000 / 4096) with 0x40000. change (0x8000000 / 4096) with 0x8000. lia.
Qed.

Lemma map_bytes : u64 (Z.shiftr RAM_SIZE PAGE_SHIFT * sizeof_page) = map_size /\ Z.shiftr RAM_SIZE PAGE_SHIFT = ram_frames.
Proof. split; reflexivity. Qed.

(** The statements of [mem_init] after the map is placed. *)
Lemma zone_up z (L : gmap node (list node)) ram caches F : zone_free z F L -> (forall c, L !! Partial c = None) ->
  (forall c, 0 <= c < KMALLOC_CACHES -> ls_valid (lists z) (Partial c)) -> (forall i pg, mem_map z !! i = Some pg -> has_flag PAGE_SLAB pg = false) ->
  mem_map_base_pfn z = PHYS_OFFSET / PAGE_SIZE -> max_mapnr z = ram_frames -> ram_mapped ram ->
  exists h' L', kmem_cache_init (Heap z caches ram) = Some h' /\ heap_inv F h' F L' ∅ ∅ /\ Slab.ram h' = ram /\
    mem_map_base_pfn (hzone h') = PHYS_OFFSET / PAGE_SIZE /\ max_mapnr (hzone h') = ram_frames.
Proof.
  intros HF Hp Hv Hfl Eb Ex Hm. destruct (kmem_cache_init_correct (Heap z caches ram) F L) as (h' & L' & E & Hi & Er & Eb' & Ex'); cbn [hzone Slab.ram]; try done.
  - rewrite Eb, Ex. split; vm_compute; done.
  - rewrite Eb, Ex. intros i Hi. assert (Hi' : 0 <= i < 0x8000) by exact Hi.
    apply (mapped_sub _ _ _ _ _ Hm); rewrite va_of_ram by (unfold PHYS_OFFSET, RAM_SIZE; lia); unfold va; change (PHYS_OFFSET / PAGE_SIZE) with 0x40000;
      change PAGE_SIZE with 4096; unfold PHYS_OFFSET, RAM_SIZE; lia.
  - exists h', L'. cbn [hzone Slab.ram] in *. rewrite Eb', Ex', Eb, Ex. done.
Qed.

Lemma no_slab z z' : (forall i pg, mem_map z !! i = Some pg -> pg = zero_page) -> frame z z' (fun _ => True) ->
  (forall i, is_Some (mem_map z' !! i) -> is_Some (mem_map z !! i)) -> forall i pg, mem_map z' !! i = Some pg -> has_flag PAGE_SLAB pg = false.
Proof.
  intros Hz Hfr Hd i pg Hpg. destruct (Hd i) as [pg0 Hpg0]; [by eexists|].
  destruct (fr_page _ _ _ Hfr i pg0 Hpg0) as (pg' & Hpg' & (Hf & _) & _). simplify_eq. rewrite Hf. by rewrite (Hz i pg0 Hpg0).
Qed.

Lemma mem_init_result c img fdt b : image_ok img -> at_reset b ->
  (exists map b' F, mem_init c img fdt b = Some (inl tt, b') /\ memory_up img fdt b map b' F) \/
  (exists b', mem_init c img fdt b = Some (inr Panicked, b') /\ (forall q, ~ room img (Kernel.ram (b_kernel b)) fdt q) /\
    b_kernel b' = emit_to (panic_events c) (b_kernel b)).
Proof.
  intros Himg Hb. destruct (reserve_early_result c img fdt b Himg Hb) as (mb & E1 & Hall). pose proof (ra_wf _ _ _ _ Hall) as Hwf.
  destruct map_bytes as [Esz Epg]. unfold mem_init. rewrite (bind_ok _ _ _ _ _ E1), Epg. rewrite Epg in Esz. rewrite Esz. clear E1.
  destruct (phys_alloc_correct mb map_size 3 Hwf ltac:(by vm_compute) ltac:(lia)) with (align := alignof_page) as ([p mb'] & E2 & Hwf' & Em & Hres).
  { intros x Hx. apply (ra_memory _ _ _ _ Hall) in Hx. unfold in_ram, PHYS_OFFSET, RAM_SIZE in Hx. lia. } { by left. }
  cbn [fst snd] in *. set (m := Kernel.ram (b_kernel b)) in *.
  assert (E2' : on_memblock (memblock_phys_alloc map_size alignof_page) (set_memblock mb b) = Some (inl p, set_memblock mb' b)).
  { unfold on_memblock. cbn [b_memblock set_memblock]. rewrite E2. done. }
  rewrite (bind_ok _ _ _ _ _ E2').
  destruct Hres as [(Hp & Hfit & Hlow & Hcov)|(-> & -> & Hnone)].
  2:{ right. rewrite Z.eqb_refl. eexists. split; [apply bind_stop; reflexivity|]. split; [|done]. intros q Hq.
      destruct Hnone as [Hno|Hfull]; [by apply (Hno q), (reserved_fits img m fdt)|]. pose proof (ra_count _ _ _ _ Hall). rewrite Hfull in *. by vm_compute in H. }
  left. rewrite (proj2 (Z.eqb_neq _ _) Hp). erewrite bind_ok by reflexivity.
  assert (Hroom : room img m fdt p) by (by apply (reserved_fits img m fdt mb)).
  destruct (free_area_init_correct (b_zone b) PHYS_OFFSET ram_frames (ar_lists _ Hb) (ar_areas _ Hb)) as (z1 & L1 & E3 & HF1 & Eb1 & Ex1 & He & Hv1 & Hz1);
    [unfold PHYS_OFFSET; lia|done|done|].
  assert (E3' : on_zone (free_area_init PHYS_OFFSET ram_frames) (set_memblock mb' b) = Some (inl tt, set_zone z1 (set_memblock mb' b))).
  { unfold on_zone. cbn [b_zone set_memblock]. by rewrite E3. }
  rewrite (bind_ok _ _ _ _ _ E3'). erewrite bind_ok by reflexivity. cbn [b_memblock set_zone set_memblock].
  destruct (hand_over_frames img m fdt mb p z1 L1 Hall Hroom HF1) with (mb' := mb') as (z2 & F & L2 & E4 & HF2 & Hs2 & Hfr2 & HxF); try done.
  { intros i. by apply empties_not_partial. }
  assert (E4' : on_zone (hand_over mb') (set_zone z1 (set_memblock mb' b)) = Some (inl tt, set_zone z2 (set_memblock mb' b))).
  { unfold on_zone. cbn [b_zone set_zone]. by rewrite E4. }
  rewrite (bind_ok _ _ _ _ _ E4'). erewrite bind_ok by reflexivity. cbn [b_zone set_zone].
  destruct (zone_up z2 L2 m (b_caches b) F HF2) as (h & L3 & E5 & Hi & Er & Eb3 & Ex3).
  { intros c'. rewrite Hs2. by apply empties_no_partial. }
  { intros c' Hc'. apply (fr_valid _ _ _ Hfr2), Hv1, (ar_partials _ Hb), Hc'. }
  { apply (no_slab z1 z2 Hz1 Hfr2). intros i Hpg. pose proof HF1 as (B1 & Hz & _). pose proof HF2 as (B2 & Hz' & _).
    apply (zi_dom _ _ _ Hz i). rewrite <- (fr_max _ _ _ Hfr2). by apply (zi_dom _ _ _ Hz' i). }
  { by rewrite (fr_base _ _ _ Hfr2). } { by rewrite (fr_max _ _ _ Hfr2). } { apply Hb. }
  assert (E5' : on_heap kmem_cache_init (set_zone z2 (set_memblock mb' b)) = Some (inl tt, set_heap h (set_zone z2 (set_memblock mb' b)))).
  { unfold on_heap, b_heap. cbn [b_zone set_zone b_caches set_memblock b_kernel]. fold m. by rewrite E5. }
  rewrite (bind_ok _ _ _ _ _ E5').
  pose proof HF2 as (_ & _ & _ & Ec2). pose proof Hi as [Hw _]. pose proof (hw_zone _ _ _ _ _ _ Hw) as HFh. pose proof HFh as (_ & _ & _ & Ec3).
  pose proof (zone_free_size _ _ _ HFh) as Hsz. rewrite Ex3 in Hsz. assert (Hsz' : Z.of_nat (size F) <= 0x8000) by exact Hsz.
  erewrite bind_ok by reflexivity. erewrite bind_ok by (unfold lift; rewrite report_reserved_all by apply Hwf'; reflexivity).
  do 2 (erewrite bind_ok by reflexivity). exists p. eexists _, F. split; [reflexivity|]. split.
  - split; [done|]. intros q Hq. apply Hlow. by apply (reserved_fits img m fdt).
  - done.
  - exists L3. unfold b_heap. cbn [b_zone b_caches b_kernel set_heap Kernel.ram Kernel.set_ram emit_to]. destruct h. exact Hi.
  - done.
  - exists (Memblock.live (reserved mb')). split; [apply (mb_reserved _ Hwf')|]. split.
    + intros x. fold (covered (reserved mb') x). rewrite Hcov, (ra_reserved _ _ _ _ Hall). done.
    + unfold nr_free_pages. cbn [b_zone b_kernel set_heap set_memblock set_zone]. rewrite Ec2, Ec3. unfold PAGE_SHIFT.
      rewrite Z.shiftl_mul_pow2 by lia. change (2 ^ (12 - 10)) with 4. rewrite (u64_id (size F * 4)) by (unfold is_u64; lia). fold (tot_event (size F)).
      rewrite Er. unfold emit_to, Kernel.set_ram. cbn. by rewrite <- !app_assoc.
Qed.

End mem_init.

(** The heap invariant does not depend on the contents of memory while
    nothing is allocated. *)
Lemma heap_inv_ram {S} `{!ListStore node S, !ListStoreLaws node S} F (h : heap S) F' L m :
  heap_inv F h F' L ∅ ∅ -> (forall a n, mapped (Slab.ram h) a n -> mapped m a n) -> heap_inv F (Slab.set_ram m h) F' L ∅ ∅.
Proof.
  intros [[Hz Ha Hc Hp Hps Hm _ Hl Hf Hsp Hsu Hlu Hla] Ht] Hmap. split; [|done]. split; try done.
  intros i Hi. cbn. by apply Hmap, Hm.
Qed.

Lemma start_ready_emit starts ends bss k es : start_ready starts ends bss k -> start_ready starts ends bss (emit_to es k).
Proof. intros [? ? ? ?]. by split. Qed.

(** The state in which application 0 is entered. *)
Record started {S} `{!ListStore node S, !ListStoreLaws node S} (c : cpu) (img : image) (fdt : Z) (bss : list (list Z)) (b b' : boot S)
    (map : Z) (F : gset Z) (L : gmap node (list node)) : Prop := {
  st_kernel : kernel_ok (b_kernel b');
  st_heap : heap_inv F (b_heap b') F L ∅ ∅;
  st_frames p : p ∈ F <-> forall x, p * PAGE_SIZE <= x < (p + 1) * PAGE_SIZE ->
      in_ram x /\ ~ busy img (Kernel.ram (b_kernel b)) fdt x /\ ~ map <= x < map + map_size;
  st_apps (i : nat) bs : bss !! i = Some bs -> tasks (b_kernel b') !! i = Some (loaded_task i (length bs) zero_task) /\ in_slot (Kernel.ram (b_kernel b')) i bs;
  st_below x : x < __va APP_FIRST -> Kernel.ram (b_kernel b') !! x = Kernel.ram (b_kernel b) !! x;
  st_mapped a n : mapped (Kernel.ram (b_kernel b)) a n -> mapped (Kernel.ram (b_kernel b')) a n;
}.

Lemma start_kernel_result {S} `{!ListStore node S, !ListStoreLaws node S} c img fdt sctlr vbar stack starts ends bss (b : boot S) waker cfg ctlr rest :
  image_ok img -> at_reset b -> (exists q, room img (Kernel.ram (b_kernel b)) fdt q) ->
  start_ready starts ends bss (b_kernel b) -> current (b_kernel b) = 0 ->
  timer_reads waker cfg ctlr (mmio_reads (b_kernel b)) rest -> 100 <= cntfrq_el0 c < 2 ^ 31 * 100 ->
  exists b' map F L, start_kernel c img fdt sctlr vbar stack starts ends b = Some (inl 0, b') /\ started c img fdt bss b b' map F L.
Proof.
  intros Himg Hb [q Hq] Hr Hc Ht Hf. unfold start_kernel. erewrite bind_ok by reflexivity. erewrite bind_ok by reflexivity.
  match goal with |- context [bind _ _ ?s] => set (b1 := s) end.
  assert (Hb1 : at_reset b1) by (destruct Hb; by split). assert (Em : Kernel.ram (b_kernel b1) = Kernel.ram (b_kernel b)) by reflexivity.
  destruct (mem_init_result c img fdt b1 Himg Hb1) as [(map & b2 & F & E & [Hroom HF (L & Hheap) Hz (l & _ & _ & Hk)])|(b2 & _ & Hno & _)];
    [|exfalso; rewrite Em in Hno; by apply (Hno q)].
  rewrite (bind_ok _ _ _ _ _ E). rewrite Em in *.
  assert (Hk2 : exists es, b_kernel b2 = emit_to es (b_kernel b)) by (rewrite Hk; eexists; unfold b1; cbn [b_kernel]; by rewrite !emit_app).
  clear Hk E Hb1. clearbody b1. destruct Hk2 as [es Hk].
  destruct (start_apps_result c starts ends bss (b_kernel b2) waker cfg ctlr rest) as (k' & E & [Hok _ Himgs Hbelow Hmap _]); [rewrite Hk; by apply start_ready_emit|by rewrite Hk..|done|].
  eexists _, map, F, L. split; [unfold on_kernel; rewrite E; reflexivity|].
  split; [done| |done|exact Himgs| |]; cbn [b_kernel].
  - apply (heap_inv_ram F (b_heap b2) F L (Kernel.ram k') Hheap). exact Hmap.
  - intros x Hx. rewrite Hbelow by done. by rewrite Hk.
  - intros a n Ha. apply Hmap. by rewrite Hk.
Qed.

(** ** The properties *)

Section properties.
Context {S : Type} `{!ListStore node S, !ListStoreLaws node S}.
Implicit Types (b : boot S).

(** C9. [mem_init] from the state at reset, for every kernel image and every
    value of the device tree pointer: it panics exactly when no aligned place
    in RAM outside the kernel, the application slots and the device tree has
    room for the page descriptors.  Otherwise the descriptors are at the
    lowest such place, the page allocator owns exactly the frames of RAM that
    share no byte with the kernel, the slots, the device tree or the
    descriptors, the heap is ready on these frames with nothing allocated, and
    the messages list exactly the reserved ranges and the number of frames. *)
Theorem mem_init_frees_unused_memory c img fdt b : image_ok img -> at_reset b ->
  exists o b', mem_init c img fdt b = Some (o, b') /\
    match o with
    | inl _ => exists map F, memory_up img fdt b map b' F
    | inr h => h = Panicked /\ (forall q, ~ room img (Kernel.ram (b_kernel b)) fdt q) /\ b_kernel b' = emit_to (panic_events c) (b_kernel b)
    end.
Proof.
  intros Himg Hb. destruct (mem_init_result c img fdt b Himg Hb) as [(map & b' & F & E & Hup)|(b' & E & Hno & Hk)].
  - exists (inl tt), b'. split; [done|]. by exists map, F.
  - by exists (inr Panicked), b'.
Qed.

(** The boot, end to end: from the state at reset with the payloads in
    place, a device that answers and room for the page descriptors,
    [start_kernel] prints its banner, brings up memory, loads the three
    applications, programs the timer and enters application 0 in a state that
    satisfies the invariant of the trap path, with the heap's invariant holding
    of the same memory and no frame of an application slot among the heap's. *)
Theorem start_kernel_boots c img fdt sctlr vbar stack starts ends bss b waker cfg ctlr rest :
  image_ok img -> at_reset b -> (exists q, room img (Kernel.ram (b_kernel b)) fdt q) ->
  start_ready starts ends bss (b_kernel b) -> current (b_kernel b) = 0 ->
  timer_reads waker cfg ctlr (mmio_reads (b_kernel b)) rest -> 100 <= cntfrq_el0 c < 2 ^ 31 * 100 ->
  exists b' map F L, start_kernel c img fdt sctlr vbar stack starts ends b = Some (inl 0, b') /\
    kernel_ok (b_kernel b') /\ heap_inv F (b_heap b') F L ∅ ∅ /\
    (forall p, p ∈ F <-> forall x, p * PAGE_SIZE <= x < (p + 1) * PAGE_SIZE ->
      in_ram x /\ ~ busy img (Kernel.ram (b_kernel b)) fdt x /\ ~ map <= x < map + map_size) /\
    (forall (i : nat) bs, bss !! i = Some bs -> in_slot (Kernel.ram (b_kernel b')) i bs) /\
    forall x, x < __va APP_FIRST -> Kernel.ram (b_kernel b') !! x = Kernel.ram (b_kernel b) !! x.
Proof.
  intros Himg Hb Hq Hr Hc Ht Hf. destruct (start_kernel_result c img fdt sctlr vbar stack starts ends bss b waker cfg ctlr rest) as (b' & map & F & L & E & [Hk Hh HF Ha Hx _]); try done.
  exists b', map, F, L. split_and!; try done. intros i bs Hbs. by apply Ha.
Qed.

End properties.

(** ** Instances *)

(** A kernel up to the slots, its payloads at its end, and a device tree of
    64 KiB in the middle of RAM. *)
Definition reset_image : image := Image 0x40080000 0x40090000 0x40090000 0x40098000 0x41000000.

Definition sample_fdt : Z := 0x44000000.

Definition sample_blob : list Z := [0xd0; 0x0d; 0xfe; 0xed; 0; 1; 0; 0].

Definition reset_ram : mem :=
  write (__va sample_fdt) sample_blob (write (__va APP_FIRST - 6) [1; 2; 3; 4; 5; 6] (gset_to_gmap 0 (rng (__va PHYS_OFFSET) (__va PHYS_OFFSET + RAM_SIZE)))).

Definition reset : boot (lheap node) := Boot empty_memblock boot_zone ∅ (Kernel (replicate 3 zero_task) 0 0 0 boot_reads reset_ram []).

Lemma reset_image_ok : image_ok reset_image.
Proof. split; [reflexivity|cbn; unfold APP_FIRST; lia|]. cbn. change PAGE_SIZE with 4096. split_and!; [exists 0x40090|exists 0x40090|exists 0x40098]; reflexivity. Qed.

Lemma reset_ram_mapped : ram_mapped reset_ram.
Proof.
  unfold ram_mapped, reset_ram. apply mapped_write, mapped_write. intros x Hx. exists 0. apply lookup_gset_to_gmap_Some. split; [|reflexivity]. by apply elem_of_rng.
Qed.

Lemma reset_ok : at_reset reset.
Proof.
  split; cbn [b_memblock b_zone b_kernel reset Kernel.ram].
  - reflexivity.
  - exact boot_lists_rep.
  - exact boot_lists_valid.
  - exact boot_partials_valid.
  - unfold reset_ram. apply mem_ok_write; [apply mem_ok_write|]; [|by repeat constructor..]. intros x v Hv.
    apply lookup_gset_to_gmap_Some in Hv as [_ <-]. unfold is_byte. lia.
  - exact reset_ram_mapped.
Qed.

Lemma reset_blob : bytes_at reset_ram (__va sample_fdt) sample_blob.
Proof. unfold reset_ram. apply bytes_at_written. Qed.

Lemma reset_words : dtb_word reset_ram sample_fdt = FDT_MAGIC /\ dtb_word reset_ram (sample_fdt + 4) = 0x10000.
Proof.
  assert (E : forall o : nat, (o + 4 <= 8)%nat -> load reset_ram (__va sample_fdt + Z.of_nat o) 4 = Some (take 4 (drop o sample_blob))).
  { intros o Ho. assert (Hl : length (take 4 (drop o sample_blob)) = 4%nat) by (rewrite length_take, length_drop; change (length sample_blob) with 8%nat; lia).
    rewrite <- Hl at 1. apply load_bytes, bytes_at_sub, reset_blob. }
  unfold dtb_word. split.
  - replace (__va sample_fdt) with (__va sample_fdt + Z.of_nat 0) by apply Z.add_0_r. rewrite (E 0%nat) by lia. vm_compute. reflexivity.
  - replace (__va (sample_fdt + 4)) with (__va sample_fdt + Z.of_nat 4) by (vm_compute; reflexivity). rewrite (E 4%nat) by lia. vm_compute. reflexivity.
Qed.

Lemma reset_dtb : dtb_size reset_ram sample_fdt = 0x10000.
Proof. unfold dtb_size, dtb_here. destruct reset_words as [-> ->]. reflexivity. Qed.

Lemma reset_room : room reset_image reset_ram sample_fdt 0x42000000.
Proof.
  split; [by exists 0x8400000|]. intros x Hx. assert (Hx' : 0x42000000 <= x < 0x42180000) by exact Hx. clear Hx. unfold busy, in_ram.
  rewrite reset_dtb. change (_end reset_image) with 0x41000000. unfold sample_fdt, PHYS_OFFSET, RAM_SIZE, APP_FIRST, APP_COUNT, APP_SLOT_SIZE. lia.
Qed.

Lemma reset_ready : start_ready payload_starts payload_ends payload_bytes (b_kernel reset).
Proof.
  apply sample_ready; [reflexivity| |].
  - change (Kernel.ram (b_kernel reset)) with reset_ram. unfold reset_ram. apply bytes_at_write; [|apply bytes_at_written].
    assert (__va APP_FIRST < __va sample_fdt) by (by vm_compute). cbn [length]. lia.
  - intros i Hi. change (Kernel.ram (b_kernel reset)) with reset_ram. unfold APP_COUNT in Hi. apply (ram_mapped_at _ _ _ reset_ram_mapped);
      unfold slot, APP_FIRST, APP_SLOT_SIZE, PHYS_OFFSET, RAM_SIZE; lia.
Qed.

Lemma mem_init_frees_unused_memory_witness :
  exists map b' F, mem_init boot_cpu reset_image sample_fdt reset = Some (inl tt, b') /\ memory_up reset_image sample_fdt reset map b' F.
Proof.
  destruct (mem_init_frees_unused_memory boot_cpu reset_image sample_fdt reset reset_image_ok reset_ok) as ([[]|h] & b' & E & H).
  - destruct H as (map & F & Hup). exists map, b', F. split; [exact E|exact Hup].
  - destruct H as (_ & Hno & _). destruct (Hno 0x42000000 reset_room).
Defined.

Lemma start_kernel_boots_witness :
  exists b', start_kernel boot_cpu reset_image sample_fdt 0 0 0 payload_starts payload_ends reset = Some (inl 0, b') /\ kernel_ok (b_kernel b').
Proof.
  destruct (start_kernel_boots boot_cpu reset_image sample_fdt 0 0 0 payload_starts payload_ends payload_bytes reset 6 0x20000000 0x10 []
    reset_image_ok reset_ok) as (b' & map & F & L & E & Hok & _).
  - exists 0x42000000. exact reset_room.
  - exact reset_ready.
  - reflexivity.
  - exact boot_reads_ok.
  - cbn. lia.
  - exists b'. split; [exact E|exact Hok].
Defined.
