(* ===== verification/PrimeCount.v ===== *)
(** * Counting primes

    The number of primes up to a bound by Legendre's recurrence on the numbers
    that no prime of a list divides, cut off where a table of small primes
    answers.  The recurrence is short enough to be evaluated. *)

From Stdlib Require Import Znumtheory.
From S2P Require Import Prelude.

#[global] Instance prime_decision n : Decision (prime n) := prime_dec n.

(** The primes up to [n]. *)
Definition primes_to (n : Z) : list Z := filter prime (seqZ 2 (n - 1)).

(** How many numbers from 1 to [n] satisfy [P]. *)
Fixpoint count (P : Z -> bool) (n : nat) : nat :=
  match n with
  | O => O
  | Datatypes.S m => (count P m + if P (Z.of_nat n) then 1 else 0)%nat
  end.

(** No number of [ps] divides [n]. *)
Definition free (ps : list Z) (n : Z) : bool := forallb (fun p => negb (n mod p =? 0)) ps.

Definition rough (ps : list Z) (x : Z) : nat := count (free ps) (Z.to_nat x).

(** The number of primes up to [x], and in a list. *)
Definition pi (x : Z) : nat := count (fun n => bool_decide (prime n)) (Z.to_nat x).

Fixpoint rank (l : list Z) (x : Z) : nat :=
  match l with
  | [] => O
  | q :: l => if q <=? x then Datatypes.S (rank l x) else O
  end.

(** The recurrence; [ps] are the primes up to its head, the largest first, and
    [table] the primes below [limit]. *)
Fixpoint phi (table : list Z) (limit : Z) (ps : list Z) (x : Z) : Z :=
  match ps with
  | [] => x
  | p :: ps' =>
      if x =? 0 then 0
      else if (x <? p * p) && (x <? limit) then 1 + Z.of_nat (rank table x - length ps)
      else phi table limit ps' x - phi table limit ps' (x / p)
  end.

(** Primality below 48 * 48, and the primes of a range. *)
Definition small_prime (n : Z) : bool := forallb (fun d => (n <=? d) || negb (n mod d =? 0)) (seqZ 2 46).

Definition small_primes (n : Z) : list Z := filter (fun i => small_prime i = true) (seqZ 2 (n - 1)).

(** ** Divisors *)

Lemma prime_two n : prime n -> 2 <= n.
Proof. intros []. lia. Qed.

Lemma factor_of n : 2 <= n -> ~ prime n -> exists d, 2 <= d /\ d * d <= n /\ (d | n).
Proof.
  intros Hn Hp. destruct (not_prime_divide n ltac:(lia) Hp) as (m & Hm & [k Hk]). assert (1 < k) by nia.
  destruct (decide (m <= k)); [exists m|exists k]; (split; [lia|split; [nia|]]); [by exists k|by exists m; lia].
Qed.

(** Without a divisor up to the root. *)
Lemma divisor_below c : 2 <= c -> (forall d, 2 <= d -> d * d <= c -> ~ (d | c)) -> prime c.
Proof.
  intros Hc Hd. destruct (decide (prime c)) as [|Hp]; [done|]. destruct (factor_of c Hc Hp) as (d & H1 & H2 & H3). by destruct (Hd d H1 H2).
Qed.

Lemma prime_factor n : 2 <= n -> exists q, prime q /\ (q | n).
Proof.
  intros Hn. assert (H0 : 0 <= n) by lia. revert Hn. pattern n. apply Z_lt_induction; [|exact H0]. clear n H0. intros n IH Hn.
  destruct (decide (prime n)) as [Hp|Hp]; [by exists n|]. destruct (factor_of n Hn Hp) as (d & Hd & Hdd & Hdn).
  destruct (IH d) as (q & Hq & Hqd); [nia|lia|]. exists q. split; [done|]. by apply (Z.divide_trans _ d).
Qed.

Lemma small_factor n : 2 <= n -> ~ prime n -> exists q, prime q /\ (q | n) /\ q * q <= n.
Proof.
  intros Hn Hp. destruct (factor_of n Hn Hp) as (d & Hd & Hdd & Hdn). destruct (prime_factor d Hd) as (q & Hq & Hqd).
  exists q. split; [done|]. split; [by apply (Z.divide_trans _ d)|]. pose proof (prime_two q Hq). pose proof (Z.divide_pos_le q d ltac:(lia) Hqd). nia.
Qed.

Lemma divides_prime q n : prime q -> prime n -> (q | n) -> q = n.
Proof.
  intros Hq Hn Hd. pose proof (prime_two q Hq). pose proof (prime_two n Hn). apply prime_alt in Hn. destruct (Z.divide_prime_r q n Hn Hd); lia.
Qed.

Lemma free_spec ps n : free ps n = true <-> forall p, p ∈ ps -> n mod p <> 0.
Proof.
  unfold free. rewrite forallb_forall. setoid_rewrite negb_true_iff. setoid_rewrite Z.eqb_neq. by setoid_rewrite <- list_elem_of_In.
Qed.

Lemma divides_mod q n : prime q -> n mod q = 0 <-> (q | n).
Proof. intros Hq. pose proof (prime_two q Hq). apply Z.mod_divide. lia. Qed.

(** ** Counting *)

Lemma count_ext P Q n : (forall i, 1 <= i <= Z.of_nat n -> P i = Q i) -> count P n = count Q n.
Proof.
  induction n as [|n IH]; intros H; [done|]. cbn [count]. rewrite IH by (intros; apply H; lia). by rewrite (H (Z.of_nat (Datatypes.S n))) by lia.
Qed.

Lemma count_le P m n : (m <= n)%nat -> (count P m <= count P n)%nat.
Proof. induction 1 as [|n Hn IH]; [done|]. cbn [count]. lia. Qed.

Lemma count_split P Q n : (count (fun i => P i && Q i) n + count (fun i => negb (P i) && Q i) n)%nat = count Q n.
Proof. induction n as [|n IH]; [done|]. cbn [count]. rewrite <- IH. destruct (P _), (Q _); cbn; lia. Qed.

Lemma count_multiples P p n : 0 < p -> count (fun i => (i mod p =? 0) && P i) n = count (fun j => P (p * j)) (Z.to_nat (Z.of_nat n / p)).
Proof.
  intros Hp. induction n as [|n IH]; [by rewrite Z.div_0_l by lia|]. cbn [count]. rewrite IH.
  pose proof (Z.div_mod (Z.of_nat n) p ltac:(lia)) as E. pose proof (Z.mod_pos_bound (Z.of_nat n) p Hp). set (q := Z.of_nat n / p) in *. set (r := Z.of_nat n mod p) in *.
  assert (0 <= q) by (unfold q; apply Z.div_pos; lia). replace (Z.of_nat (Datatypes.S n)) with (p * q + (r + 1)) by lia.
  destruct (Z.eqb_spec (r + 1) p) as [Er|Er].
  - rewrite Er. replace (p * q + p) with (p * (q + 1)) by lia. rewrite (Z.mul_comm p (q + 1)), Z.mod_mul, Z.div_mul by lia. change (0 =? 0) with true. cbn [andb].
    replace (Z.to_nat (q + 1)) with (Datatypes.S (Z.to_nat q)) by lia. cbn [count]. rewrite (Z.mul_comm (q + 1)). by replace (Z.of_nat (Datatypes.S (Z.to_nat q))) with (q + 1) by lia.
  - rewrite (Z.mul_comm p q), Z.div_add_l, (Z.add_comm (q * p)), Z.mod_add by lia. rewrite (Z.mod_small (r + 1) p), (Z.div_small (r + 1) p) by lia.
    rewrite (proj2 (Z.eqb_neq (r + 1) 0)) by lia. cbn [andb]. by rewrite Z.add_0_r, Nat.add_0_r.
Qed.

(** Legendre's recurrence. *)
Lemma rough_step p ps x : 0 <= x -> prime p -> (forall q, q ∈ ps -> prime q /\ q <> p) ->
  (rough (p :: ps) x + rough ps (x / p))%nat = rough ps x.
Proof.
  intros Hx Hp Hps. pose proof (prime_two p Hp). unfold rough. rewrite <- (count_split (fun i => i mod p =? 0) (free ps) (Z.to_nat x)).
  rewrite (count_multiples (free ps) p), (Z2Nat.id x Hx) by lia. rewrite (Nat.add_comm (count (free (p :: ps)) _)).
  apply (f_equal2 Nat.add); [|reflexivity]. apply count_ext. intros j Hj. apply eq_true_iff_eq. rewrite !free_spec. split; intros Hf q Hq; destruct (Hps q Hq) as [Hpq Hne]; specialize (Hf q Hq);
    rewrite divides_mod in * by done; intros Hd; apply Hf.
  - apply prime_alt in Hpq as Hpq'. destruct (proj1 (Z.divide_prime_mul p j q Hpq') Hd) as [Hqp|]; [|done]. by apply divides_prime in Hqp.
  - by apply Z.divide_mul_r.
Qed.

Definition all_primes_to (b : Z) (ps : list Z) : Prop := forall q, q ∈ ps <-> prime q /\ q <= b.

Lemma pi_from b x : 0 <= b -> count (fun n => bool_decide (prime n /\ b < n)) (Z.to_nat x) = (pi x - pi b)%nat.
Proof.
  intros Hb. unfold pi. generalize (Z.to_nat x) as n. intros n. induction n as [|n IH]; [done|]. cbn [count]. rewrite IH.
  destruct (decide (Z.of_nat (Datatypes.S n) <= b)) as [Hs|Hs].
  - rewrite (bool_decide_false (prime _ /\ _)) by lia. pose proof (count_le (fun i => bool_decide (prime i)) (Datatypes.S n) (Z.to_nat b) ltac:(lia)) as Hle.
    cbn [count] in Hle. lia.
  - pose proof (count_le (fun i => bool_decide (prime i)) (Z.to_nat b) n ltac:(lia)) as Hge. case_bool_decide as H1; case_bool_decide as H2; try lia; exfalso; [by destruct H1|]. apply H1. split; [done|lia].
Qed.

(** Where the recurrence is cut off. *)
Lemma rough_base b ps x : all_primes_to b ps -> 0 <= b -> 1 <= x -> x < (b + 1) * (b + 1) -> rough ps x = (1 + (pi x - pi b))%nat.
Proof.
  intros Hps Hb Hx Hlt. rewrite <- pi_from by done. unfold rough.
  rewrite (count_ext _ (fun n => (n =? 1) || bool_decide (prime n /\ b < n))).
  - assert (H : forall n, count (fun i => (i =? 1) || bool_decide (prime i /\ b < i)) (Datatypes.S n) = Datatypes.S (count (fun i => bool_decide (prime i /\ b < i)) (Datatypes.S n))).
    { intros n. induction n as [|n IH].
      - cbn [count]. rewrite bool_decide_false; [done|]. intros [Hp _]. pose proof (prime_two _ Hp). lia.
      - assert (Hs : forall P, count P (Datatypes.S (Datatypes.S n)) = (count P (Datatypes.S n) + if P (Z.of_nat (Datatypes.S (Datatypes.S n))) then 1 else 0)%nat) by reflexivity.
        rewrite !Hs, IH. rewrite (proj2 (Z.eqb_neq _ _)) by lia. cbn [orb]. lia. }
    replace (Z.to_nat x) with (Datatypes.S (Z.to_nat (x - 1))) by lia. by rewrite H.
  - intros n Hn. apply eq_true_iff_eq. rewrite free_spec, orb_true_iff, Z.eqb_eq, bool_decide_eq_true. split.
    + intros Hf. destruct (decide (n = 1)) as [|Hne]; [by left|right]. assert (Hp : prime n).
      { destruct (decide (prime n)) as [|Hnp]; [done|]. destruct (small_factor n ltac:(lia) Hnp) as (q & Hq & Hqn & Hqq). exfalso. pose proof (prime_two q Hq).
        apply (Hf q); [apply Hps; split; [done|nia]|by apply divides_mod]. }
      split; [done|]. destruct (decide (b < n)) as [|Hbn]; [done|]. exfalso. apply (Hf n); [apply Hps; split; [done|lia]|]. apply Z.mod_same. lia.
    + intros [-> |[Hp Hbn]] q Hq; apply Hps in Hq as [Hqp Hqb]; pose proof (prime_two q Hqp).
      * rewrite Z.mod_small; lia.
      * rewrite divides_mod by done. intros Hd. apply divides_prime in Hd; [lia|done|done].
Qed.

(** ** The small table *)

Lemma small_prime_correct n : 2 <= n < 48 * 48 -> small_prime n = true <-> prime n.
Proof.
  intros Hn. unfold small_prime. rewrite forallb_forall. setoid_rewrite orb_true_iff. setoid_rewrite Z.leb_le.
  setoid_rewrite negb_true_iff. setoid_rewrite Z.eqb_neq. setoid_rewrite <- list_elem_of_In. setoid_rewrite elem_of_seqZ. split.
  - intros H. destruct (decide (prime n)) as [|Hp]; [done|exfalso]. destruct (factor_of n ltac:(lia) Hp) as (d & Hd & Hdd & Hdn).
    destruct (H d) as [|Hm]; [nia|nia|]. apply Hm. by apply Z.mod_divide; [lia|].
  - intros Hp d Hd. destruct (decide (n <= d)) as [|Hlt]; [by left|right]. intros Hm. apply Z.mod_divide in Hm; [|lia].
    apply prime_alt in Hp. destruct (Z.divide_prime_r d n Hp Hm); lia.
Qed.

Lemma filter_agree {A} (P Q : A -> Prop) `{!forall x, Decision (P x), !forall x, Decision (Q x)} (l : list A) :
  (forall x, x ∈ l -> P x <-> Q x) -> filter P l = filter Q l.
Proof.
  induction l as [|x l IH]; intros Hag; [done|]. rewrite !filter_cons, IH by (intros y Hy; apply Hag; by right).
  specialize (Hag x ltac:(by left)). case_decide; case_decide; tauto.
Qed.

Lemma small_primes_correct n : 1 <= n < 48 * 48 -> small_primes n = primes_to n.
Proof. intros Hn. apply filter_agree. intros i Hi%elem_of_seqZ. apply small_prime_correct. lia. Qed.

Lemma primes_to_next n : 1 <= n -> primes_to (n + 1) = primes_to n ++ (if bool_decide (prime (n + 1)) then [n + 1] else []).
Proof.
  intros Hn. unfold primes_to. replace (n + 1 - 1) with (n - 1 + 1) by lia. rewrite seqZ_app, filter_app by lia. f_equal.
  replace (2 + (n - 1)) with (n + 1) by lia. rewrite seqZ_one, filter_cons, filter_nil. by case_bool_decide; case_decide.
Qed.

Lemma primes_to_length n : 1 <= n -> length (primes_to n) <= n.
Proof. intros Hn. unfold primes_to. pose proof (length_filter prime (seqZ 2 (n - 1))) as H. rewrite length_seqZ in H. lia. Qed.

Lemma elem_of_primes_to q n : q ∈ primes_to n <-> prime q /\ q <= n.
Proof.
  unfold primes_to. rewrite list_elem_of_filter, elem_of_seqZ. split; [intros [? ?]; split; [done|lia]|].
  intros [Hp Hq]. pose proof (prime_two q Hp). split; [done|lia].
Qed.

Lemma natlike_rule (P : Z -> Prop) : P 1 -> (forall n, 1 <= n -> P n -> P (n + 1)) -> forall n, 1 <= n -> P n.
Proof.
  intros H1 Hs n Hn. replace n with (1 + Z.of_nat (Z.to_nat (n - 1))) by lia. generalize (Z.to_nat (n - 1)) as m. clear n Hn. intros m.
  induction m as [|m IH]; [done|]. replace (1 + Z.of_nat (Datatypes.S m)) with (1 + Z.of_nat m + 1) by lia. apply Hs; [lia|done].
Qed.

Lemma pi_length n : 1 <= n -> pi n = length (primes_to n).
Proof.
  revert n. apply natlike_rule.
  - change (pi 1) with (0 + if bool_decide (prime 1) then 1 else 0)%nat. rewrite bool_decide_false; [done|]. intros Hp. pose proof (prime_two _ Hp). lia.
  - intros n Hn IH. rewrite primes_to_next, length_app, <- IH by done. unfold pi. replace (Z.to_nat (n + 1)) with (Datatypes.S (Z.to_nat n)) by lia. cbn [count].
    replace (Z.of_nat (Datatypes.S (Z.to_nat n))) with (n + 1) by lia. by case_bool_decide.
Qed.

Lemma rank_app l l' x : Forall (fun q => q <= x) l -> Forall (fun q => x < q) l' -> rank (l ++ l') x = length l.
Proof.
  induction 1 as [|q l Hq Hl IH]; intros Hl'; cbn [app rank].
  - destruct Hl' as [|q l' Hq _]; [done|]. cbn [rank]. by rewrite (proj2 (Z.leb_gt _ _)) by lia.
  - rewrite (proj2 (Z.leb_le _ _)) by lia. cbn [length]. by rewrite IH.
Qed.

Lemma rank_primes limit x : 1 <= x < limit -> rank (primes_to (limit - 1)) x = pi x.
Proof.
  intros Hx. rewrite pi_length by lia. unfold primes_to at 1. replace (limit - 1 - 1) with ((x - 1) + (limit - 1 - x)) by lia.
  rewrite seqZ_app, filter_app by lia. apply rank_app; apply Forall_forall; intros q [_ Hq%elem_of_seqZ]%list_elem_of_filter; lia.
Qed.

(** ** The recurrence is right *)

(** The primes up to the head, and so the tail. *)
Fixpoint descending (ps : list Z) : Prop :=
  match ps with
  | [] => True
  | p :: ps' => prime p /\ ps = reverse (primes_to p) /\ descending ps'
  end.

Lemma descending_primes n : 1 <= n -> descending (reverse (primes_to n)).
Proof.
  revert n. apply natlike_rule; [done|]. intros n Hn IH. rewrite primes_to_next by done. case_bool_decide as Hp; [|by rewrite app_nil_r].
  rewrite reverse_app. change (reverse [n + 1]) with [n + 1]. split; [done|]. split; [|done].
  rewrite primes_to_next by done. rewrite bool_decide_true by done. by rewrite reverse_app.
Qed.

Lemma phi_correct limit ps x : descending ps -> 0 <= x -> phi (primes_to (limit - 1)) limit ps x = rough ps x.
Proof.
  revert x. induction ps as [|p ps IH]; intros x Hps Hx; cbn [phi].
  - unfold rough. assert (H : forall n, count (free []) n = n) by (induction n as [|n IH]; [done|cbn [count]; rewrite IH; cbn; lia]). rewrite H. lia.
  - destruct Hps as (Hp & E & Hd). pose proof (prime_two p Hp) as Hp2. assert (Hin : forall q, q ∈ p :: ps <-> prime q /\ q <= p) by (intros q; rewrite E, elem_of_reverse; apply elem_of_primes_to).
    destruct (Z.eqb_spec x 0) as [->|Hx0]; [done|]. destruct ((x <? p * p) && (x <? limit)) eqn:Ec.
    + rewrite andb_true_iff, !Z.ltb_lt in Ec. rewrite (rough_base p) by (done || nia). rewrite rank_primes, (pi_length p), E, length_reverse by lia. lia.
    + assert (Hnd : NoDup (p :: ps)) by (rewrite E, reverse_Permutation; apply NoDup_filter, NoDup_seqZ).
      rewrite !IH by (done || (apply Z.div_pos; lia)). rewrite <- (rough_step p ps x); [lia|lia|done|].
      intros q Hq. split; [apply Hin; by right|]. apply NoDup_cons in Hnd as [Hn _]. by intros ->.
Qed.

(** ** The primes up to 100000 *)

Definition table : list Z := Eval vm_compute in small_primes 2208.

Definition roots : list Z := Eval vm_compute in reverse (small_primes 316).

Lemma table_primes : table = primes_to (2209 - 1).
Proof. rewrite <- small_primes_correct by lia. vm_compute. reflexivity. Qed.

Lemma roots_primes : roots = reverse (primes_to 316).
Proof. rewrite <- small_primes_correct by lia. vm_compute. reflexivity. Qed.

Lemma phi_value : phi table 2209 roots 100000 = 9528.
Proof. vm_compute. reflexivity. Qed.

Lemma primes_to_100000 : Z.of_nat (length (primes_to 100000)) = 9592.
Proof.
  assert (Hd : descending roots) by (rewrite roots_primes; by apply descending_primes).
  pose proof (phi_correct 2209 roots 100000 Hd ltac:(lia)) as E. rewrite <- table_primes, phi_value in E.
  rewrite (rough_base 316) in E; [|intros q; rewrite roots_primes, elem_of_reverse; apply elem_of_primes_to|lia..].
  assert (E2 : pi 316 = 65%nat) by (rewrite pi_length, <- (length_reverse (primes_to 316)), <- roots_primes by lia; reflexivity).
  rewrite E2, pi_length in E by lia. set (n := length (primes_to 100000)) in *. clearbody n. lia.
Qed.
