(* ===== verification/Apps.v ===== *)
(** * The applications ([apps/])

    What an application does to the outside world is its [log] calls; a call
    is the bytes it passes.  A string literal is its bytes with the final
    NUL, an array on the stack is a list whose first contents are a
    parameter, and an access outside of it is [None]. *)

From Stdlib Require Import Ascii String.
From S2P Require Import Prelude MemoryH Mem StringC Vsprintf.

(** ** [app.h] *)

Definition put (l : list Z) (i v : Z) : option (list Z) :=
  assert* (0 <=? i) && (i <? length l) in Some (<[Z.to_nat i := v]> l).

Definition get (l : list Z) (i : Z) : option Z := assert* 0 <=? i in l !! Z.to_nat i.

(** [syscall(__NR_log, ...)] of these bytes, after the calls [logs]. *)
Definition syscall_log (logs : list (list Z)) (bytes : list Z) : list (list Z) := logs ++ [bytes].

Definition text_round (text : list Z) (length : Z) : option (Z + Z) :=
  let* c := get text length in
  Some (if c =? 0 then inr length else inl (length + 1)).

Definition log_text (text : list Z) (logs : list (list Z)) : option (list (list Z)) :=
  let* length := iter (length text) (text_round text) 0 in
  Some (syscall_log logs (take (Z.to_nat length) text)).

(** The three loops of [log_value]. *)
Definition label_round (label : list Z) (s : Z * list Z) : option ((Z * list Z) + (Z * list Z)) :=
  let '(length, buffer) := s in
  let* c := get label length in
  if negb (c =? 0) && (length <? 74) then
    let* buffer := put buffer length c in
    Some (inl (length + 1, buffer))
  else Some (inr (length, buffer)).

Definition digits_round (s : Z * Z * list Z) : option ((Z * Z * list Z) + (Z * list Z)) :=
  let '(value, count, digits) := s in
  let* digits := put digits count (u8 (48 + value mod 10)) in
  let value := value / 10 in
  Some (if value =? 0 then inr (count + 1, digits) else inl (value, count + 1, digits)).

Definition number_round (digits : list Z) (s : Z * Z * list Z) : option ((Z * Z * list Z) + (Z * list Z)) :=
  let '(length, count, buffer) := s in
  if count =? 0 then Some (inr (length, buffer))
  else
    let* d := get digits (count - 1) in
    let* buffer := put buffer length d in
    Some (inl (length + 1, count - 1, buffer)).

(** [buffer] and [digits] are what the arrays hold at first. *)
Definition log_value (buffer digits label : list Z) (value : Z) (logs : list (list Z)) : option (list (list Z)) :=
  let* '(length, buffer) := iter 96 (label_round label) (0, buffer) in
  let* '(count, digits) := iter 96 digits_round (value, 0, digits) in
  let* '(length, buffer) := iter 96 (number_round digits) (length, count, buffer) in
  let* buffer := put buffer length 10 in
  Some (syscall_log logs (take (Z.to_nat (length + 1)) buffer)).

(** ** The programs *)

Definition literal (s : String.string) : list Z := bytes_of s ++ [0].

Section programs.

(** What the stack holds when [log_value] is called for a value. *)
Context (buffer digits : Z -> list Z).

Definition value_of (label : String.string) (value : Z) (logs : list (list Z)) : option (list (list Z)) :=
  log_value (buffer value) (digits value) (literal label) value logs.

(** [checksum.c]; the state is [number], [checksum] and the calls. *)
Definition checksum_round (s : Z * Z * list (list Z)) : option ((Z * Z * list (list Z)) + (Z * list (list Z))) :=
  let '(number, checksum, logs) := s in
  if number <? 4000000 then
    let checksum := u32 (checksum + Z.land number 255) in
    let* logs := if u32 (number + 1) mod 1000000 =? 0 then value_of "checksum progress=" (u32 (number + 1)) logs else Some logs in
    Some (inl (u32 (number + 1), checksum, logs))
  else Some (inr (checksum, logs)).

Definition checksum_main : option (Z * list (list Z)) :=
  let* logs := log_text (literal "checksum start
") [] in
  let* '(checksum, logs) := iter (rounds 4000000) checksum_round (0, 0, logs) in
  let* logs := value_of "checksum result=" checksum logs in
  Some (if checksum =? 510000000 then 0 else 1, logs).

(** [sequence.c] *)
Definition sequence_round (s : Z * Z * list (list Z)) : option ((Z * Z * list (list Z)) + (Z * list (list Z))) :=
  let '(number, total, logs) := s in
  if number <=? 3000000 then
    let total := u64 (total + number) in
    let* logs := if number mod 1000000 =? 0 then value_of "sequence progress=" number logs else Some logs in
    Some (inl (u64 (number + 1), total, logs))
  else Some (inr (total, logs)).

Definition sequence_main : option (Z * list (list Z)) :=
  let* logs := log_text (literal "sequence start
") [] in
  let* '(total, logs) := iter (rounds 3000000) sequence_round (1, 0, logs) in
  let* logs := value_of "sequence result=" total logs in
  Some (if total =? 4500001500000 then 0 else 1, logs).

(** [primes.c]: the loop over the divisors, and the loop over the
    candidates. *)
Definition divisor_round (candidate divisor : Z) : option (Z + bool) :=
  if u32 (divisor * divisor) <=? candidate then
    if candidate mod divisor =? 0 then Some (inr false) else Some (inl (u32 (divisor + 1)))
  else Some (inr true).

Definition is_prime (candidate : Z) : option bool := iter (rounds 100000) (divisor_round candidate) 2.

Definition primes_round (s : Z * Z * list (list Z)) : option ((Z * Z * list (list Z)) + (Z * list (list Z))) :=
  let '(candidate, count, logs) := s in
  if candidate <=? 100000 then
    let* prime := is_prime candidate in
    let count := u32 (count + if (prime : bool) then 1 else 0) in
    let* logs := if candidate mod 25000 =? 0 then value_of "primes progress=" candidate logs else Some logs in
    Some (inl (u32 (candidate + 1), count, logs))
  else Some (inr (count, logs)).

Definition primes_main : option (Z * list (list Z)) :=
  let* logs := log_text (literal "primes start
") [] in
  let* '(count, logs) := iter (rounds 100000) primes_round (2, 0, logs) in
  let* logs := value_of "primes result=" count logs in
  Some (if count =? 9592 then 0 else 1, logs).

End programs.
