(* ===== verification/AppsSpec.v ===== *)
(** * The applications: properties

    [log_value] stays inside its arrays and passes the text it means to; the
    three programs print their progress and exit with 0 exactly when their
    result is right. *)

From Stdlib Require Import Ascii String Znumtheory.
From S2P Require Import Prelude PrimeCount MemoryH Mem StringC Vsprintf Apps.

(** ** Decimal digits *)

(** The digits, the lowest one first; a number below [10 ^ n]. *)
Fixpoint lsd (n : nat) (v : Z) : list Z :=
  match n with
  | O => []
  | Datatypes.S n => (48 + v mod 10) :: (if v / 10 =? 0 then [] else lsd n (v / 10))
  end.

Definition decimal (v : Z) : list Z := reverse (lsd 20 v).

(** The number a string of digits denotes. *)
Definition value_of_digits (ds : list Z) : Z := foldl (fun a c => a * 10 + (c - 48)) 0 ds.

Lemma lsd_value n v : 0 <= v < 10 ^ Z.of_nat n -> value_of_digits (reverse (lsd n v)) = v.
Proof.
  revert v. induction n as [|n IH]; intros v Hv; [cbn in *; lia|]. cbn [lsd]. unfold value_of_digits in *.
  rewrite reverse_cons, foldl_app. cbn [foldl]. rewrite Nat2Z.inj_succ, Z.pow_succ_r in Hv by lia. pose proof (Z.div_mod v 10 ltac:(lia)).
  destruct (Z.eqb_spec (v / 10) 0) as [E|E]; [cbn [reverse foldl]; change (foldl _ 0 (reverse [])) with 0; lia|].
  rewrite IH by (Z.div_mod_to_equations; lia). lia.
Qed.

Lemma lsd_length n v : 0 <= v < 10 ^ Z.of_nat n -> (0 < n)%nat -> (1 <= length (lsd n v) <= n)%nat.
Proof.
  revert v. induction n as [|n IH]; intros v Hv Hn; [lia|]. cbn [lsd length]. destruct (Z.eqb_spec (v / 10) 0) as [|E]; [cbn; lia|].
  rewrite Nat2Z.inj_succ, Z.pow_succ_r in Hv by lia. destruct n as [|n]; [cbn in Hv; Z.div_mod_to_equations; lia|].
  specialize (IH (v / 10)). assert (0 <= v / 10 < 10 ^ Z.of_nat (Datatypes.S n)) by (Z.div_mod_to_equations; lia). specialize (IH ltac:(done) ltac:(lia)). lia.
Qed.

Lemma lsd_last n v : 0 < v < 10 ^ Z.of_nat n -> last (lsd n v) <> Some 48.
Proof.
  revert v. induction n as [|n IH]; intros v Hv; [cbn in Hv; lia|]. cbn [lsd]. rewrite Nat2Z.inj_succ, Z.pow_succ_r in Hv by lia.
  destruct (Z.eqb_spec (v / 10) 0) as [E|E]; [cbn; intros [= H]; Z.div_mod_to_equations; lia|].
  destruct (lsd n (v / 10)) as [|d ds] eqn:El; [|rewrite last_cons_cons, <- El; apply IH; Z.div_mod_to_equations; lia].
  exfalso. destruct n; [cbn in Hv; Z.div_mod_to_equations; lia|done].
Qed.

(** ** Arrays that fill up from the start *)

Lemma put_next (l xs : list Z) c : (length xs < length l)%nat ->
  put (xs ++ drop (length xs) l) (length xs) c = Some ((xs ++ [c]) ++ drop (length (xs ++ [c])) l).
Proof.
  intros Hl. unfold put. rewrite length_app, length_drop. rewrite (proj2 (Z.leb_le _ _)), (proj2 (Z.ltb_lt _ _)) by lia. cbn [andb].
  rewrite Nat2Z.id. destruct (drop (length xs) l) as [|y ys] eqn:E.
  { apply (f_equal length) in E. rewrite length_drop in E. cbn in E. lia. }
  rewrite <- app_assoc. f_equal. rewrite insert_app_r_alt by lia. rewrite Nat.sub_diag. cbn. do 2 f_equal.
  rewrite length_app. cbn [length]. by rewrite <- drop_drop, E.
Qed.

Lemma get_at (l : list Z) (i : nat) c : l !! i = Some c -> get l i = Some c.
Proof. intros E. unfold get. rewrite (proj2 (Z.leb_le _ _)) by lia. by rewrite Nat2Z.id. Qed.

Section log_value.
Context (buffer digits : list Z).
Hypothesis (Hbuf : length buffer = 96%nat) (Hdig : length digits = 20%nat).

Definition filled (l xs : list Z) : list Z := xs ++ drop (length xs) l.

(** The label, cut after 74 characters. *)
Lemma label_loop bs (i f : nat) : Forall (fun c => c <> 0) bs -> (i <= length bs)%nat -> (i <= 74)%nat -> (74 - i < f)%nat ->
  iter f (label_round (bs ++ [0])) (Z.of_nat i, filled buffer (take i bs)) =
    Some (Z.of_nat (length (take 74 bs)), filled buffer (take 74 bs)).
Proof using Hbuf Hdig.
  intros Hnz. revert i. induction f as [|f IH]; intros i Hi H74 Hf; [lia|]. cbn [iter]. unfold label_round at 1.
  destruct (decide (i = length bs)) as [->|Hne].
  - rewrite (get_at _ _ 0) by (by rewrite list_lookup_middle). cbn [mbind option_bind]. cbn [negb andb Z.eqb].
    rewrite (firstn_all2 bs) by lia. rewrite firstn_all2 by lia. done.
  - destruct (lookup_lt_is_Some_2 bs i) as [c Hc]; [lia|]. rewrite (get_at _ _ c) by (by apply lookup_app_l_Some). cbn [mbind option_bind].
    eapply Forall_lookup_1 in Hnz as Hcz; [|exact Hc]. cbn beta in Hcz. rewrite (proj2 (Z.eqb_neq c 0) Hcz). cbn [negb andb].
    destruct (Z.ltb_spec i 74) as [Hlt|Hge].
    + assert (El : length (take i bs) = i) by (rewrite length_take; lia). unfold filled. pose proof (put_next buffer (take i bs) c ltac:(lia)) as Hp.
      rewrite El in Hp |- *. rewrite Hp. cbn [mbind option_bind]. rewrite <- (take_S_r _ _ _ Hc).
      replace (i + 1) with (Z.of_nat (Datatypes.S i)) by lia. apply IH; lia.
    + assert (i = 74%nat) as -> by lia. rewrite length_take, Nat.min_l by lia. done.
Qed.

(** The digits, the lowest one first. *)
Lemma digits_loop (n f : nat) v ds : 0 <= v < 10 ^ Z.of_nat n -> (0 < n <= f)%nat -> (length ds + n <= 20)%nat ->
  iter f digits_round (v, Z.of_nat (length ds), filled digits ds) =
    Some (Z.of_nat (length (ds ++ lsd n v)), filled digits (ds ++ lsd n v)).
Proof using Hbuf Hdig.
  revert f v ds. induction n as [|n IH]; intros f v ds Hv Hf Hl; [lia|]. destruct f as [|f]; [lia|]. cbn [iter]. unfold digits_round at 1, filled.
  rewrite put_next by lia. cbn [mbind option_bind]. rewrite Nat2Z.inj_succ, Z.pow_succ_r in Hv by lia.
  replace (u8 (48 + v mod 10)) with (48 + v mod 10) by (unfold u8; symmetry; apply Z.mod_small; Z.div_mod_to_equations; lia).
  cbn [lsd]. destruct (Z.eqb_spec (v / 10) 0) as [E|E].
  - rewrite length_app. cbn [length]. do 2 f_equal. lia.
  - replace (length ds + 1) with (Z.of_nat (length (ds ++ [48 + v mod 10]))) by (rewrite length_app; cbn; lia).
    assert (n <> 0%nat) by (intros ->; cbn in Hv; Z.div_mod_to_equations; lia).
    fold (filled digits (ds ++ [48 + v mod 10])). rewrite IH by (rewrite ?length_app; cbn [length]; Z.div_mod_to_equations; lia).
    by rewrite <- app_assoc.
Qed.

(** The digits in reverse, after the label. *)
Lemma number_loop (f c : nat) ds xs : (c <= length ds)%nat -> (c < f)%nat -> (length xs + c <= 96)%nat ->
  iter f (number_round ds) (Z.of_nat (length xs), Z.of_nat c, filled buffer xs) =
    Some (Z.of_nat (length (xs ++ reverse (take c ds))), filled buffer (xs ++ reverse (take c ds))).
Proof using Hbuf Hdig.
  revert c xs. induction f as [|f IH]; intros c xs Hc Hf Hl; [lia|]. cbn [iter]. unfold number_round at 1. destruct c as [|c].
  - rewrite Z.eqb_refl. by rewrite take_0, reverse_nil, app_nil_r.
  - rewrite (proj2 (Z.eqb_neq _ _)) by lia. destruct (lookup_lt_is_Some_2 ds c) as [d Hd]; [lia|].
    replace (Datatypes.S c - 1) with (Z.of_nat c) by lia. rewrite (get_at _ _ d Hd). cbn [mbind option_bind]. unfold filled at 1. rewrite put_next by lia. cbn [mbind option_bind].
    replace (length xs + 1) with (Z.of_nat (length (xs ++ [d]))) by (rewrite length_app; cbn; lia). fold (filled buffer (xs ++ [d])).
    rewrite IH by (rewrite ?length_app; cbn [length]; lia). rewrite (take_S_r _ _ _ Hd), reverse_snoc, <- app_assoc. done.
Qed.

Lemma log_value_result bs v logs : Forall (fun c => c <> 0) bs -> is_u64 v ->
  log_value buffer digits (bs ++ [0]) v logs = Some (logs ++ [take 74 bs ++ decimal v ++ [10]]).
Proof using Hbuf Hdig.
  intros Hnz Hv. unfold is_u64 in Hv. assert (Hv' : 0 <= v < 10 ^ Z.of_nat 20) by (change (10 ^ Z.of_nat 20) with 100000000000000000000; lia).
  pose proof (lsd_length 20 v Hv' ltac:(lia)) as Hl. pose proof (length_take bs 74) as Ht. unfold log_value.
  change (0, buffer) with (Z.of_nat 0, filled buffer (take 0 bs)). rewrite label_loop by (done || lia). cbn [mbind option_bind].
  change (v, 0, digits) with (v, Z.of_nat (length (@nil Z)), filled digits []). rewrite (digits_loop 20) by (cbn [length]; (done || lia)). cbn [mbind option_bind app].
  rewrite number_loop by (unfold filled; rewrite ?length_app; lia). unfold filled. rewrite !take_app_length. cbn [mbind option_bind]. fold (decimal v).
  assert (Hd : length (decimal v) = length (lsd 20 v)) by apply length_reverse.
  rewrite put_next by (rewrite length_app; lia). cbn [mbind option_bind]. unfold syscall_log. do 4 f_equal.
  replace (Z.to_nat (length (take 74 bs ++ decimal v) + 1)) with (length ((take 74 bs ++ decimal v) ++ [10])) by (rewrite (length_app _ [10]); cbn; lia).
  by rewrite take_app_length, <- app_assoc.
Qed.

End log_value.

(** ** The programs *)

Lemma bind_some {A B} (o : option A) (f : A -> option B) x r : o = Some x -> f x = r -> o ≫= f = r.
Proof. by intros -> <-. Qed.


(** A string that [log_value] passes whole. *)
Definition label_ok (s : String.string) : bool :=
  forallb (fun c => negb (c =? 0)) (bytes_of s) && (length (bytes_of s) <=? 74).

Definition message (label : String.string) (v : Z) : list Z := bytes_of label ++ decimal v ++ [10].

(** The progress messages up to [n]. *)
Definition report (label : String.string) (step n : Z) : list (list Z) := (fun k => message label (step * k)) <$> seqZ 1 (n / step).

Lemma nonzero_bytes s : forallb (fun c => negb (c =? 0)) (bytes_of s) = true -> Forall (fun c => c <> 0) (bytes_of s).
Proof.
  intros H. apply Forall_forall. intros c Hc. rewrite forallb_forall in H. apply list_elem_of_In, H in Hc. by bool_prop.
Qed.

Lemma log_text_result s logs : forallb (fun c => negb (c =? 0)) (bytes_of s) = true ->
  log_text (literal s) logs = Some (logs ++ [bytes_of s]).
Proof.
  intros H%nonzero_bytes. unfold log_text, literal. set (bs := bytes_of s) in *. clearbody bs.
  assert (Hloop : forall f i : nat, (i <= length bs)%nat -> (length bs - i < f)%nat -> iter f (text_round (bs ++ [0])) (Z.of_nat i) = Some (Z.of_nat (length bs))).
  { induction f as [|f IH]; intros i Hi Hf; [lia|]. cbn [iter]. unfold text_round at 1. destruct (decide (i = length bs)) as [->|Hne].
    - by rewrite (get_at _ _ 0) by (by rewrite list_lookup_middle).
    - destruct (lookup_lt_is_Some_2 bs i) as [c Hc]; [lia|]. rewrite (get_at _ _ c) by (by apply lookup_app_l_Some). cbn [mbind option_bind].
      eapply Forall_lookup_1 in H as Hcz; [|exact Hc]. cbn beta in Hcz. rewrite (proj2 (Z.eqb_neq c 0) Hcz).
      replace (i + 1) with (Z.of_nat (Datatypes.S i)) by lia. apply IH; lia. }
  pose proof (Hloop (length (bs ++ [0])) 0%nat ltac:(lia) ltac:(rewrite length_app; cbn [length]; lia)) as E. change (Z.of_nat 0) with 0 in E. rewrite E. cbn [mbind option_bind].
  by rewrite Nat2Z.id, take_app_length.
Qed.

Section programs.
Context (buffer digits : Z -> list Z).
Hypothesis (Hbuf : forall v, length (buffer v) = 96%nat) (Hdig : forall v, length (digits v) = 20%nat).

Lemma value_of_result label v logs : label_ok label = true -> is_u64 v -> value_of buffer digits label v logs = Some (logs ++ [message label v]).
Proof using Hbuf Hdig.
  intros [Hnz Hl]%andb_true_iff Hv. apply Z.leb_le in Hl. unfold value_of, literal. rewrite log_value_result; [|done|done|by apply nonzero_bytes|done].
  rewrite firstn_all2 by lia. done.
Qed.

(** One more step of a loop that reports every [step] numbers. *)
Lemma report_step label step n logs : label_ok label = true -> 0 < step -> 0 <= n -> is_u64 (n + 1) ->
  (if (n + 1) mod step =? 0 then value_of buffer digits label (n + 1) (logs ++ report label step n) else Some (logs ++ report label step n)) =
    Some (logs ++ report label step (n + 1)).
Proof using Hbuf Hdig.
  intros Hlab Hstep Hn Hu. unfold report. pose proof (Z.div_mod (n + 1) step ltac:(lia)). pose proof (Z.mod_pos_bound (n + 1) step Hstep).
  assert (0 <= (n + 1) / step) by (apply Z.div_pos; lia). destruct (Z.eqb_spec ((n + 1) mod step) 0) as [E|E].
  - rewrite value_of_result by done. assert (En : n / step = (n + 1) / step - 1) by (symmetry; apply (Z.div_unique n step _ (step - 1)); lia).
    replace ((n + 1) / step) with (n / step + 1) by lia. rewrite seqZ_app by lia. rewrite fmap_app, app_assoc.
    rewrite seqZ_one. cbn [fmap list_fmap]. do 4 f_equal. lia.
  - assert (En : n / step = (n + 1) / step) by (symmetry; apply (Z.div_unique n step _ ((n + 1) mod step - 1)); lia). by rewrite En.
Qed.

Lemma checksum_loop logs :
  iter (rounds 4000000) (checksum_round buffer digits) (0, 0, logs) = Some (510000000, logs ++ report "checksum progress=" 1000000 4000000).
Proof using Hbuf Hdig.
  destruct (iter_rule (fun s => exists n c, s = (n, c, logs ++ report "checksum progress=" 1000000 n) /\ 0 <= n <= 4000000 /\
      2 * c = (n / 256) * 65280 + (n mod 256) * (n mod 256 - 1))
    (fun r => r = (510000000, logs ++ report "checksum progress=" 1000000 4000000)) (fun s => Z.to_nat (4000000 - s.1.1)) (checksum_round buffer digits))
    with (fuel := rounds 4000000) (s := (0, 0, logs)) as (r & E & ->); [| | |exact E].
  - intros s (n & c & -> & Hn & Hc). unfold checksum_round. destruct (Z.ltb_spec n 4000000) as [Hlt|Hge].
    + left. change 255 with (Z.ones 8). rewrite Z.land_ones by lia. change (2 ^ 8) with 256. pose proof (Z.mod_pos_bound n 256 ltac:(lia)). pose proof (Z.div_mod n 256 ltac:(lia)).
      rewrite (u32_id (n + 1)) by (unfold is_u32; lia). rewrite (u32_id (c + n mod 256)) by (unfold is_u32; nia).
      rewrite report_step by first [reflexivity|unfold is_u64; lia]. cbn [mbind option_bind]. eexists. split; [done|]. split; [|cbn [fst]; lia].
      eexists _, _. split; [done|]. split; [lia|]. destruct (decide (n mod 256 = 255)) as [E|E].
      * assert ((n + 1) / 256 = n / 256 + 1) as -> by (symmetry; apply (Z.div_unique _ _ _ 0); lia).
        assert ((n + 1) mod 256 = 0) as -> by (symmetry; apply (Z.mod_unique _ _ (n / 256 + 1)); lia). lia.
      * assert ((n + 1) / 256 = n / 256) as -> by (symmetry; apply (Z.div_unique _ _ _ (n mod 256 + 1)); lia).
        assert ((n + 1) mod 256 = n mod 256 + 1) as -> by (symmetry; apply (Z.mod_unique _ _ (n / 256)); lia). lia.
    + right. assert (n = 4000000) as -> by lia. change (4000000 / 256) with 15625 in Hc. change (4000000 mod 256) with 0 in Hc.
      eexists. split; [done|]. f_equal. lia.
  - exists 0, 0. split; [by rewrite app_nil_r|]. split; [lia|done].
  - cbn [fst]. unfold rounds. lia.
Qed.

Lemma sequence_loop logs :
  iter (rounds 3000000) (sequence_round buffer digits) (1, 0, logs) = Some (4500001500000, logs ++ report "sequence progress=" 1000000 3000000).
Proof using Hbuf Hdig.
  destruct (iter_rule (fun s => exists n t, s = (n + 1, t, logs ++ report "sequence progress=" 1000000 n) /\ 0 <= n <= 3000000 /\ 2 * t = n * (n + 1))
    (fun r => r = (4500001500000, logs ++ report "sequence progress=" 1000000 3000000)) (fun s => Z.to_nat (3000001 - s.1.1)) (sequence_round buffer digits))
    with (fuel := rounds 3000000) (s := (1, 0, logs)) as (r & E & ->); [| | |exact E].
  - intros s (n & t & -> & Hn & Ht). unfold sequence_round. destruct (Z.leb_spec (n + 1) 3000000) as [Hlt|Hge].
    + left. rewrite (u64_id (n + 1 + 1)) by (unfold is_u64; lia). rewrite (u64_id (t + (n + 1))) by (unfold is_u64; nia).
      rewrite report_step by first [reflexivity|unfold is_u64; lia]. cbn [mbind option_bind]. eexists. split; [done|]. split; [|cbn [fst]; lia].
      exists (n + 1), (t + (n + 1)). split; [done|]. split; [lia|]. lia.
    + right. assert (n = 3000000) as -> by lia. eexists. split; [done|]. f_equal. lia.
  - exists 0, 0. split; [by rewrite app_nil_r|]. split; [lia|done].
  - cbn [fst]. unfold rounds. lia.
Qed.

(** Trial division decides primality. *)
Lemma is_prime_correct c : 2 <= c <= 100000 -> is_prime c = Some (bool_decide (prime c)).
Proof.
  intros Hc. destruct (iter_rule (fun d => 2 <= d <= 317 /\ forall e, 2 <= e < d -> ~ (e | c)) (fun r => r = bool_decide (prime c)) (fun d => Z.to_nat (400 - d)) (divisor_round c))
    with (fuel := rounds 100000) (s := 2) as (r & E & ->); [| | |exact E].
  - intros d [Hd Hnone]. unfold divisor_round. rewrite u32_id by (unfold is_u32; nia). destruct (Z.leb_spec (d * d) c) as [Hle|Hgt].
    + assert (d <= 316) by nia. destruct (Z.eqb_spec (c mod d) 0) as [E|E].
      * right. eexists. split; [done|]. symmetry. apply bool_decide_eq_false. intros [_ Hp]. apply Z.mod_divide in E; [|lia].
        assert (Hr : rel_prime d c) by (apply Hp; nia). 
        destruct Hr as [_ _ Hg]. specialize (Hg d (Z.divide_refl d) E). apply Z.divide_1_r_nonneg in Hg; lia.
      * left. rewrite u32_id by (unfold is_u32; lia). eexists. split; [done|]. split; [|lia]. split; [lia|]. intros e He. destruct (decide (e = d)) as [->|]; [|apply Hnone; lia].
        by rewrite <- Z.mod_divide by lia.
    + right. eexists. split; [done|]. symmetry. apply bool_decide_eq_true, divisor_below; [lia|]. intros e He Hee. apply Hnone. nia.
  - split; [lia|]. intros e He. lia.
  - unfold rounds. lia.
Qed.

Lemma primes_loop logs :
  iter (rounds 100000) (primes_round buffer digits) (2, 0, logs) =
    Some (Z.of_nat (length (primes_to 100000)), logs ++ report "primes progress=" 25000 100000).
Proof using Hbuf Hdig.
  destruct (iter_rule (fun s => exists n, s = (n + 1, Z.of_nat (length (primes_to n)), logs ++ report "primes progress=" 25000 n) /\ 1 <= n <= 100000)
    (fun r => r = (Z.of_nat (length (primes_to 100000)), logs ++ report "primes progress=" 25000 100000)) (fun s => Z.to_nat (100001 - s.1.1)) (primes_round buffer digits))
    with (fuel := rounds 100000) (s := (2, 0, logs)) as (r & E & ->); [| | |exact E].
  - intros s (n & -> & Hn). unfold primes_round. destruct (Z.leb_spec (n + 1) 100000) as [Hlt|Hge].
    + left. rewrite is_prime_correct by lia. cbn [mbind option_bind]. pose proof (primes_to_length n). pose proof (primes_to_next n).
      rewrite (u32_id (n + 1 + 1)) by (unfold is_u32; lia). rewrite report_step by first [reflexivity|unfold is_u64; lia]. cbn [mbind option_bind].
      eexists. split; [done|]. split; [|cbn [fst]; lia]. exists (n + 1). split; [|lia]. rewrite primes_to_next by lia. do 2 f_equal.
      rewrite length_app, u32_id by (unfold is_u32; case_bool_decide; lia). case_bool_decide; cbn [length]; lia.
    + right. assert (n = 100000) as -> by lia. by eexists.
  - exists 1. split; [|lia]. replace (report "primes progress=" 25000 1) with (@nil (list Z)) by reflexivity. by rewrite app_nil_r.
  - cbn [fst]. unfold rounds. lia.
Qed.

(** ** The programs *)

Definition checksum_texts : list (list Z) := [bytes_of "checksum start
"; message "checksum progress=" 1000000; message "checksum progress=" 2000000; message "checksum progress=" 3000000;
    message "checksum progress=" 4000000; message "checksum result=" 510000000].

Definition sequence_texts : list (list Z) := [bytes_of "sequence start
"; message "sequence progress=" 1000000; message "sequence progress=" 2000000; message "sequence progress=" 3000000;
    message "sequence result=" 4500001500000].

Definition primes_texts : list (list Z) := [bytes_of "primes start
"; message "primes progress=" 25000; message "primes progress=" 50000; message "primes progress=" 75000; message "primes progress=" 100000;
    message "primes result=" 9592].

Lemma checksum_main_result : checksum_main buffer digits = Some (0, checksum_texts).
Proof using Hbuf Hdig.
  unfold checksum_main. eapply bind_some; [by apply log_text_result|]. eapply bind_some; [apply checksum_loop|]. cbv beta iota.
  eapply bind_some; [by apply value_of_result; [|unfold is_u64; lia]|]. reflexivity.
Qed.

Lemma sequence_main_result : sequence_main buffer digits = Some (0, sequence_texts).
Proof using Hbuf Hdig.
  unfold sequence_main. eapply bind_some; [by apply log_text_result|]. eapply bind_some; [apply sequence_loop|]. cbv beta iota.
  eapply bind_some; [by apply value_of_result; [|unfold is_u64; lia]|]. reflexivity.
Qed.

Lemma primes_main_result : primes_main buffer digits = Some (0, primes_texts).
Proof using Hbuf Hdig.
  unfold primes_main. eapply bind_some; [by apply log_text_result|]. eapply bind_some; [apply primes_loop|]. cbv beta iota.
  rewrite primes_to_100000. eapply bind_some; [by apply value_of_result; [|unfold is_u64; lia]|]. reflexivity.
Qed.

(** ** The properties *)

(** C37. [log_value] never leaves its arrays, for any label and any 64-bit
    value: it passes at most 95 bytes, which fit the buffer of 96 and the
    limit of the system call; they are the label, cut after 74 characters, the
    decimal digits of the value, without a leading zero, and a newline. *)
Theorem log_value_prints_decimal bs v logs : Forall (fun c => c <> 0) bs -> is_u64 v ->
  log_value (buffer v) (digits v) (bs ++ [0]) v logs = Some (logs ++ [take 74 bs ++ decimal v ++ [10]]) /\
    length (take 74 bs ++ decimal v ++ [10]) <= 95 <= LOG_LIMIT /\
    value_of_digits (decimal v) = v /\ (0 < v -> head (decimal v) <> Some 48).
Proof using Hbuf Hdig.
  intros Hnz Hv. split; [by apply log_value_result|]. unfold is_u64 in Hv.
  assert (Hv' : 0 <= v < 10 ^ Z.of_nat 20) by (change (10 ^ Z.of_nat 20) with 100000000000000000000; lia).
  split; [|split; [by apply lsd_value|]].
  - pose proof (lsd_length 20 v Hv' ltac:(lia)). rewrite !length_app, length_take. unfold decimal. rewrite length_reverse. cbn [length]. unfold LOG_LIMIT. lia.
  - intros Hpos. unfold decimal. rewrite <- (reverse_involutive (lsd 20 v)) at 1. rewrite reverse_involutive, head_reverse. apply lsd_last. lia.
Qed.

(** [checksum.c] and [sequence.c]: both loops end, the 32-bit and the
    64-bit sum do not wrap, the progress is reported at every million, and the
    exit status is 0. *)
Theorem checksum_and_sequence_succeed :
  checksum_main buffer digits = Some (0, [bytes_of "checksum start
"; message "checksum progress=" 1000000; message "checksum progress=" 2000000; message "checksum progress=" 3000000;
    message "checksum progress=" 4000000; message "checksum result=" 510000000]) /\
  sequence_main buffer digits = Some (0, [bytes_of "sequence start
"; message "sequence progress=" 1000000; message "sequence progress=" 2000000; message "sequence progress=" 3000000;
    message "sequence result=" 4500001500000]).
Proof using Hbuf Hdig. split; [exact checksum_main_result|exact sequence_main_result]. Qed.

(** C38. [primes.c] counts exactly the prime numbers up to 100000: trial
    division by the divisors up to the root decides primality, the product of
    the divisor never wraps, and since the number of primes is 9592 the exit
    status is 0. *)
Theorem primes_counts_primes :
  primes_main buffer digits = Some (if Z.of_nat (length (primes_to 100000)) =? 9592 then 0 else 1, [bytes_of "primes start
"; message "primes progress=" 25000; message "primes progress=" 50000; message "primes progress=" 75000; message "primes progress=" 100000;
    message "primes result=" (length (primes_to 100000))]) /\
  Z.of_nat (length (primes_to 100000)) = 9592.
Proof using Hbuf Hdig.
  split; [|exact primes_to_100000]. rewrite primes_to_100000. exact primes_main_result.
Qed.

End programs.

(** ** Instances *)

Lemma log_value_prints_decimal_witness :
  log_value (replicate 96 0xaa) (replicate 20 0xaa) (bytes_of "count=" ++ [0]) 9592 [] = Some ([] ++ [bytes_of "count=9592
"]).
Proof.
  destruct (log_value_prints_decimal (fun _ => replicate 96 0xaa) (fun _ => replicate 20 0xaa) (fun _ => eq_refl) (fun _ => eq_refl) (bytes_of "count=") 9592 [])
    as [E _]; [by apply nonzero_bytes|unfold is_u64; lia|]. exact E.
Defined.

Lemma checksum_and_sequence_succeed_witness :
  fst <$> checksum_main (fun _ => replicate 96 0) (fun _ => replicate 20 0) = Some 0 /\
  fst <$> sequence_main (fun _ => replicate 96 0) (fun _ => replicate 20 0) = Some 0.
Proof.
  destruct (checksum_and_sequence_succeed (fun _ => replicate 96 0) (fun _ => replicate 20 0) (fun _ => eq_refl) (fun _ => eq_refl)) as [E1 E2].
  rewrite E1, E2. split; reflexivity.
Defined.

Lemma primes_counts_primes_witness : fst <$> primes_main (fun _ => replicate 96 0) (fun _ => replicate 20 0) = Some 0.
Proof.
  destruct (primes_counts_primes (fun _ => replicate 96 0) (fun _ => replicate 20 0) (fun _ => eq_refl) (fun _ => eq_refl)) as [E1 E2].
  rewrite E1, E2. reflexivity.
Defined.
