(* ===== verification/System.v ===== *)
(** * The applications under the kernel

    An application, to the kernel, is the list of its synchronous exceptions:
    system calls, and at the end its exit or a fault.  A system is the kernel
    and what is left of the three lists.  Its steps are the exceptions an
    application can take: the timer's interrupt or a spurious one at any point,
    and the next one of the list.  Between two exceptions the running
    application may have changed its registers and memory in any way. *)

From Stdlib Require Import Ascii String.
From S2P Require Import Prelude MemoryH Mem StringC Vsprintf Kernel Timer Task TaskProof TaskSpec.

(** ** Programs *)

Inductive action :=
  | ALog (text : list Z)
  | ARefused
  | AExit (status : Z)
  | AFault (esr far elr : Z).

(** After these the application goes on: a text to log, and a call that is
    unknown, empty or not allowed. *)
Definition goes_on (a : action) : Prop :=
  match a with
  | ALog text => 0 < length text <= LOG_LIMIT
  | ARefused => True
  | _ => False
  end.

(** [SVC #0], by its syndrome. *)
Definition svc (esr : Z) : Prop := Z.shiftr esr 26 = 0x15 /\ Z.land esr 0xffff = 0.

Definition stops (a : action) : Prop :=
  match a with
  | AExit status => - 2 ^ 63 <= status < 2 ^ 63
  | AFault esr _ elr => ~ svc esr /\ is_u64 elr
  | _ => False
  end.

(** What is left of a program. *)
Definition program_ok (p : list action) : Prop := p = [] \/ exists acts last, p = acts ++ [last] /\ Forall goes_on acts /\ stops last.

(** The actions of an application that logged [logs] and returned [status]
    from [app_main]; [apps/start.S] passes it to [exit]. *)
Definition program (logs : list (list Z)) (status : Z) : list action := (ALog <$> logs) ++ [AExit status].

Record system := System { core : kernel; progs : list (list action) }.

(** ** Steps *)

(** The running application [t] is interrupted by an exception from EL0 with
    registers [r] and memory [m]. *)
Record interrupted (k : kernel) (m : mem) (c : cpu) (r : pt_regs) (t : task_struct) : Prop := {
  in_task : task_at (current k) k = Some t;
  in_entry : bad_entry c t r = false;
  in_regs : regs_ok r;
  in_slots i : 0 <= i < APP_COUNT -> mapped m (__va (slot i)) APP_SLOT_SIZE;
}.

(** A log call that prints nothing. *)
Definition refused (t : task_struct) (p n : Z) : Prop := LOG_LIMIT < n \/ n = 0 \/ ~ own_buffer t p n.

(** The registers and memory of an action. *)
Definition calls (c : cpu) (m : mem) (r : pt_regs) (t : task_struct) (a : action) : Prop :=
  match a with
  | ALog text => is_svc c /\ exists p, gpr 8 r = Some __NR_log /\ gpr 0 r = Some p /\ gpr 1 r = Some (Z.of_nat (length text)) /\
      own_buffer t p (length text) /\ bytes_at m (__va p) text
  | ARefused => is_svc c /\ exists n, gpr 8 r = Some n /\ n <> __NR_exit /\
      (n = __NR_log -> exists p l, gpr 0 r = Some p /\ gpr 1 r = Some l /\ refused t p l)
  | AExit status => is_svc c /\ gpr 8 r = Some __NR_exit /\ gpr 0 r = Some (u64 status)
  | AFault esr far elr => ~ is_svc c /\ esr_el1 c = esr /\ far_el1 c = far /\ pc r = elr
  end.

(** A step is labelled with the action it is, if any, and how the
    kernel came out of it. *)
Inductive sys_step (s : system) : list (Z * action) -> option halt -> system -> Prop :=
  | step_interrupt m c r irq t o k' :
      interrupted (core s) m c r t -> irq <> 0 -> icc_iar1_el1 c = 30 \/ spurious c ->
      trap c r irq (set_ram m (core s)) = Some (o, k') ->
      sys_step s [] (match o with inl _ => None | inr h => Some h end) (System k' (progs s))
  | step_call m c r t a rest o k' :
      interrupted (core s) m c r t -> progs s !! Z.to_nat (current (core s)) = Some (a :: rest) -> calls c m r t a ->
      trap c r 0 (set_ram m (core s)) = Some (o, k') ->
      sys_step s [(current (core s), a)] (match o with inl _ => None | inr h => Some h end)
        (System k' (<[Z.to_nat (current (core s)) := rest]> (progs s))).

(** A run ends when the kernel does. *)
Inductive sys_run (s : system) : list (Z * action) -> option halt -> system -> Prop :=
  | sys_nil : sys_run s [] None s
  | sys_snoc ls s1 l o s2 : sys_run s ls None s1 -> sys_step s1 l o s2 -> sys_run s (ls ++ l) o s2.

(** ** What is seen *)

(** Messages and characters, except the note of the first trap of an
    application. *)
Definition shown (e : event) : bool :=
  match e with
  | Putc _ => true
  | Print fmt _ => negb (String.eqb fmt "[app %u] TRAP origin=%016lx handler=%016lx
")
  | _ => false
  end.

Definition console (tr : list event) : list event := filter (fun e => shown e = true) tr.

(** What an action of application [i] prints. *)
Definition action_events (x : Z * action) : list event :=
  match x with
  | (i, ALog text) => Putc <$> prefix_of i ++ text
  | (_, ARefused) => []
  | (i, AExit status) => exit_events i (u64 status)
  | (i, AFault esr far elr) => [Print "[app %u] FAULT ESR=%016lx FAR=%016lx ELR=%016lx
" [Arg32 i; Arg64 esr; Arg64 far; Arg64 elr]]
  end.

(** The exit status that a task's actions leave in its entry. *)
Definition exited (acts : list action) (e : Z) : Z :=
  foldl (fun e a => match a with AExit status => status | _ => e end) e acts.

Definition all_done : list event := [Print "ALL APPS DONE
" []].

(** The actions of application [i] in a run. *)
Definition of_app (i : Z) (ls : list (Z * action)) : list action := snd <$> filter (fun x => x.1 = i) ls.

(** ** The invariant *)

(** An application is runnable as long as its program is not finished. *)
Record sys_wf (s : system) : Prop := {
  s_progs : length (progs s) = 3%nat;
  s_ok p : p ∈ progs s -> program_ok p;
  s_left i p : 0 <= i < APP_COUNT -> progs s !! Z.to_nat i = Some p -> is_runnable (tasks (core s)) i <-> p <> [];
}.

Record sys_ok (s : system) : Prop := {
  s_kernel : kernel_ok (core s);
  s_wf : sys_wf s;
}.

(** ** Console lemmas *)

Lemma console_app a b : console (a ++ b) = console a ++ console b.
Proof. apply filter_app. Qed.

Lemma console_hidden l : Forall (fun e => shown e = false) l -> console l = [].
Proof. induction 1 as [|e l He Hl IH]; [done|]. unfold console in *. rewrite filter_cons, decide_False; [done|congruence]. Qed.

Lemma console_all l : Forall (fun e => shown e = true) l -> console l = l.
Proof. induction 1 as [|e l He Hl IH]; [done|]. unfold console in *. rewrite filter_cons, decide_True by done. by rewrite IH. Qed.

Lemma console_action x : console (action_events x) = action_events x.
Proof.
  apply console_all. destruct x as [i [text| |status|esr far elr]]; cbn [action_events]; [|by repeat constructor..].
  apply Forall_fmap, Forall_true. done.
Qed.

Lemma console_saved c i t r k : console (trace (saved c i t r k)) = console (trace k).
Proof.
  unfold saved. destruct (observed t); cbn [trace emit_to set_task set_tasks]; rewrite console_app.
  - by rewrite app_nil_r.
  - rewrite (console_hidden (trap_events c i r)) by (by repeat constructor). by rewrite app_nil_r.
Qed.

Lemma console_ticked c k : console (trace (ticked c k)) = console (trace k).
Proof.
  cbn [trace ticked set_timer_ctl emit_to]. rewrite console_app, (console_hidden (_ ++ _)); [by rewrite app_nil_r|by repeat constructor].
Qed.

Lemma console_scheduled k o k' : scheduled k = (o, k') ->
  console (trace k') = console (trace k) ++ match o with inl _ => [] | inr _ => all_done end.
Proof.
  unfold scheduled. destruct (turn _ _); intros [= <- <-]; cbn [trace set_timer_ctl emit_to set_current]; rewrite console_app; f_equal.
Qed.

(** ** Steps by kind *)

Lemma bytes_at_inj m a bs cs : length bs = length cs -> bytes_at m a bs -> bytes_at m a cs -> bs = cs.
Proof.
  intros Hl Hb Hc. apply list_eq_same_length with (n := length bs); [done|done|]. intros i x y _ Hx Hy.
  specialize (Hb _ _ Hx). specialize (Hc _ _ Hy). congruence.
Qed.

Section step.
Context (k : kernel) (m : mem) (c : cpu) (r : pt_regs) (t : task_struct).
Hypothesis (Hk : kernel_ok k) (Hin : interrupted k m c r t).

Lemma entered_ok : kernel_ok (set_ram m k).
Proof using Hk Hin. destruct Hk as [[? ? ? ?] ?], Hin. by split. Qed.

Lemma trap_here irq : exists o k', trap c r irq (set_ram m k) = Some (o, k') /\
  trap_effect c r irq (set_ram m k) t o k' /\ trap_outcome c r irq (set_ram m k) t o k'.
Proof using Hk Hin.
  pose proof entered_ok as Hok. destruct (trap_result c r irq (set_ram m k) Hok (in_regs _ _ _ _ _ Hin)) as (t' & o & k' & Hat & Ht & E & He).
  assert (t' = t) as -> by (pose proof (in_task _ _ _ _ _ Hin) as Hat'; unfold task_at in *; cbn [tasks set_ram] in Hat; cbn [current set_ram] in Hat; congruence).
  exists o, k'. split; [done|]. split; [done|]. apply trap_effect_ok; (done || apply Hin).
Qed.

Lemma current_entry : tasks k !! Z.to_nat (current k) = Some t /\ (Z.to_nat (current k) < length (tasks k))%nat /\ runnable t = true.
Proof using Hk Hin.
  pose proof (task_at_lookup _ _ _ (in_task _ _ _ _ _ Hin)) as Ht. split; [done|]. split; [by eapply lookup_lt_Some|].
  destruct (k_running _ Hk) as [_ (t' & Ht' & Hr)]. congruence.
Qed.

(** An interrupt of the timer or a spurious one: some application goes on. *)
Lemma interrupt_ok irq o k' : irq <> 0 -> icc_iar1_el1 c = 30 \/ spurious c -> trap c r irq (set_ram m k) = Some (o, k') ->
  exists j t', o = inl j /\ kernel_ok k' /\ tasks k' = <[Z.to_nat (current k) := t']> (tasks k) /\ runnable t' = true /\ exit_code t' = exit_code t /\
    console (trace k') = console (trace k).
Proof using Hk Hin.
  intros Hi Hiar E. destruct (trap_here irq) as (o' & k2 & E' & He & Ho). rewrite E in E'. injection E' as <- <-.
  destruct current_entry as (Ht & Hlt & Hrt). pose proof (in_entry _ _ _ _ _ Hin) as Hb.
  destruct He as [|_ _ Hsp|_ _ Hsp Hne|o k' _ _ Htick Hs| | | |]; try congruence.
  - exists (current k), (set_observed (set_regs r t)). destruct Ho as (? & _ & Hok & _). split_and!; try done.
    rewrite console_saved. done.
  - destruct Hiar; done.
  - assert (Et : tasks k' = <[Z.to_nat (current k) := set_observed (set_regs r t)]> (tasks k)) by (unfold scheduled in Hs; destruct (turn _ _); by injection Hs as <- <-).
    pose proof (console_scheduled _ _ _ Hs) as Hc. rewrite console_ticked, console_saved in Hc. cbn [trace set_ram] in Hc.
    destruct o as [j|h].
    + exists j, (set_observed (set_regs r t)). destruct Ho as (? & _ & Hok & _). rewrite app_nil_r in Hc. split_and!; done.
    + exfalso. destruct h; [by destruct Ho as [[? _]|(_ & _ & ?)]; [congruence|lia]|]. destruct Ho as (_ & _ & _ & Hnone).
      apply (Hnone (current k)). split; [apply Hk|]. exists (set_observed (set_regs r t)). by rewrite Et, list_lookup_insert_eq.
Qed.

(** A call of [log] with a text of its own: exactly the text is printed. *)
Lemma log_ok text o k' : 0 < length text <= LOG_LIMIT -> calls c m r t (ALog text) -> trap c r 0 (set_ram m k) = Some (o, k') ->
  exists t', o = inl (current k) /\ kernel_ok k' /\ current k' = current k /\ tasks k' = <[Z.to_nat (current k) := t']> (tasks k) /\
    runnable t' = true /\ exit_code t' = exit_code t /\ console (trace k') = console (trace k) ++ action_events (current k, ALog text).
Proof using Hk Hin.
  intros Hlen (Hsvc & p & E8 & E0 & E1 & Hown & Hbytes) E. destruct (trap_here 0) as (o' & k2 & E' & He & Ho). rewrite E in E'. injection E' as <- <-.
  destruct current_entry as (Ht & Hlt & Hrt). pose proof (in_entry _ _ _ _ _ Hin) as Hb.
  destruct He as [| | | |? ? _ _ Hn|x0 ? ? _ _ _ H8|x0 x1 v es _ _ _ _ H0 H1 Hlog|n _ _ _ H8 Hn]; try congruence.
  { rewrite E8 in H8. discriminate. }
  rewrite E0 in H0. rewrite E1 in H1. injection H0 as <-. injection H1 as <-.
  eexists. split; [done|]. destruct Ho as (t' & [Et _ _ _] & Hok & Hcur & _). split; [done|]. split; [done|].
  split; [cbn; apply list_insert_insert_eq|]. split; [done|]. split; [done|].
  cbn [trace set_task set_tasks emit_to]. rewrite console_app, console_saved. cbn [trace set_ram]. f_equal.
  destruct Hlog as [|Hz| |text' _ _ Hl Htext]; [lia|lia|done|].
  assert (text' = text) as -> by (apply (bytes_at_inj m (__va p)); (done || lia)). by rewrite <- (console_action (current k, ALog text)).
Qed.

(** A call of [exit]: the next application goes on, or there is none. *)
Lemma exit_ok status o k' : - 2 ^ 63 <= status < 2 ^ 63 -> calls c m r t (AExit status) -> trap c r 0 (set_ram m k) = Some (o, k') ->
  exists t', tasks k' = <[Z.to_nat (current k) := t']> (tasks k) /\ runnable t' = false /\ exit_code t' = status /\
    console (trace k') = console (trace k) ++ action_events (current k, AExit status) ++ match o with inl _ => [] | inr _ => all_done end /\
    match o with
    | inl j => kernel_ok k'
    | inr h => h = Idle /\ timer_ctl k' = 0 /\ forall j, ~ is_runnable (tasks k') j
    end.
Proof using Hk Hin.
  intros Hst (Hsvc & E8 & E0) E. destruct (trap_here 0) as (o' & k2 & E' & He & Ho). rewrite E in E'. injection E' as <- <-.
  pose proof (in_entry _ _ _ _ _ Hin) as Hb.
  destruct He as [| | | |? ? _ _ Hn|x0 o k' _ _ _ _ H0 Hs|x0 x1 v es _ _ _ H8|n _ _ _ H8 _ Hn]; try congruence.
  2:{ rewrite E8 in H8. discriminate. }
  rewrite E0 in H0. injection H0 as <-. eexists. split_and!.
  - unfold scheduled in Hs. destruct (turn _ _); injection Hs as <- <-; cbn; apply list_insert_insert_eq.
  - done.
  - cbn. unfold swrap, u64. change (2 ^ (64 - 1)) with (2 ^ 63). rewrite Zplus_mod_idemp_l. rewrite Z.mod_small; lia.
  - rewrite (console_scheduled _ _ _ Hs). cbn [trace set_task set_tasks emit_to]. rewrite console_app, console_saved. cbn [trace set_ram current].
    rewrite <- app_assoc. do 2 f_equal.
  - destruct o as [j|[|]].
    + by destruct Ho as (_ & _ & ? & _).
    + destruct Ho as [[? _]|[? _]]; congruence.
    + by destruct Ho as (_ & _ & ? & ?).
Qed.

(** A refused call: nothing is printed. *)
Lemma refused_ok o k' : calls c m r t ARefused -> trap c r 0 (set_ram m k) = Some (o, k') ->
  exists t', o = inl (current k) /\ kernel_ok k' /\ current k' = current k /\ tasks k' = <[Z.to_nat (current k) := t']> (tasks k) /\
    runnable t' = true /\ exit_code t' = exit_code t /\ console (trace k') = console (trace k).
Proof using Hk Hin.
  intros (Hsvc & n & E8 & Hne & Hlogn) E. destruct (trap_here 0) as (o' & k2 & E' & He & Ho). rewrite E in E'. injection E' as <- <-.
  destruct current_entry as (Ht & Hlt & Hrt). pose proof (in_entry _ _ _ _ _ Hin) as Hb.
  destruct He as [| | | |? ? _ _ Hn|x0 ? ? _ _ _ H8|x0 x1 v es _ _ _ H8 H0 H1 Hlog|n' _ _ _ H8 Hn]; try congruence.
  - eexists. split; [done|]. destruct Ho as (_ & _ & Hok & Hcur & _). split; [done|]. split; [done|].
    split; [cbn; apply list_insert_insert_eq|]. split; [done|]. split; [done|].
    cbn [trace set_task set_tasks emit_to]. rewrite console_app, console_saved. cbn [trace set_ram].
    assert (n = __NR_log) as -> by congruence. destruct (Hlogn eq_refl) as (p & l & E0 & E1 & Href).
    rewrite E0 in H0. rewrite E1 in H1. injection H0 as <-. injection H1 as <-.
    destruct Hlog as [| | |text' Hl Hown _ _]; [by rewrite app_nil_r..|]. exfalso. destruct Href as [|[|]]; (done || lia).
  - eexists. split; [done|]. destruct Ho as (_ & _ & Hok & Hcur & _). split; [done|]. split; [done|].
    split; [cbn; apply list_insert_insert_eq|]. split; [done|]. split; [done|]. cbn [trace set_task set_tasks]. by rewrite console_saved.
Qed.

(** A fault: the next application goes on, or there is none. *)
Lemma fault_ok esr far elr o k' : calls c m r t (AFault esr far elr) -> trap c r 0 (set_ram m k) = Some (o, k') ->
  exists t', tasks k' = <[Z.to_nat (current k) := t']> (tasks k) /\ runnable t' = false /\ exit_code t' = exit_code t /\
    console (trace k') = console (trace k) ++ action_events (current k, AFault esr far elr) ++ match o with inl _ => [] | inr _ => all_done end /\
    match o with
    | inl j => kernel_ok k'
    | inr h => h = Idle /\ timer_ctl k' = 0 /\ forall j, ~ is_runnable (tasks k') j
    end.
Proof using Hk Hin.
  intros (Hsvc & E1 & E2 & E3) E. destruct (trap_here 0) as (o' & k2 & E' & He & Ho). rewrite E in E'. injection E' as <- <-.
  pose proof (in_entry _ _ _ _ _ Hin) as Hb. destruct He as [| | | |o k' _ _ _ Hs| | |]; try congruence.
  eexists. split_and!.
  - unfold scheduled in Hs. destruct (turn _ _); injection Hs as <- <-; cbn; apply list_insert_insert_eq.
  - done.
  - done.
  - rewrite (console_scheduled _ _ _ Hs). cbn [trace set_task set_tasks emit_to]. rewrite console_app, console_saved. cbn [trace set_ram current].
    rewrite <- app_assoc. unfold fault_events. rewrite E1, E2, E3. do 2 f_equal.
  - destruct o as [j|[|]].
    + by destruct Ho as (_ & _ & ? & _).
    + destruct Ho as [[? _]|[? _]]; congruence.
    + by destruct Ho as (_ & _ & ? & ?).
Qed.

(** The two kinds of action. *)
Lemma goes_on_ok a o k' : goes_on a -> calls c m r t a -> trap c r 0 (set_ram m k) = Some (o, k') ->
  exists t', o = inl (current k) /\ kernel_ok k' /\ tasks k' = <[Z.to_nat (current k) := t']> (tasks k) /\
    runnable t' = true /\ exit_code t' = exited [a] (exit_code t) /\ console (trace k') = console (trace k) ++ action_events (current k, a).
Proof using Hk Hin.
  intros Ha Hcall E. destruct a as [text| |status|]; try done.
  - destruct (log_ok text o k' Ha Hcall E) as (t' & ? & ? & _ & ? & ? & ? & ?). by exists t'.
  - destruct (refused_ok o k' Hcall E) as (t' & ? & ? & _ & ? & ? & ? & Hc). exists t'. rewrite Hc. cbn [action_events]. by rewrite app_nil_r.
Qed.

Lemma stops_ok a o k' : stops a -> calls c m r t a -> trap c r 0 (set_ram m k) = Some (o, k') ->
  exists t', tasks k' = <[Z.to_nat (current k) := t']> (tasks k) /\ runnable t' = false /\ exit_code t' = exited [a] (exit_code t) /\
    console (trace k') = console (trace k) ++ action_events (current k, a) ++ match o with inl _ => [] | inr _ => all_done end /\
    match o with
    | inl j => kernel_ok k'
    | inr h => h = Idle /\ timer_ctl k' = 0 /\ forall j, ~ is_runnable (tasks k') j
    end.
Proof using Hk Hin.
  intros Ha Hcall E. destruct a as [| |status|esr far elr]; try done.
  - by apply exit_ok.
  - by apply fault_ok.
Qed.

End step.
