(* ===== verification/SystemSpec.v ===== *)
(** * The applications under the kernel: properties

    Over any interleaving of interrupts and system calls the console shows
    the actions of the applications, the kernel keeps its invariant, and it
    idles exactly when every application has exited. *)

From Stdlib Require Import Ascii String.
From S2P Require Import Prelude MemoryH Mem StringC Vsprintf Kernel Timer Task TaskProof TaskSpec System.

(** ** What a run has done *)

(** Every application made the first actions of what was left of it, the
    table has the exit statuses, and the console shows the actions in their
    order. *)
Record advances (s : system) (ls : list (Z * action)) (o : option halt) (s' : system) : Prop := {
  adv_progs (i : nat) p : progs s !! i = Some p -> exists p', progs s' !! i = Some p' /\ p = of_app i ls ++ p';
  adv_exits (i : nat) t : tasks (core s) !! i = Some t ->
    exists t', tasks (core s') !! i = Some t' /\ exit_code t' = exited (of_app i ls) (exit_code t);
  adv_console : console (trace (core s')) =
    console (trace (core s)) ++ concat (action_events <$> ls) ++ match o with None => [] | Some _ => all_done end;
}.

(** The kernel idles: the timer is off and every program is finished. *)
Record finished (s : system) : Prop := {
  f_progs : Forall (.= []) (progs s);
  f_timer : timer_ctl (core s) = 0;
  f_table : length (tasks (core s)) = 3%nat;
  f_tasks j : ~ is_runnable (tasks (core s)) j;
}.

Definition sys_end (o : option halt) (s : system) : Prop :=
  match o with
  | None => sys_ok s
  | Some h => h = Idle /\ finished s
  end.

Lemma of_app_app i a b : of_app i (a ++ b) = of_app i a ++ of_app i b.
Proof. unfold of_app. by rewrite filter_app, fmap_app. Qed.

Lemma of_app_one i j a : of_app i [(j, a)] = if decide (j = i) then [a] else [].
Proof. unfold of_app. rewrite filter_cons, filter_nil. cbn [fst]. by case_decide. Qed.

Lemma advances_refl s : advances s [] None s.
Proof. split; [intros i p Hp; by exists p|intros i t Ht; by exists t|by rewrite app_nil_r]. Qed.

Lemma advances_trans s l1 s1 l2 o s2 : advances s l1 None s1 -> advances s1 l2 o s2 -> advances s (l1 ++ l2) o s2.
Proof.
  intros [Hp1 He1 Hc1] [Hp2 He2 Hc2]. split.
  - intros i p Hp. destruct (Hp1 i p Hp) as (p1 & Hi1 & ->). destruct (Hp2 i p1 Hi1) as (p2 & Hi2 & ->).
    exists p2. split; [done|]. by rewrite of_app_app, app_assoc.
  - intros i t Ht. destruct (He1 i t Ht) as (t1 & Hi1 & E1). destruct (He2 i t1 Hi1) as (t2 & Hi2 & E2).
    exists t2. split; [done|]. rewrite of_app_app. unfold exited in *. by rewrite foldl_app, <- E1.
  - rewrite Hc2, Hc1, fmap_app, concat_app, <- !app_assoc. done.
Qed.

(** Only the current task's entry has changed, so that a step is about it. *)
Lemma lookup_current (ts : list task_struct) (i : Z) (t' : task_struct) (j : Z) :
  0 <= i -> 0 <= j -> (Z.to_nat i < length ts)%nat -> <[Z.to_nat i := t']> ts !! Z.to_nat j = if decide (j = i) then Some t' else ts !! Z.to_nat j.
Proof. intros Hi Hj Hl. case_decide as E; [subst; by apply list_lookup_insert_eq|apply list_lookup_insert_ne; lia]. Qed.

Lemma runnable_insert ts i t' j : 0 <= i < APP_COUNT -> length ts = 3%nat -> 0 <= j < APP_COUNT ->
  is_runnable (<[Z.to_nat i := t']> ts) j <-> if decide (j = i) then runnable t' = true else is_runnable ts j.
Proof.
  intros Hi Hl Hj. unfold is_runnable. rewrite lookup_current by (unfold APP_COUNT in *; lia). case_decide; [|done]. naive_solver.
Qed.

Section one.
Context (s : system) (t t' : task_struct) (k' : kernel).
Hypothesis (Hk : kernel_ok (core s)) (Hw : sys_wf s).
Hypothesis (Ht : tasks (core s) !! Z.to_nat (current (core s)) = Some t).
Hypothesis (Et : tasks k' = <[Z.to_nat (current (core s)) := t']> (tasks (core s))).

Lemma exits_one ls : (forall i, 0 <= i -> of_app i ls = if decide (current (core s) = i) then snd <$> ls else []) -> exit_code t' = exited (snd <$> ls) (exit_code t) ->
  forall (i : nat) ti, tasks (core s) !! i = Some ti -> exists ti', tasks k' !! i = Some ti' /\ exit_code ti' = exited (of_app i ls) (exit_code ti).
Proof using Hk Ht Et.
  intros Hof He i ti Hi. pose proof (k_current _ (k_wf _ Hk)) as Hc. pose proof (lookup_lt_Some _ _ _ Ht) as Hl. rewrite Et.
  rewrite Hof by lia. rewrite <- (Nat2Z.id i) in Hi |- *. rewrite lookup_current by lia. rewrite Nat2Z.id in Hi |- *.
  destruct (decide (current (core s) = i)) as [E|E].
  - rewrite decide_True by done. exists t'. split; [done|]. rewrite He. rewrite E, Nat2Z.id in Ht. congruence.
  - rewrite decide_False by done. by exists ti.
Qed.

Lemma wf_same_progs : runnable t = true -> runnable t' = true -> sys_wf (System k' (progs s)).
Proof using Hk Hw Ht Et.
  intros Hr Hr'. destruct Hw as [Hl Hok Hleft]. split; [done|done|]. cbn [core progs]. intros i p Hi Hp. rewrite <- (Hleft i p Hi Hp), Et.
  rewrite runnable_insert by (done || apply Hk). case_decide as E; [|done]. subst i. unfold is_runnable. rewrite Ht. naive_solver.
Qed.

Lemma wf_call a rest : progs s !! Z.to_nat (current (core s)) = Some (a :: rest) -> runnable t' = bool_decide (rest <> []) -> program_ok rest ->
  sys_wf (System k' (<[Z.to_nat (current (core s)) := rest]> (progs s))).
Proof using Hk Hw Ht Et.
  intros Hp Hr Hrest. destruct Hw as [Hl Hok Hleft]. pose proof (k_current _ (k_wf _ Hk)) as Hc.
  assert (Hlt : (Z.to_nat (current (core s)) < length (progs s))%nat) by (by eapply lookup_lt_Some).
  split; cbn [core progs]; [by rewrite length_insert| |].
  - intros p [i Hi]%list_elem_of_lookup. destruct (decide (i = Z.to_nat (current (core s)))) as [-> |].
    + rewrite list_lookup_insert_eq in Hi by done. by injection Hi as <-.
    + rewrite list_lookup_insert_ne in Hi by done. apply Hok. by eapply list_elem_of_lookup_2.
  - intros i p Hi Hpi. rewrite Et, runnable_insert by (done || apply Hk). destruct (decide (i = current (core s))) as [-> |Hne].
    + rewrite list_lookup_insert_eq in Hpi by done. injection Hpi as <-. rewrite Hr. apply bool_decide_eq_true.
    + rewrite list_lookup_insert_ne in Hpi by lia. by apply Hleft.
Qed.

Lemma progs_call a rest : progs s !! Z.to_nat (current (core s)) = Some (a :: rest) ->
  forall (i : nat) p, progs s !! i = Some p ->
    exists p', <[Z.to_nat (current (core s)) := rest]> (progs s) !! i = Some p' /\ p = of_app i [(current (core s), a)] ++ p'.
Proof using Hk.
  intros Hp i p Hi. pose proof (k_current _ (k_wf _ Hk)) as Hc. rewrite of_app_one. case_decide as E.
  - rewrite E, Nat2Z.id in Hp |- *. exists rest. rewrite list_lookup_insert_eq by (by eapply lookup_lt_Some). split; [done|]. cbn. congruence.
  - exists p. rewrite list_lookup_insert_ne by lia. done.
Qed.

End one.

(** ** Programs *)

Lemma program_next a rest : program_ok (a :: rest) -> program_ok rest /\ (goes_on a /\ rest <> [] \/ stops a /\ rest = []).
Proof.
  intros [?|(acts & last & E & Hg & Hs)]; [done|]. destruct acts as [|x acts]; cbn in E; injection E as -> ->.
  - split; [by left|by right].
  - apply Forall_cons in Hg as [Hx Hg]. split; [right; by exists acts, last|]. left. split; [done|]. by destruct acts.
Qed.

Lemma program_of_result logs status : Forall (fun text => 0 < length text <= LOG_LIMIT) logs -> - 2 ^ 63 <= status < 2 ^ 63 -> program_ok (program logs status).
Proof. intros Hl Hs. right. exists (ALog <$> logs), (AExit status). split; [done|]. split; [by apply Forall_fmap|done]. Qed.

(** ** Steps and runs *)

Lemma sys_step_ok s l o s' : sys_ok s -> sys_step s l o s' -> advances s l o s' /\ sys_end o s'.
Proof.
  intros [Hk Hw] Hs. destruct Hs as [m c r irq t o k' Hin Hi Hiar E|m c r t a rest o k' Hin Hp Hcall E].
  - destruct (current_entry _ _ _ _ _ Hk Hin) as (Ht & _ & Hrt).
    destruct (interrupt_ok _ _ _ _ _ Hk Hin irq o k' Hi Hiar E) as (j & t' & -> & Hk' & Et & Hrt' & He & Hc). split.
    + split; cbn [core progs]; [intros i p Hpi; by exists p| |by rewrite app_nil_r].
      apply (exits_one s t t' k' Hk Ht Et []); [|done]. intros i _. by case_decide.
    + split; [done|]. by apply (wf_same_progs s t t' k' Hk Hw Ht Et).
  - destruct (current_entry _ _ _ _ _ Hk Hin) as (Ht & _ & Hrt).
    assert (Hpok : program_ok (a :: rest)) by (apply Hw; by eapply list_elem_of_lookup_2).
    assert (Hone : forall i, 0 <= i -> of_app i [(current (core s), a)] = if decide (current (core s) = i) then [a] else []) by (intros i _; apply of_app_one).
    pose proof (progs_call s Hk a rest Hp) as Hprogs. destruct (program_next a rest Hpok) as [Hrest [[Ha Hne]|[Ha ->]]].
    + destruct (goes_on_ok _ _ _ _ _ Hk Hin a o k' Ha Hcall E) as (t' & -> & Hk' & Et & Hrt' & He & Hc). split.
      * split; cbn [core progs]; [done|by apply (exits_one s t t' k' Hk Ht Et [(current (core s), a)])|rewrite Hc; cbn [fmap list_fmap concat]; by rewrite !app_nil_r].
      * split; [done|]. apply (wf_call s t t' k' Hk Hw Ht Et a rest Hp); [|done]. by rewrite bool_decide_true.
    + destruct (stops_ok _ _ _ _ _ Hk Hin a o k' Ha Hcall E) as (t' & Et & Hrt' & He & Hc & Hend).
      assert (Hw' : sys_wf (System k' (<[Z.to_nat (current (core s)) := []]> (progs s)))) by (apply (wf_call s t t' k' Hk Hw Ht Et a [] Hp); [done|by left]). split.
      * split; cbn [core progs]; [done|by apply (exits_one s t t' k' Hk Ht Et [(current (core s), a)])|].
        rewrite Hc. destruct o; cbn [fmap list_fmap concat]; by rewrite ?app_nil_r.
      * destruct o as [j|h]; [by split|]. destruct Hend as (-> & Htm & Hnone). split; [done|]. split; [|done|cbn [core]; rewrite Et, length_insert; apply Hk|done].
        apply Forall_lookup_2. intros i p Hpi. destruct (decide (p = [])) as [|Hne]; [done|exfalso]. apply lookup_lt_Some in Hpi as Hlt.
        pose proof (s_progs _ Hw') as Hl. cbn [core progs] in *. apply (Hnone i), (s_left _ Hw' i p); [unfold APP_COUNT; lia| |done]. by rewrite Nat2Z.id.
Qed.

Lemma sys_run_ok s ls o s' : sys_ok s -> sys_run s ls o s' -> advances s ls o s' /\ sys_end o s'.
Proof.
  intros Hok Hrun. induction Hrun as [|ls s1 l o s2 Hrun IH Hstep]; [split; [apply advances_refl|done]|].
  destruct IH as [Ha1 H1]. destruct (sys_step_ok s1 l o s2 H1 Hstep) as [Ha2 H2]. split; [by apply (advances_trans s ls s1)|done].
Qed.

(** The applications are never stuck: whatever the kernel is handed has a
    step. *)
Lemma sys_step_interrupt s m c r irq t : sys_ok s -> interrupted (core s) m c r t -> irq <> 0 -> icc_iar1_el1 c = 30 \/ spurious c ->
  exists s', sys_step s [] None s'.
Proof.
  intros [Hk _] Hin Hi Hiar. destruct (trap_here _ _ _ _ _ Hk Hin irq) as (o & k' & E & _).
  destruct (interrupt_ok _ _ _ _ _ Hk Hin irq o k' Hi Hiar E) as (j & _ & -> & _). eexists.
  exact (step_interrupt s m c r irq t (inl j) k' Hin Hi Hiar E).
Qed.

Lemma sys_step_call s m c r t a rest : sys_ok s -> interrupted (core s) m c r t -> progs s !! Z.to_nat (current (core s)) = Some (a :: rest) ->
  calls c m r t a -> exists o s', sys_step s [(current (core s), a)] o s' /\ progs s' = <[Z.to_nat (current (core s)) := rest]> (progs s).
Proof.
  intros [Hk _] Hin Hp Hc. destruct (trap_here _ _ _ _ _ Hk Hin 0) as (o & k' & E & _). eexists _, _.
  split; [exact (step_call s m c r t a rest o k' Hin Hp Hc E)|done].
Qed.

(** The running application has a next action. *)
Lemma sys_next s : sys_ok s -> exists a rest, progs s !! Z.to_nat (current (core s)) = Some (a :: rest).
Proof.
  intros [Hk Hw]. pose proof (k_current _ (k_wf _ Hk)) as Hc.
  destruct (lookup_lt_is_Some_2 (progs s) (Z.to_nat (current (core s)))) as [p Hp]; [rewrite (s_progs _ Hw); unfold APP_COUNT in Hc; lia|].
  destruct p as [|a rest]; [|by exists a, rest]. exfalso. by apply (proj1 (s_left _ Hw _ _ Hc Hp)); [apply Hk|].
Qed.

(** ** An execution of the next action *)

(** The registers of a call. *)
Definition call_regs (t : task_struct) (x8 x0 x1 elr : Z) : pt_regs :=
  PtRegs (<[8%nat := x8]> (<[0%nat := x0]> (<[1%nat := x1]> (gprs (regs t))))) (sp (regs t)) elr (pstate (regs t)).

Definition call_cpu (esr far : Z) : cpu := Cpu 0x80 4 esr far 0 0 0 0.

Lemma call_interrupted k m t x8 x0 x1 elr esr far : kernel_ok k -> task_at (current k) k = Some t ->
  (forall i, 0 <= i < APP_COUNT -> mapped m (__va (slot i)) APP_SLOT_SIZE) -> is_u64 x8 -> is_u64 x0 -> is_u64 x1 -> is_u64 elr ->
  interrupted k m (call_cpu esr far) (call_regs t x8 x0 x1 elr) t.
Proof.
  intros Hk Hat Hm H8 H0 H1 Hpc. pose proof (k_each _ (k_wf _ Hk) _ t (k_current _ (k_wf _ Hk)) (task_at_lookup _ _ _ Hat)) as Ht.
  destruct (t_regs _ _ Ht) as [Hl Hw (Hsp & _ & Hps)]. destruct (t_user _ _ Ht) as (Hp & Hs & Ha). split; [done| |split|done].
  - unfold bad_entry. cbn [pstate sp call_regs]. rewrite Hp, Ha. change (daif (call_cpu esr far)) with 0x80.
    rewrite (proj2 (Z.ltb_ge _ _)) by lia. by rewrite (proj2 (Z.ltb_ge (stack_top t) _)) by lia.
  - cbn [gprs call_regs]. by rewrite !length_insert.
  - cbn [gprs call_regs]. repeat (apply Forall_insert; [|done]). done.
  - done.
Qed.

Lemma call_gprs t x8 x0 x1 elr : length (gprs (regs t)) = 31%nat ->
  gpr 8 (call_regs t x8 x0 x1 elr) = Some x8 /\ gpr 0 (call_regs t x8 x0 x1 elr) = Some x0 /\ gpr 1 (call_regs t x8 x0 x1 elr) = Some x1.
Proof.
  intros Hl. unfold gpr. cbn [gprs call_regs]. split_and!.
  - apply list_lookup_insert_eq. rewrite !length_insert. lia.
  - rewrite list_lookup_insert_ne by lia. apply list_lookup_insert_eq. rewrite !length_insert. lia.
  - rewrite !list_lookup_insert_ne by lia. apply list_lookup_insert_eq. lia.
Qed.

(** Memory with the text of a call on the stack of the application. *)
Definition call_memory (t : task_struct) (a : action) (m : mem) : mem :=
  match a with ALog text => write (__va (stack_bottom t)) text m | _ => m end.

Lemma call_memory_mapped t a m b n : mapped m b n -> mapped (call_memory t a m) b n.
Proof. intros H. destruct a; try done. by apply mapped_write. Qed.

(** Whatever the next action is, the application can make it. *)
Lemma can_call k t a : kernel_ok k -> task_at (current k) k = Some t -> goes_on a \/ stops a ->
  exists c r, interrupted k (call_memory t a (ram k)) c r t /\ calls c (call_memory t a (ram k)) r t a.
Proof.
  intros Hk Hat Ha. pose proof (k_each _ (k_wf _ Hk) _ t (k_current _ (k_wf _ Hk)) (task_at_lookup _ _ _ Hat)) as Ht.
  pose proof (r_gprs _ (t_regs _ _ Ht)) as Hl. pose proof (k_current _ (k_wf _ Hk)) as Hc. pose proof (k_slots _ (k_wf _ Hk)) as Hm.
  assert (Hsvc : is_svc (call_cpu 0x56000000 0)) by done.
  destruct a as [text| |status|esr far elr]; (destruct Ha as [Ha|Ha]; [try done|try done]).
  - assert (Hb : is_u64 (stack_bottom t)).
    { rewrite (t_bottom _ _ Ht). unfold slot, is_u64, APP_FIRST, APP_SLOT_SIZE, APP_STACK_SIZE, APP_COUNT in *. lia. }
    exists (call_cpu 0x56000000 0), (call_regs t __NR_log (stack_bottom t) (length text) 0).
    destruct (call_gprs t __NR_log (stack_bottom t) (length text) 0 Hl) as (E8 & E0 & E1). split.
    + apply call_interrupted; try done; [intros i Hi; by apply mapped_write, Hm|]. cbn [goes_on] in Ha. unfold is_u64, LOG_LIMIT in *. lia.
    + split; [done|]. exists (stack_bottom t). split_and!; try done; [|apply bytes_at_written]. right.
      rewrite (t_bottom _ _ Ht), (t_top _ _ Ht). cbn [goes_on] in Ha. unfold LOG_LIMIT, APP_STACK_SIZE in *. lia.
  - exists (call_cpu 0x56000000 0), (call_regs t 2 0 0 0). destruct (call_gprs t 2 0 0 0 Hl) as (E8 & _). split.
    + apply call_interrupted; done.
    + split; [done|]. exists 2. split_and!; done.
  - exists (call_cpu 0x56000000 0), (call_regs t __NR_exit (u64 status) 0 0). destruct (call_gprs t __NR_exit (u64 status) 0 0 Hl) as (E8 & E0 & _). split.
    + apply call_interrupted; try done. apply u64_range.
    + done.
  - destruct Ha as [Hn Hpc]. exists (call_cpu esr far), (call_regs t 0 0 0 elr). split.
    + by apply call_interrupted.
    + done.
Qed.

Lemma sys_run_cons s l s1 ls o s2 : sys_step s l None s1 -> sys_run s1 ls o s2 -> sys_run s (l ++ ls) o s2.
Proof.
  intros Hs Hr. induction Hr as [|ls s3 l3 o s4 Hr IH Hs3]; [rewrite app_nil_r; exact (sys_snoc s [] s l None s1 (sys_nil s) Hs)|].
  rewrite app_assoc. by apply (sys_snoc _ _ s3).
Qed.

(** The next action of the current application, and an exception that makes
    it. *)
Lemma next_call s : sys_ok s -> exists a rest c r t, progs s !! Z.to_nat (current (core s)) = Some (a :: rest) /\
  interrupted (core s) (call_memory t a (ram (core s))) c r t /\ calls c (call_memory t a (ram (core s))) r t a.
Proof.
  intros Hok. destruct (sys_next s Hok) as (a & rest & Hp). pose proof Hok as [Hk Hw].
  assert (Hpok : program_ok (a :: rest)) by (apply Hw; by eapply list_elem_of_lookup_2).
  destruct (k_running _ Hk) as [Hc (t & Ht & _)]. assert (Hat : task_at (current (core s)) (core s) = Some t) by (unfold task_at; by rewrite (proj2 (Z.leb_le 0 _)) by lia).
  destruct (can_call (core s) t a Hk Hat) as (c & r & Hin & Hcall); [destruct (program_next a rest Hpok) as [_ [[? _]|[? _]]]; tauto|].
  by exists a, rest, c, r, t.
Qed.

Lemma sys_can_step s : sys_ok s -> exists a rest o s', progs s !! Z.to_nat (current (core s)) = Some (a :: rest) /\
  sys_step s [(current (core s), a)] o s' /\ progs s' = <[Z.to_nat (current (core s)) := rest]> (progs s).
Proof.
  intros Hok. destruct (next_call s Hok) as (a & rest & c & r & t & Hp & Hin & Hcall).
  destruct (sys_step_call s _ c r t a rest Hok Hin Hp Hcall) as (o & s' & Hs). by exists a, rest, o, s'.
Qed.

Lemma concat_next {A} (ps : list (list A)) i a rest : ps !! i = Some (a :: rest) ->
  length (concat ps) = Datatypes.S (length (concat (<[i := rest]> ps))).
Proof.
  revert i. induction ps as [|p ps IH]; intros [|i] E; cbn in E |- *; try done.
  - injection E as ->. cbn. done.
  - change (length (p ++ concat ps) = Datatypes.S (length (p ++ concat (<[i := rest]> ps)))). rewrite !length_app, (IH i E). lia.
Qed.

(** So the applications can run to their ends. *)
Lemma sys_can_finish n s : sys_ok s -> length (concat (progs s)) = n -> exists ls s', sys_run s ls (Some Idle) s'.
Proof.
  revert s. induction n as [|n IH]; intros s Hok Hn; destruct (sys_can_step s Hok) as (a & rest & o & s1 & Hp & Hs & Ep).
  all: pose proof (concat_next (progs s) _ a rest Hp) as Hlen; rewrite <- Ep in Hlen.
  - lia.
  - destruct (sys_step_ok s _ o s1 Hok Hs) as [_ Hend]. destruct o as [h|].
    + destruct Hend as [-> _]. eexists _, s1. eapply sys_snoc; [apply sys_nil|exact Hs].
    + destruct (IH s1 Hend) as (ls & s2 & Hr); [lia|]. eexists _, s2. eapply sys_run_cons; [exact Hs|exact Hr].
Qed.

(** ** The properties *)

(** C4. The applications under the kernel: in every run, however interrupts
    and the three applications interleave and whatever they do to their
    registers and memory in between, every application has made the first
    actions of its program in order, the console shows exactly what the
    actions of all of them print in the order they were made, and the task
    table has their exit statuses.  The kernel never panics: either it has
    resumed an application that has a next action, with its invariant kept, or
    every program is finished and it idles with the timer off after
    [ALL APPS DONE]. *)
Theorem console_shows_programs s ls o s' : sys_ok s -> sys_run s ls o s' ->
  (forall (i : nat) p, progs s !! i = Some p -> exists p', progs s' !! i = Some p' /\ p = of_app i ls ++ p') /\
  (forall (i : nat) t, tasks (core s) !! i = Some t ->
    exists t', tasks (core s') !! i = Some t' /\ exit_code t' = exited (of_app i ls) (exit_code t)) /\
  console (trace (core s')) =
    console (trace (core s)) ++ concat (action_events <$> ls) ++ match o with None => [] | Some _ => all_done end /\
  match o with
  | None => sys_ok s' /\ exists a rest, progs s' !! Z.to_nat (current (core s')) = Some (a :: rest)
  | Some h => h = Idle /\ Forall (.= []) (progs s') /\ timer_ctl (core s') = 0 /\ forall j, ~ is_runnable (tasks (core s')) j
  end.
Proof.
  intros Hok Hrun. destruct (sys_run_ok s ls o s' Hok Hrun) as [[Hp He Hc] Hend]. split_and!; try done.
  destruct o as [h|]; cbn [sys_end] in Hend.
  - by destruct Hend as [-> [? ? _ ?]].
  - split; [done|]. by apply sys_next.
Qed.

(** C14. No application can keep another from its end: from every state of a
    run there is a continuation that ends with every program finished, and
    the kernel has an answer to every next exception: a timer or a spurious
    interrupt resumes an application, and so does a next action unless no
    application is left. *)
Theorem applications_can_finish s ls s1 : sys_ok s -> sys_run s ls None s1 ->
  (exists ls' s2, sys_run s1 ls' (Some Idle) s2 /\ finished s2) /\
  forall m c r t, interrupted (core s1) m c r t ->
    (forall irq, irq <> 0 -> icc_iar1_el1 c = 30 \/ spurious c -> exists s2, sys_step s1 [] None s2 /\ sys_ok s2) /\
    (forall a rest, progs s1 !! Z.to_nat (current (core s1)) = Some (a :: rest) -> calls c m r t a ->
      exists o s2, sys_step s1 [(current (core s1), a)] o s2 /\ sys_end o s2 /\
        progs s2 = <[Z.to_nat (current (core s1)) := rest]> (progs s1)).
Proof.
  intros Hok Hrun. destruct (sys_run_ok s ls None s1 Hok Hrun) as [_ Hok1]. cbn [sys_end] in Hok1. split.
  - destruct (sys_can_finish _ s1 Hok1 eq_refl) as (ls' & s2 & Hr). exists ls', s2. split; [done|]. by apply (sys_run_ok s1 ls' _ s2 Hok1 Hr).
  - intros m c r t Hin. split.
    + intros irq Hi Hiar. destruct (sys_step_interrupt s1 m c r irq t Hok1 Hin Hi Hiar) as [s2 Hs]. exists s2. split; [done|]. by apply (sys_step_ok s1 _ _ s2 Hok1 Hs).
    + intros a rest Hp Hc. destruct (sys_step_call s1 m c r t a rest Hok1 Hin Hp Hc) as (o & s2 & Hs & Ep). exists o, s2. split; [done|].
      split; [by apply (sys_step_ok s1 _ _ s2 Hok1 Hs)|done].
Qed.

(** ** Instances *)

(** Application 1 of the sample has called [log] and will exit, application 0
    will fault. *)
Definition sample_system : system := System sample_kernel [[AFault 0x92000045 8 0x41000010]; [ALog (bytes_of "hi"); AExit 3]; []].

Lemma sample_system_ok : sys_ok sample_system.
Proof.
  split; [exact sample_kernel_ok|]. split; [done| |]; cbn [progs sample_system].
  - intros p [-> |[-> |[-> |Hp%not_elem_of_nil]%elem_of_cons]%elem_of_cons]%elem_of_cons; [| |by left|done]; right.
    + exists [], (AFault 0x92000045 8 0x41000010). split; [done|]. split; [by constructor|]. split; [by intros []|unfold is_u64; lia].
    + exists [ALog (bytes_of "hi")], (AExit 3). split; [done|]. split; [|cbn; lia]. constructor; [|done]. cbn. unfold LOG_LIMIT. lia.
  - intros i p Hi Hp. unfold is_runnable. apply app_index in Hi as [-> |[-> | ->]]; cbn in Hp; injection Hp as <-.
    + split; [done|]. intros _. split; [done|]. by exists (sample_task 0 true).
    + split; [done|]. intros _. split; [done|]. by exists (sample_task 1 true).
    + split; [|done]. intros [_ (t & [= <-] & [=])].
Qed.

Lemma console_shows_programs_witness :
  exists ls s', sys_run sample_system ls (Some Idle) s' /\ Forall (.= []) (progs s') /\
    of_app 1 ls = [ALog (bytes_of "hi"); AExit 3] /\ console (trace (core s')) = concat (action_events <$> ls) ++ all_done.
Proof.
  destruct (sys_can_finish _ sample_system sample_system_ok eq_refl) as (ls & s' & Hrun). exists ls, s'.
  destruct (console_shows_programs sample_system ls (Some Idle) s' sample_system_ok Hrun) as (Hp & _ & Hc & _ & Hdone & _).
  split; [exact Hrun|]. split; [exact Hdone|]. split; [|exact Hc].
  destruct (Hp 1%nat _ eq_refl) as (p' & Hp' & E). rewrite Forall_lookup in Hdone. rewrite (Hdone _ _ Hp'), app_nil_r in E. symmetry. exact E.
Defined.

Lemma applications_can_finish_witness : exists ls s', sys_run sample_system ls (Some Idle) s' /\ finished s'.
Proof.
  destruct (applications_can_finish sample_system [] sample_system sample_system_ok (sys_nil sample_system)) as [H _]. exact H.
Defined.
