(* ===== verification/Machine.v ===== *)
(** * The system down to the instructions

    The steps of [System.v] with the exception taken by the machine of
    [Vectors.v]: the vector table, the entry code, [trap] on the frame it
    stored, and the return code.  Every run of these is a run of the system,
    so what [SystemSpec.v] says of runs holds of the machine. *)

From Stdlib Require Import Ascii String.
From S2P Require Import Prelude MemoryH Mem StringC Vsprintf Kernel Timer Task TaskProof TaskSpec Vectors VectorsSpec System SystemSpec.

Definition ended (o : machine + halt) : option halt := match o with inl _ => None | inr h => Some h end.

(** Equal but for memory, which every step may change anyway. *)
Definition same_but_ram (s s' : system) : Prop := progs s = progs s' /\ core s = set_ram (ram (core s)) (core s').

Lemma set_ram_same k : set_ram (ram k) k = k.
Proof. by destruct k. Qed.

Lemma set_ram_twice m m' k : set_ram m (set_ram m' k) = set_ram m k.
Proof. done. Qed.

Lemma same_sym s s' : same_but_ram s s' -> same_but_ram s' s.
Proof. intros [Ep Ec]. split; [done|]. by rewrite Ec, set_ram_twice, set_ram_same. Qed.

Lemma same_refl s : same_but_ram s s.
Proof. split; [done|]. by rewrite set_ram_same. Qed.

Section machine.
Context (table ksp : Z).

(** Synchronous exceptions are of kind 0, interrupts of kind 1; [m] is memory
    when the exception is taken, and [junk] what the C code leaves in the
    registers. *)
Inductive hw_step_from (m : mem) (s : system) : list (Z * action) -> option halt -> system -> Prop :=
  | hw_interrupt c r t junk o k' :
      interrupted (core s) m c r t -> stack_ok ksp m -> length (xs junk) = 31%nat -> icc_iar1_el1 c = 30 \/ spurious c ->
      exception table c 2 1 junk (take_exception r ksp m) (set_ram m (core s)) = Some (o, k') ->
      hw_step_from m s [] (ended o) (System k' (progs s))
  | hw_call c r t a rest junk o k' :
      interrupted (core s) m c r t -> stack_ok ksp m -> length (xs junk) = 31%nat ->
      progs s !! Z.to_nat (current (core s)) = Some (a :: rest) -> calls c m r t a ->
      exception table c 2 0 junk (take_exception r ksp m) (set_ram m (core s)) = Some (o, k') ->
      hw_step_from m s [(current (core s), a)] (ended o) (System k' (<[Z.to_nat (current (core s)) := rest]> (progs s))).

Definition hw_step (s : system) (l : list (Z * action)) (o : option halt) (s' : system) : Prop := exists m, hw_step_from m s l o s'.

Inductive hw_run (s : system) : list (Z * action) -> option halt -> system -> Prop :=
  | hw_nil : hw_run s [] None s
  | hw_snoc ls s1 l o s2 : hw_run s ls None s1 -> hw_step s1 l o s2 -> hw_run s (ls ++ l) o s2.

Hypothesis (Htable : 0 <= table /\ table + 3 * sizeof_task_struct < 2 ^ 64).

(** The kernel's stack is below the application slots. *)
Hypothesis (Hksp : Z.land ksp 15 = 0 /\ S_FRAME_SIZE <= ksp <= __va APP_FIRST).

(** ** The frame does not disturb the application *)

Lemma text_in_slot k t p n : kernel_ok k -> task_at (current k) k = Some t -> own_buffer t p n -> 0 < n -> __va APP_FIRST <= __va p.
Proof using.
  intros Hk Hat Hown Hn. pose proof (k_current _ (k_wf _ Hk)) as Hc.
  destruct (k_each _ (k_wf _ Hk) _ t Hc (task_at_lookup _ _ _ Hat)) as [Eb Hs Et Ebot _ _]. unfold own_buffer in Hown. rewrite Eb, Et, Ebot in Hown.
  assert (Hp : slot (current k) <= p < slot (current k) + APP_SLOT_SIZE) by (unfold APP_IMAGE_SIZE, APP_SLOT_SIZE, APP_STACK_SIZE in *; lia).
  unfold slot, APP_FIRST, APP_SLOT_SIZE, APP_COUNT in *. rewrite !va_of_ram by (unfold PHYS_OFFSET, RAM_SIZE; lia). lia.
Qed.

Lemma calls_framed c k m r t a : kernel_ok k -> task_at (current k) k = Some t -> goes_on a \/ stops a -> regs_ok r ->
  calls c m r t a -> calls c (framed r ksp m) r t a.
Proof using Hksp.
  intros Hk Hat Ha Hr. destruct a as [text| |status|esr far elr]; try done. intros (Hsvc & p & E8 & E0 & E1 & Hown & Hb). split; [done|]. exists p. split_and!; try done.
  assert (Hlen : 0 < length text) by (destruct Ha as [[? _]|[]]; done). pose proof (text_in_slot k t p _ Hk Hat Hown Hlen).
  apply bytes_at_write; [|done]. intros x Hx. right. rewrite frame_bytes_length by apply Hr. lia.
Qed.

Lemma interrupted_framed k m c r t : interrupted k m c r t -> interrupted k (framed r ksp m) c r t.
Proof using. intros [? ? ? Hs]. split; try done. intros i Hi. by apply mapped_write, Hs. Qed.

Lemma interrupted_memory k k' m c r t : k' = set_ram (ram k') k -> interrupted k' m c r t -> interrupted k m c r t.
Proof using. intros -> [? ? ? ?]. by split. Qed.

(** ** The exception of a step *)

Lemma hw_exception c kind junk r t k m : kernel_ok k -> interrupted k m c r t -> stack_ok ksp m -> length (xs junk) = 31%nat -> (kind <= 1)%nat ->
  exists o o2 k2 k', trap c r kind (set_ram (framed r ksp m) k) = Some (o2, k2) /\
    exception table c 2 kind junk (take_exception r ksp m) (set_ram m k) = Some (o, k') /\
    ended o = (match o2 with inl _ => None | inr h => Some h end) /\ k' = set_ram (ram k') k2 /\
    (ended o = None -> kernel_ok k' /\ stack_ok ksp (ram k')).
Proof using Htable.
  intros Hk Hin Hs Hj Hkind.
  destruct (exception_exec table Htable c kind junk r ksp (set_ram m k) (entered_ok k m c r t Hk Hin) (in_regs _ _ _ _ _ Hin) Hs Hj Hkind) as (o2 & k2 & E & Ho).
  change (set_ram (framed r ksp (ram (set_ram m k))) (set_ram m k)) with (set_ram (framed r ksp m) k) in E. change (ram (set_ram m k)) with m in Ho.
  destruct o2 as [j|h].
  - destruct Ho as (tj & s & Ex & _ & _ & _ & _ & Hst & Hok & _). by exists (inl s), (inl j), k2, (set_ram (memory s) k2).
  - exists (inr h), (inr h), k2, k2. split_and!; try done. by rewrite set_ram_same.
Qed.

(** ** Simulation *)

Lemma same_ok s s' : same_but_ram s s' -> sys_ok s -> kernel_ok (core s') -> sys_ok s'.
Proof using.
  intros [Ep Ec] [_ [Hl Hok Hleft]] Hk. split; [done|]. rewrite Ep in Hl, Hok, Hleft. rewrite Ec in Hleft. by split.
Qed.

Lemma hw_step_sim s s2 l o s' : kernel_ok (core s) -> sys_wf s -> same_but_ram s s2 -> hw_step s l o s' ->
  exists s2', sys_step s2 l o s2' /\ same_but_ram s' s2' /\ (o = None -> kernel_ok (core s') /\ stack_ok ksp (ram (core s'))).
Proof using Htable Hksp.
  intros Hk Hw [Ep Ec] Hstep. assert (Ecur : current (core s) = current (core s2)) by (by rewrite Ec).
  assert (Eset : forall m, set_ram m (core s) = set_ram m (core s2)) by (intros m; by rewrite Ec, set_ram_twice).
  destruct Hstep as [m Hstep]. destruct Hstep as [c r t junk o k' Hin Hs Hj Hiar E|c r t a rest junk o k' Hin Hs Hj Hp Hcall E].
  - destruct (hw_exception c 1 junk r t (core s) m Hk Hin Hs Hj ltac:(lia)) as (o1 & o2 & k2 & k1 & Et & E1 & Eo & Ek & Hok).
    rewrite E in E1. injection E1 as <- <-. rewrite Eset in Et. exists (System k2 (progs s2)). split; [|split; [by split|done]]. rewrite Eo.
    apply (step_interrupt s2 (framed r ksp m) c r 1 t o2 k2); [|done|done|exact Et].
    apply (interrupted_memory _ (core s)); [done|]. by apply interrupted_framed.
  - destruct (hw_exception c 0 junk r t (core s) m Hk Hin Hs Hj ltac:(lia)) as (o1 & o2 & k2 & k1 & Et & E1 & Eo & Ek & Hok).
    rewrite E in E1. injection E1 as <- <-. rewrite Eset in Et. rewrite Ecur in Hp |- *. rewrite Ep in Hp |- *.
    exists (System k2 (<[Z.to_nat (current (core s2)) := rest]> (progs s2))). split; [|split; [by split|done]]. rewrite Eo.
    apply (step_call s2 (framed r ksp m) c r t a rest o2 k2); [|done| |exact Et].
    + apply (interrupted_memory _ (core s)); [done|]. by apply interrupted_framed.
    + apply (calls_framed c (core s)); [done|apply Hin| |apply Hin|done]. assert (Hpok : program_ok (a :: rest)) by (apply Hw; rewrite Ep; by eapply list_elem_of_lookup_2).
      destruct (program_next a rest Hpok) as [_ [[? _]|[? _]]]; tauto.
Qed.

Lemma same_end s s2 o : same_but_ram s s2 -> sys_end o s2 -> (o = None -> kernel_ok (core s)) -> sys_end o s.
Proof using.
  intros Hsame Hend Hk. destruct o as [h|]; cbn [sys_end] in *.
  - destruct Hsame as [Ep Ec]. destruct Hend as [-> [? ? ? ?]]. split; [done|]. by split; [rewrite Ep|rewrite Ec..].
  - apply (same_ok s2); [by apply same_sym|done|by apply Hk].
Qed.

Lemma hw_run_sim s ls o s' : sys_ok s -> hw_run s ls o s' ->
  exists s2, sys_run s ls o s2 /\ same_but_ram s' s2 /\ sys_end o s' /\ (stack_ok ksp (ram (core s)) -> o = None -> stack_ok ksp (ram (core s'))).
Proof using Htable Hksp.
  intros Hok Hrun. induction Hrun as [|ls s1 l o s2 Hrun IH Hstep].
  { exists s. split_and!; [apply sys_nil|apply same_refl|done|done]. }
  destruct IH as (s1' & Hr & Hsame & Hok1 & _). cbn [sys_end] in Hok1.
  destruct (hw_step_sim s1 s1' l o s2 (s_kernel _ Hok1) (s_wf _ Hok1) Hsame Hstep) as (s2' & Hs & Hsame' & Hk).
  exists s2'. split; [by apply (sys_snoc _ _ s1')|]. split; [done|]. split; [|intros _ Ho; by apply Hk].
  apply (same_end s2 s2'); [done| |intros Ho; by apply Hk]. apply (sys_run_ok s (ls ++ l) o s2' Hok). by apply (sys_snoc _ _ s1').
Qed.

(** ** Progress *)

Lemma hw_step_ok s l o s' : sys_ok s -> hw_step s l o s' -> sys_end o s' /\ (o = None -> stack_ok ksp (ram (core s'))).
Proof using Htable Hksp.
  intros Hok Hstep. pose proof (hw_snoc s [] s l o s' (hw_nil s) Hstep) as Hrun. cbn [app] in Hrun.
  destruct (hw_run_sim s l o s' Hok Hrun) as (_ & _ & _ & Hend & _). split; [done|].
  destruct (hw_step_sim s s l o s' (s_kernel _ Hok) (s_wf _ Hok) (same_refl s) Hstep) as (_ & _ & _ & Hk). intros Ho. by apply Hk.
Qed.

(** The machine never gets stuck in the kernel. *)
Lemma hw_total s m c r t junk : sys_ok s -> interrupted (core s) m c r t -> stack_ok ksp m -> length (xs junk) = 31%nat ->
  (icc_iar1_el1 c = 30 \/ spurious c -> exists o s', hw_step s [] o s') /\
  forall a rest, progs s !! Z.to_nat (current (core s)) = Some (a :: rest) -> calls c m r t a ->
    exists o s', hw_step s [(current (core s), a)] o s' /\ progs s' = <[Z.to_nat (current (core s)) := rest]> (progs s).
Proof using Htable.
  intros [Hk _] Hin Hs Hj. split.
  - intros Hiar. destruct (hw_exception c 1 junk r t (core s) m Hk Hin Hs Hj ltac:(lia)) as (o & _ & _ & k' & _ & E & _).
    eexists _, _. exists m. exact (hw_interrupt m s c r t junk o k' Hin Hs Hj Hiar E).
  - intros a rest Hp Hc. destruct (hw_exception c 0 junk r t (core s) m Hk Hin Hs Hj ltac:(lia)) as (o & _ & _ & k' & _ & E & _).
    eexists _, _. split; [exists m; exact (hw_call m s c r t a rest junk o k' Hin Hs Hj Hp Hc E)|done].
Qed.

Lemma hw_can_step s : sys_ok s -> stack_ok ksp (ram (core s)) -> exists a rest o s', progs s !! Z.to_nat (current (core s)) = Some (a :: rest) /\
  hw_step s [(current (core s), a)] o s' /\ progs s' = <[Z.to_nat (current (core s)) := rest]> (progs s).
Proof using Htable.
  intros Hok Hst. destruct (next_call s Hok) as (a & rest & c & r & t & Hp & Hin & Hcall).
  destruct (hw_total s _ c r t (Machine (replicate 31 0) 0 0 0 0 ∅) Hok Hin (stack_kept ksp _ _ (call_memory_mapped t a _) Hst) eq_refl) as [_ H].
  destruct (H a rest Hp Hcall) as (o & s' & Hs). by exists a, rest, o, s'.
Qed.

Lemma hw_run_cons s l s1 ls o s2 : hw_step s l None s1 -> hw_run s1 ls o s2 -> hw_run s (l ++ ls) o s2.
Proof using.
  intros Hs Hr. induction Hr as [|ls s3 l3 o s4 Hr IH Hs3]; [rewrite app_nil_r; exact (hw_snoc s [] s l None s1 (hw_nil s) Hs)|].
  rewrite app_assoc. by apply (hw_snoc _ _ s3).
Qed.

Lemma hw_can_finish n s : sys_ok s -> stack_ok ksp (ram (core s)) -> length (concat (progs s)) = n -> exists ls s', hw_run s ls (Some Idle) s'.
Proof using Htable Hksp.
  revert s. induction n as [|n IH]; intros s Hok Hst Hn; destruct (hw_can_step s Hok Hst) as (a & rest & o & s1 & Hp & Hs & Ep).
  all: pose proof (concat_next (progs s) _ a rest Hp) as Hlen; rewrite <- Ep in Hlen.
  - lia.
  - destruct (hw_step_ok s _ o s1 Hok Hs) as [Hend Hst']. destruct o as [h|].
    + destruct Hend as [-> _]. eexists _, s1. eapply hw_snoc; [apply hw_nil|exact Hs].
    + destruct (IH s1 Hend (Hst' eq_refl)) as (ls & s2 & Hr); [lia|]. eexists _, s2. eapply hw_run_cons; [exact Hs|exact Hr].
Qed.

(** ** The property *)

(** C5. The machine refines the system: every run whose exceptions go
    through the vector table, the entry instructions, [trap] on the stored
    frame and the return instructions is, up to memory, a run of the system
    with the same actions and the same end, in every interleaving, whatever
    the applications do to their registers and memory and the C code to the
    registers; its states satisfy the same invariant; and no exception of an
    application finds the machine stuck. *)
Theorem machine_refines_system s ls o s' : sys_ok s -> hw_run s ls o s' ->
  (exists s2, sys_run s ls o s2 /\ same_but_ram s' s2) /\ sys_end o s' /\
  (o = None -> forall m c r t junk, interrupted (core s') m c r t -> stack_ok ksp m -> length (xs junk) = 31%nat ->
    (icc_iar1_el1 c = 30 \/ spurious c -> exists o2 s2, hw_step s' [] o2 s2) /\
    forall a rest, progs s' !! Z.to_nat (current (core s')) = Some (a :: rest) -> calls c m r t a ->
      exists o2 s2, hw_step s' [(current (core s'), a)] o2 s2).
Proof using Htable Hksp.
  intros Hok Hrun. destruct (hw_run_sim s ls o s' Hok Hrun) as (s2 & Hr & Hsame & Hend & _). split; [by exists s2|]. split; [done|].
  intros -> m c r t junk Hin Hs Hj. destruct (hw_total s' m c r t junk Hend Hin Hs Hj) as [Hi Hc]. split; [done|].
  intros a rest Hp Hcall. destruct (Hc a rest Hp Hcall) as (o2 & s3 & H3 & _). by exists o2, s3.
Qed.

End machine.

(** ** Instance *)

Lemma sys_ok_tasks k k' ps : tasks k' = tasks k -> kernel_ok k' -> sys_ok (System k ps) -> sys_ok (System k' ps).
Proof. intros Et Hk [_ [Hl Hok Hleft]]. split; [done|]. split; [done|done|]. cbn [core progs] in *. by rewrite Et. Qed.

Lemma stacked_tasks ksp k : tasks (stacked ksp k) = tasks k.
Proof. done. Qed.

Definition sample_progs : list (list action) := [[AFault 0x92000045 8 0x41000010]; [ALog (bytes_of "hi"); AExit 3]; []].

Definition stacked_system : system := System stacked_kernel sample_progs.

Lemma stacked_system_ok : sys_ok stacked_system.
Proof. exact (sys_ok_tasks sample_kernel stacked_kernel sample_progs (stacked_tasks sample_ksp sample_kernel) stacked_kernel_ok sample_system_ok). Qed.

Lemma sample_places : (0 <= sample_table /\ sample_table + 3 * sizeof_task_struct < 2 ^ 64) /\ (Z.land sample_ksp 15 = 0 /\ S_FRAME_SIZE <= sample_ksp <= __va APP_FIRST).
Proof.
  assert (E : __va APP_FIRST = 0xffffffc001000000) by (vm_compute; reflexivity). rewrite E.
  unfold sample_table, sizeof_task_struct, sample_ksp, S_FRAME_SIZE. split; [lia|]. split; [reflexivity|lia].
Qed.

Lemma machine_refines_system_witness : exists ls s' s2,
  hw_run sample_table sample_ksp stacked_system ls (Some Idle) s' /\ sys_run stacked_system ls (Some Idle) s2 /\ trace (core s') = trace (core s2).
Proof.
  destruct sample_places as [Ht Hksp].
  destruct (hw_can_finish sample_table sample_ksp Ht Hksp _ stacked_system stacked_system_ok stacked_stack_ok eq_refl) as (ls & s' & Hrun).
  destruct (machine_refines_system sample_table sample_ksp Ht Hksp stacked_system ls (Some Idle) s' stacked_system_ok Hrun) as [(s2 & Hr & _ & Ec) _].
  exists ls, s', s2. split; [exact Hrun|]. split; [exact Hr|]. rewrite Ec. reflexivity.
Defined.
