(* ===== verification/Isolation.v ===== *)
(** * What an application can change

    A store of an application goes through the page tables that [mmu_init]
    built and [cpu_uninstall_idmap] switched to ([Mmu.v]); in the runs of
    [Machine.v] memory changes between two exceptions by such stores only. *)

From Stdlib Require Import Ascii String.
From S2P Require Import Prelude MemoryH Mem StringC Mmu MmuProof MmuSpec Vsprintf Kernel Timer Task TaskProof TaskSpec TaskStart Vectors VectorsSpec System SystemSpec Machine.

(** ** Stores *)

(** A byte stored at EL0; a store without permission faults and changes
    nothing. *)
Definition el0_store (t : mmu) (st : Z * Z) (m : mem) : option mem :=
  let* r := translate t st.1 in
  match r with
  | Some (pa, gr) => if p_w (el0 gr) then store8 (__va pa) st.2 m else Some m
  | None => Some m
  end.

Fixpoint el0_stores (t : mmu) (sts : list (Z * Z)) (m : mem) : option mem :=
  match sts with
  | [] => Some m
  | st :: sts => let* m := el0_store t st m in el0_stores t sts m
  end.

(** The addresses at which the kernel sees the stack of application [i]. *)
Definition stack_of (i x : Z) : Prop := __va (slot i) + (APP_SLOT_SIZE - APP_STACK_SIZE) <= x < __va (slot i) + APP_SLOT_SIZE.

Definition app_stack (x : Z) : Prop := exists i, 0 <= i < APP_COUNT /\ stack_of i x.

Lemma user_writable va pa gr : user_view va = Some (pa, gr) -> p_w (el0 gr) = true -> app_stack (__va pa).
Proof.
  unfold user_view. rewrite within_spec. case_bool_decide as Hw; [|done]. destruct (Z.ltb_spec ((va - APP_FIRST) mod APP_SLOT_SIZE) APP_IMAGE_SIZE) as [_|_]; [by intros [= <- <-]|].
  destruct (Z.leb_spec (APP_SLOT_SIZE - APP_STACK_SIZE) ((va - APP_FIRST) mod APP_SLOT_SIZE)) as [Ho|_]; [|done]. intros [= <- <-] _.
  exists ((va - APP_FIRST) / APP_SLOT_SIZE). unfold APP_SLOT_SIZE, APP_COUNT, APP_FIRST in *.
  pose proof (Z.div_mod (va - 0x41000000) 0x20000 ltac:(lia)). pose proof (Z.mod_pos_bound (va - 0x41000000) 0x20000 ltac:(lia)).
  set (q := (va - 0x41000000) / 0x20000) in *. set (o := (va - 0x41000000) mod 0x20000) in *. assert (Hq : 0 <= q < 3) by lia. split; [done|].
  unfold stack_of, slot, APP_FIRST, APP_SLOT_SIZE. rewrite !va_of_ram by (unfold PHYS_OFFSET, RAM_SIZE; lia). lia.
Qed.

Lemma kernel_writable k va pa gr : kernel_view k va = Some (pa, gr) -> p_w (el0 gr) = false.
Proof. unfold kernel_view. repeat case_match; intros [= <- <-] || intros [=]; done. Qed.

Section isolation.

(** The tables while applications run. *)
Context (t : mmu) (k : image).
Hypothesis (Hview : forall va, is_u64 va -> translate t va = Some (if va <? 2 ^ 39 then user_view va else kernel_view k va)).

(** A store that is made goes to a stack. *)
Lemma el0_store_confined st m : is_u64 st.1 -> (forall i, 0 <= i < APP_COUNT -> mapped m (__va (slot i)) APP_SLOT_SIZE) ->
  exists m', el0_store t st m = Some m' /\ (forall x, ~ app_stack x -> m' !! x = m !! x) /\ forall x, is_Some (m !! x) -> is_Some (m' !! x).
Proof using Hview.
  intros Hva Hm. unfold el0_store. rewrite (Hview _ Hva). cbn [mbind option_bind]. destruct (if st.1 <? 2 ^ 39 then _ else _) as [[pa gr]|] eqn:Ev; [|by exists m].
  destruct (p_w (el0 gr)) eqn:Ew; [|by exists m]. destruct (st.1 <? 2 ^ 39); [|apply kernel_writable in Ev; congruence].
  pose proof (user_writable _ _ _ Ev Ew) as Hs. destruct Hs as (i & Hi & Hx). unfold store8. destruct (Hm i Hi (__va pa)) as [b ->]; [unfold stack_of, APP_SLOT_SIZE, APP_STACK_SIZE in *; lia|].
  cbn [mbind option_bind]. eexists. split; [done|]. split.
  - intros x Hn. apply lookup_insert_ne. intros <-. apply Hn. by exists i.
  - intros x Hsome. destruct (decide (x = __va pa)) as [->|]; [rewrite lookup_insert_eq; by eexists|rewrite lookup_insert_ne by congruence; done].
Qed.

Lemma el0_stores_confined sts m : Forall (fun st => is_u64 st.1) sts -> (forall i, 0 <= i < APP_COUNT -> mapped m (__va (slot i)) APP_SLOT_SIZE) ->
  exists m', el0_stores t sts m = Some m' /\ (forall x, ~ app_stack x -> m' !! x = m !! x) /\ forall x, is_Some (m !! x) -> is_Some (m' !! x).
Proof using Hview.
  intros Hs. revert m. induction Hs as [|st sts Hst Hs IH]; intros m Hm; [by exists m|]. cbn [el0_stores].
  destruct (el0_store_confined st m Hst Hm) as (m1 & -> & Hx1 & Hd1). cbn [mbind option_bind].
  destruct (IH m1) as (m2 & -> & Hx2 & Hd2); [intros i Hi x Hx; by apply Hd1, Hm with (i := i)|]. exists m2. split; [done|]. split.
  - intros x Hn. by rewrite Hx2, Hx1.
  - intros x Hx. by apply Hd2, Hd1.
Qed.

(** ** Runs in which memory changes by stores *)

Context (table ksp : Z).

Inductive confined_run (s : system) : list (Z * action) -> option halt -> system -> Prop :=
  | confined_nil : confined_run s [] None s
  | confined_snoc ls s1 sts m l o s2 :
      confined_run s ls None s1 -> Forall (fun st => is_u64 st.1) sts -> el0_stores t sts (ram (core s1)) = Some m ->
      hw_step_from table ksp m s1 l o s2 -> confined_run s (ls ++ l) o s2.

Hypothesis (Htable : 0 <= table /\ table + 3 * sizeof_task_struct < 2 ^ 64).
Hypothesis (Hksp : Z.land ksp 15 = 0 /\ S_FRAME_SIZE <= ksp <= __va APP_FIRST).

(** What exceptions write: the frame and the task table. *)
Definition kernel_written (x : Z) : Prop := ksp - S_FRAME_SIZE <= x < ksp \/ table <= x < table + 3 * sizeof_task_struct.

Lemma confined_hw s ls o s' : confined_run s ls o s' -> hw_run table ksp s ls o s'.
Proof using. induction 1 as [|ls s1 sts m l o s2 _ IH _ _ Hstep]; [apply hw_nil|]. apply (hw_snoc table ksp s ls s1); [done|by exists m]. Qed.

Lemma trap_effect_ram c r irq k0 tk o k' : trap_effect c r irq k0 tk o k' -> ram k' = ram k0.
Proof using.
  assert (Hs : forall k1 o1 k2, scheduled k1 = (o1, k2) -> ram k2 = ram k1) by (intros k1 o1 k2; unfold scheduled; destruct (turn _ _); by intros [= <- <-]).
  destruct 1 as [| | |o k' _ _ _ H|o k' _ _ _ H|x0 o k' _ _ _ _ _ H| |]; try done; by rewrite (Hs _ _ _ H).
Qed.

(** An exception writes nothing else. *)
Lemma exception_ram c kind junk r tk k0 m o k' : kernel_ok k0 -> interrupted k0 m c r tk -> stack_ok ksp m -> length (xs junk) = 31%nat -> (kind <= 1)%nat ->
  exception table c 2 kind junk (take_exception r ksp m) (set_ram m k0) = Some (o, k') ->
  (forall x, ~ kernel_written x -> ram k' !! x = m !! x) /\ forall a n, mapped m a n -> mapped (ram k') a n.
Proof using Htable.
  intros Hk Hin Hs Hj Hkind E. pose proof (entered_ok k0 m c r tk Hk Hin) as Hok. pose proof (in_regs _ _ _ _ _ Hin) as Hr.
  destruct (exception_exec table Htable c kind junk r ksp (set_ram m k0) Hok Hr Hs Hj Hkind) as (o2 & k2 & Et & Ho).
  change (set_ram (framed r ksp (ram (set_ram m k0))) (set_ram m k0)) with (set_ram (framed r ksp m) k0) in Et. change (ram (set_ram m k0)) with m in Ho.
  destruct (trap_result c r kind (set_ram (framed r ksp m) k0)) as (tk' & o3 & k3 & _ & _ & Et3 & He); [apply (kernel_ok_memory (set_ram m k0)); [done|]; intros; by apply mapped_write|done|].
  rewrite Et in Et3. injection Et3 as <- <-. apply trap_effect_ram in He. change (ram (set_ram (framed r ksp m) k0)) with (framed r ksp m) in He.
  assert (Hf : forall x, ~ kernel_written x -> framed r ksp m !! x = m !! x).
  { intros x Hx. unfold framed. apply lookup_write_out. rewrite frame_bytes_length by apply Hr. unfold kernel_written in Hx. lia. }
  destruct o2 as [j|h].
  - destruct Ho as (tj & s & Ex & _ & _ & _ & _ & _ & _ & Hwf & Em). rewrite E in Ex. injection Ex as _ ->. cbn [ram set_ram]. rewrite Em. split.
    + intros x Hx. rewrite store_table_out; [by rewrite He, Hf|by apply kernel_ok_regs|]. rewrite (k_tasks _ Hwf). unfold task_regs, kernel_written in *. lia.
    + intros a n Ha. apply store_table_mapped. rewrite He. by apply mapped_write.
  - rewrite E in Ho. injection Ho as _ ->. rewrite He. split; [exact Hf|]. intros a n Ha. by apply mapped_write.
Qed.

Lemma hw_step_ram m s l o s' : kernel_ok (core s) -> hw_step_from table ksp m s l o s' ->
  (forall x, ~ kernel_written x -> ram (core s') !! x = m !! x) /\ forall a n, mapped m a n -> mapped (ram (core s')) a n.
Proof using Htable.
  intros Hk Hstep. destruct Hstep as [c r tk junk o k' Hin Hs Hj Hiar E|c r tk a rest junk o k' Hin Hs Hj Hp Hcall E]; cbn [core].
  - apply (exception_ram c 1 junk r tk (core s) m o k'); (done || lia).
  - apply (exception_ram c 0 junk r tk (core s) m o k'); (done || lia).
Qed.

Lemma confined_run_kept s ls o s' : sys_ok s -> confined_run s ls o s' ->
  hw_run table ksp s ls o s' /\ sys_end o s' /\
  (forall x, ~ app_stack x -> ~ kernel_written x -> ram (core s') !! x = ram (core s) !! x) /\
  (o = None -> forall sts, Forall (fun st => is_u64 st.1) sts -> exists m, el0_stores t sts (ram (core s')) = Some m /\
    (forall i, 0 <= i < APP_COUNT -> mapped m (__va (slot i)) APP_SLOT_SIZE) /\ (stack_ok ksp (ram (core s')) -> stack_ok ksp m)).
Proof using Hview Htable Hksp.
  intros Hok Hrun. pose proof (confined_hw s ls o s' Hrun) as Hhw. split; [done|].
  destruct (hw_run_sim table ksp Htable Hksp s ls o s' Hok Hhw) as (_ & _ & _ & Hend & _). split; [done|]. split.
  - clear Hhw Hend. induction Hrun as [|ls s1 sts m l o s2 Hrun IH Hsts Em Hstep]; [done|]. intros x Hx Hw.
    destruct (hw_run_sim table ksp Htable Hksp s ls None s1 Hok (confined_hw s ls None s1 Hrun)) as (_ & _ & _ & Hok1 & _). cbn [sys_end] in Hok1.
    rewrite (proj1 (hw_step_ram m s1 l o s2 (s_kernel _ Hok1) Hstep) x Hw).
    destruct (el0_stores_confined sts (ram (core s1)) Hsts (k_slots _ (k_wf _ (s_kernel _ Hok1)))) as (m' & Em' & Hm' & _). rewrite Em in Em'. injection Em' as <-.
    by rewrite Hm', IH.
  - intros -> sts Hsts. cbn [sys_end] in Hend. pose proof (k_slots _ (k_wf _ (s_kernel _ Hend))) as Hsl.
    destruct (el0_stores_confined sts (ram (core s')) Hsts Hsl) as (m & Em & _ & Hd). exists m. split; [done|]. split.
    + intros i Hi x Hx. by apply Hd, (Hsl i).
    + apply stack_kept. intros a n Ha x Hx. by apply Hd, Ha.
Qed.

(** No memory is lost. *)
Lemma confined_run_mapped s ls o s' a n : sys_ok s -> confined_run s ls o s' -> mapped (ram (core s)) a n -> mapped (ram (core s')) a n.
Proof using Hview Htable Hksp.
  intros Hok Hrun. induction Hrun as [|ls s1 sts m l o s2 Hrun IH Hsts Em Hstep]; [done|]. intros Ha.
  destruct (hw_run_sim table ksp Htable Hksp s ls None s1 Hok (confined_hw s ls None s1 Hrun)) as (_ & _ & _ & Hok1 & _). cbn [sys_end] in Hok1.
  apply (hw_step_ram m s1 l o s2 (s_kernel _ Hok1) Hstep).
  destruct (el0_stores_confined sts (ram (core s1)) Hsts (k_slots _ (k_wf _ (s_kernel _ Hok1)))) as (m' & Em' & _ & Hd). rewrite Em in Em'. injection Em' as <-.
  intros x Hx. apply Hd. by apply IH.
Qed.

(** ** Such runs can end *)

(** The stores that put a text into memory. *)
Fixpoint stores_at (a : Z) (text : list Z) : list (Z * Z) :=
  match text with
  | [] => []
  | b :: text => (a, b) :: stores_at (a + 1) text
  end.

Lemma user_view_stack i a : 0 <= i < APP_COUNT -> slot i + APP_SLOT_SIZE - APP_STACK_SIZE <= a < slot i + APP_SLOT_SIZE -> user_view a = grants a rw rw NC.
Proof using.
  intros Hi Ha. unfold user_view. assert ((a - APP_FIRST) mod APP_SLOT_SIZE = a - slot i) as ->.
  { unfold slot, APP_FIRST, APP_SLOT_SIZE, APP_STACK_SIZE in *. symmetry. apply (Z.mod_unique _ _ i); lia. }
  rewrite within_spec. unfold slot, APP_FIRST, APP_SLOT_SIZE, APP_STACK_SIZE, APP_IMAGE_SIZE, APP_COUNT in *. rewrite bool_decide_true by lia. by eval_cmp.
Qed.

Lemma stores_at_write i a text m : 0 <= i < APP_COUNT -> slot i + APP_SLOT_SIZE - APP_STACK_SIZE <= a -> a + length text <= slot i + APP_SLOT_SIZE ->
  Forall is_byte text -> mapped m (__va a) (length text) -> Forall (fun st => is_u64 st.1) (stores_at a text) /\ el0_stores t (stores_at a text) m = Some (write (__va a) text m).
Proof using Hview.
  intros Hi Hlo Hhi Hb. revert a m Hlo Hhi. induction Hb as [|b text Hb _ IH]; intros a m Hlo Hhi Hm; [split; [by apply Forall_nil|done]|]. cbn [length] in *.
  assert (Hr : 0x41000000 <= a < 0x41060000) by (unfold slot, APP_FIRST, APP_SLOT_SIZE, APP_STACK_SIZE, APP_COUNT in *; lia).
  assert (Hva : __va (a + 1) = __va a + 1) by (rewrite !va_of_ram by (unfold PHYS_OFFSET, RAM_SIZE; lia); lia).
  cbn [stores_at el0_stores write]. unfold el0_store. cbn [fst snd]. rewrite Hview by (unfold is_u64; lia). rewrite (proj2 (Z.ltb_lt a _)) by lia.
  rewrite (user_view_stack i a) by (done || lia). cbn [mbind option_bind grants el0 p_w rw]. unfold store8. destruct (Hm (__va a)) as [v ->]; [lia|]. cbn [mbind option_bind].
  assert (u8 b = b) as -> by (unfold u8; by apply Z.mod_small). rewrite <- Hva. destruct (IH (a + 1) (<[__va a := b]> m)) as [Hs E]; [lia|lia| |].
  - rewrite Hva. apply (mapped_sub _ (__va a) (Datatypes.S (length text))); [exact (mapped_write _ _ (__va a) [b] _ Hm)|lia|lia].
  - split; [|exact E]. apply Forall_cons. split; [cbn; unfold is_u64; lia|done].
Qed.

(** A program that logs bytes. *)
Definition logs_bytes (a : action) : Prop := match a with ALog text => Forall is_byte text | _ => True end.

Lemma call_stores k0 tk a : kernel_ok k0 -> task_at (current k0) k0 = Some tk -> goes_on a \/ stops a -> logs_bytes a ->
  exists sts, Forall (fun st => is_u64 st.1) sts /\ el0_stores t sts (ram k0) = Some (call_memory tk a (ram k0)).
Proof using Hview.
  intros Hk Hat Ha Hb. destruct a as [text| | |]; try (exists []; split; [by apply Forall_nil|done]).
  pose proof (k_current _ (k_wf _ Hk)) as Hc. pose proof (k_each _ (k_wf _ Hk) _ tk Hc (task_at_lookup _ _ _ Hat)) as Ht.
  exists (stores_at (stack_bottom tk) text). cbn [call_memory]. destruct Ha as [Ha|[]]. cbn [goes_on] in Ha.
  apply (stores_at_write (current k0)); rewrite ?(t_bottom _ _ Ht); [done|lia|unfold LOG_LIMIT, APP_STACK_SIZE in *; lia|done|].
  rewrite stack_in_slot by done. apply (mapped_sub _ _ _ _ _ (k_slots _ (k_wf _ Hk) _ Hc)); unfold LOG_LIMIT, APP_STACK_SIZE, APP_SLOT_SIZE in *; lia.
Qed.

(** The next action, with stores before it that the tables allow. *)
Lemma confined_can_step s : sys_ok s -> stack_ok ksp (ram (core s)) -> Forall (Forall logs_bytes) (progs s) ->
  exists a rest sts m o s', progs s !! Z.to_nat (current (core s)) = Some (a :: rest) /\ Forall (fun st => is_u64 st.1) sts /\
    el0_stores t sts (ram (core s)) = Some m /\ hw_step_from table ksp m s [(current (core s), a)] o s' /\
    progs s' = <[Z.to_nat (current (core s)) := rest]> (progs s).
Proof using Hview Htable Hksp.
  intros Hok Hst Hb. destruct (next_call s Hok) as (a & rest & c & r & tk & Hp & Hin & Hcall). pose proof Hok as [Hk Hw].
  assert (Hpok : program_ok (a :: rest)) by (apply Hw; by eapply list_elem_of_lookup_2).
  assert (Ha : goes_on a \/ stops a) by (destruct (program_next a rest Hpok) as [_ [[? _]|[? _]]]; tauto).
  assert (Hba : logs_bytes a) by (rewrite Forall_lookup in Hb; specialize (Hb _ _ Hp); by apply Forall_cons in Hb as [? _]).
  destruct (call_stores (core s) tk a Hk (in_task _ _ _ _ _ Hin) Ha Hba) as (sts & Hsts & Em). set (junk := Machine (replicate 31 0) 0 0 0 0 ∅).
  pose proof (stack_kept ksp _ _ (call_memory_mapped tk a _) Hst) as Hs.
  destruct (hw_exception table ksp Htable c 0 junk r tk (core s) _ Hk Hin Hs eq_refl ltac:(lia)) as (o & _ & _ & k' & _ & E & _).
  exists a, rest, sts, (call_memory tk a (ram (core s))). eexists _, _. split; [done|]. split; [done|]. split; [done|].
  split; [exact (hw_call table ksp _ s c r tk a rest junk o k' Hin Hs eq_refl Hp Hcall E)|done].
Qed.

Lemma confined_cons s sts m l s1 ls o s2 : Forall (fun st => is_u64 st.1) sts -> el0_stores t sts (ram (core s)) = Some m ->
  hw_step_from table ksp m s l None s1 -> confined_run s1 ls o s2 -> confined_run s (l ++ ls) o s2.
Proof using.
  intros Hsts Em Hs Hr. induction Hr as [|ls s3 sts3 m3 l3 o s4 Hr IH Hsts3 Em3 Hs3].
  - rewrite app_nil_r. exact (confined_snoc s [] s sts m l None s1 (confined_nil s) Hsts Em Hs).
  - rewrite app_assoc. by apply (confined_snoc _ _ s3 sts3 m3).
Qed.

Lemma confined_can_finish n s : sys_ok s -> stack_ok ksp (ram (core s)) -> Forall (Forall logs_bytes) (progs s) -> length (concat (progs s)) = n ->
  exists ls s', confined_run s ls (Some Idle) s'.
Proof using Hview Htable Hksp.
  revert s. induction n as [|n IH]; intros s Hok Hst Hb Hn; destruct (confined_can_step s Hok Hst Hb) as (a & rest & sts & m & o & s1 & Hp & Hsts & Em & Hs & Ep).
  all: pose proof (concat_next (progs s) _ a rest Hp) as Hlen; rewrite <- Ep in Hlen.
  - lia.
  - destruct (hw_step_ok table ksp Htable Hksp s _ o s1 Hok (ex_intro _ m Hs)) as [Hend Hst']. destruct o as [h|].
    + destruct Hend as [-> _]. eexists _, s1. eapply confined_snoc; [apply confined_nil|exact Hsts|exact Em|exact Hs].
    + assert (Hb1 : Forall (Forall logs_bytes) (progs s1)).
      { rewrite Ep. apply Forall_insert; [done|]. rewrite Forall_lookup in Hb. specialize (Hb _ _ Hp). by apply Forall_cons in Hb as [_ ?]. }
      destruct (IH s1 Hend (Hst' eq_refl) Hb1) as (ls & s2 & Hr); [lia|]. eexists _, s2. by eapply confined_cons.
Qed.

End isolation.

(** ** The property *)

(** C6. Applications cannot touch the kernel: with the page tables that
    [mmu_init] builds and [cpu_uninstall_idmap] leaves, in every run in which
    the applications store whatever they like at whatever addresses, each
    byte of memory that is neither in the stack of an application nor in the
    frame or the task table, which the exceptions write, is at the end what it
    was at the start: the kernel's code and data, the heap, the page tables
    and the images of the applications themselves.  No sequence of stores gets
    stuck, and the runs are runs of the machine, so all that holds of those
    holds here. *)
Theorem applications_cannot_touch_the_kernel k g t0 t1 table ksp s ls o s' : image_ok k -> statics_ok k g -> cleared g t0 -> mmu_init k g t0 = Some t1 ->
  0 <= table /\ table + 3 * sizeof_task_struct < 2 ^ 64 -> Z.land ksp 15 = 0 /\ S_FRAME_SIZE <= ksp <= __va APP_FIRST ->
  sys_ok s -> confined_run (cpu_uninstall_idmap g t1) table ksp s ls o s' ->
  hw_run table ksp s ls o s' /\ sys_end o s' /\
  (forall x, ~ app_stack x -> ~ kernel_written table ksp x -> ram (core s') !! x = ram (core s) !! x) /\
  (o = None -> forall sts, Forall (fun st => is_u64 st.1) sts -> exists m, el0_stores (cpu_uninstall_idmap g t1) sts (ram (core s')) = Some m /\
    (forall i, 0 <= i < APP_COUNT -> mapped m (__va (slot i)) APP_SLOT_SIZE) /\ (stack_ok ksp (ram (core s')) -> stack_ok ksp m)).
Proof.
  intros Hk Hg Hc E Ht Hksp Hok Hrun. destruct (mmu_init_correct k g Hk Hg t0 Hc) as (t2 & E2 & _ & Hview). rewrite E in E2. injection E2 as <-.
  apply (confined_run_kept (cpu_uninstall_idmap g t1) k (fun va Hva => proj2 (Hview va Hva)) table ksp Ht Hksp s ls o s' Hok Hrun).
Qed.

(** ** Instance *)

(** Application 0 stores into the kernel's text, into its own image and onto
    its stack, and then faults. *)
Definition sample_stores : list (Z * Z) := [(0xffffffc000080000, 1); (0x41000000, 2); (0x4101c008, 3)].

Lemma sample_stores_ok : Forall (fun st => is_u64 st.1) sample_stores.
Proof. repeat (apply Forall_cons; split; [cbn [fst]; unfold is_u64; lia|]). by apply Forall_nil. Qed.

(** A system whose current application faults next. *)
Lemma confined_fault t k table ksp s (sts : list (Z * Z)) esr far elr rest : (forall va, is_u64 va -> translate t va = Some (if va <? 2 ^ 39 then user_view va else kernel_view k va)) ->
  0 <= table /\ table + 3 * sizeof_task_struct < 2 ^ 64 -> sys_ok s -> stack_ok ksp (ram (core s)) -> Forall (fun st => is_u64 st.1) sts ->
  progs s !! Z.to_nat (current (core s)) = Some (AFault esr far elr :: rest) -> ~ svc esr -> is_u64 elr ->
  exists o s', confined_run t table ksp s [(current (core s), AFault esr far elr)] o s'.
Proof.
  intros Hview Ht [Hk Hw] Hst Hsts Hp Hesr Helr. destruct (el0_stores_confined t k Hview sts (ram (core s)) Hsts (k_slots _ (k_wf _ Hk))) as (m & Em & _ & Hd).
  destruct (k_running _ Hk) as [Hc (tk & Htk & _)].
  assert (Hat : task_at (current (core s)) (core s) = Some tk) by (unfold task_at; by rewrite (proj2 (Z.leb_le 0 _)) by lia).
  assert (Hin : interrupted (core s) m (call_cpu esr far) (call_regs tk 0 0 0 elr) tk).
  { apply call_interrupted; try done. intros i Hi x Hx. by apply Hd, (k_slots _ (k_wf _ Hk) i). }
  assert (Hs : stack_ok ksp m) by (apply (stack_kept ksp (ram (core s))); [|done]; intros a n Ha x Hx; by apply Hd, Ha).
  set (junk := Machine (replicate 31 0) 0 0 0 0 ∅).
  destruct (hw_exception table ksp Ht (call_cpu esr far) 0 junk (call_regs tk 0 0 0 elr) tk (core s) m Hk Hin Hs eq_refl ltac:(lia)) as (o & _ & _ & k' & _ & E & _).
  eexists _, _. eapply (confined_snoc t table ksp s [] s sts m); [apply confined_nil|done|done|].
  apply (hw_call table ksp m s (call_cpu esr far) (call_regs tk 0 0 0 elr) tk (AFault esr far elr) rest junk o k'); done.
Qed.

Lemma applications_cannot_touch_the_kernel_witness : exists t1 o s',
  mmu_init sample_image sample_statics sample_mmu = Some t1 /\
  confined_run (cpu_uninstall_idmap sample_statics t1) sample_table sample_ksp stacked_system [(0, AFault 0x92000045 8 0x41000010)] o s' /\
  ram (core s') !! 0xffffffc000080000 = ram (core stacked_system) !! 0xffffffc000080000.
Proof.
  destruct (mmu_init_correct sample_image sample_statics sample_image_ok sample_statics_ok sample_mmu sample_cleared) as (t1 & E & _ & Hview).
  destruct sample_places as [Ht Hksp].
  destruct (confined_fault (cpu_uninstall_idmap sample_statics t1) sample_image sample_table sample_ksp stacked_system sample_stores 0x92000045 8 0x41000010 []
    (fun va Hva => proj2 (Hview va Hva)) Ht stacked_system_ok stacked_stack_ok sample_stores_ok eq_refl) as (o & s' & Hrun); [intros [H _]; discriminate H|unfold is_u64; lia|].
  exists t1, o, s'. split; [exact E|]. split; [exact Hrun|].
  destruct (applications_cannot_touch_the_kernel sample_image sample_statics sample_mmu t1 sample_table sample_ksp stacked_system _ o s'
    sample_image_ok sample_statics_ok sample_cleared E Ht Hksp stacked_system_ok Hrun) as (_ & _ & Hx & _).
  apply Hx.
  - intros (i & Hi & Hs). unfold stack_of, slot, APP_FIRST, APP_SLOT_SIZE, APP_STACK_SIZE, APP_COUNT in *.
    rewrite va_of_ram in Hs by (unfold PHYS_OFFSET, RAM_SIZE; lia). unfold PAGE_OFFSET, PHYS_OFFSET in Hs. lia.
  - unfold kernel_written, sample_ksp, sample_table, S_FRAME_SIZE, sizeof_task_struct. lia.
Defined.
