(* ===== verification/Whole.v ===== *)
(** * The whole system: from the kernel entry to the end of the applications

    [start_kernel] leaves the state in which the machine of [Machine.v] starts
    with the programs of [Apps.v], in the order of [apps/CMakeLists.txt]:
    sequence, primes and checksum. *)

From Stdlib Require Import Ascii String.
From S2P Require Import Prelude PrimeCount MemoryH ListH Mem StringC Memblock PageAlloc PageAllocProof PageAllocSpec Slab SlabProof.
From S2P Require Import Vsprintf Kernel Timer Task TaskProof TaskSpec TaskStart Vectors VectorsSpec MemInit MemInitProof MemInitSpec Apps AppsSpec System SystemSpec Machine.

(** ** The programs *)

(** The actions of an application whose [app_main] is [main]. *)
Definition app_program (main : option (Z * list (list Z))) : option (list action) :=
  (fun '(status, logs) => program logs status) <$> main.

(** The texts an application may log. *)
Definition fits (text : list Z) : Prop := 0 < length text <= LOG_LIMIT.

#[global] Instance fits_dec text : Decision (fits text).
Proof. unfold fits. apply _. Defined.

Lemma all_fit l : forallb (fun text => bool_decide (fits text)) l = true -> Forall fits l.
Proof. intros H. apply Forall_forall. intros x Hx. apply list_elem_of_In in Hx. rewrite forallb_forall in H. specialize (H x Hx). by apply bool_decide_eq_true in H. Qed.

Lemma texts_fit : Forall (fun texts => Forall fits texts) [sequence_texts; primes_texts; checksum_texts].
Proof. repeat (apply Forall_cons; split; [apply all_fit; vm_compute; reflexivity|]). by apply Forall_nil. Qed.

(** What the three applications do. *)
Definition app_programs : list (list action) := (fun texts => program texts 0) <$> [sequence_texts; primes_texts; checksum_texts].

Lemma app_programs_ok p : p ∈ app_programs -> program_ok p.
Proof.
  intros (texts & -> & Ht)%list_elem_of_fmap. apply program_of_result; [|lia]. pose proof texts_fit as H. rewrite Forall_forall in H. by apply H.
Qed.

(** An application that still has a next action is runnable. *)
Lemma started_system k ps : kernel_ok k -> length ps = 3%nat -> (forall p, p ∈ ps -> program_ok p /\ p <> []) ->
  (forall i, 0 <= i < APP_COUNT -> is_runnable (tasks k) i) -> sys_ok (System k ps).
Proof.
  intros Hk Hl Hps Hrun. split; [done|]. split; cbn [core progs]; [done|intros p Hp; by apply Hps|].
  intros i p Hi Hp. split; intros _; [|by apply Hrun]. apply Hps. by eapply list_elem_of_lookup_2.
Qed.

Lemma exited_program texts status e : exited (program texts status) e = status.
Proof. unfold exited, program. by rewrite foldl_app. Qed.

Section whole.
Context {S : Type} `{!ListStore node S, !ListStoreLaws node S}.

Lemma booted_system c img fdt bss (b b' : boot S) map F L : length bss = 3%nat -> started c img fdt bss b b' map F L ->
  sys_ok (System (b_kernel b') app_programs) /\ forall i t, tasks (b_kernel b') !! i = Some t -> exit_code t = 0.
Proof.
  intros Hl [Hk _ _ Ha _ _]. assert (Ht : forall i : nat, (i < 3)%nat -> exists n, tasks (b_kernel b') !! i = Some (loaded_task i n zero_task)).
  { intros i Hi. destruct (lookup_lt_is_Some_2 bss i) as [bs Hbs]; [lia|]. exists (length bs). by apply Ha. }
  split.
  - apply started_system; [done|done| |].
    + intros p Hp. split; [by apply app_programs_ok|]. apply list_elem_of_fmap in Hp as (texts & -> & _). unfold program. by destruct (ALog <$> texts).
    + intros i Hi. split; [done|]. destruct (Ht (Z.to_nat i)) as [n E]; [unfold APP_COUNT in Hi; lia|]. by exists (loaded_task (Z.to_nat i) n zero_task).
  - intros i t Hi. pose proof (lookup_lt_Some _ _ _ Hi) as Hlt. rewrite (k_tasks _ (k_wf _ Hk)) in Hlt. destruct (Ht i Hlt) as [n E].
    rewrite E in Hi. by injection Hi as <-.
Qed.

Context (buffer digits : Z -> list Z).
(** The task table and the stack pointer with which exceptions are taken. *)
Context (table ksp : Z).
Hypothesis (Htable : 0 <= table /\ table + 3 * sizeof_task_struct < 2 ^ 64).
Hypothesis (Hksp : Z.land ksp 15 = 0 /\ S_FRAME_SIZE <= ksp <= __va APP_FIRST).

Hypothesis (Hbuf : forall v, length (buffer v) = 96%nat) (Hdig : forall v, length (digits v) = 20%nat).

(** How a run from the kernel state [k0] with the programs [ps] comes out: the
    console shows an interleaving of first actions of the programs and nothing
    else; at the end all of them are made, every exit status is 0 and the last
    message is [ALL APPS DONE]. *)
Definition comes_out (k0 : kernel) (ps : list (list action)) (ls : list (Z * action)) (o : option halt) (s' : system) : Prop :=
  console (trace (core s')) = console (trace k0) ++ concat (action_events <$> ls) ++ match o with None => [] | Some _ => all_done end /\
  (forall (i : nat) p, ps !! i = Some p -> exists p', p = of_app i ls ++ p') /\
  match o with
  | None => kernel_ok (core s')
  | Some h => h = Idle /\ timer_ctl (core s') = 0 /\ (forall (i : nat) p, ps !! i = Some p -> of_app i ls = p) /\
      exit_code <$> tasks (core s') = [0; 0; 0]
  end.

Lemma started_runs c img fdt bss (b b' : boot S) map F L ls o s' : length bss = 3%nat -> started c img fdt bss b b' map F L ->
  hw_run table ksp (System (b_kernel b') app_programs) ls o s' -> comes_out (b_kernel b') app_programs ls o s'.
Proof using Htable Hksp.
  intros Hl3 Hst Hrun. destruct (booted_system c img fdt bss b b' map F L Hl3 Hst) as [Hok Hzero].
  destruct (hw_run_sim table ksp Htable Hksp _ ls o s' Hok Hrun) as (s2 & Hrun2 & [Epr Ec] & Hend & _).
  destruct (sys_run_ok _ ls o s2 Hok Hrun2) as [[Hp He Hcon] _]. rewrite <- Epr in Hp.
  assert (Ets2 : tasks (core s') = tasks (core s2)) by (by rewrite Ec). rewrite <- Ets2 in He. split; [rewrite Ec; exact Hcon|]. split.
  { intros i p Hi. destruct (Hp i p Hi) as (p' & _ & Ep). by exists p'. }
  destruct o as [h|]; [|apply Hend]. destruct Hend as [-> [Hnil Htm Hlen _]]. split; [done|]. split; [done|].
  assert (Hall : forall (i : nat) p, app_programs !! i = Some p -> of_app i ls = p).
  { intros i p Hi. destruct (Hp i p Hi) as (p' & Hi' & ->). rewrite Forall_lookup in Hnil. by rewrite (Hnil i p' Hi'), app_nil_r. }
  split; [done|]. cbn [core progs] in He. destruct (three_tasks (tasks (b_kernel b'))) as (t0 & t1 & t2 & Ets); [apply Hok|]. rewrite Ets in He, Hzero.
  assert (Hex : forall (i : nat) t, (i < 3)%nat -> tasks (core s') !! i = Some t -> exit_code t = 0).
  { intros i t Hi Hti. destruct (lookup_lt_is_Some_2 [t0; t1; t2] i Hi) as [ti Hti0]. destruct (He i ti Hti0) as (t' & Hti' & Hx).
    rewrite Hti in Hti'. injection Hti' as <-. rewrite Hx. destruct (lookup_lt_is_Some_2 app_programs i Hi) as [p Hpi]. rewrite (Hall i p Hpi).
    apply list_lookup_fmap_Some in Hpi as (texts & -> & _). by rewrite exited_program. }
  destruct (three_tasks _ Hlen) as (u0 & u1 & u2 & Eu). rewrite Eu in Hex |- *. cbn.
  by rewrite (Hex 0%nat u0), (Hex 1%nat u1), (Hex 2%nat u2) by (done || lia).
Qed.

(** From the kernel entry to the end: from the state at reset,
    [start_kernel] boots into a state from which, with the programs that
    [app_main] of the three applications and [exit] make, the applications can
    run to their ends; and in every run from it, with each exception taken
    through the instructions of the entry and the return, the console shows an
    interleaving of first actions of the three programs and nothing else, and
    when it has ended, whatever interrupts there were, every application has
    logged all of its texts in order, has exited with status 0, and the
    last message is [ALL APPS DONE]. *)
Theorem boots_and_runs_to_the_end c img fdt sctlr vbar stack starts ends bss (b : boot S) waker cfg ctlr rest :
  image_ok img -> at_reset b -> (exists q, room img (Kernel.ram (b_kernel b)) fdt q) ->
  start_ready starts ends bss (b_kernel b) -> current (b_kernel b) = 0 ->
  timer_reads waker cfg ctlr (mmio_reads (b_kernel b)) rest -> 100 <= cntfrq_el0 c < 2 ^ 31 * 100 -> stack_ok ksp (Kernel.ram (b_kernel b)) ->
  exists ps b', mapM app_program [sequence_main buffer digits; primes_main buffer digits; checksum_main buffer digits] = Some ps /\
    start_kernel c img fdt sctlr vbar stack starts ends b = Some (inl 0, b') /\
    (exists ls s', hw_run table ksp (System (b_kernel b') ps) ls (Some Idle) s') /\
    forall ls o s', hw_run table ksp (System (b_kernel b') ps) ls o s' ->
      comes_out (b_kernel b') ps ls o s'.
Proof using Hbuf Hdig Htable Hksp.
  intros Himg Hb Hq Hr Hc Ht Hf Hst0. destruct (start_kernel_result c img fdt sctlr vbar stack starts ends bss b waker cfg ctlr rest) as (b' & map & F & L & E & Hst); try done.
  destruct (sr_lengths _ _ _ _ Hr) as (_ & _ & Hl3). destruct (booted_system c img fdt bss b b' map F L Hl3 Hst) as [Hok Hzero].
  assert (Hst' : stack_ok ksp (Kernel.ram (b_kernel b'))) by (apply (stack_kept ksp _ _ (st_mapped _ _ _ _ _ _ _ _ _ Hst) Hst0)).
  exists app_programs, b'. split; [|split; [done|split]].
  - rewrite sequence_main_result, primes_main_result, checksum_main_result by done. reflexivity.
  - by apply (hw_can_finish table ksp Htable Hksp _ _ Hok Hst' eq_refl).
  - intros ls o s'. by apply (started_runs c img fdt bss b b' map F L).
Qed.

End whole.

(** ** Instance *)

Lemma reset_stack : stack_ok sample_ksp (Kernel.ram (b_kernel reset)).
Proof.
  destruct sample_places as [_ [Ha Hr]]. split; [exact Ha|unfold S_FRAME_SIZE, sample_ksp; lia|]. change (Kernel.ram (b_kernel reset)) with reset_ram.
  assert (E : sample_ksp - S_FRAME_SIZE = __va (0x40097ef0)) by (vm_compute; reflexivity). rewrite E.
  apply (ram_mapped_at _ _ _ reset_ram_mapped); unfold PHYS_OFFSET, RAM_SIZE, S_FRAME_SIZE; lia.
Qed.

Lemma boots_and_runs_to_the_end_witness :
  exists ps b' ls s', start_kernel boot_cpu reset_image sample_fdt 0 0 0 payload_starts payload_ends reset = Some (inl 0, b') /\
    hw_run sample_table sample_ksp (System (b_kernel b') ps) ls (Some Idle) s' /\ exit_code <$> tasks (core s') = [0; 0; 0].
Proof.
  destruct sample_places as [Ht Hksp].
  destruct (boots_and_runs_to_the_end (fun _ => replicate 96 0) (fun _ => replicate 20 0) sample_table sample_ksp Ht Hksp (fun _ => eq_refl) (fun _ => eq_refl)
    boot_cpu reset_image sample_fdt 0 0 0 payload_starts payload_ends payload_bytes reset 6 0x20000000 0x10 [] reset_image_ok reset_ok)
    as (ps & b' & _ & E & (ls & s' & Hrun) & Hall).
  - exists 0x42000000. exact reset_room.
  - exact reset_ready.
  - reflexivity.
  - exact boot_reads_ok.
  - cbn. lia.
  - exact reset_stack.
  - exists ps, b', ls, s'. split; [exact E|]. split; [exact Hrun|]. destruct (Hall ls (Some Idle) s' Hrun) as (_ & _ & _ & _ & _ & Hx). exact Hx.
Defined.
