(* ===== verification/Reset.v ===== *)
(** * From the reset to [start_kernel] ([kernel/boot.S])

    The whole of the assembly code of the boot as one function of the physical
    memory at reset: [Head.v] up to [mmu_init], the page tables built in the
    bytes of their arrays, the switch to the linked addresses and the call of
    [start_kernel] on memory as the linear map shows it.  The addresses of its
    symbols come from the linker script ([Layout.v]). *)

From Stdlib Require Import Ascii String.
From S2P Require Import Prelude MemoryH ListH Mem StringC Memblock PageAlloc PageAllocProof PageAllocSpec Slab SlabProof SlabSpec Mmu MmuProof MmuSpec MmuMem Layout Uart Head Vsprintf Kernel Timer Task.
From S2P Require Import TaskProof TaskSpec TaskStart Vectors VectorsSpec MemInit MemInitProof MemInitSpec Apps AppsSpec System SystemSpec Machine Isolation Whole.

(** ** The program *)

(** A symbol: the number of its input section and its offset there. *)
Definition symbol : Type := nat * Z.

Definition symbol_address (places : list Z) (s : symbol) : Z := nth s.1 places 0 + s.2.

(** The input sections, the binaries of the applications, and where the
    compiler put the objects the boot refers to: the section of [payloads.S]
    and the message of [boot.S] in [.rodata]; the pointer to the device tree,
    the [.bss] of [mmu.c] with the offsets of its arrays and its counter, and
    the task table in [.bss]; two places in the code of [boot.S], and the
    vector table. *)
Record kernel_program := KernelProgram {
  p_objects : kernel_objects;
  p_bins : list (list Z);
  p_apps : nat;
  p_message : symbol;
  p_fdt_pointer : symbol;
  p_mmu : nat;
  p_arrays : statics;
  p_used : Z;
  p_tasks : symbol;
  p_branch : symbol;
  p_switched : symbol;
  p_vectors : symbol;
}.

Section addresses.
Context (p : kernel_program) (l : kernel_layout).

(** With the MMU off, symbols are taken PC-relatively. *)
Definition boot_symbols : symbols :=
  Symbols (physical (v_bss_start l)) (physical (v_bss_stop l)) (physical (symbol_address (bss_places l) (p_fdt_pointer p)))
    (physical (symbol_address (rodata_places l) (p_message p))).

Definition mmu_object (offset : Z) : Z := physical (symbol_address (bss_places l) (p_mmu p, offset)).

Definition boot_statics : statics :=
  Statics (mmu_object (swapper_pg_dir (p_arrays p))) (mmu_object (idmap_pg_dir (p_arrays p)))
    (mmu_object (user_pg_dir (p_arrays p))) (mmu_object (early_pgtables (p_arrays p))).

Definition used_counter : Z := mmu_object (p_used p).

(** [br x0] and the two instructions of the code at linked addresses. *)
Definition branch_pc : Z := physical (symbol_address (text_places l) (p_branch p)).
Definition __mmap_switched : Z := symbol_address (text_places l) (p_switched p).
Definition vectors_address : Z := symbol_address (text_places l) (p_vectors p).

Definition task_table : Z := symbol_address (bss_places l) (p_tasks p).

Definition app_symbols : list Z * list Z := payload_symbols (symbol_address (rodata_places l) (p_apps p, 0)) (p_bins p).

(** ** The function *)

(** The arrays of [mmu.c] as its code sees them. *)
Definition load_mmu (r : sysregs) (m : mem) : option mmu :=
  let* used := load32 m used_counter in
  Some (Mmu (read_tables boot_statics m) used r).

Definition store_mmu (t : mmu) (m : mem) : mem :=
  write used_counter (Z_to_little_endian 4 8 (early_pgtables_used t)) (write_tables boot_statics (tables t) m).

(** Where an instruction fetch at EL1 goes. *)
Definition fetch (t : mmu) (va : Z) : option Z :=
  let* r := translate t va in
  match r with
  | Some (pa, gr) => assert* p_x (el1 gr) in Some pa
  | None => None
  end.

(** The code goes on at [va], which is the instruction at [pa]. *)
Definition continues (t : mmu) (va pa : Z) : bool := bool_decide (fetch t va = Some pa).

(** Physical memory at the addresses of the linear map. *)
Definition linear (pa : Z) : Z := pa - PHYS_OFFSET + PAGE_OFFSET.

Definition linear_view (m : mem) : mem := kmap linear m.

Section entry.
Context {S : Type} `{!ListStore node S}.

Definition at_entry (m : mem) (b : boot S) : boot S :=
  Boot (b_memblock b) (b_zone b) (b_caches b) (Kernel.set_ram (linear_view m) (b_kernel b)).

(** [_start]; [r] are the system registers of translation at reset, [m] is
    physical memory, [b] the zeroed variables of the C code whose bytes are not
    modelled, and [frame] the size of [start_kernel]'s own stack frame.  The
    result is the outcome with the page tables and the state, or the serial
    port when the boot has halted. *)
Definition _start (c : cpu) (frame x0 : Z) (r : sysregs) (m : mem) (u : uart) (b : boot S) : option (((Z + halt) * mmu * boot S) + uart) :=
  let* s := start_code boot_symbols x0 (CurrentEL c) (sctlr_el1 r) m u in
  match s with
  | inr u => Some (inr u)
  | inl (sctlr, m) =>
      let* t := load_mmu (SysRegs (mair_el1 r) (tcr_el1 r) (ttbr0_el1 r) (ttbr1_el1 r) sctlr) m in
      let* t := mmu_init (image_of l) boot_statics t in
      let m := store_mmu t m in
      assert* continues t branch_pc branch_pc in
      assert* continues t __mmap_switched (physical __mmap_switched) in
      let sp := v_stack_top l in
      let vbar_el1 := vectors_address in
      let t := cpu_uninstall_idmap boot_statics t in
      assert* continues t __mmap_switched (physical __mmap_switched) in
      let* __fdt_pointer := load64 (linear_view m) (linear (fdt_pointer boot_symbols)) in
      let* '(o, b) := start_kernel c (image_of l) __fdt_pointer (sctlr_el1 (sys t)) vbar_el1 (u64 (sp - frame))
        app_symbols.1 app_symbols.2 (at_entry m b) in
      Some (inl (o, t, b))
  end.

End entry.
End addresses.

(** ** What the compiler guarantees *)

(** [n] bytes of an input section from a symbol on. *)
Definition in_section (ins : list input_section) (s : symbol) (n : Z) : Prop :=
  exists i, ins !! s.1 = Some i /\ 0 <= s.2 /\ s.2 + n <= in_size i.

(** The objects of [mmu.c] in its [.bss]. *)
Definition mmu_objects (g : statics) (used : Z) : list (Z * Z) :=
  [(swapper_pg_dir g, 4096); (idmap_pg_dir g, 4096); (user_pg_dir g, 4096); (early_pgtables g, EARLY_PGTABLES * 4096); (used, 4)].

Definition objects_apart (os : list (Z * Z)) : Prop :=
  forall n n' a b, n <> n' -> os !! n = Some a -> os !! n' = Some b -> a.1 + a.2 <= b.1 \/ b.1 + b.2 <= a.1.

Record compiled (p : kernel_program) : Prop := {
  c_inputs : objects_ok (p_objects p);
  c_bins : length (p_bins p) = 3%nat /\ Forall (fun bs => Forall is_byte bs /\ 0 < length bs <= APP_IMAGE_SIZE) (p_bins p);
  c_apps : o_rodata (p_objects p) !! p_apps p = Some (apps_input (p_bins p));
  c_message : in_section (o_rodata (p_objects p)) (p_message p) (length (unsupported_text ++ [0]));
  c_pointer : in_section (o_bss (p_objects p)) (p_fdt_pointer p) 8;
  c_tasks : in_section (o_bss (p_objects p)) (p_tasks p) (3 * sizeof_task_struct);
  c_files : (p_fdt_pointer p).1 <> p_mmu p /\ (p_tasks p).1 <> p_mmu p;
  c_mmu : exists i, o_bss (p_objects p) !! p_mmu p = Some i /\ in_align i = PAGE_SIZE /\
    Forall (fun a => (PAGE_SIZE | a)) [swapper_pg_dir (p_arrays p); idmap_pg_dir (p_arrays p); user_pg_dir (p_arrays p); early_pgtables (p_arrays p)] /\
    Forall (fun o => 0 <= o.1 /\ o.1 + o.2 <= in_size i) (mmu_objects (p_arrays p) (p_used p)) /\ objects_apart (mmu_objects (p_arrays p) (p_used p));
  c_code : in_section (o_text (p_objects p)) (p_branch p) 4 /\ in_section (o_text (p_objects p)) (p_switched p) 4;
  c_vectors : in_section (o_text (p_objects p)) (p_vectors p) 2048 /\ (2048 | (p_vectors p).2) /\
    exists i, o_text (p_objects p) !! (p_vectors p).1 = Some i /\ in_align i = 2048;
}.

(** Physical memory with the image loaded, before the first instruction. *)
Record loaded (p : kernel_program) (l : kernel_layout) (m : mem) : Prop := {
  m_ram : mapped m PHYS_OFFSET RAM_SIZE;
  m_bytes : mem_ok m;
  m_message : bytes_at m (unsupported_message (boot_symbols p l)) (unsupported_text ++ [0]);
  m_apps : bytes_at m (physical (symbol_address (rodata_places l) (p_apps p, 0))) (concat (p_bins p));
}.

(** ** Addresses *)

Lemma symbol_in ins places lo hi s n : placed ins places lo hi -> in_section ins s n ->
  lo <= symbol_address places s /\ symbol_address places s + n <= hi.
Proof.
  intros (Hl & Hin & _) (i & Hi & Hlo & Hhi). destruct (lookup_lt_is_Some_2 places s.1) as [a Ha]; [rewrite Hl; by apply lookup_lt_Some in Hi|].
  destruct (Hin _ i a Hi Ha) as (_ & ? & ?). unfold symbol_address. rewrite nth_lookup, Ha. cbn [default from_option id]. lia.
Qed.

Lemma symbols_apart ins places lo hi s n s' n' : placed ins places lo hi -> in_section ins s n -> in_section ins s' n' -> s.1 <> s'.1 ->
  symbol_address places s + n <= symbol_address places s' \/ symbol_address places s' + n' <= symbol_address places s.
Proof.
  intros Hp (i & Hi & Hlo & Hhi) (i' & Hi' & Hlo' & Hhi') Hne. pose proof Hp as (Hl & _ & _).
  destruct (lookup_lt_is_Some_2 places s.1) as [a Ha]; [rewrite Hl; by apply lookup_lt_Some in Hi|].
  destruct (lookup_lt_is_Some_2 places s'.1) as [a' Ha']; [rewrite Hl; by apply lookup_lt_Some in Hi'|].
  pose proof (placed_apart _ _ _ _ _ _ i i' a a' Hp Hne Hi Hi' Ha Ha') as Hap. unfold symbol_address. rewrite !nth_lookup, Ha, Ha'. cbn [default from_option id]. lia.
Qed.

#[export] Instance linear_inj : Inj (=) (=) linear.
Proof. intros a b. unfold linear. lia. Qed.

Lemma linear_lookup m pa : linear_view m !! linear pa = m !! pa.
Proof. apply lookup_kmap. apply _. Qed.

Lemma linear_physical va : linear (physical va) = va.
Proof. unfold linear, physical. lia. Qed.

Lemma linear_va pa : in_ram pa -> __va pa = linear pa.
Proof. intros H. by apply va_of_ram. Qed.

Lemma linear_bytes m pa bs : bytes_at m pa bs -> bytes_at (linear_view m) (linear pa) bs.
Proof. intros H i b Hi. assert (linear pa + i = linear (pa + i)) as -> by (unfold linear; lia). rewrite linear_lookup. by apply H. Qed.

Lemma linear_ok m : mem_ok m -> mem_ok (linear_view m).
Proof. intros H a v Ha. apply lookup_kmap_Some in Ha as (pa & -> & Hv); [|apply _]. by apply (H pa). Qed.

Lemma linear_mapped m pa n : mapped m pa n -> mapped (linear_view m) (linear pa) n.
Proof. intros H x Hx. replace x with (linear (x - PAGE_OFFSET + PHYS_OFFSET)) by (unfold linear; lia). rewrite linear_lookup. apply H. unfold linear in Hx. lia. Qed.

Lemma linear_load m a n : load (linear_view m) (linear a) n = load m a n.
Proof.
  revert a. induction n as [|n IH]; intros a; [done|]. cbn [load]. unfold load8. rewrite linear_lookup. destruct (m !! a); [|done]. cbn [mbind option_bind].
  replace (linear a + 1) with (linear (a + 1)) by (unfold linear; lia). by rewrite IH.
Qed.

Lemma linear_load64 m a : load64 (linear_view m) (linear a) = load64 m a.
Proof. unfold load64. by rewrite linear_load. Qed.

Section program.
Context (p : kernel_program) (l : kernel_layout).
Hypothesis (Hp : compiled p) (Hl : laid_out (p_objects p) l).

Lemma bss_in_ram : PHYS_OFFSET + TEXT_OFFSET <= physical (v_etext l) <= physical (v_end_rodata l) /\
  physical (v_end_rodata l) <= physical (v_bss_start l) <= physical (v_bss_stop l) /\ physical (v_bss_stop l) + STACK_SIZE = physical (v_stack_top l) /\
  physical (v_stack_top l) <= APP_FIRST.
Proof using Hl.
  destruct (lo_text _ _ Hl) as [Et _]. destruct (lo_stack _ _ Hl) as [Es Ee]. destruct (lo_bounds _ _ Hl) as (H1 & H2 & H3). unfold physical in *. lia.
Qed.

(** An object of [mmu.c] is where its [.bss] is. *)
Lemma mmu_object_base : exists base i, o_bss (p_objects p) !! p_mmu p = Some i /\ (forall o, mmu_object p l o = base + o) /\ (PAGE_SIZE | base) /\
  physical (v_bss_start l) <= base /\ base + in_size i <= physical (v_bss_stop l).
Proof using Hp Hl.
  destruct (c_mmu p Hp) as (i & Hi & Ea & _). destruct (lo_bss _ _ Hl) as (Hlen & Hin & _).
  destruct (lookup_lt_is_Some_2 (bss_places l) (p_mmu p)) as [a Ha]; [rewrite Hlen; by apply lookup_lt_Some in Hi|].
  destruct (Hin _ i a Hi Ha) as (Hd & Hlo & Hhi). exists (physical a), i. split; [done|]. split; [|split].
  - intros o. unfold mmu_object, symbol_address. cbn [fst snd]. rewrite nth_lookup, Ha. cbn [default from_option id]. unfold physical. lia.
  - apply page_physical. by rewrite <- Ea.
  - unfold physical. lia.
Qed.

Lemma boot_statics_ok : statics_ok (image_of l) (boot_statics p l).
Proof using Hp Hl.
  destruct mmu_object_base as (base & i & Hi & Hb & Hd & Hlo & Hhi). destruct (c_mmu p Hp) as (i' & Hi' & _ & Hdiv & Hin & Hap). rewrite Hi in Hi'. injection Hi' as <-.
  destruct bss_in_ram as (H1 & H2 & H3 & H4). destruct (lo_stack _ _ Hl) as [_ Ee]. unfold STACK_SIZE in *. change PAGE_SIZE with 4096 in *.
  unfold mmu_objects in *. rewrite !Forall_cons in Hin. rewrite !Forall_cons in Hdiv. cbn [fst snd] in Hin. destruct Hdiv as (D1 & D2 & D3 & D4 & _). destruct Hin as ([? ?] & [? ?] & [? ?] & [? ?] & _).
  pose proof (fun n n' a b Hne Ha Hb => Hap n n' a b Hne Ha Hb) as Hx. change EARLY_PGTABLES with 70 in *.
  pose proof (Hx 0%nat 1%nat _ _ ltac:(done) eq_refl eq_refl) as A01. pose proof (Hx 0%nat 2%nat _ _ ltac:(done) eq_refl eq_refl) as A02.
  pose proof (Hx 1%nat 2%nat _ _ ltac:(done) eq_refl eq_refl) as A12. pose proof (Hx 0%nat 3%nat _ _ ltac:(done) eq_refl eq_refl) as A03.
  pose proof (Hx 1%nat 3%nat _ _ ltac:(done) eq_refl eq_refl) as A13. pose proof (Hx 2%nat 3%nat _ _ ltac:(done) eq_refl eq_refl) as A23.
  cbn [fst snd] in *. clear Hx Hap. split; unfold boot_statics; cbn [swapper_pg_dir idmap_pg_dir user_pg_dir early_pgtables image_of __end_rodata _end]; rewrite !Hb, ?Ee.
  - split_and!; by apply Z.divide_add_r.
  - rewrite !Forall_cons. change EARLY_PGTABLES with 70. split_and!; try lia. by apply Forall_nil.
  - rewrite !Forall_cons. change EARLY_PGTABLES with 70. split_and!; try lia. by apply Forall_nil.
Qed.

(** The bytes of the page tables and the counter are in [.bss], apart from the
    other files' objects. *)
Lemma table_byte_range x : table_byte (boot_statics p l) x ->
  exists o, 0 <= o /\ x = mmu_object p l o /\ forall i, o_bss (p_objects p) !! p_mmu p = Some i -> o < in_size i.
Proof using Hp Hl.
  destruct mmu_object_base as (base & i & Hi & Hb & _ & Hlo & Hhi). destruct (c_mmu p Hp) as (i' & Hi' & _ & _ & Hin & _). rewrite Hi in Hi'. injection Hi' as <-.
  unfold mmu_objects in *. rewrite !Forall_cons in Hin. cbn [fst snd] in Hin. destruct Hin as ([? ?] & [? ?] & [? ?] & [? ?] & _). change EARLY_PGTABLES with 70 in *.
  intros (a & Ha & Hx). exists (x - base). rewrite Hb. unfold table_words in Ha. rewrite !elem_of_app, !elem_of_words in Ha.
  unfold boot_statics, PTRS_PER_PGD, PTRS_PER_PTE in Ha. cbn [swapper_pg_dir idmap_pg_dir user_pg_dir early_pgtables] in Ha. rewrite !Hb in Ha. change (EARLY_PGTABLES * 512) with 35840 in Ha.
  split; [|split; [lia|]]; [|rewrite Hi; intros i0 [= <-]]; destruct Ha as [(j & -> & ?)|[(j & -> & ?)|[(j & -> & ?)|(j & -> & ?)]]]; lia.
Qed.

(** A symbol of another file is apart from them. *)
Lemma mmu_object_apart s n o i : in_section (o_bss (p_objects p)) s n -> s.1 <> p_mmu p -> o_bss (p_objects p) !! p_mmu p = Some i -> 0 <= o < in_size i ->
  ~ physical (symbol_address (bss_places l) s) <= mmu_object p l o < physical (symbol_address (bss_places l) s) + n.
Proof using Hp Hl.
  intros Hs Hne Hi Ho Hx. destruct (symbols_apart _ _ _ _ s n (p_mmu p, o) 1 (lo_bss _ _ Hl) Hs) as [H|H].
  - exists i. split; [done|]. cbn [snd]. lia.
  - done.
  - unfold mmu_object, physical in Hx. lia.
  - unfold mmu_object, physical in Hx. lia.
Qed.

(** Before [mmu_init]. *)
Lemma boot_linked m : loaded p l m -> linked (boot_symbols p l) m.
Proof using Hp Hl.
  intros [Hm _ Ht _]. destruct bss_in_ram as (H1 & H2 & H3 & H4). unfold STACK_SIZE, APP_FIRST, PHYS_OFFSET, TEXT_OFFSET in *.
  pose proof (symbol_in _ _ _ _ _ _ (lo_bss _ _ Hl) (c_pointer p Hp)) as [F1 F2].
  split; cbn [bss_start bss_stop fdt_pointer unsupported_message boot_symbols].
  - lia.
  - destruct (lo_align _ _ Hl) as (A1 & A2 & _). unfold physical. split; (apply Z.divide_add_r; [apply Z.divide_sub_r; [done|by exists (PAGE_OFFSET / 16)]|by exists (PHYS_OFFSET / 16)]).
  - apply (mapped_sub _ _ _ _ _ Hm); unfold RAM_SIZE, PHYS_OFFSET; lia.
  - unfold physical in *. lia.
  - exact Ht.
Qed.

(** ** The bytes of the page tables *)

(** What [mmu_init] may change. *)
Definition mmu_byte (x : Z) : Prop := table_byte (boot_statics p l) x \/ used_counter p l <= x < used_counter p l + 4.

Lemma mmu_byte_object x : mmu_byte x -> exists o i, x = mmu_object p l o /\ o_bss (p_objects p) !! p_mmu p = Some i /\ 0 <= o < in_size i.
Proof using Hp Hl.
  destruct mmu_object_base as (base & i & Hi & Hb & _ & _). intros [Hx|Hx].
  - destruct (table_byte_range x Hx) as (o & Ho & -> & Hs). exists o, i. split; [done|]. split; [done|]. split; [done|by apply Hs].
  - destruct (c_mmu p Hp) as (i' & Hi' & _ & _ & Hin & _). rewrite Hi in Hi'. injection Hi' as <-. unfold mmu_objects in Hin. rewrite !Forall_cons in Hin. cbn [fst snd] in Hin.
    unfold used_counter in Hx. rewrite Hb in Hx. exists (x - base), i. rewrite Hb. split; [lia|]. split; [done|]. lia.
Qed.

Lemma mmu_byte_bss x : mmu_byte x -> physical (v_bss_start l) <= x < physical (v_bss_stop l).
Proof using Hp Hl.
  intros Hx. destruct (mmu_byte_object x Hx) as (o & i & -> & Hi & Ho). destruct mmu_object_base as (base & i' & Hi' & Hb & _ & Hlo & Hhi).
  rewrite Hi in Hi'. injection Hi' as <-. rewrite Hb. lia.
Qed.

(** An object of another file in [.bss] is not among them. *)
Lemma not_mmu_byte s n x : in_section (o_bss (p_objects p)) s n -> s.1 <> p_mmu p ->
  physical (symbol_address (bss_places l) s) <= x < physical (symbol_address (bss_places l) s) + n -> ~ mmu_byte x.
Proof using Hp Hl.
  intros Hs Hne Hx Hm. destruct (mmu_byte_object x Hm) as (o & i & -> & Hi & Ho). by apply (mmu_object_apart s n o i Hs Hne Hi Ho).
Qed.

Lemma counter_apart x : table_byte (boot_statics p l) x -> ~ used_counter p l <= x < used_counter p l + 4.
Proof using Hp Hl.
  destruct mmu_object_base as (base & i & Hi & Hb & _). destruct (c_mmu p Hp) as (_ & _ & _ & _ & _ & Hap). unfold mmu_objects in Hap.
  pose proof (Hap 0%nat 4%nat _ _ ltac:(done) eq_refl eq_refl) as A0. pose proof (Hap 1%nat 4%nat _ _ ltac:(done) eq_refl eq_refl) as A1.
  pose proof (Hap 2%nat 4%nat _ _ ltac:(done) eq_refl eq_refl) as A2. pose proof (Hap 3%nat 4%nat _ _ ltac:(done) eq_refl eq_refl) as A3. clear Hap. cbn [fst snd] in *.
  intros (a & Ha & Hx). unfold table_words in Ha. rewrite !elem_of_app, !elem_of_words in Ha. unfold boot_statics, PTRS_PER_PGD, PTRS_PER_PTE in Ha.
  cbn [swapper_pg_dir idmap_pg_dir user_pg_dir early_pgtables] in Ha. rewrite !Hb in Ha. unfold used_counter. rewrite Hb. change EARLY_PGTABLES with 70 in *.
  destruct Ha as [(j & -> & ?)|[(j & -> & ?)|[(j & -> & ?)|(j & -> & ?)]]]; lia.
Qed.

Lemma table_words_aligned : Forall (fun a => (8 | a)) (table_words (boot_statics p l)).
Proof using Hp Hl.
  pose proof (g_aligned _ _ boot_statics_ok) as (D1 & D2 & D3 & D4). apply Forall_forall. intros a Ha. unfold table_words in Ha. rewrite !elem_of_app, !elem_of_words in Ha.
  assert (H8 : forall b, (4096 | b) -> forall i, (8 | b + 8 * i)) by (intros b [q ->] i; exists (512 * q + i); lia).
  destruct Ha as [(j & -> & _)|[(j & -> & _)|[(j & -> & _)|(j & -> & _)]]]; by apply H8.
Qed.

Lemma store_mmu_out t m x : ~ mmu_byte x -> store_mmu p l t m !! x = m !! x.
Proof.
  intros H. unfold store_mmu. rewrite lookup_write_out; [|pose proof (length_Z_to_little_endian 4 8 (early_pgtables_used t)); unfold mmu_byte in H; lia].
  apply write_tables_out. unfold mmu_byte in H. tauto.
Qed.

Lemma store_mmu_mapped t m a n : mapped m a n -> mapped (store_mmu p l t m) a n.
Proof. intros H. by apply mapped_write, write_words_mapped. Qed.

Lemma store_mmu_bytes t m : mem_ok m -> mem_ok (store_mmu p l t m).
Proof. intros H. apply mem_ok_write; [by apply write_words_bytes|]. by apply (Z_to_little_endian_bound 4 8). Qed.

(** What is stored is what a walk reads. *)
Lemma store_mmu_tables t m : (forall a, a ∈ table_words (boot_statics p l) -> exists w, tables t !! a = Some w /\ is_u64 w) ->
  (forall a w, tables t !! a = Some w -> a ∈ table_words (boot_statics p l)) -> read_tables (boot_statics p l) (store_mmu p l t m) = tables t.
Proof using Hp Hl.
  intros Hw Hd. unfold store_mmu. rewrite (read_tables_agree _ (write_tables (boot_statics p l) (tables t) m)).
  - apply map_eq. intros a. rewrite read_tables_lookup. case_decide as Ha.
    + by apply write_words_load; [apply table_words_aligned|..].
    + destruct (tables t !! a) eqn:E; [|done]. by apply Hd in E.
  - intros x Hx. apply counter_apart in Hx. rewrite lookup_write_out; [done|]. pose proof (length_Z_to_little_endian 4 8 (early_pgtables_used t)). lia.
Qed.

(** ** What the code before [mmu_init] leaves *)

Section prepared.
Context (m : mem) (x0 : Z).
Hypothesis (Hm : loaded p l m) (Hx0 : is_u64 x0).

Record prepared (m1 : mem) : Prop := {
  pr_mapped a n : mapped m a n -> mapped m1 a n;
  pr_bytes : mem_ok m1;
  pr_pointer : load64 m1 (fdt_pointer (boot_symbols p l)) = Some x0;
  pr_out x : ~ physical (v_bss_start l) <= x < physical (v_bss_stop l) -> m1 !! x = m !! x;
  pr_zero x : physical (v_bss_start l) <= x < physical (v_bss_stop l) ->
    ~ fdt_pointer (boot_symbols p l) <= x < fdt_pointer (boot_symbols p l) + 8 -> m1 !! x = Some 0;
}.

Lemma start_code_prepared sctlr u : exists m1, start_code (boot_symbols p l) x0 4 sctlr m u = Some (inl (Z.ldiff sctlr 0x1005, m1)) /\ prepared m1.
Proof using Hp Hl Hm Hx0.
  pose proof (boot_linked m Hm) as Hlk. destruct (start_code_el1 _ x0 sctlr m u Hlk) as (mz & Hz & E). eexists. split; [exact E|].
  pose proof (l_fdt _ _ Hlk) as Hf. cbn [bss_start bss_stop boot_symbols] in Hz, Hf. set (f := fdt_pointer (boot_symbols p l)) in *. split.
  - intros a n Ha. apply mapped_write. intros x Hx. rewrite (Hz x). case_decide; [by eexists|by apply Ha].
  - apply mem_ok_write; [|apply le8_bytes]. intros x v Hv. rewrite (Hz x) in Hv. case_decide; [injection Hv as <-; unfold is_byte; lia|]. by apply (m_bytes _ _ _ Hm x).
  - rewrite load64_written. by rewrite u64_id.
  - intros x Hx. rewrite lookup_write_out by (rewrite le8_length; lia). by rewrite (Hz x), decide_False.
  - intros x Hx Hn. rewrite lookup_write_out by (rewrite le8_length; lia). by rewrite (Hz x), decide_True.
Qed.

Lemma zero_range m1 a (n : nat) : (forall x, a <= x < a + n -> m1 !! x = Some 0) -> load m1 a n = Some (replicate n 0).
Proof. intros H. rewrite <- (length_replicate n 0) at 1. apply load_bytes. intros i b Hi. apply lookup_replicate in Hi as [-> Hi]. apply H. lia. Qed.

Lemma mmu_byte_zero m1 x : prepared m1 -> mmu_byte x -> m1 !! x = Some 0.
Proof using Hp Hl.
  intros H Hx. apply (pr_zero _ H); [by apply mmu_byte_bss|]. cbn [fdt_pointer boot_symbols]. intros Hf.
  destruct (c_files p Hp) as [Hne _]. by apply (not_mmu_byte _ _ x (c_pointer p Hp) Hne Hf).
Qed.

Lemma table_word_zero m1 a : prepared m1 -> a ∈ table_words (boot_statics p l) -> load64 m1 a = Some 0.
Proof using Hp Hl.
  intros H Ha. unfold load64. rewrite (zero_range m1 a 8); [done|]. intros x Hx. apply (mmu_byte_zero m1 x H). left. exists a. split; [done|lia].
Qed.

(** The tables are clear. *)
Lemma load_mmu_cleared r m1 : prepared m1 -> load_mmu p l r m1 = Some (Mmu (read_tables (boot_statics p l) m1) 0 r) /\
  cleared (boot_statics p l) (Mmu (read_tables (boot_statics p l) m1) 0 r).
Proof using Hp Hl.
  intros H. split.
  - unfold load_mmu, load32. rewrite (zero_range m1 (used_counter p l) 4); [done|]. intros x Hx. apply (mmu_byte_zero m1 x H). right. lia.
  - assert (Hw : forall a, a ∈ table_words (boot_statics p l) -> read_tables (boot_statics p l) m1 !! a = Some 0).
    { intros a Ha. rewrite read_tables_lookup, decide_True by done. by apply table_word_zero. }
    split; [done|]. split; cbn [tables].
    + intros a i Ha Hi. apply Hw. unfold table_words. rewrite !elem_of_app, !elem_of_words. unfold PTRS_PER_PGD. rewrite !elem_of_cons in Ha. destruct Ha as [->|[->|[->|Ha]]]; [..|by apply not_elem_of_nil in Ha].
      * left. by exists i.
      * right. left. by exists i.
      * do 2 right. left. by exists i.
    + intros n i Hn Hi. apply Hw. unfold table_words. rewrite !elem_of_app, !elem_of_words. do 3 right. exists (512 * n + i). unfold PTRS_PER_PTE. split; [lia|]. lia.
Qed.

Lemma read_zero_tables m1 : prepared m1 -> forall a, read_tables (boot_statics p l) m1 !! a = if decide (a ∈ table_words (boot_statics p l)) then Some 0 else None.
Proof using Hp Hl. intros H a. rewrite read_tables_lookup. case_decide as Ha; [|done]. by apply table_word_zero. Qed.

(** From zero words [mmu_init] makes words, at the same addresses. *)
Lemma mmu_init_from_zero w0 r t : (forall a, w0 !! a = if decide (a ∈ table_words (boot_statics p l)) then Some 0 else None) ->
  mmu_init (image_of l) (boot_statics p l) (Mmu w0 0 r) = Some t ->
  (forall a, a ∈ table_words (boot_statics p l) -> exists w, tables t !! a = Some w /\ is_u64 w) /\
  (forall a w, tables t !! a = Some w -> a ∈ table_words (boot_statics p l)).
Proof using Hp Hl.
  intros Hz E. destruct (mmu_init_words _ _ (lo_image _ _ Hl) boot_statics_ok _ _ E) as [[Hw _] Hd].
  { split; [|cbn [early_pgtables_used]; lia]. cbn [tables]. intros a w Ha. rewrite Hz in Ha. case_decide; [|done]. injection Ha as <-. unfold is_u64. lia. }
  cbn [tables] in Hd. clear E. split.
  - intros a Ha. assert (is_Some (tables t !! a)) as [w Ew] by (apply elem_of_dom; rewrite Hd, elem_of_dom, Hz, decide_True by done; by eexists).
    exists w. split; [done|]. by apply (Hw a).
  - intros a w Ew. apply elem_of_dom_2 in Ew. rewrite Hd, elem_of_dom, Hz in Ew. case_decide; [done|by destruct Ew].
Qed.

(** The tables built, and stored. *)
Lemma mmu_init_stored r m1 : prepared m1 -> exists t, mmu_init (image_of l) (boot_statics p l) (Mmu (read_tables (boot_statics p l) m1) 0 r) = Some t /\
  read_tables (boot_statics p l) (store_mmu p l t m1) = tables t /\ sys t = enable_mmu (boot_statics p l) r /\ forall va, is_u64 va ->
    translate t va = Some (if va <? 2 ^ 39 then idmap_view (image_of l) va else kernel_view (image_of l) va) /\
    translate (cpu_uninstall_idmap (boot_statics p l) t) va = Some (if va <? 2 ^ 39 then user_view va else kernel_view (image_of l) va).
Proof using Hp Hl.
  intros H. destruct (load_mmu_cleared r m1 H) as [_ Hc]. destruct (mmu_init_correct _ _ (lo_image _ _ Hl) boot_statics_ok _ Hc) as (t & E & _ & Hview).
  exists t. split; [exact E|]. split; [|split; [exact (mmu_init_sys _ _ (lo_image _ _ Hl) boot_statics_ok _ _ Hc E)|exact Hview]].
  destruct (mmu_init_from_zero _ r t (read_zero_tables m1 H) E). by apply store_mmu_tables.
Qed.

End prepared.

(** ** The switch to the linked addresses *)

Lemma text_address s : in_section (o_text (p_objects p)) s 4 ->
  PAGE_OFFSET + TEXT_OFFSET <= symbol_address (text_places l) s /\ symbol_address (text_places l) s + 4 <= v_etext l.
Proof using Hl. intros Hs. destruct (lo_text _ _ Hl) as [Et Hpl]. rewrite <- Et. by apply (symbol_in _ _ _ _ _ _ Hpl Hs). Qed.

Lemma kernel_text_fetch va : PAGE_OFFSET + TEXT_OFFSET <= va < v_etext l ->
  kernel_view (image_of l) va = grants (physical va) none rx NC.
Proof using Hl.
  intros Hva. destruct bss_in_ram as (H1 & H2 & H3 & H4). unfold kernel_view. rewrite !within_spec. cbn [image_of __start_rodata __end_rodata _text _etext].
  destruct (lo_text _ _ Hl) as [Et _]. rewrite Et. unfold physical, STACK_SIZE, PAGE_OFFSET, PHYS_OFFSET, TEXT_OFFSET, RAM_SIZE, APP_FIRST in *. by settle_views.
Qed.

Lemma continues_linked t va : (forall va, is_u64 va -> translate t va = Some (if va <? 2 ^ 39 then user_view va else kernel_view (image_of l) va)) \/
  (forall va, is_u64 va -> translate t va = Some (if va <? 2 ^ 39 then idmap_view (image_of l) va else kernel_view (image_of l) va)) ->
  PAGE_OFFSET + TEXT_OFFSET <= va < v_etext l -> continues t va (physical va) = true.
Proof using Hl.
  intros Hv Hva. apply bool_decide_true. unfold fetch. destruct bss_in_ram as (H1 & H2 & H3 & H4).
  assert (is_u64 va /\ 2 ^ 39 <= va) as [Hu Hh] by (unfold is_u64, physical, STACK_SIZE, PAGE_OFFSET, PHYS_OFFSET, TEXT_OFFSET, APP_FIRST in *; lia).
  assert (translate t va = Some (kernel_view (image_of l) va)) as -> by (destruct Hv as [Hv|Hv]; by rewrite (Hv va Hu), (proj2 (Z.ltb_ge _ _))).
  by rewrite kernel_text_fetch.
Qed.

Lemma continues_identity t va : (forall va, is_u64 va -> translate t va = Some (if va <? 2 ^ 39 then idmap_view (image_of l) va else kernel_view (image_of l) va)) ->
  PAGE_OFFSET + TEXT_OFFSET <= va < v_etext l -> continues t (physical va) (physical va) = true.
Proof using Hl.
  intros Hv Hva. apply bool_decide_true. unfold fetch. destruct bss_in_ram as (H1 & H2 & H3 & H4).
  assert (PHYS_OFFSET <= physical va < APP_FIRST) as Hr by (unfold physical, STACK_SIZE, PAGE_OFFSET, PHYS_OFFSET, TEXT_OFFSET, APP_FIRST in *; lia).
  rewrite Hv by (unfold is_u64, PHYS_OFFSET, APP_FIRST in *; lia). rewrite (proj2 (Z.ltb_lt _ _)) by (unfold PHYS_OFFSET, APP_FIRST in *; lia).
  unfold idmap_view. rewrite within_spec, bool_decide_true by (unfold PHYS_OFFSET, RAM_SIZE, APP_FIRST in *; lia).
  change (physical va - PHYS_OFFSET + PAGE_OFFSET) with (linear (physical va)). by rewrite linear_physical, kernel_text_fetch.
Qed.

(** [VBAR_EL1] takes a multiple of 2048, and the table is kernel text. *)
Lemma vectors_place : (2048 | vectors_address p l) /\ PAGE_OFFSET + TEXT_OFFSET <= vectors_address p l /\ vectors_address p l + 2048 <= v_etext l.
Proof using Hp Hl.
  destruct (c_vectors p Hp) as (Hin & Hoff & i & Hi & Ea). destruct (lo_text _ _ Hl) as [Et Hpl]. rewrite <- Et. split; [|by apply (symbol_in _ _ _ _ _ _ Hpl Hin)].
  destruct Hpl as (Hlen & Hpl & _). destruct (lookup_lt_is_Some_2 (text_places l) (p_vectors p).1) as [a Ha]; [rewrite Hlen; by apply lookup_lt_Some in Hi|].
  destruct (Hpl _ i a Hi Ha) as (Hd & _). unfold vectors_address, symbol_address. rewrite nth_lookup, Ha. cbn [default from_option id].
  apply Z.divide_add_r; [by rewrite <- Ea|done].
Qed.

(** [SCTLR_EL1] when the kernel runs: the MMU on; the alignment check, the
    caches and WXN off; the rest as it was. *)
Definition sctlr_switched (s s' : Z) : Prop :=
  forall i, 0 <= i < 64 -> Z.testbit s' i = bool_decide (i = 0) || (Z.testbit s i && negb (bool_decide (i ∈ [1; 2; 12; 19]))).

Lemma sctlr_switch s g r : sctlr_switched s (sctlr_el1 (enable_mmu g (SysRegs (mair_el1 r) (tcr_el1 r) (ttbr0_el1 r) (ttbr1_el1 r) (Z.ldiff s 0x1005)))).
Proof.
  intros i Hi. cbn [sctlr_el1 enable_mmu]. rewrite Z.lor_spec, Z.land_spec, Z.ldiff_spec.
  set (mask := u64 (Z.lnot _)). assert (Hin : i ∈ seqZ 0 64) by (apply elem_of_seqZ; lia).
  assert (H : Forall (fun i => Z.testbit 1 i = bool_decide (i = 0) /\ negb (Z.testbit 0x1005 i) && Z.testbit mask i = negb (bool_decide (i ∈ [0; 1; 2; 12; 19]))) (seqZ 0 64)).
  { unfold mask. vm_compute. repeat constructor. }
  rewrite Forall_forall in H. destruct (H i Hin) as [-> Hm]. rewrite <- andb_assoc, Hm. rewrite orb_comm. destruct (decide (i = 0)) as [->|Hne]; [done|].
  rewrite (bool_decide_false _ Hne). cbn [orb]. do 2 f_equal. apply bool_decide_ext. rewrite elem_of_cons. tauto.
Qed.

(** ** The state at the kernel entry *)

Section entered.
Context {S : Type} `{!ListStore node S, !ListStoreLaws node S}.
Implicit Types (b : boot S).

(** The variables of the C code that are records in the model, zeroed. *)
Record zero_statics b : Prop := {
  zs_memblock : b_memblock b = empty_memblock;
  zs_lists : ls_rep (lists (b_zone b)) ∅;
  zs_areas o : 0 <= o < MAX_ORDER -> ls_valid (lists (b_zone b)) (FreeList o);
  zs_partials c : 0 <= c < KMALLOC_CACHES -> ls_valid (lists (b_zone b)) (Partial c);
  zs_tasks : tasks (b_kernel b) = replicate 3 zero_task;
  zs_current : current (b_kernel b) = 0;
}.

Lemma entry_at_reset m b : zero_statics b -> mapped m PHYS_OFFSET RAM_SIZE -> mem_ok m -> at_reset (at_entry m b).
Proof using.
  intros [? ? ? ? _ _] Hm Hok. split; try done; cbn [at_entry b_kernel Kernel.ram Kernel.set_ram].
  - by apply linear_ok.
  - unfold ram_mapped. rewrite linear_va by (unfold in_ram, PHYS_OFFSET, RAM_SIZE; lia). by apply linear_mapped.
Qed.

(** The binaries are between the symbols of [payloads.S]. *)
Lemma entry_ready m b : zero_statics b -> mapped m PHYS_OFFSET RAM_SIZE ->
  bytes_at m (physical (symbol_address (rodata_places l) (p_apps p, 0))) (concat (p_bins p)) ->
  start_ready (app_symbols p l).1 (app_symbols p l).2 (p_bins p) (b_kernel (at_entry m b)).
Proof using Hp Hl.
  intros Hb Hm Happs. destruct (c_bins p Hp) as [Hl3 Hbins]. set (base := symbol_address (rodata_places l) (p_apps p, 0)) in *.
  apply linear_bytes in Happs. rewrite linear_physical in Happs.
  assert (Hbase : v_etext l <= base /\ base + length (concat (p_bins p)) <= v_end_rodata l).
  { apply (symbol_in _ _ _ _ (p_apps p, 0) _ (lo_rodata _ _ Hl)). exists (apps_input (p_bins p)). split; [apply Hp|]. cbn [snd in_size apps_input]. lia. }
  destruct bss_in_ram as (H1 & H2 & H3 & H4). pose proof (payload_symbols_length base (p_bins p)) as [Hs He].
  split; cbn [at_entry b_kernel Kernel.ram Kernel.set_ram tasks].
  - apply Hb.
  - unfold app_symbols. fold base. lia.
  - intros i s e bs Es Ee Ebs. destruct (payload_between base (p_bins p) i s e bs Es Ee Ebs) as (-> & Hlo & Hhi & Hx).
    rewrite Forall_lookup in Hbins. destruct (Hbins i bs Ebs) as [Hby Hsz]. split; try done.
    + intros n b' Hn. specialize (Hx n b' Hn). rewrite <- (Happs _ _ Hx). f_equal. lia.
    + unfold physical, STACK_SIZE in *. rewrite va_of_ram by (unfold PHYS_OFFSET, RAM_SIZE, APP_FIRST; lia). unfold PHYS_OFFSET, PAGE_OFFSET, TEXT_OFFSET, APP_FIRST in *. lia.
  - intros i Hi. apply ram_mapped_at; unfold slot, APP_FIRST, APP_SLOT_SIZE, APP_COUNT, PHYS_OFFSET, RAM_SIZE in *; try lia.
    unfold ram_mapped. rewrite linear_va by (unfold in_ram, PHYS_OFFSET, RAM_SIZE; lia). by apply linear_mapped.
Qed.

End entered.

(** The device tree is found where it was, if its header is not in [.bss]. *)
Lemma dtb_size_agree m m' fdt : (in_ram fdt -> fdt mod 8 = 0 -> forall x, fdt <= x < fdt + 8 -> m' !! x = m !! x) ->
  dtb_size (linear_view m') fdt = dtb_size (linear_view m) fdt.
Proof.
  intros H. unfold dtb_size, dtb_here. destruct (decide (PHYS_OFFSET <= fdt < PHYS_OFFSET + RAM_SIZE /\ fdt mod 8 = 0)) as [[Hr H8]|Hn]; [|by rewrite !(bool_decide_false _ Hn)].
  assert (E : forall o, 0 <= o <= 4 -> dtb_word (linear_view m') (fdt + o) = dtb_word (linear_view m) (fdt + o)).
  { intros o Ho. unfold dtb_word. rewrite linear_va by (unfold in_ram, PHYS_OFFSET, RAM_SIZE in *; Z.div_mod_to_equations; lia). rewrite !linear_load. do 2 f_equal.
    assert (Hx : forall x, fdt <= x < fdt + 8 -> m' !! x = m !! x) by (apply H; done). cbn [load]. unfold load8. by rewrite !Hx by lia. }
  pose proof (E 0 ltac:(lia)) as E0. rewrite Z.add_0_r in E0. by rewrite E0, (E 4 ltac:(lia)).
Qed.

(** Unless the device tree takes 96 MiB, there is room for the page
    descriptors: right behind the application slots or at the end of RAM. *)
Lemma room_exists m fdt : dtb_size m fdt <= 0x6000000 -> exists q, room (image_of l) m fdt q.
Proof using Hl.
  intros Hd. destruct (bss_in_ram) as (H1 & H2 & H3 & H4). destruct (lo_stack _ _ Hl) as [_ Ee].
  assert (Hroom : forall q, (8 | q) -> APP_FIRST + APP_COUNT * APP_SLOT_SIZE <= q -> q + map_size <= PHYS_OFFSET + RAM_SIZE ->
    fdt + dtb_size m fdt <= q \/ q + map_size <= fdt -> room (image_of l) m fdt q).
  { intros q Hq Hlo Hhi Hf. split; [done|]. intros x Hx. unfold busy, in_ram. cbn [image_of _end]. rewrite Ee. unfold APP_FIRST, APP_COUNT, APP_SLOT_SIZE, PHYS_OFFSET in *. lia. }
  change map_size with 0x180000 in *. unfold APP_FIRST, APP_COUNT, APP_SLOT_SIZE, PHYS_OFFSET, RAM_SIZE in *.
  destruct (decide (fdt + dtb_size m fdt <= 0x41060000 \/ 0x411e0000 <= fdt)) as [Ha|Ha].
  - exists 0x41060000. apply Hroom; [by exists 0x820c000|lia|lia|lia].
  - exists 0x47e80000. apply Hroom; [by exists 0x8fd0000|lia|lia|lia].
Qed.

Lemma room_agree img m m' fdt q : dtb_size m' fdt = dtb_size m fdt -> room img m fdt q -> room img m' fdt q.
Proof. intros E [Hd H]. split; [done|]. intros x Hx. unfold busy. rewrite E. by apply H. Qed.

(** ** The boot *)

Section boot.
Context {S : Type} `{!ListStore node S, !ListStoreLaws node S}.
Context (c : cpu) (frame x0 : Z) (r : sysregs) (m : mem) (u : uart) (b : boot S).

(** What the machine and the devices do. *)
Record boot_conditions (waker cfg ctlr : Z) (rest : list Z) : Prop := {
  bc_memory : loaded p l m;
  bc_statics : zero_statics b;
  bc_pointer : is_u64 x0;
  bc_dtb : x0 + 8 <= physical (v_bss_start l) \/ physical (v_bss_stop l) <= x0;
  bc_size : dtb_size (linear_view m) x0 <= 0x6000000;
  bc_reads : timer_reads waker cfg ctlr (mmio_reads (b_kernel b)) rest;
  bc_timer : 100 <= cntfrq_el0 c < 2 ^ 31 * 100;
}.

(** The state in which application 0 is entered: as [start_kernel] leaves it
    from a physical memory [m2] in which the tables are those of [t], which
    stay what they are; exceptions find the vector table; outside of [.bss] everything is as it was loaded, and
    what is not the page tables or the device tree pointer is zero. *)
Record booted (t : mmu) (b' : boot S) : Prop := {
  bt_started : exists m2 map F L, started c (image_of l) x0 (p_bins p) (at_entry m2 b) b' map F L /\ mapped m2 PHYS_OFFSET RAM_SIZE;
  bt_sctlr : sctlr_switched (sctlr_el1 r) (sctlr_el1 (sys t));
  bt_view va : is_u64 va -> translate t va = Some (if va <? 2 ^ 39 then user_view va else kernel_view (image_of l) va);
  bt_vectors : (2048 | vectors_address p l) /\ forall o, 0 <= o < 2048 -> continues t (vectors_address p l + o) (physical (vectors_address p l + o)) = true;
  bt_tables a : a ∈ table_words (boot_statics p l) -> load64 (Kernel.ram (b_kernel b')) (linear a) = tables t !! a;
  bt_kept x : PHYS_OFFSET <= x < physical (v_bss_start l) -> Kernel.ram (b_kernel b') !! linear x = m !! x;
  bt_zero x : physical (v_bss_start l) <= x < physical (v_bss_stop l) -> ~ mmu_byte x ->
    ~ fdt_pointer (boot_symbols p l) <= x < fdt_pointer (boot_symbols p l) + 8 -> Kernel.ram (b_kernel b') !! linear x = Some 0;
  bt_pointer : load64 (Kernel.ram (b_kernel b')) (linear (fdt_pointer (boot_symbols p l))) = Some x0;
}.

(** Physical memory and the page tables when [start_kernel] is called. *)
Record at_kernel_entry (m2 : mem) (t : mmu) : Prop := {
  en_sctlr : sctlr_switched (sctlr_el1 r) (sctlr_el1 (sys t));
  en_view va : is_u64 va -> translate t va = Some (if va <? 2 ^ 39 then user_view va else kernel_view (image_of l) va);
  en_tables : read_tables (boot_statics p l) m2 = tables t;
  en_mapped : mapped m2 PHYS_OFFSET RAM_SIZE;
  en_bytes : mem_ok m2;
  en_pointer : load64 m2 (fdt_pointer (boot_symbols p l)) = Some x0;
  en_out x : ~ physical (v_bss_start l) <= x < physical (v_bss_stop l) -> m2 !! x = m !! x;
  en_zero x : physical (v_bss_start l) <= x < physical (v_bss_stop l) -> ~ mmu_byte x ->
    ~ fdt_pointer (boot_symbols p l) <= x < fdt_pointer (boot_symbols p l) + 8 -> m2 !! x = Some 0;
}.

Lemma stored_entered m1 t t2 : loaded p l m -> prepared m x0 m1 -> tables t2 = tables t -> read_tables (boot_statics p l) (store_mmu p l t m1) = tables t ->
  sctlr_switched (sctlr_el1 r) (sctlr_el1 (sys t2)) ->
  (forall va, is_u64 va -> translate t2 va = Some (if va <? 2 ^ 39 then user_view va else kernel_view (image_of l) va)) ->
  at_kernel_entry (store_mmu p l t m1) t2.
Proof using Hp Hl.
  intros Hm Hpr Et Htab Hsc Hus. assert (Hm2 : forall x, ~ mmu_byte x -> store_mmu p l t m1 !! x = m1 !! x) by (intros x; apply store_mmu_out).
  split; [done|done|congruence|..].
  - apply store_mmu_mapped, (pr_mapped _ _ _ Hpr), Hm.
  - apply store_mmu_bytes, (pr_bytes _ _ _ Hpr).
  - rewrite <- (pr_pointer _ _ _ Hpr). apply load64_agree. intros x Hx. apply Hm2.
    destruct (c_files p Hp) as [Hne _]. by apply (not_mmu_byte _ 8 x (c_pointer p Hp) Hne).
  - intros x Hx. rewrite Hm2 by (intros Hmb; by apply Hx, mmu_byte_bss). by apply (pr_out _ _ _ Hpr).
  - intros x Hx Hn Hn'. rewrite Hm2 by done. by apply (pr_zero _ _ _ Hpr).
Qed.

(** [_start], step by step. *)
Lemma start_steps sctlr m1 t0 t fdt : CurrentEL c = 4 ->
  start_code (boot_symbols p l) x0 4 (sctlr_el1 r) m u = Some (inl (sctlr, m1)) ->
  load_mmu p l (SysRegs (mair_el1 r) (tcr_el1 r) (ttbr0_el1 r) (ttbr1_el1 r) sctlr) m1 = Some t0 ->
  mmu_init (image_of l) (boot_statics p l) t0 = Some t ->
  continues t (branch_pc p l) (branch_pc p l) = true -> continues t (__mmap_switched p l) (physical (__mmap_switched p l)) = true ->
  continues (cpu_uninstall_idmap (boot_statics p l) t) (__mmap_switched p l) (physical (__mmap_switched p l)) = true ->
  load64 (store_mmu p l t m1) (fdt_pointer (boot_symbols p l)) = Some fdt ->
  _start p l c frame x0 r m u b =
    (let* '(o, b') := start_kernel c (image_of l) fdt (sctlr_el1 (sys (cpu_uninstall_idmap (boot_statics p l) t))) (vectors_address p l) (u64 (v_stack_top l - frame))
      (app_symbols p l).1 (app_symbols p l).2 (at_entry (store_mmu p l t m1) b) in Some (inl (o, cpu_uninstall_idmap (boot_statics p l) t, b'))).
Proof using.
  intros Hel E1 E2 E3 C1 C2 C3 E4. unfold _start. rewrite Hel, E1. cbn [mbind option_bind]. rewrite E2. cbn [mbind option_bind]. rewrite E3. cbn [mbind option_bind].
  rewrite C1, C2, C3, linear_load64, E4. done.
Qed.

Lemma start_reaches_kernel : loaded p l m -> is_u64 x0 -> CurrentEL c = 4 ->
  exists m2 t, at_kernel_entry m2 t /\ _start p l c frame x0 r m u b =
    (let* '(o, b') := start_kernel c (image_of l) x0 (sctlr_el1 (sys t)) (vectors_address p l) (u64 (v_stack_top l - frame))
      (app_symbols p l).1 (app_symbols p l).2 (at_entry m2 b) in Some (inl (o, t, b'))).
Proof using Hp Hl.
  intros Hm Hx0 Hel. destruct (start_code_prepared m x0 Hm Hx0 (sctlr_el1 r) u) as (m1 & E1 & Hpr).
  set (r1 := SysRegs (mair_el1 r) (tcr_el1 r) (ttbr0_el1 r) (ttbr1_el1 r) (Z.ldiff (sctlr_el1 r) 0x1005)).
  destruct (load_mmu_cleared m x0 r1 m1 Hpr) as [E2 _]. destruct (mmu_init_stored m x0 r1 m1 Hpr) as (t & E3 & Htab & Hsys & Hview).
  destruct (c_code p Hp) as [Hbr Hsw]. apply text_address in Hbr, Hsw.
  pose proof (stored_entered m1 t (cpu_uninstall_idmap (boot_statics p l) t) Hm Hpr eq_refl Htab) as He.
  specialize (He ltac:(cbn [sys set_sys cpu_uninstall_idmap sctlr_el1]; rewrite Hsys; apply sctlr_switch) (fun va Hva => proj2 (Hview va Hva))).
  exists (store_mmu p l t m1), (cpu_uninstall_idmap (boot_statics p l) t). split; [exact He|].
  refine (start_steps _ m1 _ t x0 Hel E1 E2 E3 _ _ _ (en_pointer _ _ He)).
  - apply (continues_identity t (symbol_address (text_places l) (p_branch p)) (fun va Hva => proj1 (Hview va Hva))). lia.
  - apply continues_linked; [right; exact (fun va Hva => proj1 (Hview va Hva))|unfold __mmap_switched; lia].
  - apply continues_linked; [left; exact (fun va Hva => proj2 (Hview va Hva))|unfold __mmap_switched; lia].
Qed.

(** The hypotheses of [start_kernel_result]. *)
Lemma entered_ready m2 t : loaded p l m -> zero_statics b -> x0 + 8 <= physical (v_bss_start l) \/ physical (v_bss_stop l) <= x0 ->
  (exists q, room (image_of l) (linear_view m) x0 q) -> at_kernel_entry m2 t ->
  at_reset (at_entry m2 b) /\ (exists q, room (image_of l) (Kernel.ram (b_kernel (at_entry m2 b))) x0 q) /\
  start_ready (app_symbols p l).1 (app_symbols p l).2 (p_bins p) (b_kernel (at_entry m2 b)).
Proof using Hp Hl.
  intros Hm Hb Hdtb [q Hq] [_ _ _ Hmap Hok _ Hout _]. split; [by apply entry_at_reset|]. split.
  - exists q. apply (room_agree _ (linear_view m)); [|done]. apply dtb_size_agree. intros _ _ x Hx. apply Hout. lia.
  - apply entry_ready; [done..|]. intros i v Hi. rewrite Hout; [by apply Hm|]. apply lookup_lt_Some in Hi.
    destruct (symbol_in _ _ _ _ (p_apps p, 0) (length (concat (p_bins p))) (lo_rodata _ _ Hl)) as [_ Hhi].
    { exists (apps_input (p_bins p)). split; [apply Hp|]. cbn [snd in_size apps_input]. lia. }
    destruct bss_in_ram as (_ & H2 & _). unfold physical in *. lia.
Qed.

(** Below the slots [start_kernel] leaves memory as it was. *)
Lemma entered_booted m2 t b' map F L : at_kernel_entry m2 t -> started c (image_of l) x0 (p_bins p) (at_entry m2 b) b' map F L -> booted t b'.
Proof using Hp Hl.
  intros He Hst. destruct bss_in_ram as (H1 & H2 & H3 & H4). unfold STACK_SIZE, TEXT_OFFSET in *.
  assert (Hlow : forall x, PHYS_OFFSET <= x < APP_FIRST -> Kernel.ram (b_kernel b') !! linear x = m2 !! x).
  { intros x Hx. rewrite (st_below _ _ _ _ _ _ _ _ _ Hst); [apply linear_lookup|]. rewrite linear_va by (unfold in_ram, APP_FIRST, PHYS_OFFSET, RAM_SIZE in *; lia). unfold linear. lia. }
  assert (Hlow64 : forall a, PHYS_OFFSET <= a -> a + 8 <= APP_FIRST -> load64 (Kernel.ram (b_kernel b')) (linear a) = load64 m2 a).
  { intros a Ha Ha'. rewrite <- (linear_load64 m2 a). apply load64_agree. intros x Hx. rewrite <- (linear_physical x).
    rewrite Hlow, linear_lookup; [done|]. unfold linear, physical in *. lia. }
  split.
  - exists m2, map, F, L. split; [done|apply He].
  - apply He.
  - apply He.
  - destruct vectors_place as (Hv & V1 & V2). split; [done|]. intros o Ho. apply continues_linked; [left; apply He|lia].
  - intros a Ha. assert (Hr : forall o, 0 <= o < 8 -> physical (v_bss_start l) <= a + o < physical (v_bss_stop l)) by (intros o Ho; apply mmu_byte_bss; left; exists a; split; [done|lia]).
    pose proof (Hr 0 ltac:(lia)). pose proof (Hr 7 ltac:(lia)). rewrite Hlow64 by (unfold PHYS_OFFSET in *; lia).
    rewrite <- (en_tables _ _ He), read_tables_lookup. by rewrite decide_True.
  - intros x Hx. rewrite Hlow by (unfold APP_FIRST, PHYS_OFFSET in *; lia). apply (en_out _ _ He). lia.
  - intros x Hx Hn Hn'. rewrite Hlow by (unfold APP_FIRST, PHYS_OFFSET in *; lia). by apply (en_zero _ _ He).
  - pose proof (symbol_in _ _ _ _ _ _ (lo_bss _ _ Hl) (c_pointer p Hp)) as [F1 F2].
    rewrite Hlow64; [apply He|..]; cbn [fdt_pointer boot_symbols]; unfold physical, PHYS_OFFSET in *; lia.
Qed.

Lemma boot_result waker cfg ctlr rest : boot_conditions waker cfg ctlr rest -> CurrentEL c = 4 ->
  exists t b', _start p l c frame x0 r m u b = Some (inl (inl 0, t, b')) /\ booted t b'.
Proof using Hp Hl ListStoreLaws0.
  intros [Hm Hb Hx0 Hdtb Hsz Hrd Htm] Hel. pose proof (room_exists _ _ Hsz) as Hq. destruct (start_reaches_kernel Hm Hx0 Hel) as (m2 & t & He & ->).
  destruct (entered_ready m2 t Hm Hb Hdtb Hq He) as (Hreset & Hroom & Hready).
  destruct (start_kernel_result c (image_of l) x0 (sctlr_el1 (sys t)) (vectors_address p l) (u64 (v_stack_top l - frame)) _ _ _ (at_entry m2 b) waker cfg ctlr rest
    (lo_image _ _ Hl) Hreset Hroom Hready (zs_current _ Hb) Hrd Htm) as (b' & map & F & L & E4 & Hst).
  rewrite E4. cbn [mbind option_bind]. exists t, b'. split; [reflexivity|]. by apply (entered_booted m2 t b' map F L).
Qed.

End boot.
End program.

(** ** From the reset to the end of the applications *)

Lemma programs_log_bytes : Forall (Forall logs_bytes) app_programs.
Proof.
  assert (H : forallb (forallb (fun a => match a with ALog text => forallb (fun b => (0 <=? b) && (b <? 256)) text | _ => true end)) app_programs = true) by (vm_compute; reflexivity).
  apply Forall_forall. intros acts Ha. apply list_elem_of_In in Ha. rewrite forallb_forall in H. specialize (H acts Ha).
  apply Forall_forall. intros a Hin. apply list_elem_of_In in Hin. rewrite forallb_forall in H. specialize (H a Hin). destruct a as [text| | |]; try done.
  apply Forall_forall. intros b Hb. apply list_elem_of_In in Hb. rewrite forallb_forall in H. specialize (H b Hb). unfold is_byte. bool_prop. lia.
Qed.

Section places.
Context (p : kernel_program) (l : kernel_layout).
Hypothesis (Hp : compiled p) (Hl : laid_out (p_objects p) l).

(** The stack below [__stack_top], under [n] bytes of frames of C functions. *)
Definition stack_pointer (n : Z) : Z := v_stack_top l - n.

Lemma linear_of_first : __va APP_FIRST = linear APP_FIRST.
Proof. apply linear_va. unfold in_ram, APP_FIRST, PHYS_OFFSET, RAM_SIZE. lia. Qed.

Lemma table_place : 0 <= task_table p l /\ task_table p l + 3 * sizeof_task_struct < 2 ^ 64 /\
  v_bss_start l <= task_table p l /\ task_table p l + 3 * sizeof_task_struct <= v_bss_stop l.
Proof using Hp Hl.
  destruct (symbol_in _ _ _ _ _ _ (lo_bss _ _ Hl) (c_tasks p Hp)) as [F1 F2]. destruct (bss_in_ram p l Hl) as (H1 & H2 & H3 & H4).
  unfold task_table, physical, STACK_SIZE, PAGE_OFFSET, PHYS_OFFSET, TEXT_OFFSET, APP_FIRST in *. lia.
Qed.

Lemma stack_place n : (16 | n) -> 0 <= n <= STACK_SIZE - S_FRAME_SIZE ->
  Z.land (stack_pointer n) 15 = 0 /\ S_FRAME_SIZE <= stack_pointer n <= __va APP_FIRST /\ v_bss_stop l <= stack_pointer n - S_FRAME_SIZE.
Proof using Hl.
  intros Hn Hr. destruct (bss_in_ram p l Hl) as (H1 & H2 & H3 & H4). destruct (lo_align _ _ Hl) as (_ & _ & H16). rewrite linear_of_first. unfold stack_pointer. split.
  - change 15 with (Z.ones 4). rewrite Z.land_ones by lia. apply Z.mod_divide; [lia|]. by apply Z.divide_sub_r.
  - unfold linear, physical, S_FRAME_SIZE, STACK_SIZE, PAGE_OFFSET, PHYS_OFFSET, TEXT_OFFSET, APP_FIRST in *. lia.
Qed.

Lemma stack_usable n m : (16 | n) -> 0 <= n <= STACK_SIZE - S_FRAME_SIZE -> mapped m PHYS_OFFSET RAM_SIZE -> stack_ok (stack_pointer n) (linear_view m).
Proof using Hl.
  intros Hn Hr Hm. destruct (stack_place n Hn Hr) as (Ha & Hb & Hc). destruct (bss_in_ram p l Hl) as (H1 & H2 & H3 & H4). rewrite linear_of_first in Hb. split; [done|unfold linear, PAGE_OFFSET, PHYS_OFFSET, APP_FIRST in *; lia|].
  rewrite <- (linear_physical (stack_pointer n - S_FRAME_SIZE)). apply linear_mapped, (mapped_sub _ _ _ _ _ Hm); unfold stack_pointer, physical, S_FRAME_SIZE, STACK_SIZE, PAGE_OFFSET, PHYS_OFFSET, TEXT_OFFSET, APP_FIRST, RAM_SIZE in *; lia.
Qed.

(** What neither exceptions nor applications write: the image up to [.bss] and
    the page tables. *)
Lemma untouched n x : (16 | n) -> 0 <= n <= STACK_SIZE - S_FRAME_SIZE -> PHYS_OFFSET <= x < physical (v_bss_start l) \/ table_byte (boot_statics p l) x ->
  ~ app_stack (linear x) /\ ~ kernel_written (task_table p l) (stack_pointer n) (linear x).
Proof using Hp Hl.
  intros Hn Hr Hx. destruct (stack_place n Hn Hr) as (_ & _ & Hc). destruct table_place as (_ & _ & T1 & T2). destruct (bss_in_ram p l Hl) as (H1 & H2 & H3 & H4).
  assert (Hlow : x < physical (v_bss_stop l)) by (destruct Hx as [Hx|Hx]; [lia|apply (mmu_byte_bss p l Hp Hl x); by left]).
  assert (Htab : table_byte (boot_statics p l) x -> ~ physical (task_table p l) <= x < physical (task_table p l) + 3 * sizeof_task_struct).
  { intros Ht Hin. destruct (c_files p Hp) as [_ Hne]. apply (not_mmu_byte p l Hp Hl (p_tasks p) _ x (c_tasks p Hp) Hne Hin). by left. }
  split.
  - intros (i & Hi & Hs). unfold stack_of, slot, APP_COUNT, APP_FIRST, APP_SLOT_SIZE, APP_STACK_SIZE, STACK_SIZE in *. rewrite linear_va in Hs by (unfold in_ram, PHYS_OFFSET, RAM_SIZE; lia). unfold linear in Hs. lia.
  - unfold kernel_written. intros [Hs|Hs].
    + unfold linear, physical in *. lia.
    + destruct Hx as [Hx|Hx]; [unfold linear, physical in *; lia|]. apply Htab; [done|]. unfold linear, physical in *. lia.
Qed.

End places.

(** ** The properties *)

Section properties.
Context {S : Type} `{!ListStore node S, !ListStoreLaws node S}.
Context (p : kernel_program) (l : kernel_layout) (c : cpu) (frame x0 : Z) (r : sysregs) (m : mem) (u : uart) (b : boot S).
Context (waker cfg ctlr : Z) (rest : list Z).

(** C13. From the first instruction to the first application, for every kernel
    that compiles and links: at EL1 the boot clears [.bss], builds the page
    tables in it, goes on at the linked addresses, where each instruction it
    fetches around the switch is the one it has loaded, and [start_kernel] is
    called on the memory this leaves, finds the device tree pointer there,
    and ends by entering application 0 with all invariants established.  The
    page tables in memory are then the ones [mmu_init] built, they translate
    as documented, [SCTLR_EL1] has the MMU on and the caches off, exceptions
    find the vector table, which is aligned as [VBAR_EL1] needs it, the code, the read-only data and the payloads are what was
    loaded, and the rest of [.bss] is zero.  At any other exception level the
    boot sends the panic message and halts. *)
Theorem reset_boots_the_kernel : compiled p -> link_kernel (p_objects p) = Some l -> boot_conditions p l c x0 m b waker cfg ctlr rest ->
  (CurrentEL c = 4 -> exists t b', _start p l c frame x0 r m u b = Some (inl (inl 0, t, b')) /\ booted p l c x0 r m b t b') /\
  (CurrentEL c <> 4 -> length unsupported_text <= accepts (flag_reads u) ->
    exists u', _start p l c frame x0 r m u b = Some (inr u') /\ accepted u u' unsupported_text).
Proof using ListStoreLaws0.
  intros Hp El Hc. pose proof (link_kernel_result (p_objects p) (c_inputs p Hp)) as Hl. rewrite El in Hl. split.
  - intros Hel. by apply (boot_result p l Hp Hl c frame x0 r m u b waker cfg ctlr rest).
  - intros Hel Hu. unfold _start. destruct Hc as [Hm _ _ _ _ _ _].
    destruct (start_code_other (boot_symbols p l) x0 (CurrentEL c) (sctlr_el1 r) m u) as (u' & -> & Ha); [by apply boot_linked|apply Hm|done|done|]. by exists u'.
Qed.

(** C2. From the first instruction to the last message: the kernel that
    [_start] boots, with the programs the three applications' [app_main] make,
    can run them to their ends, with every store of an application made
    through the page tables the boot has built; and in every such run,
    whatever the interrupts and the stores, the console shows an interleaving of first
    actions of the three programs, at the end all of them have run completely
    and exited with status 0, and all along the image of the kernel up to
    [.bss] is what was loaded, the page tables in memory are what
    [mmu_init] built, and the heap's invariant holds. *)
Theorem reset_runs_to_the_end buffer digits n : (forall v, length (buffer v) = 96%nat) -> (forall v, length (digits v) = 20%nat) ->
  compiled p -> link_kernel (p_objects p) = Some l -> boot_conditions p l c x0 m b waker cfg ctlr rest -> CurrentEL c = 4 ->
  (16 | n) -> 0 <= n <= STACK_SIZE - S_FRAME_SIZE ->
  exists ps t b' F L, mapM app_program [sequence_main buffer digits; primes_main buffer digits; checksum_main buffer digits] = Some ps /\
    _start p l c frame x0 r m u b = Some (inl (inl 0, t, b')) /\
    (exists ls s', confined_run t (task_table p l) (stack_pointer l n) (System (b_kernel b') ps) ls (Some Idle) s') /\
    forall ls o s', confined_run t (task_table p l) (stack_pointer l n) (System (b_kernel b') ps) ls o s' ->
      comes_out (b_kernel b') ps ls o s' /\
      (forall x, PHYS_OFFSET <= x < physical (v_bss_start l) -> Kernel.ram (core s') !! linear x = m !! x) /\
      (forall a, a ∈ table_words (boot_statics p l) -> load64 (Kernel.ram (core s')) (linear a) = tables t !! a) /\
      heap_inv F (Slab.set_ram (Kernel.ram (core s')) (b_heap b')) F L ∅ ∅.
Proof using ListStoreLaws0.
  intros Hbuf Hdig Hp El Hc Hel Hn Hr. pose proof (link_kernel_result (p_objects p) (c_inputs p Hp)) as Hl. rewrite El in Hl.
  destruct (boot_result p l Hp Hl c frame x0 r m u b waker cfg ctlr rest Hc Hel) as (t & b' & E & [(m2 & map & F & L & Hst & Hm2) _ Hview _ Htab Hkept _ _]).
  destruct (table_place p l Hp Hl) as (T1 & T2 & _). destruct (stack_place p l Hl n Hn Hr) as (K1 & K2 & _). destruct (c_bins p Hp) as [Hl3 _].
  destruct (booted_system c _ _ _ _ b' map F L Hl3 Hst) as [Hok _]. set (s0 := System (b_kernel b') app_programs) in *.
  assert (Hstk : stack_ok (stack_pointer l n) (Kernel.ram (b_kernel b'))).
  { apply (stack_kept _ _ _ (st_mapped _ _ _ _ _ _ _ _ _ Hst)). by apply (stack_usable p l Hl). }
  exists app_programs, t, b', F, L. split; [rewrite sequence_main_result, primes_main_result, checksum_main_result by done; reflexivity|]. split; [exact E|]. split.
  - exact (confined_can_finish t (image_of l) Hview _ _ (conj T1 T2) (conj K1 K2) _ s0 Hok Hstk programs_log_bytes eq_refl).
  - intros ls o s' Hrun. destruct (confined_run_kept t (image_of l) Hview _ _ (conj T1 T2) (conj K1 K2) s0 ls o s' Hok Hrun) as (Hhw & _ & Hx & _).
    assert (Hun : forall x, PHYS_OFFSET <= x < physical (v_bss_start l) \/ table_byte (boot_statics p l) x -> Kernel.ram (core s') !! linear x = Kernel.ram (b_kernel b') !! linear x).
    { intros x Hxr. destruct (untouched p l Hp Hl n x Hn Hr Hxr) as [Ha Hw]. by apply Hx. }
    split; [exact (started_runs (task_table p l) (stack_pointer l n) (conj T1 T2) (conj K1 K2) _ _ _ _ _ b' map F L ls o s' Hl3 Hst Hhw)|]. split; [|split].
    + intros x Hxr. rewrite Hun by (by left). by apply Hkept.
    + intros a Ha. rewrite <- (Htab a Ha). apply load64_agree. intros x Hxa. rewrite <- (linear_physical x). apply Hun. right. exists a. split; [done|]. unfold physical, linear in *. lia.
    + apply (heap_inv_ram F _ F L _ (st_heap _ _ _ _ _ _ _ _ _ Hst)). intros a k. exact (confined_run_mapped t (image_of l) Hview _ _ (conj T1 T2) (conj K1 K2) s0 ls o s' a k Hok Hrun).
Qed.

End properties.

(** ** Instance *)

(** The arrays of [mmu.c] in the small kernel of [Layout.v]. *)
Definition sample_program : kernel_program :=
  KernelProgram sample_objects payload_bytes 2 (0%nat, 0) (0%nat, 8) 1 (Statics 0 0x1000 0x2000 0x3000) 0x49000 (2%nat, 0) (0%nat, 0x5c) (0%nat, 0x60) (1%nat, 0).

Lemma sample_arrays_apart : objects_apart (mmu_objects (Statics 0 0x1000 0x2000 0x3000) 0x49000).
Proof.
  intros n n' a b Hne Ha Hb. unfold mmu_objects in Ha, Hb. cbn [swapper_pg_dir idmap_pg_dir user_pg_dir early_pgtables] in Ha, Hb. change (EARLY_PGTABLES * 4096) with 0x46000 in *.
  do 5 (destruct n as [|n]; [injection Ha as <-; do 5 (destruct n' as [|n']; [injection Hb as <-; cbn [fst snd]; first [done|lia]|]); done|]). done.
Qed.

Lemma sample_compiled : compiled sample_program.
Proof.
  split; cbn [p_objects p_bins p_apps p_message p_fdt_pointer p_mmu p_arrays p_used p_tasks p_branch p_switched p_vectors sample_program].
  - exact sample_objects_ok.
  - split; [reflexivity|]. unfold payload_bytes, APP_IMAGE_SIZE. repeat (apply Forall_cons; split; [split; [by repeat constructor|cbn [length]; lia]|]). by apply Forall_nil.
  - reflexivity.
  - eexists. split; [reflexivity|]. cbn [fst snd in_size]. split; [lia|]. by vm_compute.
  - eexists. split; [reflexivity|]. cbn [fst snd in_size]. lia.
  - eexists. split; [reflexivity|]. cbn [fst snd in_size]. unfold sizeof_task_struct. lia.
  - done.
  - eexists. split; [reflexivity|]. split; [reflexivity|]. split; [|split; [|exact sample_arrays_apart]].
    + cbn [swapper_pg_dir idmap_pg_dir user_pg_dir early_pgtables]. change PAGE_SIZE with 4096. repeat (apply Forall_cons; split; [by apply Z.mod_divide|]). by apply Forall_nil.
    + unfold mmu_objects. cbn [swapper_pg_dir idmap_pg_dir user_pg_dir early_pgtables in_size]. change (EARLY_PGTABLES * 4096) with 0x46000.
      repeat (apply Forall_cons; split; [cbn [fst snd]; lia|]). by apply Forall_nil.
  - split; (eexists; split; [reflexivity|]; cbn [fst snd in_size]; lia).
  - split; [eexists; split; [reflexivity|]; cbn [fst snd in_size]; lia|]. split; [by exists 0|]. by eexists.
Qed.

(** RAM of one value, with the message, the payloads and a device tree. *)
Definition sample_physical : mem :=
  write sample_fdt sample_blob (write 0x40086020 (concat payload_bytes) (write 0x40085000 (unsupported_text ++ [0]) (gset_to_gmap 0xaa (rng PHYS_OFFSET (PHYS_OFFSET + RAM_SIZE))))).

Lemma sample_loaded : loaded sample_program sample_layout sample_physical.
Proof.
  split.
  - unfold sample_physical. apply mapped_write, mapped_write, mapped_write. intros x Hx. exists 0xaa. apply lookup_gset_to_gmap_Some. split; [|reflexivity]. by apply elem_of_rng.
  - unfold sample_physical. apply mem_ok_write; [apply mem_ok_write; [apply mem_ok_write|]|].
    + intros x v Hv. apply lookup_gset_to_gmap_Some in Hv as [_ <-]. unfold is_byte. lia.
    + apply Forall_forall. intros b Hb. apply list_elem_of_In in Hb. revert b Hb. apply List.Forall_forall. vm_compute. repeat constructor; done.
    + by repeat constructor.
    + by repeat constructor.
  - change (unsupported_message (boot_symbols sample_program sample_layout)) with 0x40085000. unfold sample_physical.
    apply bytes_at_write; [|apply bytes_at_write; [|apply bytes_at_written]]; change (length (unsupported_text ++ [0])) with 28%nat; unfold sample_fdt; lia.
  - change (physical (symbol_address (rodata_places sample_layout) (p_apps sample_program, 0))) with 0x40086020. change (p_bins sample_program) with payload_bytes.
    unfold sample_physical. apply bytes_at_write; [|apply bytes_at_written]. change (length (concat payload_bytes)) with 6%nat. unfold sample_fdt. lia.
Qed.

Lemma sample_dtb : dtb_size (linear_view sample_physical) sample_fdt = 0x10000.
Proof.
  assert (Hb : bytes_at sample_physical sample_fdt sample_blob) by (unfold sample_physical; apply bytes_at_written).
  assert (E : forall o : nat, (o + 4 <= 8)%nat -> dtb_word (linear_view sample_physical) (sample_fdt + o) = be (take 4 (drop o sample_blob))).
  { intros o Ho. assert (Hl : length (take 4 (drop o sample_blob)) = 4%nat) by (rewrite length_take, length_drop; change (length sample_blob) with 8%nat; lia).
    unfold dtb_word. rewrite linear_va by (unfold in_ram, sample_fdt, PHYS_OFFSET, RAM_SIZE; lia). rewrite linear_load. rewrite <- Hl at 1. by rewrite (load_bytes _ _ _ (bytes_at_sub _ _ _ o 4 Hb)). }
  pose proof (E 0%nat ltac:(lia)) as E0. rewrite Z.add_0_r in E0. pose proof (E 4%nat ltac:(lia)) as E4. change (sample_fdt + 4%nat) with (sample_fdt + 4) in E4.
  unfold dtb_size, dtb_here. rewrite E0, E4. reflexivity.
Qed.

Lemma sample_conditions : boot_conditions sample_program sample_layout boot_cpu sample_fdt sample_physical reset 6 0x20000000 0x10 [].
Proof.
  split.
  - exact sample_loaded.
  - destruct reset_ok as [Hm Hl Ha Hpa _ _]. split; [exact Hm|exact Hl|exact Ha|exact Hpa|reflexivity|reflexivity].
  - unfold is_u64, sample_fdt. lia.
  - right. change (physical (v_bss_stop sample_layout)) with 0x400d23d0. unfold sample_fdt. lia.
  - rewrite sample_dtb. lia.
  - exact boot_reads_ok.
  - cbn. lia.
Qed.

Definition reset_regs : sysregs := SysRegs 0 0 0 0 0xc5183d.

Lemma reset_boots_the_kernel_witness : exists t b',
  _start sample_program sample_layout boot_cpu 16 sample_fdt reset_regs sample_physical (Uart [] []) reset = Some (inl (inl 0, t, b')) /\
  booted sample_program sample_layout boot_cpu sample_fdt reset_regs sample_physical reset t b'.
Proof.
  destruct (reset_boots_the_kernel sample_program sample_layout boot_cpu 16 sample_fdt reset_regs sample_physical (Uart [] []) reset 6 0x20000000 0x10 []
    sample_compiled sample_link sample_conditions) as [H _]. exact (H eq_refl).
Defined.

Lemma reset_runs_to_the_end_witness : exists ps t b' ls s',
  _start sample_program sample_layout boot_cpu 16 sample_fdt reset_regs sample_physical (Uart [] []) reset = Some (inl (inl 0, t, b')) /\
  confined_run t (task_table sample_program sample_layout) (stack_pointer sample_layout 64) (System (b_kernel b') ps) ls (Some Idle) s' /\
  exit_code <$> tasks (core s') = [0; 0; 0].
Proof.
  destruct (reset_runs_to_the_end sample_program sample_layout boot_cpu 16 sample_fdt reset_regs sample_physical (Uart [] []) reset 6 0x20000000 0x10 []
    (fun _ => replicate 96 0) (fun _ => replicate 20 0) 64 (fun _ => eq_refl) (fun _ => eq_refl) sample_compiled sample_link sample_conditions eq_refl)
    as (ps & t & b' & F & L & _ & E & (ls & s' & Hrun) & Hall).
  - by exists 4.
  - unfold STACK_SIZE, S_FRAME_SIZE. lia.
  - exists ps, t, b', ls, s'. split; [exact E|]. split; [exact Hrun|]. destruct (Hall ls (Some Idle) s' Hrun) as [(_ & _ & _ & _ & _ & Hx) _]. exact Hx.
Defined.
